(* ===== verification/_CoqProject ===== *)
-Q . S2P
Prelude.v
Go.v
GoStrings.v
Endian.v
CLayout.v
Csum.v
Helpers.v
RefHelpers.v
CTypes.v
VmPacket.v
VmSock.v
VmNetns.v
VmTask.v
VmEnums.v
Packet.v
Samples.v
NetHelpers.v
Arp.v
Dnat.v
Snat.v
Tproxy.v
Getsockopt.v
Sock.v
Chain.v
MapDefs.v
Abi.v
Control.v
Datapath.v
Registry.v
PortAlloc.v
StatusStore.v
Node.v
Reconciler.v
Checkpoint.v
Ports.v
Cni.v
Tick.v
Platform.v
CpDb.v
CpFlavors.v
CpSamples.v
Authz.v
Paths.v
Versions.v
Instances.v
Reports.v
Pages.v
Slots.v
Goroutines.v
Cluster.v
Lifecycle.v
Cri.v
WorkloadSvc.v
Pods.v
Tar.v
Builds.v
BuildRuns.v
ImageFiles.v
Publish.v
