(* ===== verification/Prelude.v ===== *)
(** * Explorer: a verification library

    Explorer hosts Minecraft servers as containers.  The control plane
    ([src/controlplane]) keeps chunks, their flavors and versions, nodes and
    instances in a database; users publish the files of a flavor with the command
    line ([src/cli]), and workers ([src/controlplane/worker]) build the image and
    the checkpoint of a version.  On every node, platformd ([src/platformd]) asks
    the control plane for the instances of the node and reports what became of
    them; it creates and removes their workloads through the container runtime
    and gives each a host port; the CNI plugin ([src/cni]) connects a new
    container to the network; both use [src/internal/datapath/objects.go] to
    configure, through pinned maps, a set of eBPF programs
    ([src/internal/datapath/bpf]) that move the packets:

    - [dnat.c] on the host's network interface delivers connections to a host
      port to the workload registered for it;
    - [snat.c] and [arp.c] on the ingress of a workload's host-side interface:
      the first gives the server's replies the host's address and port, the
      second answers the workload's ARP requests;
    - [tproxy.c] diverts the other outgoing traffic of a workload to a proxy on
      its host ([ctr_peer_egress]), gives the proxy's replies the original
      destination as their source ([host_peer_egress]) and tells the proxy that
      destination ([getsockopt], [SO_ORIGINAL_DST]);
    - [sock.c] cuts a container's connections before it is checkpointed.

    ** Files

    - [Prelude]: bytes, windows of byte lists ([slice], [splice]), tactics, hint
      databases.
    - [Go]: the monad [GoM] of Go code with a state: a call returns a value, an
      error or panics; [GoStrings]: functions of the package [strings].
    - [Endian]: integers at their width, their bytes for both byte orders, and
      the macros of [include/bpf/bpf_endian.h].  All programs are parameterised
      by the byte order [e], since they are built for both.
    - [CLayout]: a syntax of C types with the layout rules of the ABI
      ([sizeof], [alignof], [off]) and their soundness; [CTypes], [VmPacket],
      [VmSock], [VmNetns], [VmTask], [VmEnums]: the types of [include/types.h]
      and the types and enumerations of [include/vmlinux.h] that the programs
      depend on, transitively.
    - [Csum]: the Internet checksum and its incremental update; [Packet]: the
      fields of a frame and the validity of its checksums, for specifications.
    - [Helpers]: the interface to the kernel.  A class [BpfHelpers] has a field
      per helper of [include/bpf/bpf_helper_defs.h] that is called;
      [BpfHelperLaws] states what the comments there promise and
      [BpfHelpersSucceed] that calls inside their contract succeed.  Programs
      run in the monad [M] over a [state]: the packet, the maps, the calls made,
      and a generation of packet pointers, so that an access outside the checked
      window or through a pointer that a helper invalidated is a fault ([None]).
      [wp] is its weakest precondition.  [RefHelpers] is an executable instance
      that satisfies all laws; [Samples] holds concrete frames.
    - [NetHelpers]: [lib/net_helpers.h]; [Arp], [Dnat], [Snat], [Tproxy],
      [Getsockopt], [Sock]: one file per program ([Getsockopt] is the third
      program of [tproxy.c]), each definition with the name of its C function.
    - [Chain]: the tc programs together: safety and program chains.
    - [MapDefs]: the map declarations, the C structs of their values and the Go
      structs that bpf2go generated for them; [Control]: the map operations of
      [objects.go] and [cni/handler.go] in a monad with errors and panics, over
      a class [KMaps] of kernel hash maps with the documented laws.
    - [Abi]: the layouts and numbers shared with the kernel.
    - [Datapath]: programs and control operations as the steps of one transition
      system over the maps ([dp_step], [reachable]).
    - [Registry]: the abstract view of the maps: the registered workloads by host
      port, together with what ADDs that stopped between two map writes and the
      DELs after them have left ([fleet]), with ADD up to any of its map writes,
      DEL and the programs as its steps ([sys_step], [sys_reachable], the
      relation [represents]).
    - [PortAlloc], [StatusStore], [Node], [Reconciler], [Checkpoint], [Ports],
      [Tick]: platformd.  The port allocator ([workload/port_allocator.go]); the
      status store ([status]) in a heap with its pointers, behind the class
      [StatusStoreLaws]; what the goroutines share, and goroutines as trees of
      atomic operations ([gor]), with the interfaces they call as classes
      ([WorkloadService], [Env]); the reconciler ([reconciler.go]); checkpoint
      jobs and the garbage collector ([checkpoint/service.go], with
      [internal/datapath/sock_handler.go]); all of them in all interleavings
      ([plat_step]); the reporting and clean-up part of [tick].
    - [Cni]: the commands ADD and DEL of [cni/cni.go] with their clean-up on
      errors, over a class [CniHost] of what they ask the host.
    - [Platform]: platformd and CNI plugin together.
    - [CpDb], [CpFlavors], [CpSamples]: the database of the control plane.
      Tables are maps of rows; a call of the repository ([CpM]) sends named
      statements, any of which the environment [CpEnv] may let fail, and
      transactions and batches roll back as PostgreSQL and pgx document it
      ([controlplane/postgres/db.go], [query/batch.go]).  A request is a tree of
      such calls ([handler]), so that requests can be interleaved between them.
      [CpFlavors] has [postgres/flavor.go] and [postgres/authz.go].
    - [Authz]: [controlplane/authz]; [Paths]: the check of file paths, with the
      functions of Go's [path/filepath] that it calls; [Versions]: creating
      flavors and versions ([controlplane/chunk/flavor.go]).
    - [Instances]: the instance service ([controlplane/instance],
      [postgres/instance.go], [postgres/node.go], [controlplane/pagination],
      [resource/codec/instance.go]); [Reports], [Pages], [Slots]: what is proved
      of its reports, of its lists, and of concurrent requests.
    - [Goroutines]: the goroutines of one round of the reconciler under every
      schedule; [Cluster]: the whole of [tick] against the instance service, with
      the calls of [StopWorkload] that the monitors make before and after the
      goroutines run and between report and clean-up ([stops]); [Lifecycle]: any
      number of rounds.
    - [Cri]: the container runtime as tables of pods, containers, images and log
      directories ([view]), programs that call it ([prog]), what each call does
      and may answer (the classes [Runtime] and [RuntimeLaws], with an executable
      instance), a rely-guarantee judgement [rg] for programs amid the calls of
      others, and [platformd/cri/service.go]; [WorkloadSvc]: the workload service
      ([workload/service.go]); [Pods]: this service in the place of the interface
      that the reconciler was verified against.
    - [Tar]: the archives of [internal/tarhelper]; [Builds]:
      [BuildFlavorVersion], the workers and the queue of jobs; [BuildRuns]: what
      they do to jobs and statuses over whole runs; [ImageFiles]: the files that
      an image gets; [Publish]: the command [publish] ([cli/cmd/publish]).

    ** What the theorems show

    - Each program's effect on every branch: the verdict, the helper calls that
      matter outside, every field of the resulting packet, the maps, and the
      validity of the IPv4 checksum ([dnat_delivers], [dnat_passes],
      [snat_translates], [snat_passes], [arp_answers], [arp_passes],
      [ctr_peer_egress_proxies], [ctr_peer_egress_other],
      [host_peer_egress_restores], [getsockopt_behaviour]).  They hold for every
      implementation of the helpers that satisfies the laws.
    - Safety without any assumption on the helpers ([tc_programs_safe]) and
      independence of the attachment order ([ingress_chain]).
    - End-to-end properties across components: a client session through the NAT
      is transparent ([nat_session_transparent]); a proxied connection comes back
      under the address it was opened to ([tproxy_roundtrip]) and the proxy learns
      that address ([original_dst_roundtrip]).
    - Properties of every reachable state of the datapath: the values in the maps
      have the types the programs read and all five maps stay within their
      capacities ([reachable_type_safe]); ADD, stopped after any of its map writes
      or complete, and DEL change the maps as they change the registry with its
      leftovers, and the programs change none of it ([maps_implement_registry]); a
      port leads to the workload it was registered for and to no other, if the
      index of its interface fits into eight bits ([workload_isolation]).
    - platformd: in every interleaving of reconciler goroutines, checkpoint jobs,
      collector and API calls, running workloads and checkpoint jobs are on
      different ports ([host_ports_exclusive]); a workload that cannot be started
      is given up after at most five starts ([creation_given_up]); a checkpoint
      job always ends with a status, having cut the connections of the container
      before it is written to a file ([checkpoint_outcome]), and its port comes
      back ([checkpoint_port_returned]); the store with its shared pointers
      behaves as a table of values ([status_store_refines]); an allocation ends
      after five draws ([allocate_terminates]).
    - The control plane: new versions of a flavor and the difference that is
      uploaded ([version_created]), the paths that are allowed
      ([paths_contained]), who may change what ([access_exact]), lists page by
      page while the table changes ([pages_complete]), status reports
      ([reports_applied]), and by how much concurrent requests overcommit a node
      ([slots_bounded]).
    - Builds: which job works on a version and how its status moves
      ([build_machine], for requests and attempts one after the other); from the
      user's directory to the image no file is lost
      ([publish_contents] up to the archive, [change_set_roundtrip] for the
      archive alone, [image_files_placed] from there on: what was last written to
      each path is the entry of the archive or the object fetched by its hash).
    - The workload service: starting and removing a workload amid the calls of
      others ([workload_started], [workload_removed]), and what the pod says of
      its instance ([metadata_roundtrip]).
    - Control plane and node together: the life of an instance from its row to
      its removal, under every schedule, every answer of the container runtime
      and every failure of the database, with workloads being stopped from their
      side and with the deletion that is dropped unreported
      ([instance_lifecycle]); and the pods and containers that the runtime has at
      each stage ([pods_follow_life]).
    - The CNI plugin: which result, error or panic ADD ends with and what it has
      registered and cleaned up then, in every case ([exec_add_outcome]), and its
      arguments ([parse_args_roundtrip]).
    - [destroy_tcp_exact] and [destroy_udp_exact]: the socket programs, reading
      kernel memory at the offsets of the struct layouts, destroy exactly the
      sockets that a specification over records selects.
    - Agreement of representations: byte order macros, the map values that Go
      writes and the members that C reads of them ([map_values_agree]), struct
      layouts, helper numbers.
    - Defects: [rewrite_port] calls the checksum helper outside its contract
      ([rewrite_port_csum_call], [rewrite_port_invalidates_l4]);
      [host_peer_egress] updates no checksum for the port
      ([host_peer_egress_invalidates_l4]); UDP traffic is treated as TCP by
      [ctr_peer_egress] ([ctr_udp_csum_offset]) and by [dnat]
      ([dnat_alters_udp_payload]); an ARP packet that is not a request is
      damaged ([arp_passes]); the key of [original_dst_map] keeps
      one octet of the address ([original_dst_key_collides]), which is also why
      the record stored under the host's address is found with the workload's;
      [AddNetData] may fail half-way ([add_net_data_partial]); the interface
      index is truncated to eight bits ([registered_port_delivered]).  Of
      platformd and the CNI plugin: an ADD that fails late leaves map entries
      that DEL does not find ([failed_add_leaves_entries]); deleting a workload
      does not free its port ([removal_keeps_port]), and the removal of one that
      could not be started, whose port was given away meanwhile, takes down the
      registration of another ([stale_port_removes_other]); a removal that fails
      once leaves a pod behind for good ([failed_removal_leaks_pod]); an exited
      server can count as healthy ([exited_server_healthy]); a pod without its
      container is never completed ([ensure_pod_incomplete]); a deletion that was
      not reported is dropped from the store ([tick_drops_reported]); the configured number of attempts
      is ignored in favour of five ([creation_given_up]); a checkpoint job that
      failed can be recorded as completed ([failed_checkpoint_completed]); the
      collector can stop the pod of a running job ([gc_stops_running_job]);
      stopping a workload by the id of a checkpoint panics
      ([wrong_kind_panics]).  Of the control plane: concurrent requests are given
      the same slot ([slots_bounded]); the owner of a resource that cannot be
      looked up is the zero user ([access_exact]); the last state of a deleted
      instance is not recorded, and one invalid report holds up the others
      ([reports_applied]); an archive can overwrite any file of the worker
      ([untar_overwrites]); a build whose last attempt times out is stuck
      ([timed_out_build_stuck]); two requests at the same time start two builds
      ([racing_requests_two_jobs]).  Of the command line: directories whose path
      has an excluded name are published empty ([excluded_flavor_empty]), an
      upload that is repeated for the oldest version panics
      ([oldest_upload_panics]), a version that is pending is only watched
      ([pending_only_watched]), names in an archive can collide
      ([archive_names_collide]), and a warning is wrong
      ([wrong_removal_warning]).

    ** Bounds and assumptions

    One definition has fuel: [concurrently] runs the goroutines of a round one
    operation at a time, with as much fuel as they can make operations together
    ([reconcile_ops] each, which [reconcile_bounded] shows to be enough), so that
    it never runs out.  Elsewhere none is needed: the eBPF programs have no loops,
    the allocator's loop is a recursion on the tries that are left, and handlers
    and goroutines are finite trees.  Packet theorems ask for
    the 52 bytes up to the end of the TCP checksum; header fields are at
    fixed offsets as in the code, so the checksum statements are about IPv4
    headers without options ([ip_ihl = 5]).  A checksum left to the device
    ([skb_csum_partial]) is not claimed to be valid.  [BpfHelpersSucceed] is
    assumed by the functional theorems only.  In the interleavings of
    platformd each call of the store and of the allocator, which hold their
    mutex, each read through a pointer and each access to the table of
    attempts is one step, although nothing protects that table in the code: what
    the runtime of Go does about two accesses at the same time is not modelled.
    Instances and checkpoints have different ids
    ([is_cp]), and a new checkpoint gets an id that is not in use.  In
    [instance_lifecycle] workloads are stopped before or after the goroutines of a
    round run, or between report and clean-up, not while the goroutines run, and
    requests to the control plane leave the row of the instance alone.  An ADD
    may stop after any of its map writes; the addresses and interfaces that it
    gets are not in use ([fresh_in]), and addresses are IPv4 in the 4-byte or the
    16-byte form of [net.IP].  In the
    control plane each call of the repository is one step; what an
    implementation of [CpEnv] is asked for is in [CpLaws] (rows come in some
    order, and ids that were parsed or generated are in standard form).  A commit that
    fails is taken to be rolled back.  Limits
    on the length of text columns count as failing statements.  A call of the
    workload service is one step of a goroutine of the reconciler; that its own
    calls may be interleaved with those for other workloads is what [rg] covers.
    What the runtime promises is in [RuntimeLaws]; what the queue of jobs promises
    is in [JobLaws] (a job with the same arguments that was not given up takes the
    place of a new one, and ids are new).  [build_machine] is about requests and
    attempts one after the other.  The loop that waits for a checkpoint is a
    recursion on the ticks until the job times out, any number of them.  File
    names are taken as ASCII, which Unicode normalisation leaves alone, in the
    examples only; [Norm] is a parameter.

    ** Not modelled

    The kernel itself (helpers, verifier, hash maps, the iteration over sockets),
    loading, attaching and pinning of programs, network devices, routes and
    IPAM; of platformd the RPC servers, the proxy and its configuration, and the
    timer of the reconciler; of the control plane chunks and thumbnails, users and
    tokens, the object store, the archive of deleted flavors, the sanitising of
    configuration files and the package that computes the hash over all files of a
    version; the libraries for images and queues behind the workers; of the
    command line everything but [publish], and of that its output, its HTTP
    requests and the loop that watches a build; the metadata and monitoring tools;
    vendored code. *)

From Stdlib Require Export ZArith Lia.
From Stdlib Require Import Strings.Byte.
From stdpp Require Export base list gmap strings numbers.

#[global] Open Scope Z_scope.

(** ** Hint databases of the development

    [list_len] normalises lengths of lists, [bytes] carries the range facts of
    machine integers, [wp] the facts that relate the states of a program run. *)

Create Rewrite HintDb list_len.
Create HintDb bytes.
Create HintDb wp.

(** [dlia] is [lia] with the equations of division and remainder. *)
Ltac dlia := zify; Z.to_euclidean_division_equations; lia.

(** ** Bytes *)

Abbreviation byte := Init.Byte.byte.

Definition byte_to_Z (b : byte) : Z := Z.of_N (Byte.to_N b).

Definition byte_of_Z (z : Z) : byte :=
  match Byte.of_N (Z.to_N (z mod 256)) with
  | Some b => b
  | None => Byte.x00
  end.

Lemma byte_to_Z_range (b : byte) : 0 <= byte_to_Z b < 256.
Proof.
  unfold byte_to_Z. pose proof (Byte.to_N_bounded b). lia.
Qed.

Lemma byte_to_of_Z (z : Z) : byte_to_Z (byte_of_Z z) = z mod 256.
Proof.
  unfold byte_to_Z, byte_of_Z.
  pose proof (Z.mod_pos_bound z 256 ltac:(lia)) as Hb.
  destruct (Byte.of_N (Z.to_N (z mod 256))) as [b|] eqn:E.
  - apply Byte.to_of_N in E. rewrite E. lia.
  - apply Byte.of_N_None_iff in E. lia.
Qed.

Lemma byte_to_Z_inj (a b : byte) : byte_to_Z a = byte_to_Z b -> a = b.
Proof.
  unfold byte_to_Z. intros H.
  assert (Byte.to_N a = Byte.to_N b) as E by lia.
  pose proof (Byte.of_to_N a) as Ha. pose proof (Byte.of_to_N b) as Hb.
  rewrite E in Ha. congruence.
Qed.

Lemma byte_of_to_Z (b : byte) : byte_of_Z (byte_to_Z b) = b.
Proof.
  apply byte_to_Z_inj. rewrite byte_to_of_Z.
  apply Z.mod_small, byte_to_Z_range.
Qed.

#[global] Instance byte_eq_dec : EqDecision byte := Byte.byte_eq_dec.

(** ** Slices of a byte buffer

    [slice off n l] reads [n] elements at [off]; [splice off new l] overwrites
    the elements at [off] with [new].  Both are used for packets, for socket
    option buffers and for kernel memory. *)

Definition slice {A} (off n : nat) (l : list A) : list A := take n (drop off l).

Definition splice {A} (off : nat) (new l : list A) : list A :=
  take off l ++ new ++ drop (off + length new) l.

Section slices.
Context {A : Type}.
Implicit Types l new : list A.
Local Open Scope nat_scope.

Lemma length_slice off n l : off + n <= length l -> length (slice off n l) = n.
Proof. unfold slice. rewrite length_take, length_drop. lia. Qed.

Lemma length_splice off new l :
  off + length new <= length l -> length (splice off new l) = length l.
Proof.
  unfold splice. rewrite !length_app, length_take, length_drop. lia.
Qed.

Lemma slice_app_split off n m l :
  slice off (n + m) l = slice off n l ++ slice (off + n) m l.
Proof.
  unfold slice. rewrite <-drop_drop, <-take_take_drop. done.
Qed.

Lemma drop_slice off l n :
  off + n <= length l -> drop off l = slice off n l ++ drop (off + n) l.
Proof.
  intros. unfold slice. rewrite <-drop_drop. symmetry. apply take_drop.
Qed.

Lemma slice_splice_same off new l :
  off + length new <= length l -> slice off (length new) (splice off new l) = new.
Proof.
  intros. unfold slice, splice.
  rewrite drop_app_ge by (rewrite length_take; lia).
  rewrite length_take. replace (off - off `min` length l) with 0 by lia.
  rewrite drop_0, take_app_le by lia. apply take_ge. lia.
Qed.

Lemma slice_splice_before off new l o n :
  off <= length l -> o + n <= off -> slice o n (splice off new l) = slice o n l.
Proof.
  intros. unfold slice, splice.
  rewrite drop_app_le by (rewrite length_take; lia).
  rewrite take_app_le by (rewrite length_drop, length_take; lia).
  rewrite <-(take_drop off l) at 2.
  rewrite drop_app_le by (rewrite length_take; lia).
  rewrite take_app_le by (rewrite length_drop, length_take; lia). done.
Qed.

Lemma drop_splice_after off new l o :
  off + length new <= length l -> off + length new <= o ->
  drop o (splice off new l) = drop o l.
Proof.
  intros. unfold splice.
  rewrite drop_app_ge by (rewrite length_take; lia).
  rewrite length_take, drop_app_ge by lia. rewrite drop_drop. f_equal. lia.
Qed.

Lemma slice_splice_after off new l o n :
  off + length new <= length l -> off + length new <= o ->
  slice o n (splice off new l) = slice o n l.
Proof. intros. unfold slice. by rewrite drop_splice_after. Qed.

Lemma splice_id off n l : off + n <= length l -> splice off (slice off n l) l = l.
Proof.
  intros. unfold splice. rewrite length_slice by done.
  rewrite <-drop_slice by done. apply take_drop.
Qed.

(** A buffer is determined by a window, what precedes it and what follows. *)
Lemma splice_decomp off n l :
  off + n <= length l -> l = take off l ++ slice off n l ++ drop (off + n) l.
Proof. intros. rewrite <-drop_slice by done. by rewrite take_drop. Qed.

Lemma slice_slice o n o' n' l :
  o' + n' <= n -> slice o' n' (slice o n l) = slice (o + o') n' l.
Proof.
  intros. unfold slice. rewrite <-drop_drop.
  rewrite !skipn_firstn_comm, firstn_firstn. f_equal. lia.
Qed.
End slices.

Lemma slice_splice_eq {A} (o n : nat) (new l : list A) :
  n = length new -> (o + n <= length l)%nat -> slice o n (splice o new l) = new.
Proof. intros -> ?. by apply slice_splice_same. Qed.

(** [slen] decides (in)equalities about lengths of nested splices; [slices]
    pushes a slice through the splices it meets. *)
Ltac slen :=
  repeat first
    [ rewrite length_splice by slen
    | rewrite length_slice by slen
    | rewrite length_replicate
    | progress autorewrite with list_len ];
  simpl length; try lia.

Ltac slices :=
  repeat first
    [ rewrite slice_splice_eq by slen
    | rewrite slice_splice_before by slen
    | rewrite slice_splice_after by slen
    | rewrite drop_splice_after by slen ].

(** [Z.to_nat] of a numeral *)
Ltac norm_nats :=
  repeat match goal with
  | |- context [Z.to_nat (Zpos ?p)] =>
      let v := eval vm_compute in (Z.to_nat (Zpos p)) in
      change (Z.to_nat (Zpos p)) with v
  | H : context [Z.to_nat (Zpos ?p)] |- _ =>
      let v := eval vm_compute in (Z.to_nat (Zpos p)) in
      change (Z.to_nat (Zpos p)) with v in H
  | |- context [Z.to_nat 0] => change (Z.to_nat 0) with O
  | H : context [Z.to_nat 0] |- _ => change (Z.to_nat 0) with O in H
  end.

(** ** Step relations *)

(** A property that every step preserves holds in every state reached. *)
Lemma rtc_preserves {A} (R : relation A) (P : A -> Prop) :
  (forall x y, R x y -> P x -> P y) -> forall x y, rtc R x y -> P x -> P y.
Proof. intros Hstep x y. induction 1; eauto. Qed.

(** ** Counting the entries of a map *)

Section counting.
Context `{Countable K} {V : Type} (P : V -> Prop) `{!forall v, Decision (P v)}.
Implicit Types m : gmap K V.
Local Open Scope nat_scope.

Definition count_map m : nat := length (filter P (map_to_list m).*2).

Definition counted (v : V) : nat := if decide (P v) then 1 else 0.

Lemma count_map_empty : count_map ∅ = 0.
Proof. unfold count_map. by rewrite map_to_list_empty. Qed.

Lemma count_map_insert m k v : m !! k = None -> count_map (<[k := v]> m) = counted v + count_map m.
Proof.
  intros Hk. unfold count_map, counted. rewrite (map_to_list_insert m k v Hk). cbn [fmap list_fmap snd].
  rewrite filter_cons. by destruct (decide (P v)).
Qed.

Lemma count_map_delete m k v : m !! k = Some v -> count_map m = counted v + count_map (delete k m).
Proof.
  intros Hk. rewrite <-(insert_delete_id m k v Hk) at 1.
  apply count_map_insert, lookup_delete_eq.
Qed.

Lemma count_map_replace m k v v' :
  m !! k = Some v -> count_map (<[k := v']> m) + counted v = counted v' + count_map m.
Proof.
  intros Hk. rewrite (count_map_delete m k v Hk), <-insert_delete_eq, count_map_insert
    by apply lookup_delete_eq. lia.
Qed.

Lemma count_map_size m : count_map m <= size m.
Proof.
  unfold count_map. etrans; [apply length_filter|]. by rewrite length_fmap, length_map_to_list.
Qed.

(** If every entry of [m'] comes from one of [m] that counts at least as much. *)
Lemma count_map_mono m' : forall m,
  (forall k v', m' !! k = Some v' -> exists v, m !! k = Some v /\ (P v' -> P v)) ->
  count_map m' <= count_map m.
Proof.
  induction m' as [|k v' m' Hk IH] using map_ind; intros m Hs; [rewrite count_map_empty; lia|].
  destruct (Hs k v') as (v & Hv & HP); [by rewrite lookup_insert_eq|].
  rewrite count_map_insert, (count_map_delete m k v) by done. apply Nat.add_le_mono.
  - unfold counted. destruct (decide (P v')), (decide (P v)); [lia|tauto|lia..].
  - apply IH. intros j w Hj. assert (j <> k) as Hne by congruence.
    rewrite lookup_delete_ne by done. apply Hs. by rewrite lookup_insert_ne.
Qed.
End counting.
