(* ===== verification/Go.v ===== *)
(** * Go: outcomes of calls and operations over a shared state

    A Go function that returns an error ends in [Ok] or [Err]; a nil
    dereference, a slice too short or a library call outside its contract ends
    in [Panic].  Operations run in [GoM]: what they did before an error or a
    panic stays done. *)

From S2P Require Import Prelude.

Inductive outcome (A : Type) :=
| Ok (a : A)
| Err (msg : string)
| Panic.
Arguments Ok {A} a.
Arguments Err {A} msg.
Arguments Panic {A}.

Definition GoM (S A : Type) : Type := S -> outcome A * S.

#[global] Instance GoM_ret {S} : MRet (GoM S) := fun A a s => (Ok a, s).
#[global] Instance GoM_bind {S} : MBind (GoM S) := fun A B f g s =>
  match g s with
  | (Ok a, s') => f a s'
  | (Err msg, s') => (Err msg, s')
  | (Panic, s') => (Panic, s')
  end.

(** Reading and writing the state, and returning an error. *)
Definition get {S} : GoM S S := fun s => (Ok s, s).
Definition put {S} (s : S) : GoM S unit := fun _ => (Ok tt, s).
Definition fail {S A} (msg : string) : GoM S A := fun s => (Err msg, s).

(** A pure computation that panics on [None]. *)
Definition must {S A} (o : option A) : GoM S A := fun s =>
  match o with Some a => (Ok a, s) | None => (Panic, s) end.

Lemma GoM_bind_ok {S A B} (g : GoM S A) (f : A -> GoM S B) s a s' :
  g s = (Ok a, s') -> (g ≫= f) s = f a s'.
Proof. unfold mbind, GoM_bind. by intros ->. Qed.

Lemma GoM_bind_assoc {S A B T} (g : GoM S A) (f : A -> GoM S B) (h : B -> GoM S T) s :
  ((g ≫= f) ≫= h) s = (g ≫= (fun a => f a ≫= h)) s.
Proof. unfold mbind, GoM_bind. by destruct (g s) as [[a|msg|] s']. Qed.

Lemma GoM_bind_ret {S A B} (a : A) (f : A -> GoM S B) s : (mret a ≫= f) s = f a s.
Proof. done. Qed.

(** ** Invariants of operations *)

(** Whatever the outcome of [g], it keeps [I], and a result satisfies [R]. *)
Definition GoM_inv {S A} (I : S -> Prop) (R : A -> Prop) (g : GoM S A) : Prop :=
  forall s, I s -> I (g s).2 /\ forall a, (g s).1 = Ok a -> R a.

Section inv.
Context {S : Type} (I : S -> Prop).

Lemma GoM_inv_bind {A B} (R : A -> Prop) (Q : B -> Prop) (g : GoM S A) (f : A -> GoM S B) :
  GoM_inv I R g -> (forall a, R a -> GoM_inv I Q (f a)) -> GoM_inv I Q (g ≫= f).
Proof.
  intros Hg Hf s Hs. destruct (Hg s Hs) as [Hi Hr]. unfold mbind, GoM_bind.
  destruct (g s) as [[a|msg|] s']; [|by split..]. exact (Hf a (Hr a eq_refl) s' Hi).
Qed.

Lemma GoM_inv_seq {A B} (Q : B -> Prop) (g : GoM S A) (f : A -> GoM S B) :
  GoM_inv I (fun _ => True) g -> (forall a, GoM_inv I Q (f a)) -> GoM_inv I Q (g ≫= f).
Proof. intros Hg Hf. eapply GoM_inv_bind; [exact Hg|]. auto. Qed.

Lemma GoM_inv_must {A} (o : option A) : GoM_inv I (fun a => o = Some a) (must o).
Proof. intros s Hs. unfold must. destruct o; split; try done. cbn. by intros a' [= ->]. Qed.
End inv.
