(* ===== verification/GoStrings.v ===== *)
(** * Strings in Go

    The functions of the [strings] package that the code uses, on ASCII. *)

From Stdlib Require Import Ascii.
From S2P Require Import Prelude.

#[local] Arguments Ascii.eqb _ _ : simpl never.
#[local] Arguments String.append !_ _ : simpl nomatch.

(** [strings.Split] with a separator of one character *)
Fixpoint split_on (sep : ascii) (s : string) : list string :=
  match s with
  | EmptyString => [""]
  | String c s' =>
      if Ascii.eqb c sep then "" :: split_on sep s'
      else match split_on sep s' with
           | x :: xs => String c x :: xs
           | [] => [String c ""]
           end
  end.

Fixpoint lacks (c : ascii) (s : string) : bool :=
  match s with
  | EmptyString => true
  | String d s' => negb (Ascii.eqb d c) && lacks c s'
  end.

(** Pieces with a separator between them. *)
Fixpoint join (sep : ascii) (l : list string) : string :=
  match l with
  | [] => ""
  | [x] => x
  | x :: l => x +:+ String sep (join sep l)
  end.

Lemma split_on_cons sep s : exists x xs, split_on sep s = x :: xs.
Proof.
  induction s as [|c s IH]; cbn; [eauto|]. destruct (Ascii.eqb c sep); [eauto|].
  destruct IH as (x & xs & ->). eauto.
Qed.

Lemma split_on_lacks sep s : lacks sep s = true -> split_on sep s = [s].
Proof.
  induction s as [|c s IH]; cbn; [done|]. intros [Hc Hs]%andb_prop.
  apply negb_true_iff in Hc. by rewrite Hc, IH.
Qed.

Lemma split_on_app sep a b :
  lacks sep a = true -> split_on sep (a +:+ String sep b) = a :: split_on sep b.
Proof.
  induction a as [|c a IH]; cbn; [by rewrite Ascii.eqb_refl|]. intros [Hc Hs]%andb_prop.
  apply negb_true_iff in Hc. by rewrite Hc, IH.
Qed.

Lemma split_join sep l :
  l <> [] -> Forall (fun x => lacks sep x = true) l -> split_on sep (join sep l) = l.
Proof.
  induction l as [|x [|y l] IH]; intros Hne Hl; [done|..].
  - apply Forall_cons_1 in Hl as [Hx _]. cbn [join]. by apply split_on_lacks.
  - apply Forall_cons_1 in Hl as [Hx Hl].
    change (join sep (x :: y :: l)) with (x +:+ String sep (join sep (y :: l))).
    rewrite split_on_app by done. by rewrite IH.
Qed.

Lemma join_split sep s :
  join sep (split_on sep s) = s /\ Forall (fun x => lacks sep x = true) (split_on sep s).
Proof.
  induction s as [|c s [IH1 IH2]]; cbn; [by repeat constructor|].
  destruct (split_on_cons sep s) as (x & xs & E). rewrite E in *.
  destruct (Ascii.eqb_spec c sep) as [-> |Hc].
  - split; [|by constructor]. cbn. cbn in IH1. by rewrite IH1.
  - apply Forall_cons_1 in IH2 as [Hx Hxs]. split.
    + destruct xs; cbn in *; by rewrite <-IH1.
    + constructor; [|done]. cbn. apply Ascii.eqb_neq in Hc. by rewrite Hc, Hx.
Qed.

Lemma lacks_app c a b : lacks c (a +:+ b) = lacks c a && lacks c b.
Proof. induction a as [|d a IH]; cbn; [done|]. rewrite IH. by rewrite andb_assoc. Qed.

(** [strings.HasPrefix] *)
Fixpoint HasPrefix (s prefix : string) {struct prefix} : bool :=
  match prefix, s with
  | "", _ => true
  | String a prefix, String b s => Ascii.eqb a b && HasPrefix s prefix
  | String _ _, "" => false
  end.

Lemma HasPrefix_app p s : HasPrefix s p = true <-> exists rest, s = p +:+ rest.
Proof.
  revert s. induction p as [|a p IH]; intros s.
  - split; [by exists s|done].
  - destruct s as [|b s]; cbn [HasPrefix]; [split; [done|by intros [rest ?]]|].
    rewrite andb_true_iff, Ascii.eqb_eq, IH. split.
    + intros [-> [rest ->]]. by exists rest.
    + intros [rest E]. injection E as -> ->. eauto.
Qed.

(** [strings.Contains] *)
Fixpoint Contains (s substr : string) : bool :=
  HasPrefix s substr || match s with "" => false | String _ s => Contains s substr end.

(** [strings.ReplaceAll] of one character by another *)
Fixpoint replace_char (old new : ascii) (s : string) : string :=
  match s with
  | "" => ""
  | String c s => String (if Ascii.eqb c old then new else c) (replace_char old new s)
  end.

Lemma append_assoc a b c : (a +:+ b) +:+ c = a +:+ b +:+ c.
Proof. induction a as [|x a IH]; [done|]. cbn. by rewrite IH. Qed.

Lemma Contains_infix a s b : Contains (a +:+ s +:+ b) s = true.
Proof.
  assert (HasPrefix (s +:+ b) s = true) as Hp by (apply HasPrefix_app; eauto).
  induction a as [|c a IH]; cbn.
  - destruct (s +:+ b) eqn:E; cbn; by rewrite Hp.
  - by rewrite IH, orb_true_r.
Qed.

Lemma lacks_replace_char old new s : old <> new -> lacks old (replace_char old new s) = true.
Proof.
  intros Hne. induction s as [|c s IH]; cbn; [done|]. rewrite IH, andb_true_r, negb_true_iff.
  apply Ascii.eqb_neq. destruct (Ascii.eqb_spec c old); congruence.
Qed.

(** The rest of a string. *)
Fixpoint skip (n : nat) (s : string) : string :=
  match n, s with S n, String _ s => skip n s | _, _ => s end.

(** [strings.Replace] of the first occurrence by nothing *)
Fixpoint remove_first (s old : string) : string :=
  if HasPrefix s old then skip (String.length old) s
  else match s with "" => "" | String c s => String c (remove_first s old) end.

Lemma skip_app p s : skip (String.length p) (p +:+ s) = s.
Proof. induction p as [|c p IH]; [done|]. exact IH. Qed.

(** A prefix is the first occurrence. *)
Lemma remove_first_prefix p s : remove_first (p +:+ s) p = s.
Proof.
  assert (HasPrefix (p +:+ s) p = true) as Hp by (apply HasPrefix_app; eauto).
  transitivity (skip (String.length p) (p +:+ s)); [|apply skip_app].
  destruct (p +:+ s); cbn [remove_first]; by rewrite Hp.
Qed.
