(* ===== verification/Endian.v ===== *)
(** * Machine integers and byte order

    The integer types of [include/types.h], the conversion between integers
    and their bytes in memory for both byte orders the programs are compiled
    for ([bpfel] and [bpfeb]), and the byte-swapping macros of
    [include/bpf/bpf_endian.h]. *)

From S2P Require Import Prelude.

(** ** Integers at their width *)

(** Conversion of a value to an unsigned type of [w] bits. *)
Definition wrap (w z : Z) : Z := z mod 2 ^ w.

(** Conversions to the unsigned types of [types.h]. *)
Definition cast_u8 (z : Z) : Z := wrap 8 z.
Definition cast_u16 (z : Z) : Z := wrap 16 z.
Definition cast_u32 (z : Z) : Z := wrap 32 z.
Definition cast_u64 (z : Z) : Z := wrap 64 z.

Lemma wrap_range w z : 0 <= w -> 0 <= wrap w z < 2 ^ w.
Proof. intros. apply Z.mod_pos_bound. lia. Qed.

Lemma wrap_small w z : 0 <= z < 2 ^ w -> wrap w z = z.
Proof. apply Z.mod_small. Qed.

(** A value below [2^k] and one shifted past it do not overlap. *)
Lemma lor_shiftl_add (a b k : Z) :
  0 <= k -> 0 <= a < 2 ^ k -> Z.lor a (Z.shiftl b k) = a + b * 2 ^ k.
Proof.
  intros Hk Ha. rewrite <-Z.shiftl_mul_pow2 by lia.
  symmetry. rewrite <-Z.lxor_lor.
  - apply Z.add_nocarry_lxor. apply Z.bits_inj'. intros n Hn.
    rewrite Z.land_spec, Z.bits_0, Z.shiftl_spec by lia.
    destruct (Z.ltb_spec n k).
    + rewrite (Z.testbit_neg_r b (n - k)) by lia. apply andb_false_r.
    + rewrite (Z.testbit_eqb a n) by lia.
      rewrite Z.div_small; [done|]. split; [lia|].
      eapply Z.lt_le_trans; [apply Ha|]. apply Z.pow_le_mono_r; lia.
  - apply Z.bits_inj'. intros n Hn.
    rewrite Z.land_spec, Z.bits_0, Z.shiftl_spec by lia.
    destruct (Z.ltb_spec n k).
    + rewrite (Z.testbit_neg_r b (n - k)) by lia. apply andb_false_r.
    + rewrite (Z.testbit_eqb a n) by lia.
      rewrite Z.div_small; [done|]. split; [lia|].
      eapply Z.lt_le_trans; [apply Ha|]. apply Z.pow_le_mono_r; lia.
Qed.

(** ** Byte order *)

(** The two targets of [bpf2go]: [bpfel] and [bpfeb]. *)
Variant endianness := LE | BE.
Existing Class endianness.

#[global] Instance endianness_eq_dec : EqDecision endianness.
Proof. solve_decision. Defined.

Fixpoint le_combine (l : list byte) : Z :=
  match l with
  | [] => 0
  | b :: l => byte_to_Z b + 256 * le_combine l
  end.

Fixpoint le_split (n : nat) (z : Z) : list byte :=
  match n with
  | O => []
  | S n => byte_of_Z z :: le_split n (z / 256)
  end.

(** The integer the bytes [l] hold in memory, and back. *)
Definition of_bytes (e : endianness) (l : list byte) : Z :=
  match e with LE => le_combine l | BE => le_combine (rev l) end.

Definition to_bytes (e : endianness) (n : nat) (z : Z) : list byte :=
  match e with LE => le_split n z | BE => rev (le_split n z) end.

Lemma length_le_split n z : length (le_split n z) = n.
Proof. revert z. induction n; intros; simpl; [done|]. by rewrite IHn. Qed.

Lemma length_to_bytes e n z : length (to_bytes e n z) = n.
Proof. destruct e; simpl; rewrite ?length_rev; apply length_le_split. Qed.
#[export] Hint Rewrite length_to_bytes : list_len.

Lemma pow256_S (n : nat) : 256 ^ Z.of_nat (S n) = 256 * 256 ^ Z.of_nat n.
Proof. rewrite Nat2Z.inj_succ, Z.pow_succ_r by lia. done. Qed.

Lemma le_combine_range l : 0 <= le_combine l < 256 ^ Z.of_nat (length l).
Proof.
  induction l as [|b l IH]; [simpl; lia|].
  cbn [le_combine length]. rewrite pow256_S. pose proof (byte_to_Z_range b). lia.
Qed.

Lemma le_combine_split n z : le_combine (le_split n z) = z mod 256 ^ Z.of_nat n.
Proof.
  revert z. induction n as [|n IH]; intros z.
  - simpl. by rewrite Z.mod_1_r.
  - cbn [le_split le_combine]. rewrite IH, byte_to_of_Z, pow256_S.
    assert (0 < 256 ^ Z.of_nat n) by (apply Z.pow_pos_nonneg; lia).
    rewrite Z.rem_mul_r by lia. done.
Qed.

Lemma le_split_combine l : le_split (length l) (le_combine l) = l.
Proof.
  induction l as [|b l IH]; [done|]. cbn [le_combine length le_split].
  pose proof (byte_to_Z_range b) as Hb. f_equal.
  - apply byte_to_Z_inj. rewrite byte_to_of_Z.
    rewrite Z.mul_comm, Z_mod_plus_full. by apply Z.mod_small.
  - replace ((byte_to_Z b + 256 * le_combine l) / 256) with (le_combine l); [done|].
    rewrite (Z.mul_comm 256), Z.div_add, Z.div_small by lia. lia.
Qed.

Lemma of_bytes_range e l : 0 <= of_bytes e l < 256 ^ Z.of_nat (length l).
Proof.
  destruct e; simpl; [apply le_combine_range|].
  rewrite <-length_rev. apply le_combine_range.
Qed.

Lemma of_to_bytes e n z : of_bytes e (to_bytes e n z) = z mod 256 ^ Z.of_nat n.
Proof. destruct e; simpl; rewrite ?rev_involutive; apply le_combine_split. Qed.

Lemma to_of_bytes e l n : n = length l -> to_bytes e n (of_bytes e l) = l.
Proof.
  intros ->. destruct e; simpl; [apply le_split_combine|].
  rewrite <-(length_rev l), le_split_combine. apply rev_involutive.
Qed.

Lemma of_bytes_inj e l1 l2 :
  length l1 = length l2 -> of_bytes e l1 = of_bytes e l2 -> l1 = l2.
Proof.
  intros Hl H. rewrite <-(to_of_bytes e l1 (length l1)) by done.
  rewrite H. by apply to_of_bytes.
Qed.

Lemma le_split_mod n z : le_split n (z mod 256 ^ Z.of_nat n) = le_split n z.
Proof.
  apply (of_bytes_inj LE); [by rewrite !length_le_split|].
  simpl. rewrite !le_combine_split. apply Zmod_mod.
Qed.

Lemma of_bytes_2_range e l : length l = 2%nat -> 0 <= of_bytes e l < 2 ^ 16.
Proof. intros H. pose proof (of_bytes_range e l) as R. rewrite H in R. exact R. Qed.

Lemma of_bytes_4_range e l : length l = 4%nat -> 0 <= of_bytes e l < 2 ^ 32.
Proof. intros H. pose proof (of_bytes_range e l) as R. rewrite H in R. exact R. Qed.

(** ** bpf_endian.h *)

(** [___bpf_mvb(x, b, n, m)]: byte [n] of the [b]-bit [x], moved to byte [m].
    The shifts happen in the promoted type: [int] when [b] is 16, [__u##b]
    otherwise. *)
Definition ___bpf_mvb (x b n m : Z) : Z :=
  let aw := Z.max b 32 in
  wrap aw (Z.shiftl
    (Z.shiftr (wrap aw (Z.shiftl (wrap b x) (b - (n + 1) * 8))) (b - 8))
    (m * 8)).

Definition ___bpf_swab16 (x : Z) : Z :=
  cast_u16 (Z.lor (___bpf_mvb x 16 0 1) (___bpf_mvb x 16 1 0)).

Definition ___bpf_swab32 (x : Z) : Z :=
  cast_u32 (Z.lor (Z.lor (Z.lor (___bpf_mvb x 32 0 3) (___bpf_mvb x 32 1 2))
                      (___bpf_mvb x 32 2 1))
               (___bpf_mvb x 32 3 0)).

Definition ___bpf_swab64 (x : Z) : Z :=
  cast_u64 (Z.lor (Z.lor (Z.lor (Z.lor (Z.lor (Z.lor (Z.lor
     (___bpf_mvb x 64 0 7) (___bpf_mvb x 64 1 6)) (___bpf_mvb x 64 2 5))
     (___bpf_mvb x 64 3 4)) (___bpf_mvb x 64 4 3)) (___bpf_mvb x 64 5 2))
     (___bpf_mvb x 64 6 1)) (___bpf_mvb x 64 7 0)).

(** The compiler builtins [__builtin_bswap16/32/64] reverse the bytes. *)
Definition __builtin_bswap (n : nat) (x : Z) : Z := le_combine (rev (le_split n x)).

(** The macros select an implementation by byte order and by whether the
    compiler knows the argument ([__builtin_constant_p]). *)
Definition bpf_htons {e : endianness} (constant_p : bool) (x : Z) : Z :=
  match e with
  | LE => if constant_p then ___bpf_swab16 x else __builtin_bswap 2 x
  | BE => x
  end.

Definition bpf_ntohs {e : endianness} (constant_p : bool) (x : Z) : Z :=
  match e with
  | LE => if constant_p then ___bpf_swab16 x else __builtin_bswap 2 x
  | BE => x
  end.

Definition bpf_htonl {e : endianness} (constant_p : bool) (x : Z) : Z :=
  match e with
  | LE => if constant_p then ___bpf_swab32 x else __builtin_bswap 4 x
  | BE => x
  end.

Definition bpf_ntohl {e : endianness} (constant_p : bool) (x : Z) : Z :=
  match e with
  | LE => if constant_p then ___bpf_swab32 x else __builtin_bswap 4 x
  | BE => x
  end.

Definition bpf_cpu_to_be64 {e : endianness} (constant_p : bool) (x : Z) : Z :=
  match e with
  | LE => if constant_p then ___bpf_swab64 x else __builtin_bswap 8 x
  | BE => x
  end.

Definition bpf_be64_to_cpu {e : endianness} (constant_p : bool) (x : Z) : Z :=
  match e with
  | LE => if constant_p then ___bpf_swab64 x else __builtin_bswap 8 x
  | BE => x
  end.

(** ** The macros agree with the builtins *)

Section mvb.
Context (x b n m : Z) (Hb : 32 <= b) (Hn : 0 <= n) (Hnb : (n + 1) * 8 <= b)
        (Hm : 0 <= m) (Hmb : (m + 1) * 8 <= b).

Lemma mvb_extract :
  Z.shiftr (wrap b (Z.shiftl (wrap b x) (b - (n + 1) * 8))) (b - 8)
  = (x / 2 ^ (8 * n)) mod 256.
Proof.
  set (k := b - (n + 1) * 8). unfold wrap.
  rewrite Z.shiftl_mul_pow2, Z.shiftr_div_pow2 by lia.
  replace (2 ^ b) with (2 ^ ((n + 1) * 8) * 2 ^ k) at 2
    by (rewrite <-Z.pow_add_r by lia; f_equal; lia).
  replace (2 ^ (b - 8)) with (2 ^ (8 * n) * 2 ^ k)
    by (rewrite <-Z.pow_add_r by lia; f_equal; lia).
  rewrite Z.mul_mod_distr_r by lia.
  rewrite Z.div_mul_cancel_r by lia.
  replace (2 ^ b) with (2 ^ ((n + 1) * 8) * 2 ^ k)
    by (rewrite <-Z.pow_add_r by lia; f_equal; lia).
  rewrite Z.rem_mul_r by lia.
  rewrite (Z.mul_comm (2 ^ ((n + 1) * 8))), Z_mod_plus_full, Zmod_mod.
  replace (2 ^ ((n + 1) * 8)) with (2 ^ (8 * n) * 256)
    by (rewrite (Z.pow_add_r 2 (8 * n) 8 : _ -> _ -> 2 ^ (8 * n + 8) = _) || idtac;
        replace ((n + 1) * 8) with (8 * n + 8) by lia; rewrite Z.pow_add_r by lia; done).
  rewrite Z.rem_mul_r by lia. rewrite Z.add_comm, Z.mul_comm, Z.div_add_l by lia.
  rewrite (Z.div_small (x mod _)) by (apply Z.mod_pos_bound; lia). lia.
Qed.

Lemma mvb_spec : ___bpf_mvb x b n m = ((x / 2 ^ (8 * n)) mod 256) * 2 ^ (8 * m).
Proof.
  unfold ___bpf_mvb. rewrite Z.max_l by lia. rewrite mvb_extract.
  rewrite Z.shiftl_mul_pow2 by lia. replace (m * 8) with (8 * m) by lia.
  apply wrap_small.
  pose proof (Z.mod_pos_bound (x / 2 ^ (8 * n)) 256 ltac:(lia)) as H.
  split; [lia|].
  apply Z.lt_le_trans with (256 * 2 ^ (8 * m)).
  - apply Z.mul_lt_mono_pos_r; lia.
  - change 256 with (2 ^ 8). rewrite <-Z.pow_add_r by lia.
    apply Z.pow_le_mono_r; lia.
Qed.
End mvb.

(** Appending a byte below an already assembled prefix. *)
Lemma lor_byte (h c k : Z) :
  0 <= k -> 0 <= c < 256 ->
  Z.lor (h * 2 ^ (k + 8)) (c * 2 ^ k) = (h * 256 + c) * 2 ^ k.
Proof.
  intros Hk Hc. rewrite Z.lor_comm, <-(Z.shiftl_mul_pow2 h) by lia.
  rewrite lor_shiftl_add; [|lia|].
  - rewrite Z.pow_add_r by lia. change (2 ^ 8) with 256. ring.
  - split; [lia|]. rewrite Z.pow_add_r by lia. change (2 ^ 8) with 256. nia.
Qed.

Lemma swab16_spec x : ___bpf_swab16 x = __builtin_bswap 2 x.
Proof.
  unfold ___bpf_swab16, __builtin_bswap, ___bpf_mvb, cast_u16.
  change (Z.max 16 32) with 32. cbn [rev le_split app le_combine].
  change (16 - (0 + 1) * 8) with 8. change (16 - (1 + 1) * 8) with 0.
  change (16 - 8) with 8. change (1 * 8) with 8. change (0 * 8) with 0.
  rewrite !Z.shiftl_0_r, !byte_to_of_Z.
  assert (0 <= wrap 16 x < 2 ^ 16) as Hx by (apply wrap_range; lia).
  rewrite !Z.shiftl_mul_pow2, !Z.shiftr_div_pow2 by lia.
  rewrite (wrap_small 32 (wrap 16 x * 2 ^ 8)) by lia.
  rewrite Z.div_mul by lia.
  rewrite (wrap_small 32 (wrap 16 x)) by lia.
  rewrite (wrap_small 32 (_ / _)) by dlia.
  rewrite (wrap_small 32 (wrap 16 x * 2 ^ 8)) by lia.
  rewrite Z.lor_comm, <-Z.shiftl_mul_pow2, lor_shiftl_add by dlia.
  unfold wrap. change (2 ^ 16) with 65536. change (2 ^ 8) with 256. dlia.
Qed.

(** Assemble the bytes of a swap macro and compare with the reversal. *)
Ltac fold_consts :=
  repeat match goal with
  | |- context [2 ^ (8 * ?k)] =>
      let v := eval vm_compute in (2 ^ (8 * k)) in change (2 ^ (8 * k)) with v
  | |- context [Z.div ?x (256 * ?k)] =>
      let v := eval vm_compute in (256 * k) in change (256 * k) with v
  end.

Ltac bound_bytes :=
  repeat match goal with
  | |- context [Z.modulo ?a 256] =>
      let r := fresh "r" in
      pose proof (Z.mod_pos_bound a 256 ltac:(lia)); set (r := Z.modulo a 256) in *;
      clearbody r
  end.

Ltac swab_solve :=
  rewrite ?mvb_spec by lia;
  cbn [rev le_split app le_combine]; rewrite ?byte_to_of_Z, ?Z.div_div by lia;
  repeat match goal with
  | |- context [Z.lor (?h * 2 ^ ?k1) (?c * 2 ^ ?k2)] =>
      rewrite (lor_byte h c k2 : _ -> _ -> Z.lor (h * 2 ^ k1) _ = _)
        by first [lia | apply Z.mod_pos_bound; lia]
  end;
  fold_consts; rewrite ?Z.div_1_r; bound_bytes;
  unfold cast_u32, cast_u64; rewrite wrap_small by lia; lia.

Lemma swab32_spec x : ___bpf_swab32 x = __builtin_bswap 4 x.
Proof. unfold ___bpf_swab32, __builtin_bswap. swab_solve. Qed.

Lemma swab64_spec x : ___bpf_swab64 x = __builtin_bswap 8 x.
Proof. unfold ___bpf_swab64, __builtin_bswap. swab_solve. Qed.

(** ** Network byte order *)

Lemma bswap_involutive n x :
  0 <= x < 256 ^ Z.of_nat n -> __builtin_bswap n (__builtin_bswap n x) = x.
Proof.
  intros Hx. unfold __builtin_bswap.
  rewrite <-(length_le_split n x) at 1. rewrite <-length_rev.
  rewrite le_split_combine, rev_involutive, le_combine_split.
  by apply Z.mod_small.
Qed.

Lemma le_split_bswap n x : le_split n (__builtin_bswap n x) = rev (le_split n x).
Proof.
  unfold __builtin_bswap. rewrite <-(length_le_split n x) at 1.
  rewrite <-length_rev. apply le_split_combine.
Qed.

Section order.
Context {e : endianness}.

(** What a [__be16] or [__be32] obtained from a host value holds in memory:
    the value in network order, whatever the target. *)
Lemma to_bytes_htons c x : to_bytes e 2 (bpf_htons c x) = to_bytes BE 2 x.
Proof.
  destruct e; simpl; [|done].
  destruct c; rewrite ?swab16_spec; apply (le_split_bswap 2).
Qed.

Lemma to_bytes_htonl c x : to_bytes e 4 (bpf_htonl c x) = to_bytes BE 4 x.
Proof.
  destruct e; simpl; [|done].
  destruct c; rewrite ?swab32_spec; apply (le_split_bswap 4).
Qed.

Lemma htons_of_bytes c l :
  length l = 2%nat -> bpf_htons c (of_bytes e l) = of_bytes BE l.
Proof.
  intros Hl. destruct e; simpl; [|done].
  transitivity (__builtin_bswap 2 (le_combine l)).
  { destruct c; [apply swab16_spec|done]. }
  unfold __builtin_bswap. rewrite <-Hl at 1. by rewrite le_split_combine.
Qed.

Lemma htonl_of_bytes c l :
  length l = 4%nat -> bpf_htonl c (of_bytes e l) = of_bytes BE l.
Proof.
  intros Hl. destruct e; simpl; [|done].
  transitivity (__builtin_bswap 4 (le_combine l)).
  { destruct c; [apply swab32_spec|done]. }
  unfold __builtin_bswap. rewrite <-Hl at 1. by rewrite le_split_combine.
Qed.

Lemma htons_range c x : 0 <= x < 2 ^ 16 -> 0 <= bpf_htons c x < 2 ^ 16.
Proof.
  intros. destruct e; simpl; [|done].
  assert (0 <= __builtin_bswap 2 x < 2 ^ 16).
  { unfold __builtin_bswap.
    pose proof (le_combine_range (rev (le_split 2 x))) as R.
    rewrite length_rev, length_le_split in R. exact R. }
  destruct c; rewrite ?swab16_spec; done.
Qed.

Lemma htonl_range c x : 0 <= x < 2 ^ 32 -> 0 <= bpf_htonl c x < 2 ^ 32.
Proof.
  intros. destruct e; simpl; [|done].
  assert (0 <= __builtin_bswap 4 x < 2 ^ 32).
  { unfold __builtin_bswap.
    pose proof (le_combine_range (rev (le_split 4 x))) as R.
    rewrite length_rev, length_le_split in R. exact R. }
  destruct c; rewrite ?swab32_spec; done.
Qed.

Lemma htons_eq_iff c l x :
  length l = 2%nat -> 0 <= x < 2 ^ 16 ->
  of_bytes e l = bpf_htons c x <-> of_bytes BE l = x.
Proof.
  intros Hl Hx. split.
  - intros H. rewrite <-(htons_of_bytes false l Hl), H.
    destruct e; simpl; [|done].
    transitivity (__builtin_bswap 2 (__builtin_bswap 2 x)).
    { destruct c; rewrite ?swab16_spec; done. }
    by apply bswap_involutive.
  - intros <-. pose proof (htons_range c _ Hx) as Hr.
    rewrite <-(Z.mod_small _ (256 ^ Z.of_nat 2) Hr), <-(of_to_bytes e).
    by rewrite to_bytes_htons, to_of_bytes.
Qed.
End order.

#[export] Hint Resolve byte_to_Z_range of_bytes_2_range of_bytes_4_range htons_range htonl_range : bytes.

(** The constant-folding macros ([___bpf_swab16/32/64], used when the
    argument is a compile-time constant) and the compiler builtins compute the
    same value for every argument and both byte orders, so the choice made by
    [__builtin_constant_p] is not observable. *)
Theorem bpf_endian_constant_p_irrelevant (e : endianness) (x : Z) :
  bpf_htons true x = bpf_htons false x /\
  bpf_ntohs true x = bpf_ntohs false x /\
  bpf_htonl true x = bpf_htonl false x /\
  bpf_ntohl true x = bpf_ntohl false x /\
  bpf_cpu_to_be64 true x = bpf_cpu_to_be64 false x /\
  bpf_be64_to_cpu true x = bpf_be64_to_cpu false x.
Proof.
  destruct e; simpl; rewrite ?swab16_spec, ?swab32_spec, ?swab64_spec; done.
Qed.

(** on both targets, storing [bpf_htons(x)] or [bpf_htonl(x)] puts the
    value on the wire in network order, and [bpf_ntohs]/[bpf_ntohl] read it
    back: the conversions are a round trip for every value of the type. *)
Theorem network_order_roundtrip (e : endianness) (c d : bool) (x y : Z) :
  0 <= x < 2 ^ 16 -> 0 <= y < 2 ^ 32 ->
  to_bytes e 2 (bpf_htons c x) = to_bytes BE 2 x /\
  to_bytes e 4 (bpf_htonl c y) = to_bytes BE 4 y /\
  bpf_ntohs d (of_bytes e (to_bytes BE 2 x)) = x /\
  bpf_ntohl d (of_bytes e (to_bytes BE 4 y)) = y.
Proof.
  intros Hx Hy. change (@bpf_ntohs e) with (@bpf_htons e).
  change (@bpf_ntohl e) with (@bpf_htonl e).
  rewrite htons_of_bytes, htonl_of_bytes by apply length_to_bytes.
  rewrite to_bytes_htons, to_bytes_htonl, !of_to_bytes.
  rewrite !Z.mod_small; done.
Qed.

Lemma network_order_roundtrip_witness :
  to_bytes LE 2 (bpf_htons (e := LE) true 25565) = [Init.Byte.x63; Init.Byte.xdd] /\
  bpf_ntohs (e := LE) false (of_bytes LE (to_bytes BE 2 25565)) = 25565.
Proof.
  split; [reflexivity|].
  apply (network_order_roundtrip LE true false 25565 167772161); lia.
Defined.
