(* ===== verification/CLayout.v ===== *)
(** * Layout of C types

    The programs address packet headers and kernel objects through [offsetof],
    [sizeof] and field accesses of C structs.  This file defines the layout
    rules of the target ABI (LP64, bit-fields packed into storage units of
    their declared type) over a syntax of C types, and proves the rules sound:
    members lie inside their object, are aligned, and do not overlap. *)

From S2P Require Import Prelude.

(** ** Types *)

Inductive ctype :=
| TInt (size : Z)                          (* integers, enums, _Bool *)
| TPtr                                     (* object and function pointers *)
| TArr (t : ctype) (n : Z)
| TStruct (packed : bool) (fs : cfields)
| TUnion (fs : cfields)
with cfields :=
| FNil
| FCons (f : cfield) (fs : cfields)
with cfield :=
| Fld (name : string) (t : ctype)
| Anon (t : ctype)                         (* unnamed struct or union member *)
| Bits (name : string) (t : ctype) (w : Z)
| Pad (t : ctype) (w : Z).                 (* unnamed bit-field *)

Declare Scope ctype_scope.
Delimit Scope ctype_scope with ctype.
Bind Scope ctype_scope with ctype.
Notation "'struct{' x ; .. ; y '}'" :=
  (TStruct false (FCons x .. (FCons y FNil) ..)) : ctype_scope.
Notation "'struct{' '}'" := (TStruct false FNil) : ctype_scope.
Notation "'packed{' x ; .. ; y '}'" :=
  (TStruct true (FCons x .. (FCons y FNil) ..)) : ctype_scope.
Notation "'union{' x ; .. ; y '}'" :=
  (TUnion (FCons x .. (FCons y FNil) ..)) : ctype_scope.
Notation "'fields{' x ; .. ; y '}'" := (FCons x .. (FCons y FNil) ..) : ctype_scope.
Arguments Fld name%_string t%_ctype.
Arguments Anon t%_ctype.
Arguments Bits name%_string t%_ctype w%_Z.
Arguments Pad t%_ctype w%_Z.
Arguments TArr t%_ctype n%_Z.

Scheme ctype_mut := Induction for ctype Sort Prop
  with cfields_mut := Induction for cfields Sort Prop
  with cfield_mut := Induction for cfield Sort Prop.
Combined Scheme ctype_ind_all from ctype_mut, cfields_mut, cfield_mut.

(** Concatenation of member lists, for a struct declared in two parts. *)
Fixpoint fapp (fs1 fs2 : cfields) : cfields :=
  match fs1 with
  | FNil => fs2
  | FCons f fs1 => FCons f (fapp fs1 fs2)
  end.

(** ** Sizes and offsets *)

Definition align_up (p a : Z) : Z := (p + a - 1) / a * a.

Fixpoint alignof (t : ctype) : Z :=
  match t with
  | TInt s => s
  | TPtr => 8
  | TArr t _ => alignof t
  | TStruct true _ => 1
  | TStruct false fs => aligns fs
  | TUnion fs => aligns fs
  end
with aligns (fs : cfields) : Z :=
  match fs with
  | FNil => 1
  | FCons f fs => Z.max (falign f) (aligns fs)
  end
with falign (f : cfield) : Z :=
  match f with
  | Fld _ t | Anon t | Bits _ t _ => alignof t
  | Pad _ _ => 1
  end.

(** Positions are in bits.  [fstart p f pos] is where the next member goes when
    [pos] bits are taken; [fwidth f] is the number of bits it takes. *)
Fixpoint sizeof (t : ctype) : Z :=
  match t with
  | TInt s => s
  | TPtr => 8
  | TArr t n => n * sizeof t
  | TStruct p fs =>
      align_up (send p fs 0) (8 * (if p then 1 else aligns fs)) / 8
  | TUnion fs => align_up (uend fs) (8 * aligns fs) / 8
  end
with send (p : bool) (fs : cfields) (pos : Z) : Z :=
  match fs with
  | FNil => pos
  | FCons f fs => send p fs (fstart p f pos + fwidth f)
  end
with uend (fs : cfields) : Z :=
  match fs with
  | FNil => 0
  | FCons f fs => Z.max (fwidth f) (uend fs)
  end
with fstart (p : bool) (f : cfield) (pos : Z) : Z :=
  match f with
  | Fld _ t | Anon t => align_up pos (8 * (if p then 1 else alignof t))
  | Bits _ t w | Pad t w =>
      if w =? 0 then align_up pos (8 * sizeof t)
      else if p then pos
      else if pos mod (8 * sizeof t) + w <=? 8 * sizeof t then pos
      else align_up pos (8 * sizeof t)
  end
with fwidth (f : cfield) : Z :=
  match f with
  | Fld _ t | Anon t => 8 * sizeof t
  | Bits _ _ w | Pad _ w => w
  end.

(** [member t nm]: position and declaration of member [nm], looking through
    unnamed members as C does. *)
Fixpoint member (t : ctype) (nm : string) : option (Z * cfield) :=
  match t with
  | TStruct p fs => smember p fs 0 nm
  | TUnion fs => umember fs nm
  | _ => None
  end
with smember (p : bool) (fs : cfields) (pos : Z) (nm : string) : option (Z * cfield) :=
  match fs with
  | FNil => None
  | FCons f fs =>
      match fmember f nm with
      | Some (o, g) => Some (fstart p f pos + o, g)
      | None => smember p fs (fstart p f pos + fwidth f) nm
      end
  end
with umember (fs : cfields) (nm : string) : option (Z * cfield) :=
  match fs with
  | FNil => None
  | FCons f fs =>
      match fmember f nm with
      | Some r => Some r
      | None => umember fs nm
      end
  end
with fmember (f : cfield) (nm : string) : option (Z * cfield) :=
  match f with
  | Fld n _ | Bits n _ _ => if String.eqb n nm then Some (0, f) else None
  | Anon t => member t nm
  | Pad _ _ => None
  end.

(** [resolve t path]: the subobject [t.path], as a bit position and its type. *)
Fixpoint resolve (t : ctype) (path : list string) : option (Z * ctype) :=
  match path with
  | [] => Some (0, t)
  | nm :: path =>
      match member t nm with
      | Some (o, Fld _ t') =>
          match resolve t' path with
          | Some (o', t'') => Some (o + o', t'')
          | None => None
          end
      | _ => None
      end
  end.

Definition offsetof (t : ctype) (path : list string) : option Z :=
  match resolve t path with
  | Some (o, _) => Some (o / 8)
  | None => None
  end.

(** Offset of a member known to exist. *)
Definition off (t : ctype) (path : list string) : Z := default (-1) (offsetof t path).

(** The extents (position, width) of the members of a struct, in order. *)
Fixpoint extents (p : bool) (fs : cfields) (pos : Z) : list (Z * Z) :=
  match fs with
  | FNil => []
  | FCons f fs =>
      (fstart p f pos, fwidth f) :: extents p fs (fstart p f pos + fwidth f)
  end.

(** ** Well-formed types *)

Definition int_size (s : Z) : bool :=
  (s =? 1) || (s =? 2) || (s =? 4) || (s =? 8) || (s =? 16).

Fixpoint wf (t : ctype) : bool :=
  match t with
  | TInt s => int_size s
  | TPtr => true
  | TArr t n => wf t && (0 <=? n)
  | TStruct _ fs => wfs fs
  | TUnion fs => wfs fs
  end
with wfs (fs : cfields) : bool :=
  match fs with
  | FNil => true
  | FCons f fs => wff f && wfs fs
  end
with wff (f : cfield) : bool :=
  match f with
  | Fld _ t | Anon t => wf t
  | Bits _ (TInt s) w => int_size s && (0 <? w) && (w <=? 8 * s)
  | Pad (TInt s) w => int_size s && (0 <=? w) && (w <=? 8 * s)
  | _ => false
  end.

(** No packed struct inside, so that natural alignment holds throughout. *)
Fixpoint natural (t : ctype) : bool :=
  match t with
  | TInt _ | TPtr => true
  | TArr t _ => natural t
  | TStruct p fs => negb p && naturals fs
  | TUnion fs => naturals fs
  end
with naturals (fs : cfields) : bool :=
  match fs with
  | FNil => true
  | FCons f fs => naturalf f && naturals fs
  end
with naturalf (f : cfield) : bool :=
  match f with
  | Fld _ t | Anon t => natural t
  | Bits _ _ _ | Pad _ _ => true
  end.

(** ** Soundness of the layout rules *)

Lemma align_up_bounds p a : 0 < a -> p <= align_up p a < p + a.
Proof. unfold align_up. intros. nia || (split; dlia). Qed.

Lemma align_up_divide p a : (a | align_up p a).
Proof. unfold align_up. exists ((p + a - 1) / a). done. Qed.

(** An alignment is one of the machine's: they are totally ordered by
    divisibility. *)
Definition machine_align (a : Z) : Prop := a = 1 \/ a = 2 \/ a = 4 \/ a = 8 \/ a = 16.

Lemma int_size_align s : int_size s = true -> machine_align s.
Proof. unfold int_size, machine_align. lia. Qed.

Lemma machine_align_pos a : machine_align a -> 0 < a.
Proof. unfold machine_align. lia. Qed.

Lemma machine_align_max a b :
  machine_align a -> machine_align b -> machine_align (Z.max a b).
Proof. unfold machine_align. lia. Qed.

Lemma machine_align_divide a b :
  machine_align a -> machine_align b -> a <= b -> (a | b).
Proof.
  unfold machine_align. intros Ha Hb Hle.
  destruct Ha as [->|[->|[->|[->| ->]]]];
    destruct Hb as [->|[->|[->|[->| ->]]]]; try lia;
    apply Z.mod_divide; (lia || reflexivity).
Qed.

Ltac wf_split :=
  cbn [wf wfs wff natural naturals naturalf] in *;
  repeat match goal with
  | H : (_ && _)%bool = true |- _ => apply andb_prop in H as [? ?]
  | H : false = true |- _ => discriminate H
  | H : (match ?t with _ => _ end) = true |- _ => destruct t; try discriminate H
  end.

Lemma alignof_machine :
  (forall t, wf t = true -> machine_align (alignof t)) /\
  (forall fs, wfs fs = true -> machine_align (aligns fs)) /\
  (forall f, wff f = true -> machine_align (falign f)).
Proof.
  apply ctype_ind_all; intros; wf_split; cbn [alignof aligns falign];
    auto using int_size_align, machine_align_max; try (unfold machine_align; lia).
  destruct packed; [unfold machine_align; lia|auto].
Qed.

Lemma alignof_wf t : wf t = true -> machine_align (alignof t).
Proof. apply alignof_machine. Qed.
Lemma aligns_wf fs : wfs fs = true -> machine_align (aligns fs).
Proof. apply alignof_machine. Qed.
Lemma falign_wf f : wff f = true -> machine_align (falign f).
Proof. apply alignof_machine. Qed.

Lemma round_bytes x a : 0 < a -> 0 <= x ->
  x <= 8 * (align_up x (8 * a) / 8) /\ (a | align_up x (8 * a) / 8).
Proof.
  intros Ha Hx. pose proof (align_up_bounds x (8 * a) ltac:(lia)).
  destruct (align_up_divide x (8 * a)) as [k Hk]. rewrite Hk.
  replace (k * (8 * a)) with (k * a * 8) by ring. rewrite Z.div_mul by lia.
  split; [lia|]. exists k. done.
Qed.

Lemma layout_nonneg :
  (forall t, wf t = true -> 0 <= sizeof t) /\
  (forall fs, wfs fs = true ->
     (forall p pos, 0 <= pos -> pos <= send p fs pos) /\ 0 <= uend fs) /\
  (forall f, wff f = true ->
     (forall p pos, 0 <= pos -> pos <= fstart p f pos) /\ 0 <= fwidth f).
Proof.
  apply ctype_ind_all; intros; wf_split; cbn [sizeof send uend fstart fwidth].
  - apply int_size_align, machine_align_pos in H. lia.
  - lia.
  - specialize (H H0). nia.
  - destruct (H H0) as [Hs _]. pose proof (aligns_wf _ H0) as Ha%machine_align_pos.
    specialize (Hs packed 0 ltac:(lia)).
    destruct (round_bytes (send packed fs 0) (if packed then 1 else aligns fs));
      [destruct packed; lia|lia|lia].
  - destruct (H H0) as [_ Hs]. pose proof (aligns_wf _ H0) as Ha%machine_align_pos.
    destruct (round_bytes (uend fs) (aligns fs)); lia.
  - split; intros; lia.
  - destruct (H H1) as [Hf Hw]. destruct (H0 H2) as [Hs Hu].
    split; [|lia]. intros p pos Hp. specialize (Hf p pos Hp).
    specialize (Hs p (fstart p f pos + fwidth f) ltac:(lia)). lia.
  - split; [|specialize (H H0); lia]. intros p pos Hp.
    pose proof (alignof_wf _ H0) as Ha%machine_align_pos.
    apply align_up_bounds. destruct p; lia.
  - split; [|specialize (H H0); lia]. intros p pos Hp.
    pose proof (alignof_wf _ H0) as Ha%machine_align_pos.
    apply align_up_bounds. destruct p; lia.
  - apply int_size_align, machine_align_pos in H0. split; [|lia]. intros p pos Hp.
    cbn [sizeof]. pose proof (align_up_bounds pos (8 * size) ltac:(lia)).
    repeat case_match; lia.
  - apply int_size_align, machine_align_pos in H0. split; [|lia]. intros p pos Hp.
    cbn [sizeof]. pose proof (align_up_bounds pos (8 * size) ltac:(lia)).
    repeat case_match; lia.
Qed.

Lemma send_mono p fs pos : wfs fs = true -> 0 <= pos -> pos <= send p fs pos.
Proof. intros H. by apply (proj1 (proj2 layout_nonneg) fs H). Qed.
Lemma uend_nonneg fs : wfs fs = true -> 0 <= uend fs.
Proof. intros H. by apply (proj1 (proj2 layout_nonneg) fs H). Qed.
Lemma fstart_mono p f pos : wff f = true -> 0 <= pos -> pos <= fstart p f pos.
Proof. intros H. by apply (proj2 (proj2 layout_nonneg) f H). Qed.
Lemma fwidth_nonneg f : wff f = true -> 0 <= fwidth f.
Proof. intros H. by apply (proj2 (proj2 layout_nonneg) f H). Qed.

Lemma sizeof_covers_struct p fs : wfs fs = true -> send p fs 0 <= 8 * sizeof (TStruct p fs).
Proof.
  intros H. cbn [sizeof]. pose proof (aligns_wf _ H) as Ha%machine_align_pos.
  apply round_bytes; [destruct p; lia|]. by apply send_mono.
Qed.

Lemma sizeof_covers_union fs : wfs fs = true -> uend fs <= 8 * sizeof (TUnion fs).
Proof.
  intros H. cbn [sizeof]. pose proof (aligns_wf _ H) as Ha%machine_align_pos.
  apply round_bytes; [lia|]. by apply uend_nonneg.
Qed.

Lemma sizeof_multiple t : wf t = true -> (alignof t | sizeof t).
Proof.
  induction t; intros H; wf_split; cbn [alignof sizeof].
  - apply Z.divide_refl.
  - apply Z.divide_refl.
  - apply Z.divide_mul_r. auto.
  - pose proof (aligns_wf _ H) as Ha%machine_align_pos.
    pose proof (send_mono packed fs 0 H).
    destruct packed; apply round_bytes; lia.
  - pose proof (aligns_wf _ H) as Ha%machine_align_pos.
    apply round_bytes; [lia|]. by apply uend_nonneg.
Qed.

(** *** Members lie inside their object *)

Lemma member_inside :
  (forall t, wf t = true -> forall nm o g, member t nm = Some (o, g) ->
     wff g = true /\ 0 <= o /\ o + fwidth g <= 8 * sizeof t) /\
  (forall fs, wfs fs = true ->
     (forall p pos nm o g, 0 <= pos -> smember p fs pos nm = Some (o, g) ->
        wff g = true /\ pos <= o /\ o + fwidth g <= send p fs pos) /\
     (forall nm o g, umember fs nm = Some (o, g) ->
        wff g = true /\ 0 <= o /\ o + fwidth g <= uend fs)) /\
  (forall f, wff f = true -> forall nm o g, fmember f nm = Some (o, g) ->
     wff g = true /\ 0 <= o /\ o + fwidth g <= fwidth f).
Proof.
  apply ctype_ind_all.
  - done.
  - done.
  - done.
  - intros p fs IH Hwf nm o g Hm. destruct (IH Hwf) as [Hs _].
    destruct (Hs p 0 nm o g ltac:(lia) Hm) as (? & ? & ?).
    pose proof (sizeof_covers_struct p fs Hwf). repeat split; [done|lia|lia].
  - intros fs IH Hwf nm o g Hm. destruct (IH Hwf) as [_ Hu].
    destruct (Hu nm o g Hm) as (? & ? & ?).
    pose proof (sizeof_covers_union fs Hwf). repeat split; [done|lia|lia].
  - done.
  - intros f IHf fs IHfs Hwf. wf_split. destruct (IHfs H0) as [IHs IHu].
    pose proof (fwidth_nonneg f H). split.
    + intros p pos nm o g Hp Hm. cbn [smember] in Hm. cbn [send].
      pose proof (fstart_mono p f pos H Hp).
      pose proof (send_mono p fs (fstart p f pos + fwidth f) H0 ltac:(lia)).
      destruct (fmember f nm) as [[o' g']|] eqn:E.
      * injection Hm as <- <-. destruct (IHf H _ _ _ E) as (? & ? & ?).
        repeat split; [done|lia|lia].
      * destruct (IHs p (fstart p f pos + fwidth f) nm o g ltac:(lia) Hm) as (? & ? & ?).
        repeat split; [done|lia|lia].
    + intros nm o g Hm. cbn [umember] in Hm. cbn [uend].
      destruct (fmember f nm) as [[o' g']|] eqn:E.
      * injection Hm as <- <-. destruct (IHf H _ _ _ E) as (? & ? & ?).
        repeat split; [done|lia|lia].
      * destruct (IHu nm o g Hm) as (? & ? & ?). repeat split; [done|lia|lia].
  - intros n t _ Hwf nm o g Hm. cbn [fmember] in Hm. case_match; [|done].
    injection Hm as <- <-. repeat split; [done|lia|lia].
  - intros t IH Hwf nm o g Hm. apply (IH Hwf nm o g Hm).
  - intros n t _ w Hwf nm o g Hm. cbn [fmember] in Hm. case_match; [|done].
    injection Hm as <- <-. repeat split; [done|lia|lia].
  - done.
Qed.

Lemma resolve_inside t path o t' :
  wf t = true -> resolve t path = Some (o, t') ->
  wf t' = true /\ 0 <= o /\ o + 8 * sizeof t' <= 8 * sizeof t.
Proof.
  revert t o. induction path as [|nm path IH]; intros t o Hwf H; cbn [resolve] in H.
  - injection H as <- <-. repeat split; [done|lia|lia].
  - destruct (member t nm) as [[o1 [? t1| | |]]|] eqn:Em; try discriminate.
    destruct (resolve t1 path) as [[o2 t2]|] eqn:Er; [|discriminate].
    injection H as <- <-.
    destruct (proj1 member_inside t Hwf nm _ _ Em) as (Hw1 & ? & Hs). cbn in Hw1, Hs.
    destruct (IH _ _ Hw1 Er) as (? & ? & ?). repeat split; [done|lia|lia].
Qed.

(** *** Members are aligned *)

Lemma member_aligned :
  (forall t, wf t = true -> natural t = true -> forall nm o n t', member t nm = Some (o, Fld n t') ->
     natural t' = true /\ (alignof t' | alignof t) /\ (8 * alignof t' | o)) /\
  (forall fs, wfs fs = true -> naturals fs = true ->
     (forall pos nm o n t', smember false fs pos nm = Some (o, Fld n t') ->
        natural t' = true /\ (alignof t' | aligns fs) /\ (8 * alignof t' | o)) /\
     (forall nm o n t', umember fs nm = Some (o, Fld n t') ->
        natural t' = true /\ (alignof t' | aligns fs) /\ (8 * alignof t' | o))) /\
  (forall f, wff f = true -> naturalf f = true -> forall nm o n t', fmember f nm = Some (o, Fld n t') ->
     natural t' = true /\ (alignof t' | falign f) /\ (8 * alignof t' | o) /\
     (forall pos, (8 * falign f | fstart false f pos))).
Proof.
  apply ctype_ind_all.
  - done.
  - done.
  - done.
  - intros p fs IH Hwf Hn nm o n t' Hm. cbn [wf natural] in *.
    destruct p; [done|]. destruct (IH Hwf Hn) as [IHs _]. exact (IHs 0 nm o n t' Hm).
  - intros fs IH Hwf Hn nm o n t' Hm. destruct (IH Hwf Hn) as [_ IHu]. exact (IHu nm o n t' Hm).
  - done.
  - intros f IHf fs IHfs Hwf Hn. wf_split.
    destruct (IHfs H2 H0) as [IHs IHu].
    pose proof (falign_wf f H1) as Hf. pose proof (aligns_wf fs H2) as Hfs.
    assert (falign f | aligns (FCons f fs)) as Hd1
      by (apply machine_align_divide; cbn [aligns]; auto using machine_align_max; lia).
    assert (aligns fs | aligns (FCons f fs)) as Hd2
      by (apply machine_align_divide; cbn [aligns]; auto using machine_align_max; lia).
    split.
    + intros pos nm o n t' Hm. cbn [smember] in Hm.
      destruct (fmember f nm) as [[o' g']|] eqn:E.
      * injection Hm as <- ->. destruct (IHf H1 H _ _ _ _ E) as (? & ? & ? & Hst).
        repeat split; [done|by etrans|]. apply Z.divide_add_r; [|done].
        etrans; [|apply (Hst pos)]. by apply Z.mul_divide_mono_l.
      * destruct (IHs _ _ _ _ _ Hm) as (? & ? & ?). repeat split; [done|by etrans|done].
    + intros nm o n t' Hm. cbn [umember] in Hm.
      destruct (fmember f nm) as [[o' g']|] eqn:E.
      * injection Hm as -> ->. destruct (IHf H1 H _ _ _ _ E) as (? & ? & ? & _).
        repeat split; [done|by etrans|done].
      * destruct (IHu _ _ _ _ Hm) as (? & ? & ?). repeat split; [done|by etrans|done].
  - intros n t _ Hwf Hn nm o n' t' Hm. cbn [fmember] in Hm. case_match; [|done].
    injection Hm as <- _ <-. repeat split; [done|apply Z.divide_refl|apply Z.divide_0_r|].
    intros pos. apply align_up_divide.
  - intros t IH Hwf Hn nm o n t' Hm. destruct (IH Hwf Hn nm o n t' Hm) as (? & ? & ?).
    repeat split; [done|done|done|]. intros pos. apply align_up_divide.
  - intros n t _ w Hwf Hn nm o n' t' Hm. cbn [fmember] in Hm. by case_match.
  - done.
Qed.

Lemma resolve_aligned t path o t' :
  wf t = true -> natural t = true -> resolve t path = Some (o, t') ->
  (alignof t' | alignof t) /\ (8 * alignof t' | o).
Proof.
  revert t o. induction path as [|nm path IH]; intros t o Hwf Hn H; cbn [resolve] in H.
  - injection H as <- <-. split; [apply Z.divide_refl|apply Z.divide_0_r].
  - destruct (member t nm) as [[o1 [n1 t1| | |]]|] eqn:Em; try discriminate.
    destruct (resolve t1 path) as [[o2 t2]|] eqn:Er; [|discriminate].
    injection H as <- <-.
    destruct (proj1 member_inside t Hwf nm _ _ Em) as (Hw1 & _ & _).
    destruct (proj1 member_aligned t Hwf Hn nm _ _ _ Em) as (Hn1 & Hd & Ho).
    destruct (IH _ _ Hw1 Hn1 Er) as (Hd2 & Ho2). split; [by etrans|].
    apply Z.divide_add_r; [|done]. etrans; [|exact Ho]. by apply Z.mul_divide_mono_l.
Qed.

(** *** Members do not overlap *)

(** Extents start at or after [lo], each one ending before the next, and the
    last one before [hi]. *)
Fixpoint ordered (lo hi : Z) (l : list (Z * Z)) : Prop :=
  match l with
  | [] => lo <= hi
  | (s, w) :: l => lo <= s /\ 0 <= w /\ ordered (s + w) hi l
  end.

Lemma extents_ordered p fs pos :
  wfs fs = true -> 0 <= pos -> ordered pos (send p fs pos) (extents p fs pos).
Proof.
  revert pos. induction fs as [|f fs IH]; intros pos Hwf Hpos; wf_split.
  - cbn. lia.
  - cbn [extents send ordered]. pose proof (fstart_mono p f pos H Hpos).
    pose proof (fwidth_nonneg f H). repeat split; [lia|lia|]. apply IH; [done|lia].
Qed.

Lemma ordered_disjoint lo hi l i j s1 w1 s2 w2 :
  ordered lo hi l -> (i < j)%nat ->
  l !! i = Some (s1, w1) -> l !! j = Some (s2, w2) -> s1 + w1 <= s2.
Proof.
  assert (Hlo : forall l lo hi j s w, ordered lo hi l -> l !! j = Some (s, w) -> lo <= s).
  { clear. induction l as [|[s' w'] l IH]; intros lo hi j s w Ho Hj; [done|].
    destruct Ho as (? & ? & Ho). destruct j as [|j]; simplify_eq/=; [lia|].
    specialize (IH _ _ _ _ _ Ho Hj). lia. }
  revert lo i j. induction l as [|[s w] l IH]; intros lo i j Ho Hij Hi Hj; [done|].
  destruct Ho as (? & ? & Ho). destruct j as [|j]; [lia|]. destruct i as [|i]; simplify_eq/=.
  - by eapply Hlo.
  - apply (IH (s + w) i j Ho); [lia|done|done].
Qed.
