(* ===== verification/Csum.v ===== *)
(** * The Internet checksum

    The reference definition of the one's complement checksum of RFC 1071
    (sum of the 16-bit words, carries folded back) in the byte order of the
    machine, and the arithmetic of updating it incrementally.  The helpers
    [bpf_l3_csum_replace] and [bpf_l4_csum_replace] promise such updates; the
    programs rely on them to keep packets valid. *)

From S2P Require Import Prelude Endian.

Fixpoint sum16 (e : endianness) (l : list byte) : Z :=
  match l with
  | a :: b :: l => of_bytes e [a; b] + sum16 e l
  | [a] => of_bytes e [a; Init.Byte.x00]
  | [] => 0
  end.

(** Two rounds of adding the carries back, enough below [2^32]. *)
Definition csum_fold (s : Z) : Z :=
  let s := s mod 65536 + s / 65536 in
  s mod 65536 + s / 65536.

(** A region carries a valid checksum when its words, the checksum included,
    sum to all ones. *)
Definition csum_valid (e : endianness) (l : list byte) : Prop :=
  csum_fold (sum16 e l) = 65535.

#[global] Instance csum_valid_dec e l : Decision (csum_valid e l).
Proof. unfold csum_valid. apply _. Defined.

(** The sum of the 16-bit words of a field of 2 or 4 bytes. *)
Definition words16 (v : Z) : Z := v mod 65536 + v / 65536.

(** ** Sums *)

Lemma pair_ind {A} (P : list A -> Prop) :
  P [] -> (forall a, P [a]) -> (forall a b l, P l -> P (a :: b :: l)) -> forall l, P l.
Proof.
  intros H0 H1 H2 l. enough (P l /\ forall a, P (a :: l)) by tauto.
  induction l as [|a l [IH IH']]; [split; auto|]. split; [apply IH'|].
  intros b. by apply H2.
Qed.

Lemma of_bytes_pair_range e a b : 0 <= of_bytes e [a; b] <= 65535.
Proof. pose proof (of_bytes_2_range e [a; b] eq_refl). lia. Qed.

Lemma sum16_range e l : 0 <= sum16 e l <= 65535 * ((Z.of_nat (length l) + 1) / 2).
Proof.
  induction l as [|a|a b l IH] using pair_ind.
  - cbn [sum16 length]. change ((Z.of_nat 0 + 1) / 2) with 0. lia.
  - cbn [sum16 length]. change ((Z.of_nat 1 + 1) / 2) with 1.
    pose proof (of_bytes_pair_range e a Init.Byte.x00). lia.
  - cbn [sum16 length].
    replace ((Z.of_nat (S (S (length l))) + 1) / 2)
      with (1 + (Z.of_nat (length l) + 1) / 2) by dlia.
    pose proof (of_bytes_pair_range e a b). lia.
Qed.

Lemma sum16_app e l1 l2 :
  Nat.even (length l1) = true -> sum16 e (l1 ++ l2) = sum16 e l1 + sum16 e l2.
Proof.
  induction l1 as [|a|a b l IH] using pair_ind; intros H.
  - done.
  - discriminate H.
  - cbn [sum16 app]. rewrite IH by exact H. lia.
Qed.

(** Fold is reduction modulo [65535], with all ones for a nonzero multiple. *)
Lemma csum_fold_spec s : 0 < s < 2 ^ 32 -> csum_fold s = (s - 1) mod 65535 + 1.
Proof. unfold csum_fold. intros. dlia. Qed.

Lemma csum_valid_iff e l :
  Z.of_nat (length l) <= 65556 -> 0 < sum16 e l ->
  csum_valid e l <-> sum16 e l mod 65535 = 0.
Proof.
  intros Hl Hp. pose proof (sum16_range e l).
  assert (sum16 e l < 2 ^ 32) by dlia.
  unfold csum_valid. rewrite csum_fold_spec by lia. dlia.
Qed.

Lemma sum16_to_bytes_2 e v : 0 <= v < 2 ^ 16 -> sum16 e (to_bytes e 2 v) = v.
Proof.
  intros Hv. assert (of_bytes e (to_bytes e 2 v) = v) as H.
  { rewrite of_to_bytes. by apply Z.mod_small. }
  destruct e; cbn [to_bytes le_split rev app sum16] in *; lia.
Qed.

Lemma sum16_to_bytes_4 e v : 0 <= v < 2 ^ 32 -> sum16 e (to_bytes e 4 v) = words16 v.
Proof.
  intros Hv. unfold words16.
  destruct e; cbn [to_bytes le_split rev app sum16 of_bytes le_combine];
    rewrite !byte_to_of_Z, !Z.div_div by lia; dlia.
Qed.

(** The words of a field read natively from the packet. *)
Lemma sum16_field_4 e l : length l = 4%nat -> sum16 e l = words16 (of_bytes e l).
Proof.
  intros H. rewrite <-(to_of_bytes e l 4) at 1 by done.
  apply sum16_to_bytes_4. by apply of_bytes_4_range.
Qed.

Lemma sum16_field_2 e l : length l = 2%nat -> sum16 e l = of_bytes e l.
Proof. intros H. destruct l as [|a [|b [|]]]; try done. cbn [sum16]. lia. Qed.

(** ** Byte order does not matter *)

Lemma sum16_swap l : exists k, sum16 LE l = 256 * sum16 BE l - 65535 * k.
Proof.
  induction l as [|a|a b l [k IH]] using pair_ind.
  - exists 0. done.
  - exists (byte_to_Z a). cbn [sum16 of_bytes rev app le_combine].
    change (byte_to_Z Init.Byte.x00) with 0. lia.
  - exists (k + byte_to_Z a). cbn [sum16 of_bytes rev app le_combine].
    rewrite IH. lia.
Qed.

Lemma sum16_pos_swap l : 0 < sum16 LE l <-> 0 < sum16 BE l.
Proof.
  assert (forall e, 0 <= sum16 e l) by (intros; apply sum16_range).
  induction l as [|a|a b l IH] using pair_ind; [done| |].
  - cbn [sum16 of_bytes rev app le_combine].
    change (byte_to_Z Init.Byte.x00) with 0. lia.
  - specialize (IH (fun e => proj1 (sum16_range e l))).
    pose proof (proj1 (sum16_range LE l)). pose proof (proj1 (sum16_range BE l)).
    cbn [sum16 of_bytes rev app le_combine].
    pose proof (byte_to_Z_range a). pose proof (byte_to_Z_range b). lia.
Qed.

(** A region is valid for a little-endian machine summing native words
    exactly when it is valid in network order, so validity is a property of
    the bytes on the wire and both targets agree on it. *)
Theorem csum_valid_byte_order (l : list byte) :
  Z.of_nat (length l) <= 65556 ->
  csum_valid LE l <-> csum_valid BE l.
Proof.
  intros Hl. pose proof (sum16_pos_swap l) as Hp.
  pose proof (proj1 (sum16_range LE l)). pose proof (proj1 (sum16_range BE l)).
  destruct (decide (0 < sum16 BE l)) as [Hpos|Hz].
  - rewrite !csum_valid_iff by tauto. destruct (sum16_swap l) as [k ->]. dlia.
  - assert (sum16 BE l = 0) as E1 by lia. assert (sum16 LE l = 0) as E2 by lia.
    unfold csum_valid. by rewrite E1, E2.
Qed.

(** ** Changing a field inside a summed region *)

Lemma slice_splice_inside {A} (a n o : nat) (w l : list A) :
  (a <= o)%nat -> (o + length w <= a + n)%nat -> (a + n <= length l)%nat ->
  slice a n (splice o w l)
  = slice a (o - a) l ++ w ++ slice (o + length w) (a + n - (o + length w)) l.
Proof.
  intros H1 H2 H3.
  replace n with ((o - a) + (length w + (a + n - (o + length w))))%nat at 1 by lia.
  rewrite !slice_app_split. replace (a + (o - a))%nat with o by lia.
  rewrite slice_splice_before by lia. rewrite slice_splice_same by lia.
  rewrite slice_splice_after by lia. done.
Qed.

Lemma sum16_slice_splice e a n o w l :
  (a <= o)%nat -> (o + length w <= a + n)%nat -> (a + n <= length l)%nat ->
  Nat.even (o - a) = true -> Nat.even (length w) = true ->
  sum16 e (slice a n (splice o w l))
  = sum16 e (slice a n l) - sum16 e (slice o (length w) l) + sum16 e w.
Proof.
  intros H1 H2 H3 Ho Hw.
  rewrite slice_splice_inside by done.
  rewrite <-(splice_id o (length w) l) at 3 by lia.
  rewrite slice_splice_inside by (rewrite ?length_slice; lia).
  rewrite length_slice by lia.
  rewrite !sum16_app by (rewrite ?length_slice by lia; done). lia.
Qed.

Lemma csum_valid_byte_order_witness :
  let hdr := map byte_of_Z
    [69;0;0;115;0;0;64;0;64;17;184;97;192;168;0;1;192;168;0;199] in
  csum_valid LE hdr /\ csum_valid BE hdr.
Proof.
  cbv zeta.
  assert (csum_valid BE (map byte_of_Z
    [69;0;0;115;0;0;64;0;64;17;184;97;192;168;0;1;192;168;0;199])) as H
    by (vm_compute; reflexivity).
  split; [|exact H].
  apply csum_valid_byte_order; [vm_compute; discriminate|exact H].
Defined.
