(* ===== verification/Helpers.v ===== *)
(** * The interface to the kernel: packets, helpers and program state

    The kernel's BPF helpers are declared in [include/bpf/bpf_helper_defs.h]
    and implemented in the kernel.  Here they are the fields of a class
    [BpfHelpers]; [BpfHelperLaws] states what the comments of
    [bpf_helper_defs.h] promise of them, and [BpfHelpersSucceed] that a call
    within its contract succeeds.  Programs run in the monad [M] over a state
    with the packet, the BPF maps and the calls made so far; a direct packet
    access outside the verified window is [None]. *)

From S2P Require Import Prelude Endian Csum.

(** ** Packets *)

(** A socket buffer: its bytes, the length of the linear part that direct
    packet access may touch ([data_end - data]), the two [__sk_buff] fields
    the programs read, and whether its layer 4 checksum is left to the device
    (the field then does not hold a checksum of the bytes). *)
Record sk_buff := mk_skb {
  skb_bytes : list byte;
  skb_headlen : Z;
  skb_protocol : Z;
  skb_ifindex : Z;
  skb_csum_partial : bool;
}.

Definition skb_len (skb : sk_buff) : Z := Z.of_nat (length (skb_bytes skb)).

Definition set_bytes (bs : list byte) (skb : sk_buff) : sk_buff :=
  mk_skb bs (skb_headlen skb) (skb_protocol skb) (skb_ifindex skb) (skb_csum_partial skb).

(** Everything but the bytes and the size of the linear part. *)
Definition same_meta (a b : sk_buff) : Prop :=
  skb_protocol a = skb_protocol b /\ skb_ifindex a = skb_ifindex b /\
  skb_csum_partial a = skb_csum_partial b.

(** ** Map values *)

(** [struct ptp_snat_entry] of snat.c *)
Record ptp_snat_entry := { snat_ip_addr : Z; snat_iface_idx : Z }.

(** [struct dnat_target] of dnat.c *)
Record dnat_target := {
  dnat_ip_addr : Z; dnat_iface_idx : Z; dnat_mac_addr : list byte }.

(** [struct veth_peer] and [struct net_data] of lib/net_data.h *)
Record veth_peer := { if_index : Z; if_addr : Z; mac_addr : list byte }.

Record net_data := { pod_peer : veth_peer; host_peer : veth_peer; host_port : Z }.

(** [struct veth_pair] and [struct original_dst_entry] of tproxy.c *)
Record veth_pair := { host_if_index : Z; host_if_addr : Z }.

Record original_dst_entry := { od_ip_addr : Z; od_port : Z }.

(** The pinned maps, as finite functions from the key's integer value. *)
Record bpf_maps := {
  ptp_snat_config : gmap Z ptp_snat_entry;
  net_data_map : gmap Z net_data;
  ptp_dnat_targets : gmap Z dnat_target;
  veth_pair_map : gmap Z veth_pair;
  original_dst_map : gmap Z original_dst_entry;
}.

(** ** Helper calls *)

(** The calls a program makes, with the arguments that matter outside. *)
Inductive helper_call :=
| CallLoad (offset len : Z)
| CallStore (offset : Z) (from : list byte) (flags : Z)
| CallL3Csum (offset from to size : Z)
| CallL4Csum (offset from to flags : Z)
| CallMapUpdate (key flags : Z)
| CallRedirect (ifindex flags : Z)
| CallRedirectPeer (ifindex flags : Z)
| CallRedirectNeigh (ifindex plen flags : Z)
| CallPrintk (fmt : string) (args : list Z)
| CallVprintk (fmt : string) (args : list Z).

(** The helper's number, the operand of the BPF [call] instruction. *)
Definition helper_number (c : helper_call) : Z :=
  match c with
  | CallMapUpdate _ _ => 2
  | CallPrintk _ _ => 6
  | CallStore _ _ _ => 9
  | CallL3Csum _ _ _ _ => 10
  | CallL4Csum _ _ _ _ => 11
  | CallRedirect _ _ => 23
  | CallLoad _ _ => 26
  | CallRedirectNeigh _ _ _ => 152
  | CallRedirectPeer _ _ => 155
  | CallVprintk _ _ => 177
  end.

(** The helpers.  The first argument of each is the number of calls made
    before, so that two calls with equal arguments may behave differently. *)
Class BpfHelpers := {
  h_load : nat -> sk_buff -> Z -> Z -> Z * list byte;
  h_store : nat -> sk_buff -> Z -> list byte -> Z -> Z * sk_buff;
  h_l3_csum : nat -> sk_buff -> Z -> Z -> Z -> Z -> Z * sk_buff;
  h_l4_csum : nat -> sk_buff -> Z -> Z -> Z -> Z -> Z * sk_buff;
  h_map_update : nat -> gmap Z original_dst_entry -> Z -> original_dst_entry -> Z ->
                 Z * gmap Z original_dst_entry;
  h_redirect : nat -> sk_buff -> Z -> Z -> Z;
  h_redirect_peer : nat -> sk_buff -> Z -> Z -> Z;
  h_redirect_neigh : nat -> sk_buff -> Z -> Z -> Z -> Z;
}.

Definition BPF_F_HDR_FIELD_MASK : Z := 15.
Definition BPF_F_PSEUDO_HDR : Z := 16.
Definition BPF_F_MARK_MANGLED_0 : Z := 32.
Definition BPF_ANY : Z := 0.
Definition TC_ACT_UNSPEC : Z := -1.
Definition TC_ACT_OK : Z := 0.
Definition TC_ACT_SHOT : Z := 2.
(** [TCX_REDIRECT] of [enum tcx_action_base] *)
Definition TC_ACT_REDIRECT : Z := 7.

(** The two ways to call the checksum helpers that are documented: the field's
    size with its old and new value, or a zero size and old value with the
    difference in [to]. *)
Definition csum_contract (size from : Z) : bool :=
  (size =? 2) || (size =? 4) || ((size =? 0) && (from =? 0)).

Definition l4_size (flags : Z) : Z := Z.land flags BPF_F_HDR_FIELD_MASK.

(** [n] bytes at [off] are inside the packet. *)
Definition in_packet (skb : sk_buff) (off n : Z) : Prop :=
  0 <= off /\ 0 <= n /\ off + n <= skb_len skb.

(** [skb'] is [skb] with the two bytes at [off] replaced by the native
    representation of [c]. *)
Definition csum_written (e : endianness) (skb : sk_buff) (off c : Z) (skb' : sk_buff) : Prop :=
  in_packet skb off 2 /\ 0 <= c < 2 ^ 16 /\ same_meta skb skb' /\
  skb_bytes skb' = splice (Z.to_nat off) (to_bytes e 2 c) (skb_bytes skb).

(** The 16-bit field at [off], in native order. *)
Definition field16 (e : endianness) (skb : sk_buff) (off : Z) : Z :=
  of_bytes e (slice (Z.to_nat off) 2 (skb_bytes skb)).

(** [max_entries] of [original_dst_map] *)
Definition original_dst_max : Z := 10000.

(** What the documentation promises. *)
Class BpfHelperLaws (e : endianness) (H : BpfHelpers) : Prop := {
  (** The output buffer of [bpf_skb_load_bytes] has the requested length, and
      on success holds the packet's bytes. *)
  load_length t skb off n : 0 <= n -> length (h_load t skb off n).2 = Z.to_nat n;
  load_ok t skb off n :
    (h_load t skb off n).1 = 0 ->
    in_packet skb off n /\
    (h_load t skb off n).2 = slice (Z.to_nat off) (Z.to_nat n) (skb_bytes skb);
  (** [bpf_skb_store_bytes] without flags stores the bytes, or fails and
      changes nothing. *)
  store_ok t skb off bs :
    let '(r, skb') := h_store t skb off bs 0 in
    same_meta skb skb' /\
    (r = 0 -> in_packet skb off (Z.of_nat (length bs)) /\
              skb_bytes skb' = splice (Z.to_nat off) bs (skb_bytes skb)) /\
    (r <> 0 -> skb_bytes skb' = skb_bytes skb);
  (** The checksum helpers write at most the checksum at [off]; with an old and
      a new value of 2 or 4 bytes, a checksum kept in the packet is updated
      incrementally. *)
  l3_frame t skb off from to size :
    let '(r, skb') := h_l3_csum t skb off from to size in
    (same_meta skb skb' /\ skb_bytes skb' = skb_bytes skb) \/
    (exists c, csum_written e skb off c skb');
  l3_update t skb off from to size :
    (size = 2 \/ size = 4) -> 0 <= from < 2 ^ (8 * size) -> 0 <= to < 2 ^ (8 * size) ->
    let '(r, skb') := h_l3_csum t skb off from to size in
    r = 0 ->
    exists c, csum_written e skb off c skb' /\
      c mod 65535 = (field16 e skb off + words16 from - words16 to) mod 65535;
  l4_frame t skb off from to flags :
    let '(r, skb') := h_l4_csum t skb off from to flags in
    (same_meta skb skb' /\ skb_bytes skb' = skb_bytes skb) \/
    (exists c, csum_written e skb off c skb');
  l4_update t skb off from to size flags :
    (size = 2 \/ size = 4) -> (flags = size \/ flags = Z.lor BPF_F_PSEUDO_HDR size) ->
    0 <= from < 2 ^ (8 * size) -> 0 <= to < 2 ^ (8 * size) ->
    skb_csum_partial skb = false ->
    let '(r, skb') := h_l4_csum t skb off from to flags in
    r = 0 ->
    exists c, csum_written e skb off c skb' /\
      c mod 65535 = (field16 e skb off + words16 from - words16 to) mod 65535;
  (** [bpf_map_update_elem] with [BPF_ANY] adds or replaces the entry; an LRU
      map may drop others to make room.  On failure nothing changes. *)
  map_update_ok t m k v :
    let '(r, m') := h_map_update t m k v BPF_ANY in
    (r = 0 -> m' !! k = Some v /\
       forall k', k' <> k -> m' !! k' = m !! k' \/ m' !! k' = None) /\
    (r <> 0 -> m' = m);
  (** It keeps [original_dst_map] within the [max_entries] of its declaration. *)
  map_update_size t m k v f :
    Z.of_nat (size m) <= original_dst_max ->
    Z.of_nat (size (h_map_update t m k v f).2) <= original_dst_max;
  (** The redirect helpers return [TC_ACT_REDIRECT] or [TC_ACT_SHOT]. *)
  redirect_ret t skb i f :
    h_redirect t skb i f = TC_ACT_REDIRECT \/ h_redirect t skb i f = TC_ACT_SHOT;
  redirect_peer_ret t skb i f :
    h_redirect_peer t skb i f = TC_ACT_REDIRECT \/ h_redirect_peer t skb i f = TC_ACT_SHOT;
  redirect_neigh_ret t skb i p f :
    h_redirect_neigh t skb i p f = TC_ACT_REDIRECT \/
    h_redirect_neigh t skb i p f = TC_ACT_SHOT;
}.

(** The calls within their contract and inside the packet succeed: the packet
    is writable and memory is available. *)
Class BpfHelpersSucceed (H : BpfHelpers) : Prop := {
  load_succeeds t skb off n : in_packet skb off n -> (h_load t skb off n).1 = 0;
  store_succeeds t skb off bs :
    in_packet skb off (Z.of_nat (length bs)) -> (h_store t skb off bs 0).1 = 0;
  l3_succeeds t skb off from to size :
    in_packet skb off 2 -> csum_contract size from = true ->
    (h_l3_csum t skb off from to size).1 = 0;
  l4_succeeds t skb off from to flags :
    in_packet skb off 2 -> csum_contract (l4_size flags) from = true ->
    (h_l4_csum t skb off from to flags).1 = 0;
  map_update_succeeds t m k v : (h_map_update t m k v BPF_ANY).1 = 0;
}.

(** ** Program state and monad *)

(** [st_gen] counts the events that invalidate packet pointers; [st_calls] is
    the helper calls made, most recent first. *)
Record state := mk_state {
  st_skb : sk_buff;
  st_gen : nat;
  st_maps : bpf_maps;
  st_calls : list helper_call;
}.

Definition pkt (s : state) : list byte := skb_bytes (st_skb s).

Definition M (A : Type) : Type := state -> option (A * state).

#[global] Instance M_ret : MRet M := fun A a s => Some (a, s).
#[global] Instance M_bind : MBind M := fun A B f m s =>
  match m s with
  | Some (a, s') => f a s'
  | None => None
  end.

(** Use of an uninitialised pointer. *)
Definition fault {A} : M A := fun _ => None.

(** Packet pointers: an offset from the start of the packet and the pointer
    generation they were derived in. *)
Record pkt_ptr := { p_off : Z; p_gen : nat }.

Definition ptr_add (p : pkt_ptr) (k : Z) : pkt_ptr := {| p_off := p_off p + k; p_gen := p_gen p |}.

(** [p > q] *)
Definition ptr_gtb (p q : pkt_ptr) : bool := p_off q <? p_off p.

(** [ctx->data], [ctx->data_end], [ctx->protocol], [ctx->ifindex] *)
Definition ctx_data : M pkt_ptr := fun s => Some ({| p_off := 0; p_gen := st_gen s |}, s).
Definition ctx_data_end : M pkt_ptr := fun s =>
  Some ({| p_off := skb_headlen (st_skb s); p_gen := st_gen s |}, s).
Definition ctx_protocol : M Z := fun s => Some (skb_protocol (st_skb s), s).
Definition ctx_ifindex : M Z := fun s => Some (skb_ifindex (st_skb s), s).

(** Direct packet access of [n] bytes: the pointer must be current and the
    bytes inside the linear part. *)
Definition ptr_ok (s : state) (p : pkt_ptr) (n : Z) : bool :=
  (p_gen p =? st_gen s)%nat && (0 <=? p_off p) && (p_off p + n <=? skb_headlen (st_skb s)).

Definition pkt_read (p : pkt_ptr) (n : Z) : M (list byte) := fun s =>
  if ptr_ok s p n then Some (slice (Z.to_nat (p_off p)) (Z.to_nat n) (pkt s), s) else None.

Definition with_bytes (bs : list byte) (s : state) : state :=
  mk_state (set_bytes bs (st_skb s)) (st_gen s) (st_maps s) (st_calls s).

Definition pkt_write (p : pkt_ptr) (bs : list byte) : M unit := fun s =>
  if ptr_ok s p (Z.of_nat (length bs))
  then Some (tt, with_bytes (splice (Z.to_nat (p_off p)) bs (pkt s)) s) else None.

(** ** The helpers as operations of programs

    A call is recorded; a helper that may move the packet buffer starts a new
    pointer generation. *)

Definition log_call (c : helper_call) (s : state) : state :=
  mk_state (st_skb s) (st_gen s) (st_maps s) (c :: st_calls s).

Definition new_skb (skb : sk_buff) (c : helper_call) (s : state) : state :=
  mk_state skb (S (st_gen s)) (st_maps s) (c :: st_calls s).

Definition set_original_dst (m : gmap Z original_dst_entry) (mm : bpf_maps) : bpf_maps :=
  {| ptp_snat_config := ptp_snat_config mm; net_data_map := net_data_map mm;
     ptp_dnat_targets := ptp_dnat_targets mm; veth_pair_map := veth_pair_map mm;
     original_dst_map := m |}.

Section ops.
Context `{H : BpfHelpers}.

Definition bpf_skb_load_bytes (offset len : Z) : M (Z * list byte) := fun s =>
  Some (h_load (length (st_calls s)) (st_skb s) offset len,
        log_call (CallLoad offset len) s).

Definition bpf_skb_store_bytes (offset : Z) (from : list byte) (flags : Z) : M Z := fun s =>
  let '(r, skb) := h_store (length (st_calls s)) (st_skb s) offset from flags in
  Some (r, new_skb skb (CallStore offset from flags) s).

Definition bpf_l3_csum_replace (offset from to size : Z) : M Z := fun s =>
  let '(r, skb) := h_l3_csum (length (st_calls s)) (st_skb s) offset from to size in
  Some (r, new_skb skb (CallL3Csum offset from to size) s).

Definition bpf_l4_csum_replace (offset from to flags : Z) : M Z := fun s =>
  let '(r, skb) := h_l4_csum (length (st_calls s)) (st_skb s) offset from to flags in
  Some (r, new_skb skb (CallL4Csum offset from to flags) s).

Definition bpf_map_lookup_elem {V} (map : bpf_maps -> gmap Z V) (key : Z) : M (option V) :=
  fun s => Some (map (st_maps s) !! key, s).

(** Update of [original_dst_map], the only map the programs write. *)
Definition bpf_map_update_elem (key : Z) (value : original_dst_entry) (flags : Z) : M Z :=
  fun s =>
  let '(r, m) := h_map_update (length (st_calls s)) (original_dst_map (st_maps s))
                   key value flags in
  Some (r, mk_state (st_skb s) (st_gen s) (set_original_dst m (st_maps s))
             (CallMapUpdate key flags :: st_calls s)).

Definition bpf_redirect (ifindex flags : Z) : M Z := fun s =>
  Some (h_redirect (length (st_calls s)) (st_skb s) ifindex flags,
        log_call (CallRedirect ifindex flags) s).

Definition bpf_redirect_peer (ifindex flags : Z) : M Z := fun s =>
  Some (h_redirect_peer (length (st_calls s)) (st_skb s) ifindex flags,
        log_call (CallRedirectPeer ifindex flags) s).

Definition bpf_redirect_neigh (ifindex plen flags : Z) : M Z := fun s =>
  Some (h_redirect_neigh (length (st_calls s)) (st_skb s) ifindex plen flags,
        log_call (CallRedirectNeigh ifindex plen flags) s).

Definition bpf_trace_printk (fmt : string) (args : list Z) : M unit := fun s =>
  Some (tt, log_call (CallPrintk fmt args) s).

Definition bpf_trace_vprintk (fmt : string) (args : list Z) : M unit := fun s =>
  Some (tt, log_call (CallVprintk fmt args) s).

(** The macro picks the helper by the number of arguments. *)
Definition bpf_printk (fmt : string) (args : list Z) : M unit :=
  if (length args <=? 3)%nat then bpf_trace_printk fmt args else bpf_trace_vprintk fmt args.
End ops.

(** ** Weakest preconditions *)

(** [wp m Q s]: from [s], [m] does not fault and ends in [Q]. *)
Definition wp {A} (m : M A) (Q : A -> state -> Prop) (s : state) : Prop :=
  match m s with Some (a, s') => Q a s' | None => False end.

Lemma wp_ret {A} (a : A) Q s : Q a s -> wp (mret a) Q s.
Proof. done. Qed.

Lemma wp_bind {A B} (m : M A) (f : A -> M B) Q s :
  wp m (fun a s' => wp (f a) Q s') s -> wp (m ≫= f) Q s.
Proof. unfold wp, mbind, M_bind. by destruct (m s) as [[a s']|]. Qed.

Lemma wp_mono {A} (m : M A) (Q R : A -> state -> Prop) s :
  wp m Q s -> (forall a s', Q a s' -> R a s') -> wp m R s.
Proof. unfold wp. destruct (m s) as [[a s']|]; auto. Qed.

Lemma wp_elim {A} (m : M A) Q s : wp m Q s -> exists a s', m s = Some (a, s') /\ Q a s'.
Proof. unfold wp. destruct (m s) as [[a s']|]; [eauto|done]. Qed.

(** A run with a known result. *)
Lemma wp_exact {A} (m : M A) s a s' :
  wp m (fun a1 s1 => a1 = a /\ s1 = s') s -> m s = Some (a, s').
Proof. intros Hw. apply wp_elim in Hw as (? & ? & E & -> & ->). exact E. Qed.

(** Two runs agree when the first does not fault. *)
Lemma wp_bind_inv {A B} (m : M A) (f : A -> M B) s a s' :
  m s = Some (a, s') -> (m ≫= f) s = f a s'.
Proof. unfold mbind, M_bind. by intros ->. Qed.

(** *** Rules for the context and direct packet access *)

Lemma wp_ctx_data Q s : Q {| p_off := 0; p_gen := st_gen s |} s -> wp ctx_data Q s.
Proof. done. Qed.
Lemma wp_ctx_data_end Q s :
  Q {| p_off := skb_headlen (st_skb s); p_gen := st_gen s |} s -> wp ctx_data_end Q s.
Proof. done. Qed.
Lemma wp_ctx_protocol Q s : Q (skb_protocol (st_skb s)) s -> wp ctx_protocol Q s.
Proof. done. Qed.
Lemma wp_ctx_ifindex Q s : Q (skb_ifindex (st_skb s)) s -> wp ctx_ifindex Q s.
Proof. done. Qed.

Lemma ptr_ok_intro s p n :
  p_gen p = st_gen s -> 0 <= p_off p -> p_off p + n <= skb_headlen (st_skb s) ->
  ptr_ok s p n = true.
Proof. unfold ptr_ok. intros -> ? ?. rewrite Nat.eqb_refl. lia. Qed.

Lemma wp_pkt_read p n Q s :
  p_gen p = st_gen s -> 0 <= p_off p -> p_off p + n <= skb_headlen (st_skb s) ->
  Q (slice (Z.to_nat (p_off p)) (Z.to_nat n) (pkt s)) s -> wp (pkt_read p n) Q s.
Proof. intros. unfold wp, pkt_read. by rewrite ptr_ok_intro. Qed.

Lemma wp_pkt_write p bs Q s :
  p_gen p = st_gen s -> 0 <= p_off p ->
  p_off p + Z.of_nat (length bs) <= skb_headlen (st_skb s) ->
  Q tt (with_bytes (splice (Z.to_nat (p_off p)) bs (pkt s)) s) -> wp (pkt_write p bs) Q s.
Proof. intros. unfold wp, pkt_write. by rewrite ptr_ok_intro. Qed.

Lemma wp_map_lookup {V} (m : bpf_maps -> gmap Z V) k Q s :
  Q (m (st_maps s) !! k) s -> wp (bpf_map_lookup_elem m k) Q s.
Proof. done. Qed.

Lemma wp_printk fmt args Q s :
  Q tt (log_call (if (length args <=? 3)%nat then CallPrintk fmt args
                  else CallVprintk fmt args) s) ->
  wp (bpf_printk fmt args) Q s.
Proof. unfold bpf_printk. by destruct (length args <=? 3)%nat. Qed.

(** *** Rules for helpers about which nothing is assumed *)

Section any.
Context `{H : BpfHelpers}.

Lemma wp_load_any off n Q s :
  (forall r bs, Q (r, bs) (log_call (CallLoad off n) s)) ->
  wp (bpf_skb_load_bytes off n) Q s.
Proof. intros HQ. unfold wp, bpf_skb_load_bytes. destruct h_load. apply HQ. Qed.

Lemma wp_store_any off bs f Q s :
  (forall r skb, Q r (new_skb skb (CallStore off bs f) s)) ->
  wp (bpf_skb_store_bytes off bs f) Q s.
Proof. intros HQ. unfold wp, bpf_skb_store_bytes. destruct h_store. apply HQ. Qed.

Lemma wp_l3_any off from to size Q s :
  (forall r skb, Q r (new_skb skb (CallL3Csum off from to size) s)) ->
  wp (bpf_l3_csum_replace off from to size) Q s.
Proof. intros HQ. unfold wp, bpf_l3_csum_replace. destruct h_l3_csum. apply HQ. Qed.

Lemma wp_l4_any off from to f Q s :
  (forall r skb, Q r (new_skb skb (CallL4Csum off from to f) s)) ->
  wp (bpf_l4_csum_replace off from to f) Q s.
Proof. intros HQ. unfold wp, bpf_l4_csum_replace. destruct h_l4_csum. apply HQ. Qed.

Lemma wp_map_update_any k v f Q s :
  (forall r m, Q r (mk_state (st_skb s) (st_gen s) (set_original_dst m (st_maps s))
                     (CallMapUpdate k f :: st_calls s))) ->
  wp (bpf_map_update_elem k v f) Q s.
Proof. intros HQ. unfold wp, bpf_map_update_elem. destruct h_map_update. apply HQ. Qed.

End any.

(** *** Rules for helpers that keep their promises *)

(** [s'] differs from [s] by one helper call that may have changed bytes. *)
Definition evolves (s : state) (c : helper_call) (s' : state) : Prop :=
  same_meta (st_skb s) (st_skb s') /\ st_maps s' = st_maps s /\
  st_calls s' = c :: st_calls s.

Section laws.
Context {e : endianness} {H : BpfHelpers}.
Context {L : BpfHelperLaws e H} {S : BpfHelpersSucceed H}.

Lemma wp_load off n Q s :
  in_packet (st_skb s) off n ->
  Q (0, slice (Z.to_nat off) (Z.to_nat n) (pkt s)) (log_call (CallLoad off n) s) ->
  wp (bpf_skb_load_bytes off n) Q s.
Proof using L S.
  intros Hin HQ. unfold wp, bpf_skb_load_bytes.
  pose proof (load_succeeds (length (st_calls s)) _ _ _ Hin) as Hr.
  pose proof (load_ok _ _ _ _ Hr) as [_ Hb].
  destruct h_load as [r bs]. simpl in *. by subst.
Qed.

Lemma wp_store off bs Q s :
  in_packet (st_skb s) off (Z.of_nat (length bs)) ->
  (forall s', evolves s (CallStore off bs 0) s' ->
     pkt s' = splice (Z.to_nat off) bs (pkt s) -> Q 0 s') ->
  wp (bpf_skb_store_bytes off bs 0) Q s.
Proof using L S.
  intros Hin HQ. unfold wp, bpf_skb_store_bytes.
  pose proof (store_succeeds (length (st_calls s)) _ _ _ Hin) as Hr.
  pose proof (store_ok (length (st_calls s)) (st_skb s) off bs) as Hs.
  destruct h_store as [r skb]. simpl in Hr. subst.
  destruct Hs as (Hm & Hok & _). destruct (Hok eq_refl) as [_ Hb].
  by apply HQ.
Qed.

Lemma wp_l3 off from to size Q s :
  in_packet (st_skb s) off 2 -> (size = 2 \/ size = 4) ->
  0 <= from < 2 ^ (8 * size) -> 0 <= to < 2 ^ (8 * size) ->
  (forall s' c, evolves s (CallL3Csum off from to size) s' -> 0 <= c < 2 ^ 16 ->
     pkt s' = splice (Z.to_nat off) (to_bytes e 2 c) (pkt s) ->
     c mod 65535 = (field16 e (st_skb s) off + words16 from - words16 to) mod 65535 ->
     Q 0 s') ->
  wp (bpf_l3_csum_replace off from to size) Q s.
Proof using L S.
  intros Hin Hsz Hf Ht HQ. unfold wp, bpf_l3_csum_replace.
  pose proof (l3_update (length (st_calls s)) (st_skb s) off from to size Hsz Hf Ht) as Hu.
  assert (csum_contract size from = true) as Hc
    by (unfold csum_contract; destruct Hsz as [-> | ->]; done).
  pose proof (l3_succeeds (length (st_calls s)) _ _ from to size Hin Hc) as Hr.
  destruct h_l3_csum as [r skb]. simpl in Hr. subst.
  destruct (Hu eq_refl) as (c & (_ & Hcr & Hm & Hb) & Hmod).
  eapply HQ; eauto. split; [exact Hm|done].
Qed.

Lemma wp_l4 off from to size flags Q s :
  in_packet (st_skb s) off 2 -> (size = 2 \/ size = 4) ->
  (flags = size \/ flags = Z.lor BPF_F_PSEUDO_HDR size) ->
  0 <= from < 2 ^ (8 * size) -> 0 <= to < 2 ^ (8 * size) ->
  (forall s' c, evolves s (CallL4Csum off from to flags) s' -> 0 <= c < 2 ^ 16 ->
     pkt s' = splice (Z.to_nat off) (to_bytes e 2 c) (pkt s) ->
     (skb_csum_partial (st_skb s) = false ->
      c mod 65535 = (field16 e (st_skb s) off + words16 from - words16 to) mod 65535) ->
     Q 0 s') ->
  wp (bpf_l4_csum_replace off from to flags) Q s.
Proof using L S.
  intros Hin Hsz Hfl Hf Ht HQ. unfold wp, bpf_l4_csum_replace.
  pose proof (l4_update (length (st_calls s)) (st_skb s) off from to size flags
    Hsz Hfl Hf Ht) as Hu.
  pose proof (l4_frame (length (st_calls s)) (st_skb s) off from to flags) as Hfr.
  assert (csum_contract (l4_size flags) from = true) as Hc.
  { destruct Hfl as [-> | ->], Hsz as [-> | ->]; done. }
  pose proof (l4_succeeds (length (st_calls s)) _ _ from to flags Hin Hc) as Hr.
  destruct h_l4_csum as [r skb]. simpl in Hr. subst.
  destruct (skb_csum_partial (st_skb s)) eqn:Ep.
  - destruct Hfr as [[Hm Hb]|[c (_ & Hcr & Hm & Hb)]].
    + apply (HQ _ (field16 e (st_skb s) off)).
      * split; [exact Hm|done].
      * apply of_bytes_2_range, length_slice. unfold in_packet, skb_len in Hin. lia.
      * unfold pkt at 1. simpl. rewrite Hb. unfold field16, pkt.
        assert (Z.to_nat off + 2 <= length (skb_bytes (st_skb s)))%nat
          by (unfold in_packet, skb_len in Hin; lia).
        rewrite to_of_bytes by (rewrite length_slice; lia). by rewrite splice_id.
      * done.
    + apply (HQ _ c); [split; [exact Hm|done]|done|exact Hb|done].
  - destruct (Hu eq_refl eq_refl) as (c & (_ & Hcr & Hm & Hb) & Hmod).
    apply (HQ _ c); [split; [exact Hm|done]|done|exact Hb|done].
Qed.

(** A layer 4 checksum call outside its contract still only touches the
    checksum. *)
Lemma wp_l4_frame off from to flags Q s :
  in_packet (st_skb s) off 2 ->
  (forall s' r w, evolves s (CallL4Csum off from to flags) s' -> length w = 2%nat ->
     pkt s' = splice (Z.to_nat off) w (pkt s) -> Q r s') ->
  wp (bpf_l4_csum_replace off from to flags) Q s.
Proof using L.
  intros Hin HQ. unfold wp, bpf_l4_csum_replace.
  pose proof (l4_frame (length (st_calls s)) (st_skb s) off from to flags) as Hfr.
  destruct h_l4_csum as [r skb].
  destruct Hfr as [[Hm Hb]|[c (_ & Hcr & Hm & Hb)]].
  - assert (Z.to_nat off + 2 <= length (pkt s))%nat
      by (unfold in_packet, skb_len in Hin; unfold pkt; lia).
    apply (HQ _ r (slice (Z.to_nat off) 2 (pkt s))).
    + split; [exact Hm|done].
    + by apply length_slice.
    + rewrite splice_id by done. exact Hb.
  - apply (HQ _ r (to_bytes e 2 c));
      [split; [exact Hm|done]|apply length_to_bytes|exact Hb].
Qed.

Lemma wp_map_update k v Q s :
  (forall m', m' !! k = Some v ->
     (forall k', k' <> k -> m' !! k' = original_dst_map (st_maps s) !! k' \/ m' !! k' = None) ->
     Q 0 (mk_state (st_skb s) (st_gen s) (set_original_dst m' (st_maps s))
            (CallMapUpdate k BPF_ANY :: st_calls s))) ->
  wp (bpf_map_update_elem k v BPF_ANY) Q s.
Proof using L S.
  intros HQ. unfold wp, bpf_map_update_elem.
  pose proof (map_update_ok (length (st_calls s)) (original_dst_map (st_maps s)) k v) as Hu.
  pose proof (map_update_succeeds (length (st_calls s)) (original_dst_map (st_maps s)) k v) as Hr.
  destruct h_map_update as [r m']. simpl in Hr. subst.
  destruct Hu as [Hok _]. destruct (Hok eq_refl). by apply HQ.
Qed.
End laws.
