(* ===== verification/RefHelpers.v ===== *)
(** * A concrete implementation of the helper interface

    An executable instance of [BpfHelpers] that satisfies the laws and succeeds
    on every call within its contract.  It shows that the assumptions made of
    the kernel are satisfiable and lets the programs run on concrete packets;
    an out-of-contract checksum call is rejected and changes nothing. *)

From S2P Require Import Prelude Endian Csum Helpers.

Section ref.
Context (e : endianness).

Definition in_packetb (skb : sk_buff) (off n : Z) : bool :=
  (0 <=? off) && (0 <=? n) && (off + n <=? skb_len skb).

Lemma in_packetb_spec skb off n : in_packetb skb off n = true <-> in_packet skb off n.
Proof. unfold in_packetb, in_packet. lia. Qed.

Definition ref_load (t : nat) (skb : sk_buff) (off n : Z) : Z * list byte :=
  if in_packetb skb off n
  then (0, slice (Z.to_nat off) (Z.to_nat n) (skb_bytes skb))
  else (-14, replicate (Z.to_nat n) Init.Byte.x00).

Definition ref_store (t : nat) (skb : sk_buff) (off : Z) (bs : list byte) (flags : Z)
    : Z * sk_buff :=
  if in_packetb skb off (Z.of_nat (length bs))
  then (0, set_bytes (splice (Z.to_nat off) bs (skb_bytes skb)) skb)
  else (-14, skb).

Definition ref_csum (skb : sk_buff) (off from to size : Z) : Z * sk_buff :=
  if in_packetb skb off 2 then
    if csum_contract size from then
      let c := (field16 e skb off + words16 from - words16 to) mod 65535 in
      (0, set_bytes (splice (Z.to_nat off) (to_bytes e 2 c) (skb_bytes skb)) skb)
    else (-22, skb)
  else (-14, skb).

Definition ref_l4_csum (t : nat) (skb : sk_buff) (off from to flags : Z) : Z * sk_buff :=
  if in_packetb skb off 2 && csum_contract (l4_size flags) from && skb_csum_partial skb
  then (0, skb)
  else ref_csum skb off from to (l4_size flags).

(** An entry is dropped when the map is full. *)
Definition ref_insert (m : gmap Z original_dst_entry) (k : Z) (v : original_dst_entry)
    : gmap Z original_dst_entry :=
  match m !! k, map_to_list m with
  | None, (old, _) :: _ =>
      if Z.of_nat (size m) <? original_dst_max then <[k := v]> m else <[k := v]> (delete old m)
  | _, _ => <[k := v]> m
  end.

Lemma ref_insert_cases m k v :
  ref_insert m k v = <[k := v]> m /\
    (is_Some (m !! k) \/ Z.of_nat (size m) < original_dst_max) \/
  exists old, is_Some (m !! old) /\ ref_insert m k v = <[k := v]> (delete old m).
Proof using Type.
  unfold ref_insert. destruct (m !! k) as [w|] eqn:Ek; [left; eauto|].
  destruct (map_to_list m) as [|[old x] l] eqn:El.
  { left. split; [done|]. right. apply map_to_list_empty_iff in El as ->. done. }
  destruct (Z.ltb_spec (Z.of_nat (size m)) original_dst_max); [left; auto|].
  right. exists old. split; [|done]. exists x. apply elem_of_map_to_list. rewrite El. left.
Qed.

#[global] Instance ref_helpers : BpfHelpers := {|
  h_load := ref_load;
  h_store := ref_store;
  h_l3_csum := fun t => ref_csum;
  h_l4_csum := ref_l4_csum;
  h_map_update := fun t m k v f => (0, ref_insert m k v);
  h_redirect := fun t skb i f => TC_ACT_REDIRECT;
  h_redirect_peer := fun t skb i f => TC_ACT_REDIRECT;
  h_redirect_neigh := fun t skb i p f => TC_ACT_REDIRECT;
|}.

Lemma ref_csum_frame skb off from to size :
  let '(r, skb') := ref_csum skb off from to size in
  (same_meta skb skb' /\ skb_bytes skb' = skb_bytes skb) \/
  (exists c, csum_written e skb off c skb').
Proof.
  unfold ref_csum. destruct (in_packetb skb off 2) eqn:Ei; [|by left].
  destruct (csum_contract size from); [|by left]. right.
  eexists. split; [by apply in_packetb_spec|]. split; [|done]. dlia.
Qed.

Lemma ref_csum_update skb off from to size :
  size = 2 \/ size = 4 ->
  let '(r, skb') := ref_csum skb off from to size in
  r = 0 ->
  exists c, csum_written e skb off c skb' /\
    c mod 65535 = (field16 e skb off + words16 from - words16 to) mod 65535.
Proof.
  intros Hs. unfold ref_csum. destruct (in_packetb skb off 2) eqn:Ei; [|done].
  replace (csum_contract size from) with true
    by (destruct Hs as [-> | ->]; done).
  intros _. eexists. split; [split; [by apply in_packetb_spec|split; [|done]]|].
  - dlia.
  - by rewrite Zmod_mod.
Qed.

#[global] Instance ref_laws : BpfHelperLaws e ref_helpers.
Proof.
  split; cbn -[Z.pow ref_csum ref_insert].
  - intros t skb off n Hn. unfold ref_load. destruct (in_packetb _ _ _) eqn:Ei; simpl.
    + apply in_packetb_spec in Ei. apply length_slice.
      unfold in_packet, skb_len in Ei. lia.
    + apply length_replicate.
  - intros t skb off n. unfold ref_load. destruct (in_packetb _ _ _) eqn:Ei; simpl; [|done].
    apply in_packetb_spec in Ei. done.
  - intros t skb off bs. unfold ref_store. destruct (in_packetb _ _ _) eqn:Ei.
    + apply in_packetb_spec in Ei. split; [done|]. split; [done|]. by intros [].
    + split; [done|]. split; [done|]. done.
  - intros t. apply ref_csum_frame.
  - intros t skb off from to size Hs _ _. by apply ref_csum_update.
  - intros t skb off from to flags. unfold ref_l4_csum.
    destruct (_ && _ && _); [by left|]. apply ref_csum_frame.
  - intros t skb off from to size flags Hs Hfl _ _ Hp. unfold ref_l4_csum.
    rewrite Hp, andb_false_r.
    replace (l4_size flags) with size
      by (destruct Hfl as [-> | ->], Hs as [-> | ->]; done).
    by apply ref_csum_update.
  - intros t m k v. split; [|done]. intros _.
    destruct (ref_insert_cases m k v) as [[E _]|(old & _ & E)];
      rewrite E; (split; [apply lookup_insert_eq|]); intros k' Hk; rewrite lookup_insert_ne by done;
      [by left|]. destruct (decide (old = k')) as [-> |Hne];
      [right; apply lookup_delete_eq|left; by apply lookup_delete_ne].
  - intros t m k v f Hs.
    destruct (ref_insert_cases m k v) as [[E Hr]|(old & Ho & E)]; rewrite E.
    + destruct (m !! k) as [w|] eqn:Ek; [by rewrite map_size_insert_Some by eauto|].
      rewrite map_size_insert_None by done. destruct Hr as [[]|Hr]; [done|lia].
    + rewrite map_size_insert, map_size_delete_Some by done.
      assert (size m <> 0%nat) by (intros ->%map_size_empty_inv; by destruct Ho).
      destruct (delete old m !! k); unfold id; lia.
  - auto.
  - auto.
  - auto.
Qed.

#[global] Instance ref_succeed : BpfHelpersSucceed ref_helpers.
Proof.
  split; cbn -[ref_csum].
  - intros t skb off n Hi%in_packetb_spec. unfold ref_load. by rewrite Hi.
  - intros t skb off bs Hi%in_packetb_spec. unfold ref_store. by rewrite Hi.
  - intros t skb off from to size Hi%in_packetb_spec Hc. unfold ref_csum.
    by rewrite Hi, Hc.
  - intros t skb off from to flags Hi%in_packetb_spec Hc. unfold ref_l4_csum, ref_csum.
    rewrite Hi, Hc. by destruct (skb_csum_partial skb).
  - done.
Qed.
End ref.
