(* ===== verification/CTypes.v ===== *)
(** * C base types and the typedefs of include/types.h *)

From S2P Require Import Prelude CLayout.

(** The integer types of the LP64 ABI. *)
Definition c_bool : ctype := TInt 1.
Definition c_char : ctype := TInt 1.
Definition c_schar : ctype := TInt 1.
Definition c_uchar : ctype := TInt 1.
Definition c_short : ctype := TInt 2.
Definition c_ushort : ctype := TInt 2.
Definition c_int : ctype := TInt 4.
Definition c_uint : ctype := TInt 4.
Definition c_long : ctype := TInt 8.
Definition c_ulong : ctype := TInt 8.
Definition c_llong : ctype := TInt 8.
Definition c_ullong : ctype := TInt 8.

(** The typedefs of [types.h]. *)
Definition __s8 : ctype := c_schar.
Definition __u8 : ctype := c_uchar.
Definition __s16 : ctype := c_short.
Definition __u16 : ctype := c_ushort.
Definition __s32 : ctype := c_int.
Definition __u32 : ctype := c_uint.
Definition __s64 : ctype := c_llong.
Definition __u64 : ctype := c_ullong.
Definition __le16 : ctype := __u16.
Definition __be16 : ctype := __u16.
Definition __le32 : ctype := __u32.
Definition __be32 : ctype := __u32.
Definition __le64 : ctype := __u64.
Definition __be64 : ctype := __u64.
Definition __sum16 : ctype := __u16.
Definition __wsum : ctype := __u32.
Definition __aligned_u64 : ctype := __u64.
Definition __net_cookie : ctype := __u64.
Definition __sock_cookie : ctype := __u64.

Definition UINT16_MAX : Z := 65535.
