(* ===== verification/VmPacket.v ===== *)
(** * Kernel types: packet headers and BPF program contexts

    The declarations of [include/vmlinux.h] that the tc and cgroup programs
    use: the Ethernet, IPv4, TCP and UDP headers, the contexts the kernel
    passes to the programs, and [struct sockaddr_in].  One definition per
    declaration, members in declaration order. *)

From S2P Require Import Prelude CLayout CTypes.

Local Open Scope ctype_scope.

Definition struct_ethhdr : ctype := struct{
  Fld "h_dest" (TArr c_uchar 6);
  Fld "h_source" (TArr c_uchar 6);
  Fld "h_proto" __be16 }.

Definition struct_iphdr : ctype := struct{
  Bits "ihl" __u8 4;
  Bits "version" __u8 4;
  Fld "tos" __u8;
  Fld "tot_len" __be16;
  Fld "id" __be16;
  Fld "frag_off" __be16;
  Fld "ttl" __u8;
  Fld "protocol" __u8;
  Fld "check" __sum16;
  Anon (union{
    Anon (struct{
      Fld "saddr" __be32;
      Fld "daddr" __be32 });
    Fld "addrs" (struct{
      Fld "saddr" __be32;
      Fld "daddr" __be32 }) }) }.

Definition struct_tcphdr : ctype := struct{
  Fld "source" __be16;
  Fld "dest" __be16;
  Fld "seq" __be32;
  Fld "ack_seq" __be32;
  Bits "res1" __u16 4;
  Bits "doff" __u16 4;
  Bits "fin" __u16 1;
  Bits "syn" __u16 1;
  Bits "rst" __u16 1;
  Bits "psh" __u16 1;
  Bits "ack" __u16 1;
  Bits "urg" __u16 1;
  Bits "ece" __u16 1;
  Bits "cwr" __u16 1;
  Fld "window" __be16;
  Fld "check" __sum16;
  Fld "urg_ptr" __be16 }.

Definition struct_udphdr : ctype := struct{
  Fld "source" __be16;
  Fld "dest" __be16;
  Fld "len" __be16;
  Fld "check" __sum16 }.

Definition struct___sk_buff : ctype := struct{
  Fld "len" __u32;
  Fld "pkt_type" __u32;
  Fld "mark" __u32;
  Fld "queue_mapping" __u32;
  Fld "protocol" __u32;
  Fld "vlan_present" __u32;
  Fld "vlan_tci" __u32;
  Fld "vlan_proto" __u32;
  Fld "priority" __u32;
  Fld "ingress_ifindex" __u32;
  Fld "ifindex" __u32;
  Fld "tc_index" __u32;
  Fld "cb" (TArr __u32 5);
  Fld "hash" __u32;
  Fld "tc_classid" __u32;
  Fld "data" __u32;
  Fld "data_end" __u32;
  Fld "napi_id" __u32;
  Fld "family" __u32;
  Fld "remote_ip4" __u32;
  Fld "local_ip4" __u32;
  Fld "remote_ip6" (TArr __u32 4);
  Fld "local_ip6" (TArr __u32 4);
  Fld "remote_port" __u32;
  Fld "local_port" __u32;
  Fld "data_meta" __u32;
  Anon (union{
    Fld "flow_keys" TPtr });
  Fld "tstamp" __u64;
  Fld "wire_len" __u32;
  Fld "gso_segs" __u32;
  Anon (union{
    Fld "sk" TPtr });
  Fld "gso_size" __u32;
  Fld "tstamp_type" __u8;
  Fld "hwtstamp" __u64 }.

Definition struct_bpf_sockopt : ctype := struct{
  Anon (union{
    Fld "sk" TPtr });
  Anon (union{
    Fld "optval" TPtr });
  Anon (union{
    Fld "optval_end" TPtr });
  Fld "level" __s32;
  Fld "optname" __s32;
  Fld "optlen" __s32;
  Fld "retval" __s32 }.

Definition struct_bpf_sock : ctype := struct{
  Fld "bound_dev_if" __u32;
  Fld "family" __u32;
  Fld "type" __u32;
  Fld "protocol" __u32;
  Fld "mark" __u32;
  Fld "priority" __u32;
  Fld "src_ip4" __u32;
  Fld "src_ip6" (TArr __u32 4);
  Fld "src_port" __u32;
  Fld "dst_port" __be16;
  Fld "dst_ip4" __u32;
  Fld "dst_ip6" (TArr __u32 4);
  Fld "state" __u32;
  Fld "rx_queue_mapping" __s32 }.

Definition struct_bpf_sock_addr : ctype := struct{
  Fld "user_family" __u32;
  Fld "user_ip4" __u32;
  Fld "user_ip6" (TArr __u32 4);
  Fld "user_port" __u32;
  Fld "family" __u32;
  Fld "type" __u32;
  Fld "protocol" __u32;
  Fld "msg_src_ip4" __u32;
  Fld "msg_src_ip6" (TArr __u32 4);
  Anon (union{
    Fld "sk" TPtr }) }.

Definition __kernel_sa_family_t : ctype := c_ushort.

Definition struct_in_addr : ctype := struct{
  Fld "s_addr" __be32 }.

Definition struct_sockaddr_in : ctype := struct{
  Fld "sin_family" __kernel_sa_family_t;
  Fld "sin_port" __be16;
  Fld "sin_addr" struct_in_addr;
  Fld "__pad" (TArr c_uchar 8) }.
