(* ===== verification/VmSock.v ===== *)
(** * Kernel types: sockets and socket iterators

    The declarations of [include/vmlinux.h] behind the socket iterators of
    [sock.c]: the iterator contexts, [struct sock_common], [struct sock],
    [struct udp_sock], [struct nsproxy] and every type they embed by value. *)

From S2P Require Import Prelude CLayout CTypes VmPacket.

Local Open Scope ctype_scope.

Definition __kernel_uid32_t : ctype := c_uint.

Definition uid_t : ctype := __kernel_uid32_t.

Definition struct_bpf_iter__tcp : ctype := struct{
  Anon (union{
    Fld "meta" TPtr });
  Anon (union{
    Fld "sk_common" TPtr });
  Fld "uid" uid_t }.

Definition struct_bpf_iter__udp : ctype := struct{
  Anon (union{
    Fld "meta" TPtr });
  Anon (union{
    Fld "udp_sk" TPtr });
  Fld "uid" uid_t;
  Pad c_long 0;
  Fld "bucket" c_int }.

Definition u64 : ctype := __u64.

Definition struct_bpf_iter_meta : ctype := struct{
  Anon (union{
    Fld "seq" TPtr });
  Fld "session_id" u64;
  Fld "seq_num" u64 }.

Definition __kernel_ulong_t : ctype := c_ulong.

Definition __kernel_size_t : ctype := __kernel_ulong_t.

Definition size_t : ctype := __kernel_size_t.

Definition __kernel_loff_t : ctype := c_llong.

Definition loff_t : ctype := __kernel_loff_t.

Definition s64 : ctype := __s64.

Definition atomic64_t : ctype := struct{
  Fld "counter" s64 }.

Definition atomic_long_t : ctype := atomic64_t.

Definition atomic_t : ctype := struct{
  Fld "counter" c_int }.

Definition u8 : ctype := __u8.

Definition u16 : ctype := __u16.

Definition struct_qspinlock : ctype := struct{
  Anon (union{
    Fld "val" atomic_t;
    Anon (struct{
      Fld "locked" u8;
      Fld "pending" u8 });
    Anon (struct{
      Fld "locked_pending" u16;
      Fld "tail" u16 }) }) }.

Definition arch_spinlock_t : ctype := struct_qspinlock.

Definition struct_raw_spinlock : ctype := struct{
  Fld "raw_lock" arch_spinlock_t }.

Definition raw_spinlock_t : ctype := struct_raw_spinlock.

Definition struct_optimistic_spin_queue : ctype := struct{
  Fld "tail" atomic_t }.

Definition struct_list_head : ctype := struct{
  Fld "next" TPtr;
  Fld "prev" TPtr }.

Definition struct_mutex : ctype := struct{
  Fld "owner" atomic_long_t;
  Fld "wait_lock" raw_spinlock_t;
  Fld "osq" struct_optimistic_spin_queue;
  Fld "wait_list" struct_list_head }.

Definition struct_seq_file : ctype := struct{
  Fld "buf" TPtr;
  Fld "size" size_t;
  Fld "from" size_t;
  Fld "count" size_t;
  Fld "pad_until" size_t;
  Fld "index" loff_t;
  Fld "read_pos" loff_t;
  Fld "lock" struct_mutex;
  Fld "op" TPtr;
  Fld "poll_event" c_int;
  Fld "file" TPtr;
  Fld "private" TPtr }.

Definition __addrpair : ctype := __u64.

Definition __portpair : ctype := __u32.

Definition struct_hlist_node : ctype := struct{
  Fld "next" TPtr;
  Fld "pprev" TPtr }.

Definition possible_net_t : ctype := struct{
  Fld "net" TPtr }.

Definition struct_in6_addr : ctype := struct{
  Fld "in6_u" (union{
    Fld "u6_addr8" (TArr __u8 16);
    Fld "u6_addr16" (TArr __be16 8);
    Fld "u6_addr32" (TArr __be32 4) }) }.

Definition struct_hlist_nulls_node : ctype := struct{
  Fld "next" TPtr;
  Fld "pprev" TPtr }.

Definition u32 : ctype := __u32.

Definition struct_refcount_struct : ctype := struct{
  Fld "refs" atomic_t }.

Definition refcount_t : ctype := struct_refcount_struct.

Definition struct_sock_common : ctype := struct{
  Anon (union{
    Fld "skc_addrpair" __addrpair;
    Anon (struct{
      Fld "skc_daddr" __be32;
      Fld "skc_rcv_saddr" __be32 }) });
  Anon (union{
    Fld "skc_hash" c_uint;
    Fld "skc_u16hashes" (TArr __u16 2) });
  Anon (union{
    Fld "skc_portpair" __portpair;
    Anon (struct{
      Fld "skc_dport" __be16;
      Fld "skc_num" __u16 }) });
  Fld "skc_family" c_ushort;
  Fld "skc_state" c_uchar;
  Bits "skc_reuse" c_uchar 4;
  Bits "skc_reuseport" c_uchar 1;
  Bits "skc_ipv6only" c_uchar 1;
  Bits "skc_net_refcnt" c_uchar 1;
  Fld "skc_bound_dev_if" c_int;
  Anon (union{
    Fld "skc_bind_node" struct_hlist_node;
    Fld "skc_portaddr_node" struct_hlist_node });
  Fld "skc_prot" TPtr;
  Fld "skc_net" possible_net_t;
  Fld "skc_v6_daddr" struct_in6_addr;
  Fld "skc_v6_rcv_saddr" struct_in6_addr;
  Fld "skc_cookie" atomic64_t;
  Anon (union{
    Fld "skc_flags" c_ulong;
    Fld "skc_listener" TPtr;
    Fld "skc_tw_dr" TPtr });
  Fld "skc_dontcopy_begin" (TArr c_int 0);
  Anon (union{
    Fld "skc_node" struct_hlist_node;
    Fld "skc_nulls_node" struct_hlist_nulls_node });
  Fld "skc_tx_queue_mapping" c_ushort;
  Fld "skc_rx_queue_mapping" c_ushort;
  Anon (union{
    Fld "skc_incoming_cpu" c_int;
    Fld "skc_rcv_wnd" u32;
    Fld "skc_tw_rcv_nxt" u32 });
  Fld "skc_refcnt" refcount_t;
  Fld "skc_dontcopy_end" (TArr c_int 0);
  Anon (union{
    Fld "skc_rxhash" u32;
    Fld "skc_window_clamp" u32;
    Fld "skc_tw_snd_nxt" u32 }) }.

Definition struct_nsproxy : ctype := struct{
  Fld "count" refcount_t;
  Fld "uts_ns" TPtr;
  Fld "ipc_ns" TPtr;
  Fld "mnt_ns" TPtr;
  Fld "pid_ns_for_children" TPtr;
  Fld "net_ns" TPtr;
  Fld "time_ns" TPtr;
  Fld "time_ns_for_children" TPtr;
  Fld "cgroup_ns" TPtr }.

Definition struct_ns_common : ctype := struct{
  Fld "stashed" atomic_long_t;
  Fld "ops" TPtr;
  Fld "inum" c_uint;
  Fld "count" refcount_t }.

Definition struct_spinlock : ctype := struct{
  Anon (union{
    Fld "rlock" struct_raw_spinlock }) }.

Definition spinlock_t : ctype := struct_spinlock.

Definition struct_wait_queue_head : ctype := struct{
  Fld "lock" spinlock_t;
  Fld "head" struct_list_head }.

Definition wait_queue_head_t : ctype := struct_wait_queue_head.

Definition socket_lock_t : ctype := struct{
  Fld "slock" spinlock_t;
  Fld "owned" c_int;
  Fld "wq" wait_queue_head_t }.

Definition struct_sk_buff_list : ctype := struct{
  Fld "next" TPtr;
  Fld "prev" TPtr }.

Definition struct_sk_buff_head : ctype := struct{
  Anon (union{
    Anon (struct{
      Fld "next" TPtr;
      Fld "prev" TPtr });
    Fld "list" struct_sk_buff_list });
  Fld "qlen" __u32;
  Fld "lock" spinlock_t }.

Definition struct_rb_root : ctype := struct{
  Fld "rb_node" TPtr }.

Definition struct_timer_list : ctype := struct{
  Fld "entry" struct_hlist_node;
  Fld "expires" c_ulong;
  Fld "function" TPtr;
  Fld "flags" u32 }.

Definition struct_page_frag : ctype := struct{
  Fld "page" TPtr;
  Fld "offset" __u32;
  Fld "size" __u32 }.

Definition netdev_features_t : ctype := u64.

Definition gfp_t : ctype := c_uint.

Definition struct_qrwlock : ctype := struct{
  Anon (union{
    Fld "cnts" atomic_t;
    Anon (struct{
      Fld "wlocked" u8;
      Fld "__lstate" (TArr u8 3) }) });
  Fld "wait_lock" arch_spinlock_t }.

Definition arch_rwlock_t : ctype := struct_qrwlock.

Definition rwlock_t : ctype := struct{
  Fld "raw_lock" arch_rwlock_t }.

Definition kuid_t : ctype := struct{
  Fld "val" uid_t }.

Definition ktime_t : ctype := s64.

Definition bool_t : ctype := c_bool.

Definition struct_sock_cgroup_data : ctype := struct{
  Fld "cgroup" TPtr;
  Fld "classid" u32;
  Fld "prioidx" u16 }.

Definition struct_callback_head : ctype := struct{
  Fld "next" TPtr;
  Fld "func" TPtr }.

Definition netns_tracker : ctype := struct{ }.

Definition struct_sock : ctype := struct{
  Fld "__sk_common" struct_sock_common;
  Fld "sk_rx_dst" TPtr;
  Fld "sk_rx_dst_ifindex" c_int;
  Fld "sk_rx_dst_cookie" u32;
  Fld "sk_lock" socket_lock_t;
  Fld "sk_drops" atomic_t;
  Fld "sk_rcvlowat" c_int;
  Fld "sk_error_queue" struct_sk_buff_head;
  Fld "sk_receive_queue" struct_sk_buff_head;
  Fld "sk_backlog" (struct{
    Fld "rmem_alloc" atomic_t;
    Fld "len" c_int;
    Fld "head" TPtr;
    Fld "tail" TPtr });
  Fld "sk_forward_alloc" c_int;
  Fld "sk_reserved_mem" u32;
  Fld "sk_ll_usec" c_uint;
  Fld "sk_napi_id" c_uint;
  Fld "sk_rcvbuf" c_int;
  Fld "sk_disconnects" c_int;
  Fld "sk_filter" TPtr;
  Anon (union{
    Fld "sk_wq" TPtr;
    Fld "sk_wq_raw" TPtr });
  Fld "sk_policy" (TArr TPtr 2);
  Fld "sk_dst_cache" TPtr;
  Fld "sk_omem_alloc" atomic_t;
  Fld "sk_sndbuf" c_int;
  Fld "sk_wmem_queued" c_int;
  Fld "sk_wmem_alloc" refcount_t;
  Fld "sk_tsq_flags" c_ulong;
  Anon (union{
    Fld "sk_send_head" TPtr;
    Fld "tcp_rtx_queue" struct_rb_root });
  Fld "sk_write_queue" struct_sk_buff_head;
  Fld "sk_peek_off" __s32;
  Fld "sk_write_pending" c_int;
  Fld "sk_dst_pending_confirm" __u32;
  Fld "sk_pacing_status" u32;
  Fld "sk_sndtimeo" c_long;
  Fld "sk_timer" struct_timer_list;
  Fld "sk_priority" __u32;
  Fld "sk_mark" __u32;
  Fld "sk_pacing_rate" c_ulong;
  Fld "sk_max_pacing_rate" c_ulong;
  Fld "sk_frag" struct_page_frag;
  Fld "sk_route_caps" netdev_features_t;
  Fld "sk_gso_type" c_int;
  Fld "sk_gso_max_size" c_uint;
  Fld "sk_allocation" gfp_t;
  Fld "sk_txhash" __u32;
  Bits "sk_gso_disabled" u8 1;
  Bits "sk_kern_sock" u8 1;
  Bits "sk_no_check_tx" u8 1;
  Bits "sk_no_check_rx" u8 1;
  Bits "sk_userlocks" u8 4;
  Fld "sk_pacing_shift" u8;
  Fld "sk_type" u16;
  Fld "sk_protocol" u16;
  Fld "sk_gso_max_segs" u16;
  Fld "sk_lingertime" c_ulong;
  Fld "sk_prot_creator" TPtr;
  Fld "sk_callback_lock" rwlock_t;
  Fld "sk_err" c_int;
  Fld "sk_err_soft" c_int;
  Fld "sk_ack_backlog" u32;
  Fld "sk_max_ack_backlog" u32;
  Fld "sk_uid" kuid_t;
  Fld "sk_txrehash" u8;
  Fld "sk_prefer_busy_poll" u8;
  Fld "sk_busy_poll_budget" u16;
  Fld "sk_peer_lock" spinlock_t;
  Fld "sk_bind_phc" c_int;
  Fld "sk_peer_pid" TPtr;
  Fld "sk_peer_cred" TPtr;
  Fld "sk_rcvtimeo" c_long;
  Fld "sk_stamp" ktime_t;
  Fld "sk_tskey" atomic_t;
  Fld "sk_zckey" atomic_t;
  Fld "sk_tsflags" u32;
  Fld "sk_shutdown" u8;
  Fld "sk_clockid" u8;
  Bits "sk_txtime_deadline_mode" u8 1;
  Bits "sk_txtime_report_errors" u8 1;
  Bits "sk_txtime_unused" u8 6;
  Fld "sk_use_task_frag" bool_t;
  Fld "sk_socket" TPtr;
  Fld "sk_user_data" TPtr;
  Fld "sk_security" TPtr;
  Fld "sk_cgrp_data" struct_sock_cgroup_data;
  Fld "sk_memcg" TPtr;
  Fld "sk_state_change" TPtr;
  Fld "sk_data_ready" TPtr;
  Fld "sk_write_space" TPtr;
  Fld "sk_error_report" TPtr;
  Fld "sk_backlog_rcv" TPtr;
  Fld "sk_destruct" TPtr;
  Fld "sk_reuseport_cb" TPtr;
  Fld "sk_bpf_storage" TPtr;
  Fld "sk_rcu" struct_callback_head;
  Fld "ns_tracker" netns_tracker;
  Fld "sk_bind2_node" struct_hlist_node }.

Definition struct_inet_cork : ctype := struct{
  Fld "flags" c_uint;
  Fld "addr" __be32;
  Fld "opt" TPtr;
  Fld "fragsize" c_uint;
  Fld "length" c_int;
  Fld "dst" TPtr;
  Fld "tx_flags" u8;
  Fld "ttl" __u8;
  Fld "tos" __s16;
  Fld "priority" c_char;
  Fld "gso_size" __u16;
  Fld "transmit_time" u64;
  Fld "mark" u32 }.

Definition struct_flowi_tunnel : ctype := struct{
  Fld "tun_id" __be64 }.

Definition struct_flowi_common : ctype := struct{
  Fld "flowic_oif" c_int;
  Fld "flowic_iif" c_int;
  Fld "flowic_l3mdev" c_int;
  Fld "flowic_mark" __u32;
  Fld "flowic_tos" __u8;
  Fld "flowic_scope" __u8;
  Fld "flowic_proto" __u8;
  Fld "flowic_flags" __u8;
  Fld "flowic_secid" __u32;
  Fld "flowic_uid" kuid_t;
  Fld "flowic_multipath_hash" __u32;
  Fld "flowic_tun_key" struct_flowi_tunnel }.

Definition union_flowi_uli : ctype := union{
  Fld "ports" (struct{
    Fld "dport" __be16;
    Fld "sport" __be16 });
  Fld "icmpt" (struct{
    Fld "type" __u8;
    Fld "code" __u8 });
  Fld "gre_key" __be32;
  Fld "mht" (struct{
    Fld "type" __u8 }) }.

Definition struct_flowi4 : ctype := struct{
  Fld "__fl_common" struct_flowi_common;
  Fld "saddr" __be32;
  Fld "daddr" __be32;
  Fld "uli" union_flowi_uli }.

Definition struct_flowi6 : ctype := struct{
  Fld "__fl_common" struct_flowi_common;
  Fld "daddr" struct_in6_addr;
  Fld "saddr" struct_in6_addr;
  Fld "flowlabel" __be32;
  Fld "uli" union_flowi_uli;
  Fld "mp_hash" __u32 }.

Definition struct_flowi : ctype := struct{
  Fld "u" (union{
    Fld "__fl_common" struct_flowi_common;
    Fld "ip4" struct_flowi4;
    Fld "ip6" struct_flowi6 }) }.

Definition struct_inet_cork_full : ctype := struct{
  Fld "base" struct_inet_cork;
  Fld "fl" struct_flowi }.

Definition struct_inet_sock : ctype := struct{
  Fld "sk" struct_sock;
  Fld "pinet6" TPtr;
  Fld "inet_flags" c_ulong;
  Fld "inet_saddr" __be32;
  Fld "uc_ttl" __s16;
  Fld "inet_sport" __be16;
  Fld "inet_opt" TPtr;
  Fld "inet_id" atomic_t;
  Fld "tos" __u8;
  Fld "min_ttl" __u8;
  Fld "mc_ttl" __u8;
  Fld "pmtudisc" __u8;
  Fld "rcv_tos" __u8;
  Fld "convert_csum" __u8;
  Fld "uc_index" c_int;
  Fld "mc_index" c_int;
  Fld "mc_addr" __be32;
  Fld "local_port_range" (struct{
    Fld "lo" __u16;
    Fld "hi" __u16 });
  Fld "mc_list" TPtr;
  Fld "cork" struct_inet_cork_full }.

Definition struct_udp_sock : ctype := struct{
  Fld "inet" struct_inet_sock;
  Fld "udp_flags" c_ulong;
  Fld "pending" c_int;
  Fld "encap_type" __u8;
  Fld "len" __u16;
  Fld "gso_size" __u16;
  Fld "pcslen" __u16;
  Fld "pcrlen" __u16;
  Fld "encap_rcv" TPtr;
  Fld "encap_err_rcv" TPtr;
  Fld "encap_err_lookup" TPtr;
  Fld "encap_destroy" TPtr;
  Fld "gro_receive" TPtr;
  Fld "gro_complete" TPtr;
  Pad c_long 64;
  Pad c_long 64;
  Pad c_long 64;
  Pad c_long 64;
  Fld "reader_queue" struct_sk_buff_head;
  Fld "forward_deficit" c_int;
  Fld "forward_threshold" c_int;
  Pad c_long 64;
  Pad c_long 64;
  Pad c_long 64;
  Pad c_long 64 }.
