(* ===== verification/VmNetns.v ===== *)
(** * Kernel types: network namespaces

    [struct net] of [include/vmlinux.h] and every type it embeds by value that
    is not already declared for sockets. *)

From S2P Require Import Prelude CLayout CTypes VmPacket VmSock.

Local Open Scope ctype_scope.

Definition struct_llist_node : ctype := struct{
  Fld "next" TPtr }.

Definition struct_xarray : ctype := struct{
  Fld "xa_lock" spinlock_t;
  Fld "xa_flags" gfp_t;
  Fld "xa_head" TPtr }.

Definition struct_idr : ctype := struct{
  Fld "idr_rt" struct_xarray;
  Fld "idr_base" c_uint;
  Fld "idr_next" c_uint }.

Definition struct_ref_tracker_dir : ctype := struct{ }.

Definition struct_hlist_head : ctype := struct{
  Fld "first" TPtr }.

Definition struct_ctl_table_header : ctype := struct{
  Anon (union{
    Anon (struct{
      Fld "ctl_table" TPtr;
      Fld "ctl_table_size" c_int;
      Fld "used" c_int;
      Fld "count" c_int;
      Fld "nreg" c_int });
    Fld "rcu" struct_callback_head });
  Fld "unregistering" TPtr;
  Fld "ctl_table_arg" TPtr;
  Fld "root" TPtr;
  Fld "set" TPtr;
  Fld "parent" TPtr;
  Fld "node" TPtr;
  Fld "inodes" struct_hlist_head }.

Definition struct_ctl_dir : ctype := struct{
  Fld "header" struct_ctl_table_header;
  Fld "root" struct_rb_root }.

Definition struct_ctl_table_set : ctype := struct{
  Fld "is_seen" TPtr;
  Fld "dir" struct_ctl_dir }.

Definition struct_raw_notifier_head : ctype := struct{
  Fld "head" TPtr }.

Definition struct_netns_core : ctype := struct{
  Fld "sysctl_hdr" TPtr;
  Fld "sysctl_somaxconn" c_int;
  Fld "sysctl_txrehash" u8;
  Fld "prot_inuse" TPtr;
  Fld "rps_default_mask" TPtr }.

Definition struct_netns_mib : ctype := struct{
  Fld "ip_statistics" TPtr;
  Fld "ipv6_statistics" TPtr;
  Fld "tcp_statistics" TPtr;
  Fld "net_statistics" TPtr;
  Fld "udp_statistics" TPtr;
  Fld "udp_stats_in6" TPtr;
  Fld "xfrm_statistics" TPtr;
  Fld "tls_statistics" TPtr;
  Fld "udplite_statistics" TPtr;
  Fld "udplite_stats_in6" TPtr;
  Fld "icmp_statistics" TPtr;
  Fld "icmpmsg_statistics" TPtr;
  Fld "icmpv6_statistics" TPtr;
  Fld "icmpv6msg_statistics" TPtr;
  Fld "proc_net_devsnmp6" TPtr }.

Definition struct_netns_packet : ctype := struct{
  Fld "sklist_lock" struct_mutex;
  Fld "sklist" struct_hlist_head }.

Definition struct_unix_table : ctype := struct{
  Fld "locks" TPtr;
  Fld "buckets" TPtr }.

Definition struct_netns_unix : ctype := struct{
  Fld "table" struct_unix_table;
  Fld "sysctl_max_dgram_qlen" c_int;
  Fld "ctl" TPtr }.

Definition struct_rw_semaphore : ctype := struct{
  Fld "count" atomic_long_t;
  Fld "owner" atomic_long_t;
  Fld "osq" struct_optimistic_spin_queue;
  Fld "wait_lock" raw_spinlock_t;
  Fld "wait_list" struct_list_head }.

Definition struct_blocking_notifier_head : ctype := struct{
  Fld "rwsem" struct_rw_semaphore;
  Fld "head" TPtr }.

Definition struct_netns_nexthop : ctype := struct{
  Fld "rb_root" struct_rb_root;
  Fld "devhash" TPtr;
  Fld "seq" c_uint;
  Fld "last_id_allocated" u32;
  Fld "notifier_chain" struct_blocking_notifier_head }.

Definition struct_inet_timewait_death_row : ctype := struct{
  Fld "tw_refcount" refcount_t;
  Pad c_long 64;
  Pad c_long 64;
  Pad c_long 64;
  Pad c_long 64;
  Pad c_long 64;
  Pad c_long 64;
  Pad c_long 64;
  Fld "hashinfo" TPtr;
  Fld "sysctl_max_tw_buckets" c_int;
  Pad c_long 64;
  Pad c_long 64;
  Pad c_long 64;
  Pad c_long 64;
  Pad c_long 64;
  Pad c_long 64 }.

Definition struct_seqcount : ctype := struct{
  Fld "sequence" c_uint }.

Definition seqcount_t : ctype := struct_seqcount.

Definition struct_seqcount_spinlock : ctype := struct{
  Fld "seqcount" seqcount_t }.

Definition seqcount_spinlock_t : ctype := struct_seqcount_spinlock.

Definition seqlock_t : ctype := struct{
  Fld "seqcount" seqcount_spinlock_t;
  Fld "lock" spinlock_t }.

Definition struct_local_ports : ctype := struct{
  Fld "lock" seqlock_t;
  Fld "range" (TArr c_int 2);
  Fld "warned" bool_t }.

Definition __kernel_gid32_t : ctype := c_uint.

Definition gid_t : ctype := __kernel_gid32_t.

Definition kgid_t : ctype := struct{
  Fld "val" gid_t }.

Definition struct_ping_group_range : ctype := struct{
  Fld "lock" seqlock_t;
  Fld "range" (TArr kgid_t 2) }.

Definition siphash_key_t : ctype := struct{
  Fld "key" (TArr u64 2) }.

Definition struct_netns_ipv4_members_1 : cfields := fields{
  Fld "tcp_death_row" struct_inet_timewait_death_row;
  Fld "udp_table" TPtr;
  Fld "forw_hdr" TPtr;
  Fld "frags_hdr" TPtr;
  Fld "ipv4_hdr" TPtr;
  Fld "route_hdr" TPtr;
  Fld "xfrm4_hdr" TPtr;
  Fld "devconf_all" TPtr;
  Fld "devconf_dflt" TPtr;
  Fld "ra_chain" TPtr;
  Fld "ra_mutex" struct_mutex;
  Fld "rules_ops" TPtr;
  Fld "fib_main" TPtr;
  Fld "fib_default" TPtr;
  Fld "fib_rules_require_fldissect" c_uint;
  Fld "fib_has_custom_rules" bool_t;
  Fld "fib_has_custom_local_routes" bool_t;
  Fld "fib_offload_disabled" bool_t;
  Fld "sysctl_tcp_shrink_window" u8;
  Fld "fib_num_tclassid_users" atomic_t;
  Fld "fib_table_hash" TPtr;
  Fld "fibnl" TPtr;
  Fld "mc_autojoin_sk" TPtr;
  Fld "peers" TPtr;
  Fld "fqdir" TPtr;
  Fld "sysctl_icmp_echo_ignore_all" u8;
  Fld "sysctl_icmp_echo_enable_probe" u8;
  Fld "sysctl_icmp_echo_ignore_broadcasts" u8;
  Fld "sysctl_icmp_ignore_bogus_error_responses" u8;
  Fld "sysctl_icmp_errors_use_inbound_ifaddr" u8;
  Fld "sysctl_icmp_ratelimit" c_int;
  Fld "sysctl_icmp_ratemask" c_int;
  Fld "ip_rt_min_pmtu" u32;
  Fld "ip_rt_mtu_expires" c_int;
  Fld "ip_rt_min_advmss" c_int;
  Fld "ip_local_ports" struct_local_ports;
  Fld "sysctl_tcp_ecn" u8;
  Fld "sysctl_tcp_ecn_fallback" u8;
  Fld "sysctl_ip_default_ttl" u8;
  Fld "sysctl_ip_no_pmtu_disc" u8;
  Fld "sysctl_ip_fwd_use_pmtu" u8;
  Fld "sysctl_ip_fwd_update_priority" u8;
  Fld "sysctl_ip_nonlocal_bind" u8;
  Fld "sysctl_ip_autobind_reuse" u8;
  Fld "sysctl_ip_dynaddr" u8;
  Fld "sysctl_ip_early_demux" u8;
  Fld "sysctl_raw_l3mdev_accept" u8;
  Fld "sysctl_tcp_early_demux" u8;
  Fld "sysctl_udp_early_demux" u8;
  Fld "sysctl_nexthop_compat_mode" u8;
  Fld "sysctl_fwmark_reflect" u8;
  Fld "sysctl_tcp_fwmark_accept" u8;
  Fld "sysctl_tcp_l3mdev_accept" u8;
  Fld "sysctl_tcp_mtu_probing" u8;
  Fld "sysctl_tcp_mtu_probe_floor" c_int;
  Fld "sysctl_tcp_base_mss" c_int;
  Fld "sysctl_tcp_min_snd_mss" c_int;
  Fld "sysctl_tcp_probe_threshold" c_int;
  Fld "sysctl_tcp_probe_interval" u32;
  Fld "sysctl_tcp_keepalive_time" c_int;
  Fld "sysctl_tcp_keepalive_intvl" c_int;
  Fld "sysctl_tcp_keepalive_probes" u8;
  Fld "sysctl_tcp_syn_retries" u8;
  Fld "sysctl_tcp_synack_retries" u8;
  Fld "sysctl_tcp_syncookies" u8;
  Fld "sysctl_tcp_migrate_req" u8;
  Fld "sysctl_tcp_comp_sack_nr" u8;
  Fld "sysctl_tcp_reordering" c_int;
  Fld "sysctl_tcp_retries1" u8;
  Fld "sysctl_tcp_retries2" u8;
  Fld "sysctl_tcp_orphan_retries" u8;
  Fld "sysctl_tcp_tw_reuse" u8;
  Fld "sysctl_tcp_fin_timeout" c_int;
  Fld "sysctl_tcp_notsent_lowat" c_uint;
  Fld "sysctl_tcp_sack" u8;
  Fld "sysctl_tcp_window_scaling" u8;
  Fld "sysctl_tcp_timestamps" u8 }.

Definition struct_netns_ipv4_members_2 : cfields := fields{
  Fld "sysctl_tcp_early_retrans" u8;
  Fld "sysctl_tcp_recovery" u8;
  Fld "sysctl_tcp_thin_linear_timeouts" u8;
  Fld "sysctl_tcp_slow_start_after_idle" u8;
  Fld "sysctl_tcp_retrans_collapse" u8;
  Fld "sysctl_tcp_stdurg" u8;
  Fld "sysctl_tcp_rfc1337" u8;
  Fld "sysctl_tcp_abort_on_overflow" u8;
  Fld "sysctl_tcp_fack" u8;
  Fld "sysctl_tcp_max_reordering" c_int;
  Fld "sysctl_tcp_adv_win_scale" c_int;
  Fld "sysctl_tcp_dsack" u8;
  Fld "sysctl_tcp_app_win" u8;
  Fld "sysctl_tcp_frto" u8;
  Fld "sysctl_tcp_nometrics_save" u8;
  Fld "sysctl_tcp_no_ssthresh_metrics_save" u8;
  Fld "sysctl_tcp_moderate_rcvbuf" u8;
  Fld "sysctl_tcp_tso_win_divisor" u8;
  Fld "sysctl_tcp_workaround_signed_windows" u8;
  Fld "sysctl_tcp_limit_output_bytes" c_int;
  Fld "sysctl_tcp_challenge_ack_limit" c_int;
  Fld "sysctl_tcp_min_rtt_wlen" c_int;
  Fld "sysctl_tcp_min_tso_segs" u8;
  Fld "sysctl_tcp_tso_rtt_log" u8;
  Fld "sysctl_tcp_autocorking" u8;
  Fld "sysctl_tcp_reflect_tos" u8;
  Fld "sysctl_tcp_invalid_ratelimit" c_int;
  Fld "sysctl_tcp_pacing_ss_ratio" c_int;
  Fld "sysctl_tcp_pacing_ca_ratio" c_int;
  Fld "sysctl_tcp_wmem" (TArr c_int 3);
  Fld "sysctl_tcp_rmem" (TArr c_int 3);
  Fld "sysctl_tcp_child_ehash_entries" c_uint;
  Fld "sysctl_tcp_comp_sack_delay_ns" c_ulong;
  Fld "sysctl_tcp_comp_sack_slack_ns" c_ulong;
  Fld "sysctl_max_syn_backlog" c_int;
  Fld "sysctl_tcp_fastopen" c_int;
  Fld "tcp_congestion_control" TPtr;
  Fld "tcp_fastopen_ctx" TPtr;
  Fld "sysctl_tcp_fastopen_blackhole_timeout" c_uint;
  Fld "tfo_active_disable_times" atomic_t;
  Fld "tfo_active_disable_stamp" c_ulong;
  Fld "tcp_challenge_timestamp" u32;
  Fld "tcp_challenge_count" u32;
  Fld "sysctl_tcp_plb_enabled" u8;
  Fld "sysctl_tcp_plb_idle_rehash_rounds" u8;
  Fld "sysctl_tcp_plb_rehash_rounds" u8;
  Fld "sysctl_tcp_plb_suspend_rto_sec" u8;
  Fld "sysctl_tcp_plb_cong_thresh" c_int;
  Fld "sysctl_udp_wmem_min" c_int;
  Fld "sysctl_udp_rmem_min" c_int;
  Fld "sysctl_fib_notify_on_flag_change" u8;
  Fld "sysctl_tcp_syn_linear_timeouts" u8;
  Fld "sysctl_udp_l3mdev_accept" u8;
  Fld "sysctl_igmp_llm_reports" u8;
  Fld "sysctl_igmp_max_memberships" c_int;
  Fld "sysctl_igmp_max_msf" c_int;
  Fld "sysctl_igmp_qrv" c_int;
  Fld "ping_group_range" struct_ping_group_range;
  Fld "dev_addr_genid" atomic_t;
  Fld "sysctl_udp_child_hash_entries" c_uint;
  Fld "sysctl_local_reserved_ports" TPtr;
  Fld "sysctl_ip_prot_sock" c_int;
  Fld "mr_tables" struct_list_head;
  Fld "mr_rules_ops" TPtr;
  Fld "sysctl_fib_multipath_hash_fields" u32;
  Fld "sysctl_fib_multipath_use_neigh" u8;
  Fld "sysctl_fib_multipath_hash_policy" u8;
  Fld "notifier_ops" TPtr;
  Fld "fib_seq" c_uint;
  Fld "ipmr_notifier_ops" TPtr;
  Fld "ipmr_seq" c_uint;
  Fld "rt_genid" atomic_t;
  Fld "ip_id_key" siphash_key_t;
  Pad c_long 64;
  Pad c_long 64;
  Pad c_long 64;
  Pad c_long 64 }.

Definition struct_netns_ipv4 : ctype := TStruct false (fapp struct_netns_ipv4_members_1 struct_netns_ipv4_members_2).

Definition struct_percpu_counter : ctype := struct{
  Fld "lock" raw_spinlock_t;
  Fld "count" s64;
  Fld "list" struct_list_head;
  Fld "counters" TPtr }.

Definition struct_dst_ops : ctype := struct{
  Fld "family" c_ushort;
  Fld "gc_thresh" c_uint;
  Fld "gc" TPtr;
  Fld "check" TPtr;
  Fld "default_advmss" TPtr;
  Fld "mtu" TPtr;
  Fld "cow_metrics" TPtr;
  Fld "destroy" TPtr;
  Fld "ifdown" TPtr;
  Fld "negative_advice" TPtr;
  Fld "link_failure" TPtr;
  Fld "update_pmtu" TPtr;
  Fld "redirect" TPtr;
  Fld "local_out" TPtr;
  Fld "neigh_lookup" TPtr;
  Fld "confirm_neigh" TPtr;
  Fld "kmem_cachep" TPtr;
  Fld "pcpuc_entries" struct_percpu_counter;
  Pad c_long 64;
  Pad c_long 64;
  Pad c_long 64 }.

Definition struct_netns_sysctl_ipv6 : ctype := struct{
  Fld "hdr" TPtr;
  Fld "route_hdr" TPtr;
  Fld "icmp_hdr" TPtr;
  Fld "frags_hdr" TPtr;
  Fld "xfrm6_hdr" TPtr;
  Fld "flush_delay" c_int;
  Fld "ip6_rt_max_size" c_int;
  Fld "ip6_rt_gc_min_interval" c_int;
  Fld "ip6_rt_gc_timeout" c_int;
  Fld "ip6_rt_gc_interval" c_int;
  Fld "ip6_rt_gc_elasticity" c_int;
  Fld "ip6_rt_mtu_expires" c_int;
  Fld "ip6_rt_min_advmss" c_int;
  Fld "multipath_hash_fields" u32;
  Fld "multipath_hash_policy" u8;
  Fld "bindv6only" u8;
  Fld "flowlabel_consistency" u8;
  Fld "auto_flowlabels" u8;
  Fld "icmpv6_time" c_int;
  Fld "icmpv6_echo_ignore_all" u8;
  Fld "icmpv6_echo_ignore_multicast" u8;
  Fld "icmpv6_echo_ignore_anycast" u8;
  Fld "icmpv6_ratemask" (TArr c_ulong 4);
  Fld "icmpv6_ratemask_ptr" TPtr;
  Fld "anycast_src_echo_reply" u8;
  Fld "ip_nonlocal_bind" u8;
  Fld "fwmark_reflect" u8;
  Fld "flowlabel_state_ranges" u8;
  Fld "idgen_retries" c_int;
  Fld "idgen_delay" c_int;
  Fld "flowlabel_reflect" c_int;
  Fld "max_dst_opts_cnt" c_int;
  Fld "max_hbh_opts_cnt" c_int;
  Fld "max_dst_opts_len" c_int;
  Fld "max_hbh_opts_len" c_int;
  Fld "seg6_flowlabel" c_int;
  Fld "ioam6_id" u32;
  Fld "ioam6_id_wide" u64;
  Fld "skip_notify_on_dev_down" u8;
  Fld "fib_notify_on_flag_change" u8;
  Fld "icmpv6_error_anycast_as_unicast" u8 }.

Definition work_func_t : ctype := TPtr.

Definition struct_work_struct : ctype := struct{
  Fld "data" atomic_long_t;
  Fld "entry" struct_list_head;
  Fld "func" work_func_t }.

Definition struct_delayed_work : ctype := struct{
  Fld "work" struct_work_struct;
  Fld "timer" struct_timer_list;
  Fld "wq" TPtr;
  Fld "cpu" c_int }.

Definition struct_netns_ipv6 : ctype := struct{
  Fld "ip6_dst_ops" struct_dst_ops;
  Fld "sysctl" struct_netns_sysctl_ipv6;
  Fld "devconf_all" TPtr;
  Fld "devconf_dflt" TPtr;
  Fld "peers" TPtr;
  Fld "fqdir" TPtr;
  Fld "fib6_null_entry" TPtr;
  Fld "ip6_null_entry" TPtr;
  Fld "rt6_stats" TPtr;
  Fld "ip6_fib_timer" struct_timer_list;
  Fld "fib_table_hash" TPtr;
  Fld "fib6_main_tbl" TPtr;
  Fld "fib6_walkers" struct_list_head;
  Fld "fib6_walker_lock" rwlock_t;
  Fld "fib6_gc_lock" spinlock_t;
  Fld "ip6_rt_gc_expire" atomic_t;
  Fld "ip6_rt_last_gc" c_ulong;
  Fld "flowlabel_has_excl" c_uchar;
  Fld "fib6_has_custom_rules" bool_t;
  Fld "fib6_rules_require_fldissect" c_uint;
  Fld "fib6_routes_require_src" c_uint;
  Fld "ip6_prohibit_entry" TPtr;
  Fld "ip6_blk_hole_entry" TPtr;
  Fld "fib6_local_tbl" TPtr;
  Fld "fib6_rules_ops" TPtr;
  Fld "ndisc_sk" TPtr;
  Fld "tcp_sk" TPtr;
  Fld "igmp_sk" TPtr;
  Fld "mc_autojoin_sk" TPtr;
  Fld "inet6_addr_lst" TPtr;
  Fld "addrconf_hash_lock" spinlock_t;
  Fld "addr_chk_work" struct_delayed_work;
  Fld "mr6_tables" struct_list_head;
  Fld "mr6_rules_ops" TPtr;
  Fld "dev_addr_genid" atomic_t;
  Fld "fib6_sernum" atomic_t;
  Fld "seg6_data" TPtr;
  Fld "notifier_ops" TPtr;
  Fld "ip6mr_notifier_ops" TPtr;
  Fld "ipmr_seq" c_uint;
  Fld "ip6addrlbl_table" (struct{
    Fld "head" struct_hlist_head;
    Fld "lock" spinlock_t;
    Fld "seq" u32 });
  Fld "ioam6_data" TPtr;
  Pad c_long 64;
  Pad c_long 64;
  Pad c_long 64;
  Pad c_long 64 }.

Definition struct_netns_sctp : ctype := struct{
  Fld "sctp_statistics" TPtr;
  Fld "proc_net_sctp" TPtr;
  Fld "sysctl_header" TPtr;
  Fld "ctl_sock" TPtr;
  Fld "udp4_sock" TPtr;
  Fld "udp6_sock" TPtr;
  Fld "udp_port" c_int;
  Fld "encap_port" c_int;
  Fld "local_addr_list" struct_list_head;
  Fld "addr_waitq" struct_list_head;
  Fld "addr_wq_timer" struct_timer_list;
  Fld "auto_asconf_splist" struct_list_head;
  Fld "addr_wq_lock" spinlock_t;
  Fld "local_addr_lock" spinlock_t;
  Fld "rto_initial" c_uint;
  Fld "rto_min" c_uint;
  Fld "rto_max" c_uint;
  Fld "rto_alpha" c_int;
  Fld "rto_beta" c_int;
  Fld "max_burst" c_int;
  Fld "cookie_preserve_enable" c_int;
  Fld "sctp_hmac_alg" TPtr;
  Fld "valid_cookie_life" c_uint;
  Fld "sack_timeout" c_uint;
  Fld "hb_interval" c_uint;
  Fld "probe_interval" c_uint;
  Fld "max_retrans_association" c_int;
  Fld "max_retrans_path" c_int;
  Fld "max_retrans_init" c_int;
  Fld "pf_retrans" c_int;
  Fld "ps_retrans" c_int;
  Fld "pf_enable" c_int;
  Fld "pf_expose" c_int;
  Fld "sndbuf_policy" c_int;
  Fld "rcvbuf_policy" c_int;
  Fld "default_auto_asconf" c_int;
  Fld "addip_enable" c_int;
  Fld "addip_noauth" c_int;
  Fld "prsctp_enable" c_int;
  Fld "reconf_enable" c_int;
  Fld "auth_enable" c_int;
  Fld "intl_enable" c_int;
  Fld "ecn_enable" c_int;
  Fld "scope_policy" c_int;
  Fld "rwnd_upd_shift" c_int;
  Fld "max_autoclose" c_ulong;
  Fld "l3mdev_accept" c_int }.

Definition struct_netns_nf : ctype := struct{
  Fld "proc_netfilter" TPtr;
  Fld "nf_loggers" (TArr TPtr 11);
  Fld "nf_log_dir_header" TPtr;
  Fld "hooks_ipv4" (TArr TPtr 5);
  Fld "hooks_ipv6" (TArr TPtr 5);
  Fld "hooks_arp" (TArr TPtr 3);
  Fld "hooks_bridge" (TArr TPtr 5);
  Fld "defrag_ipv4_users" c_uint;
  Fld "defrag_ipv6_users" c_uint }.

Definition struct_nf_generic_net : ctype := struct{
  Fld "timeout" c_uint }.

Definition struct_nf_tcp_net : ctype := struct{
  Fld "timeouts" (TArr c_uint 14);
  Fld "tcp_loose" u8;
  Fld "tcp_be_liberal" u8;
  Fld "tcp_max_retrans" u8;
  Fld "tcp_ignore_invalid_rst" u8 }.

Definition struct_nf_udp_net : ctype := struct{
  Fld "timeouts" (TArr c_uint 2) }.

Definition struct_nf_icmp_net : ctype := struct{
  Fld "timeout" c_uint }.

Definition struct_nf_dccp_net : ctype := struct{
  Fld "dccp_loose" u8;
  Fld "dccp_timeout" (TArr c_uint 10) }.

Definition struct_nf_sctp_net : ctype := struct{
  Fld "timeouts" (TArr c_uint 10) }.

Definition struct_nf_gre_net : ctype := struct{
  Fld "keymap_list" struct_list_head;
  Fld "timeouts" (TArr c_uint 2) }.

Definition struct_nf_ip_net : ctype := struct{
  Fld "generic" struct_nf_generic_net;
  Fld "tcp" struct_nf_tcp_net;
  Fld "udp" struct_nf_udp_net;
  Fld "icmp" struct_nf_icmp_net;
  Fld "icmpv6" struct_nf_icmp_net;
  Fld "dccp" struct_nf_dccp_net;
  Fld "sctp" struct_nf_sctp_net;
  Fld "gre" struct_nf_gre_net }.

Definition struct_netns_ct : ctype := struct{
  Fld "ecache_dwork_pending" bool_t;
  Fld "sysctl_log_invalid" u8;
  Fld "sysctl_events" u8;
  Fld "sysctl_acct" u8;
  Fld "sysctl_tstamp" u8;
  Fld "sysctl_checksum" u8;
  Fld "stat" TPtr;
  Fld "nf_conntrack_event_cb" TPtr;
  Fld "nf_ct_proto" struct_nf_ip_net;
  Fld "labels_used" c_uint }.

Definition struct_netns_nftables : ctype := struct{
  Fld "gencursor" u8 }.

Definition struct_netns_bpf : ctype := struct{
  Fld "run_array" (TArr TPtr 2);
  Fld "progs" (TArr TPtr 2);
  Fld "links" (TArr struct_list_head 2) }.

Definition struct_xfrm_policy_hash : ctype := struct{
  Fld "table" TPtr;
  Fld "hmask" c_uint;
  Fld "dbits4" u8;
  Fld "sbits4" u8;
  Fld "dbits6" u8;
  Fld "sbits6" u8 }.

Definition struct_xfrm_policy_hthresh : ctype := struct{
  Fld "work" struct_work_struct;
  Fld "lock" seqlock_t;
  Fld "lbits4" u8;
  Fld "rbits4" u8;
  Fld "lbits6" u8;
  Fld "rbits6" u8 }.

Definition struct_netns_xfrm : ctype := struct{
  Fld "state_all" struct_list_head;
  Fld "state_bydst" TPtr;
  Fld "state_bysrc" TPtr;
  Fld "state_byspi" TPtr;
  Fld "state_byseq" TPtr;
  Fld "state_hmask" c_uint;
  Fld "state_num" c_uint;
  Fld "state_hash_work" struct_work_struct;
  Fld "policy_all" struct_list_head;
  Fld "policy_byidx" TPtr;
  Fld "policy_idx_hmask" c_uint;
  Fld "idx_generator" c_uint;
  Fld "policy_inexact" (TArr struct_hlist_head 3);
  Fld "policy_bydst" (TArr struct_xfrm_policy_hash 3);
  Fld "policy_count" (TArr c_uint 6);
  Fld "policy_hash_work" struct_work_struct;
  Fld "policy_hthresh" struct_xfrm_policy_hthresh;
  Fld "inexact_bins" struct_list_head;
  Fld "nlsk" TPtr;
  Fld "nlsk_stash" TPtr;
  Fld "sysctl_aevent_etime" u32;
  Fld "sysctl_aevent_rseqth" u32;
  Fld "sysctl_larval_drop" c_int;
  Fld "sysctl_acq_expires" u32;
  Fld "policy_default" (TArr u8 3);
  Fld "sysctl_hdr" TPtr;
  Pad c_long 64;
  Pad c_long 64;
  Pad c_long 64;
  Fld "xfrm4_dst_ops" struct_dst_ops;
  Fld "xfrm6_dst_ops" struct_dst_ops;
  Fld "xfrm_state_lock" spinlock_t;
  Fld "xfrm_state_hash_generation" seqcount_spinlock_t;
  Fld "xfrm_policy_hash_generation" seqcount_spinlock_t;
  Fld "xfrm_policy_lock" spinlock_t;
  Fld "xfrm_cfg_mutex" struct_mutex;
  Pad c_long 64;
  Pad c_long 64 }.

Definition struct_netns_mpls : ctype := struct{
  Fld "ip_ttl_propagate" c_int;
  Fld "default_ttl" c_int;
  Fld "platform_labels" size_t;
  Fld "platform_label" TPtr;
  Fld "ctl" TPtr }.

Definition struct_netns_can : ctype := struct{
  Fld "proc_dir" TPtr;
  Fld "pde_stats" TPtr;
  Fld "pde_reset_stats" TPtr;
  Fld "pde_rcvlist_all" TPtr;
  Fld "pde_rcvlist_fil" TPtr;
  Fld "pde_rcvlist_inv" TPtr;
  Fld "pde_rcvlist_sff" TPtr;
  Fld "pde_rcvlist_eff" TPtr;
  Fld "pde_rcvlist_err" TPtr;
  Fld "bcmproc_dir" TPtr;
  Fld "rx_alldev_list" TPtr;
  Fld "rcvlists_lock" spinlock_t;
  Fld "stattimer" struct_timer_list;
  Fld "pkg_stats" TPtr;
  Fld "rcv_lists_stats" TPtr;
  Fld "cgw_list" struct_hlist_head }.

Definition struct_netns_xdp : ctype := struct{
  Fld "lock" struct_mutex;
  Fld "list" struct_hlist_head }.

Definition struct_netns_smc : ctype := struct{
  Fld "smc_stats" TPtr;
  Fld "mutex_fback_rsn" struct_mutex;
  Fld "fback_rsn" TPtr;
  Fld "limit_smc_hs" bool_t;
  Fld "smc_hdr" TPtr;
  Fld "sysctl_autocorking_size" c_uint;
  Fld "sysctl_smcr_buf_type" c_uint;
  Fld "sysctl_smcr_testlink_time" c_int;
  Fld "sysctl_wmem" c_int;
  Fld "sysctl_rmem" c_int }.

Definition struct_net : ctype := struct{
  Fld "passive" refcount_t;
  Fld "rules_mod_lock" spinlock_t;
  Fld "dev_unreg_count" atomic_t;
  Fld "dev_base_seq" c_uint;
  Fld "ifindex" u32;
  Fld "nsid_lock" spinlock_t;
  Fld "fnhe_genid" atomic_t;
  Fld "list" struct_list_head;
  Fld "exit_list" struct_list_head;
  Fld "cleanup_list" struct_llist_node;
  Fld "key_domain" TPtr;
  Fld "user_ns" TPtr;
  Fld "ucounts" TPtr;
  Fld "netns_ids" struct_idr;
  Fld "ns" struct_ns_common;
  Fld "refcnt_tracker" struct_ref_tracker_dir;
  Fld "notrefcnt_tracker" struct_ref_tracker_dir;
  Fld "dev_base_head" struct_list_head;
  Fld "proc_net" TPtr;
  Fld "proc_net_stat" TPtr;
  Fld "sysctls" struct_ctl_table_set;
  Fld "rtnl" TPtr;
  Fld "genl_sock" TPtr;
  Fld "uevent_sock" TPtr;
  Fld "dev_name_head" TPtr;
  Fld "dev_index_head" TPtr;
  Fld "dev_by_index" struct_xarray;
  Fld "netdev_chain" struct_raw_notifier_head;
  Fld "hash_mix" u32;
  Fld "loopback_dev" TPtr;
  Fld "rules_ops" struct_list_head;
  Fld "core" struct_netns_core;
  Fld "mib" struct_netns_mib;
  Fld "packet" struct_netns_packet;
  Fld "unx" struct_netns_unix;
  Fld "nexthop" struct_netns_nexthop;
  Pad c_long 64;
  Pad c_long 64;
  Pad c_long 64;
  Pad c_long 64;
  Pad c_long 64;
  Fld "ipv4" struct_netns_ipv4;
  Fld "ipv6" struct_netns_ipv6;
  Fld "sctp" struct_netns_sctp;
  Fld "nf" struct_netns_nf;
  Fld "ct" struct_netns_ct;
  Fld "nft" struct_netns_nftables;
  Fld "wext_nlevents" struct_sk_buff_head;
  Fld "gen" TPtr;
  Fld "bpf" struct_netns_bpf;
  Pad c_long 64;
  Fld "xfrm" struct_netns_xfrm;
  Fld "net_cookie" u64;
  Fld "ipvs" TPtr;
  Fld "mpls" struct_netns_mpls;
  Fld "can" struct_netns_can;
  Fld "xdp" struct_netns_xdp;
  Fld "crypto_nlsk" TPtr;
  Fld "diag_nlsk" TPtr;
  Fld "smc" struct_netns_smc;
  Pad c_long 64;
  Pad c_long 64;
  Pad c_long 64;
  Pad c_long 64 }.
