(* ===== verification/VmTask.v ===== *)
(** * Kernel types: tasks

    [struct task_struct] of [include/vmlinux.h] and every type it embeds by
    value that is not already declared.  Its members are given in two lists,
    concatenated, because of its length. *)

From S2P Require Import Prelude CLayout CTypes VmPacket VmSock VmNetns.

Local Open Scope ctype_scope.

Definition struct_thread_info : ctype := struct{
  Fld "flags" c_ulong;
  Fld "syscall_work" c_ulong;
  Fld "status" u32;
  Fld "cpu" u32 }.

Definition struct___call_single_node : ctype := struct{
  Fld "llist" struct_llist_node;
  Anon (union{
    Fld "u_flags" c_uint;
    Fld "a_flags" atomic_t });
  Fld "src" u16;
  Fld "dst" u16 }.

Definition struct_load_weight : ctype := struct{
  Fld "weight" c_ulong;
  Fld "inv_weight" u32 }.

Definition struct_rb_node : ctype := struct{
  Fld "__rb_parent_color" c_ulong;
  Fld "rb_right" TPtr;
  Fld "rb_left" TPtr }.

Definition struct_util_est : ctype := struct{
  Fld "enqueued" c_uint;
  Fld "ewma" c_uint }.

Definition struct_sched_avg : ctype := struct{
  Fld "last_update_time" u64;
  Fld "load_sum" u64;
  Fld "runnable_sum" u64;
  Fld "util_sum" u32;
  Fld "period_contrib" u32;
  Fld "load_avg" c_ulong;
  Fld "runnable_avg" c_ulong;
  Fld "util_avg" c_ulong;
  Fld "util_est" struct_util_est }.

Definition struct_sched_entity : ctype := struct{
  Fld "load" struct_load_weight;
  Fld "run_node" struct_rb_node;
  Fld "deadline" u64;
  Fld "min_deadline" u64;
  Fld "group_node" struct_list_head;
  Fld "on_rq" c_uint;
  Fld "exec_start" u64;
  Fld "sum_exec_runtime" u64;
  Fld "prev_sum_exec_runtime" u64;
  Fld "vruntime" u64;
  Fld "vlag" s64;
  Fld "slice" u64;
  Fld "nr_migrations" u64;
  Fld "depth" c_int;
  Fld "parent" TPtr;
  Fld "cfs_rq" TPtr;
  Fld "my_q" TPtr;
  Fld "runnable_weight" c_ulong;
  Pad c_long 64;
  Pad c_long 64;
  Fld "avg" struct_sched_avg }.

Definition struct_sched_rt_entity : ctype := struct{
  Fld "run_list" struct_list_head;
  Fld "timeout" c_ulong;
  Fld "watchdog_stamp" c_ulong;
  Fld "time_slice" c_uint;
  Fld "on_rq" c_ushort;
  Fld "on_list" c_ushort;
  Fld "back" TPtr }.

Definition struct_timerqueue_node : ctype := struct{
  Fld "node" struct_rb_node;
  Fld "expires" ktime_t }.

Definition struct_hrtimer : ctype := struct{
  Fld "node" struct_timerqueue_node;
  Fld "_softexpires" ktime_t;
  Fld "function" TPtr;
  Fld "base" TPtr;
  Fld "state" u8;
  Fld "is_rel" u8;
  Fld "is_soft" u8;
  Fld "is_hard" u8 }.

Definition struct_sched_dl_entity : ctype := struct{
  Fld "rb_node" struct_rb_node;
  Fld "dl_runtime" u64;
  Fld "dl_deadline" u64;
  Fld "dl_period" u64;
  Fld "dl_bw" u64;
  Fld "dl_density" u64;
  Fld "runtime" s64;
  Fld "deadline" u64;
  Fld "flags" c_uint;
  Bits "dl_throttled" c_uint 1;
  Bits "dl_yielded" c_uint 1;
  Bits "dl_non_contending" c_uint 1;
  Bits "dl_overrun" c_uint 1;
  Fld "dl_timer" struct_hrtimer;
  Fld "inactive_timer" struct_hrtimer;
  Fld "pi_se" TPtr }.

Definition struct_sched_statistics : ctype := struct{
  Fld "wait_start" u64;
  Fld "wait_max" u64;
  Fld "wait_count" u64;
  Fld "wait_sum" u64;
  Fld "iowait_count" u64;
  Fld "iowait_sum" u64;
  Fld "sleep_start" u64;
  Fld "sleep_max" u64;
  Fld "sum_sleep_runtime" s64;
  Fld "block_start" u64;
  Fld "block_max" u64;
  Fld "sum_block_runtime" s64;
  Fld "exec_max" u64;
  Fld "slice_max" u64;
  Fld "nr_migrations_cold" u64;
  Fld "nr_failed_migrations_affine" u64;
  Fld "nr_failed_migrations_running" u64;
  Fld "nr_failed_migrations_hot" u64;
  Fld "nr_forced_migrations" u64;
  Fld "nr_wakeups" u64;
  Fld "nr_wakeups_sync" u64;
  Fld "nr_wakeups_migrate" u64;
  Fld "nr_wakeups_local" u64;
  Fld "nr_wakeups_remote" u64;
  Fld "nr_wakeups_affine" u64;
  Fld "nr_wakeups_affine_attempts" u64;
  Fld "nr_wakeups_passive" u64;
  Fld "nr_wakeups_idle" u64;
  Pad c_long 64;
  Pad c_long 64;
  Pad c_long 64;
  Pad c_long 64 }.

Definition struct_cpumask : ctype := struct{
  Fld "bits" (TArr c_ulong 128) }.

Definition cpumask_t : ctype := struct_cpumask.

Definition union_rcu_special : ctype := union{
  Fld "b" (struct{
    Fld "blocked" u8;
    Fld "need_qs" u8;
    Fld "exp_hint" u8;
    Fld "need_mb" u8 });
  Fld "s" u32 }.

Definition struct_sched_info : ctype := struct{
  Fld "pcount" c_ulong;
  Fld "run_delay" c_ullong;
  Fld "last_arrival" c_ullong;
  Fld "last_queued" c_ullong }.

Definition struct_plist_node : ctype := struct{
  Fld "prio" c_int;
  Fld "prio_list" struct_list_head;
  Fld "node_list" struct_list_head }.

Definition __kernel_clockid_t : ctype := c_int.

Definition clockid_t : ctype := __kernel_clockid_t.

Definition enum_timespec_type : ctype := c_uint.

Definition struct_restart_block : ctype := struct{
  Fld "arch_data" c_ulong;
  Fld "fn" TPtr;
  Anon (union{
    Fld "futex" (struct{
      Fld "uaddr" TPtr;
      Fld "val" u32;
      Fld "flags" u32;
      Fld "bitset" u32;
      Fld "time" u64;
      Fld "uaddr2" TPtr });
    Fld "nanosleep" (struct{
      Fld "clockid" clockid_t;
      Fld "type" enum_timespec_type;
      Anon (union{
        Fld "rmtp" TPtr;
        Fld "compat_rmtp" TPtr });
      Fld "expires" u64 });
    Fld "poll" (struct{
      Fld "ufds" TPtr;
      Fld "nfds" c_int;
      Fld "has_timeout" c_int;
      Fld "tv_sec" c_ulong;
      Fld "tv_nsec" c_ulong }) }) }.

Definition __kernel_pid_t : ctype := c_int.

Definition pid_t : ctype := __kernel_pid_t.

Definition struct_prev_cputime : ctype := struct{
  Fld "utime" u64;
  Fld "stime" u64;
  Fld "lock" raw_spinlock_t }.

Definition struct_rb_root_cached : ctype := struct{
  Fld "rb_root" struct_rb_root;
  Fld "rb_leftmost" TPtr }.

Definition struct_timerqueue_head : ctype := struct{
  Fld "rb_root" struct_rb_root_cached }.

Definition struct_posix_cputimer_base : ctype := struct{
  Fld "nextevt" u64;
  Fld "tqhead" struct_timerqueue_head }.

Definition struct_posix_cputimers : ctype := struct{
  Fld "bases" (TArr struct_posix_cputimer_base 3);
  Fld "timers_active" c_uint;
  Fld "expiry_active" c_uint }.

Definition struct_posix_cputimers_work : ctype := struct{
  Fld "work" struct_callback_head;
  Fld "mutex" struct_mutex;
  Fld "scheduled" c_uint }.

Definition struct_sysv_sem : ctype := struct{
  Fld "undo_list" TPtr }.

Definition struct_sysv_shm : ctype := struct{
  Fld "shm_clist" struct_list_head }.

Definition sigset_t : ctype := struct{
  Fld "sig" (TArr c_ulong 1) }.

Definition struct_sigpending : ctype := struct{
  Fld "list" struct_list_head;
  Fld "signal" sigset_t }.

Definition struct_seccomp : ctype := struct{
  Fld "mode" c_int;
  Fld "filter_count" atomic_t;
  Fld "filter" TPtr }.

Definition struct_syscall_user_dispatch : ctype := struct{
  Fld "selector" TPtr;
  Fld "offset" c_ulong;
  Fld "len" c_ulong;
  Fld "on_dispatch" bool_t }.

Definition struct_wake_q_node : ctype := struct{
  Fld "next" TPtr }.

Definition struct_task_io_accounting : ctype := struct{
  Fld "rchar" u64;
  Fld "wchar" u64;
  Fld "syscr" u64;
  Fld "syscw" u64;
  Fld "read_bytes" u64;
  Fld "write_bytes" u64;
  Fld "cancelled_write_bytes" u64 }.

Definition nodemask_t : ctype := struct{
  Fld "bits" (TArr c_ulong 16) }.

Definition struct_arch_tlbflush_unmap_batch : ctype := struct{
  Fld "cpumask" struct_cpumask }.

Definition struct_tlbflush_unmap_batch : ctype := struct{
  Fld "arch" struct_arch_tlbflush_unmap_batch;
  Fld "flush_required" bool_t;
  Fld "writable" bool_t }.

Definition struct_latency_record : ctype := struct{
  Fld "backtrace" (TArr c_ulong 12);
  Fld "count" c_uint;
  Fld "time" c_ulong;
  Fld "max" c_ulong }.

Definition struct_kmap_ctrl : ctype := struct{ }.

Definition struct_llist_head : ctype := struct{
  Fld "first" TPtr }.

Definition struct_desc_struct : ctype := struct{
  Fld "limit0" u16;
  Fld "base0" u16;
  Bits "base1" u16 8;
  Bits "type" u16 4;
  Bits "s" u16 1;
  Bits "dpl" u16 2;
  Bits "p" u16 1;
  Bits "limit1" u16 4;
  Bits "avl" u16 1;
  Bits "l" u16 1;
  Bits "d" u16 1;
  Bits "g" u16 1;
  Bits "base2" u16 8 }.

Definition struct_fpu_state_perm : ctype := struct{
  Fld "__state_perm" u64;
  Fld "__state_size" c_uint;
  Fld "__user_state_size" c_uint }.

Definition struct_fregs_state : ctype := struct{
  Fld "cwd" u32;
  Fld "swd" u32;
  Fld "twd" u32;
  Fld "fip" u32;
  Fld "fcs" u32;
  Fld "foo" u32;
  Fld "fos" u32;
  Fld "st_space" (TArr u32 20);
  Fld "status" u32 }.

Definition struct_fxregs_state : ctype := struct{
  Fld "cwd" u16;
  Fld "swd" u16;
  Fld "twd" u16;
  Fld "fop" u16;
  Anon (union{
    Anon (struct{
      Fld "rip" u64;
      Fld "rdp" u64 });
    Anon (struct{
      Fld "fip" u32;
      Fld "fcs" u32;
      Fld "foo" u32;
      Fld "fos" u32 }) });
  Fld "mxcsr" u32;
  Fld "mxcsr_mask" u32;
  Fld "st_space" (TArr u32 32);
  Fld "xmm_space" (TArr u32 64);
  Fld "padding" (TArr u32 12);
  Anon (union{
    Fld "padding1" (TArr u32 12);
    Fld "sw_reserved" (TArr u32 12) }) }.

Definition struct_swregs_state : ctype := struct{
  Fld "cwd" u32;
  Fld "swd" u32;
  Fld "twd" u32;
  Fld "fip" u32;
  Fld "fcs" u32;
  Fld "foo" u32;
  Fld "fos" u32;
  Fld "st_space" (TArr u32 20);
  Fld "ftop" u8;
  Fld "changed" u8;
  Fld "lookahead" u8;
  Fld "no_update" u8;
  Fld "rm" u8;
  Fld "alimit" u8;
  Fld "info" TPtr;
  Fld "entry_eip" u32 }.

Definition struct_xstate_header : ctype := struct{
  Fld "xfeatures" u64;
  Fld "xcomp_bv" u64;
  Fld "reserved" (TArr u64 6) }.

Definition struct_xregs_state : ctype := struct{
  Fld "i387" struct_fxregs_state;
  Fld "header" struct_xstate_header;
  Fld "extended_state_area" (TArr u8 0) }.

Definition union_fpregs_state : ctype := union{
  Fld "fsave" struct_fregs_state;
  Fld "fxsave" struct_fxregs_state;
  Fld "soft" struct_swregs_state;
  Fld "xsave" struct_xregs_state;
  Fld "__padding" (TArr u8 4096) }.

Definition struct_fpstate : ctype := struct{
  Fld "size" c_uint;
  Fld "user_size" c_uint;
  Fld "xfeatures" u64;
  Fld "user_xfeatures" u64;
  Fld "xfd" u64;
  Bits "is_valloc" c_uint 1;
  Bits "is_guest" c_uint 1;
  Bits "is_confidential" c_uint 1;
  Bits "in_use" c_uint 1;
  Pad c_long 64;
  Pad c_long 64;
  Pad c_long 64;
  Fld "regs" union_fpregs_state }.

Definition struct_fpu : ctype := struct{
  Fld "last_cpu" c_uint;
  Fld "avx512_timestamp" c_ulong;
  Fld "fpstate" TPtr;
  Fld "__task_fpstate" TPtr;
  Fld "perm" struct_fpu_state_perm;
  Fld "guest_perm" struct_fpu_state_perm;
  Fld "__fpstate" struct_fpstate }.

Definition struct_thread_struct : ctype := struct{
  Fld "tls_array" (TArr struct_desc_struct 3);
  Fld "sp" c_ulong;
  Fld "es" c_ushort;
  Fld "ds" c_ushort;
  Fld "fsindex" c_ushort;
  Fld "gsindex" c_ushort;
  Fld "fsbase" c_ulong;
  Fld "gsbase" c_ulong;
  Fld "ptrace_bps" (TArr TPtr 4);
  Fld "virtual_dr6" c_ulong;
  Fld "ptrace_dr7" c_ulong;
  Fld "cr2" c_ulong;
  Fld "trap_nr" c_ulong;
  Fld "error_code" c_ulong;
  Fld "io_bitmap" TPtr;
  Fld "iopl_emul" c_ulong;
  Bits "iopl_warn" c_uint 1;
  Fld "pkru" u32;
  Pad c_long 64;
  Pad c_long 64;
  Pad c_long 64;
  Pad c_long 64;
  Pad c_long 64;
  Fld "fpu" struct_fpu }.

Definition struct_task_struct_members_1 : cfields := fields{
  Fld "thread_info" struct_thread_info;
  Fld "__state" c_uint;
  Fld "stack" TPtr;
  Fld "usage" refcount_t;
  Fld "flags" c_uint;
  Fld "ptrace" c_uint;
  Fld "on_cpu" c_int;
  Fld "wake_entry" struct___call_single_node;
  Fld "wakee_flips" c_uint;
  Fld "wakee_flip_decay_ts" c_ulong;
  Fld "last_wakee" TPtr;
  Fld "recent_used_cpu" c_int;
  Fld "wake_cpu" c_int;
  Fld "on_rq" c_int;
  Fld "prio" c_int;
  Fld "static_prio" c_int;
  Fld "normal_prio" c_int;
  Fld "rt_priority" c_uint;
  Fld "se" struct_sched_entity;
  Fld "rt" struct_sched_rt_entity;
  Fld "dl" struct_sched_dl_entity;
  Fld "sched_class" TPtr;
  Fld "sched_task_group" TPtr;
  Pad c_long 64;
  Pad c_long 64;
  Pad c_long 64;
  Pad c_long 64;
  Fld "stats" struct_sched_statistics;
  Fld "preempt_notifiers" struct_hlist_head;
  Fld "btrace_seq" c_uint;
  Fld "policy" c_uint;
  Fld "nr_cpus_allowed" c_int;
  Fld "cpus_ptr" TPtr;
  Fld "user_cpus_ptr" TPtr;
  Fld "cpus_mask" cpumask_t;
  Fld "migration_pending" TPtr;
  Fld "migration_disabled" c_ushort;
  Fld "migration_flags" c_ushort;
  Fld "rcu_read_lock_nesting" c_int;
  Fld "rcu_read_unlock_special" union_rcu_special;
  Fld "rcu_node_entry" struct_list_head;
  Fld "rcu_blocked_node" TPtr;
  Fld "rcu_tasks_nvcsw" c_ulong;
  Fld "rcu_tasks_holdout" u8;
  Fld "rcu_tasks_idx" u8;
  Fld "rcu_tasks_idle_cpu" c_int;
  Fld "rcu_tasks_holdout_list" struct_list_head;
  Fld "trc_reader_nesting" c_int;
  Fld "trc_ipi_to_cpu" c_int;
  Fld "trc_reader_special" union_rcu_special;
  Fld "trc_holdout_list" struct_list_head;
  Fld "trc_blkd_node" struct_list_head;
  Fld "trc_blkd_cpu" c_int;
  Fld "sched_info" struct_sched_info;
  Fld "tasks" struct_list_head;
  Fld "pushable_tasks" struct_plist_node;
  Fld "pushable_dl_tasks" struct_rb_node;
  Fld "mm" TPtr;
  Fld "active_mm" TPtr;
  Fld "exit_state" c_int;
  Fld "exit_code" c_int;
  Fld "exit_signal" c_int;
  Fld "pdeath_signal" c_int;
  Fld "jobctl" c_ulong;
  Fld "personality" c_uint;
  Bits "sched_reset_on_fork" c_uint 1;
  Bits "sched_contributes_to_load" c_uint 1;
  Bits "sched_migrated" c_uint 1;
  Pad c_long 29;
  Bits "sched_remote_wakeup" c_uint 1;
  Bits "in_execve" c_uint 1;
  Bits "in_iowait" c_uint 1;
  Bits "restore_sigmask" c_uint 1;
  Bits "in_user_fault" c_uint 1;
  Bits "no_cgroup_migration" c_uint 1;
  Bits "frozen" c_uint 1;
  Bits "use_memdelay" c_uint 1;
  Bits "in_memstall" c_uint 1;
  Bits "in_eventfd" c_uint 1;
  Bits "pasid_activated" c_uint 1;
  Bits "reported_split_lock" c_uint 1;
  Bits "in_thrashing" c_uint 1;
  Fld "atomic_flags" c_ulong;
  Fld "restart_block" struct_restart_block;
  Fld "pid" pid_t;
  Fld "tgid" pid_t;
  Fld "stack_canary" c_ulong;
  Fld "real_parent" TPtr;
  Fld "parent" TPtr;
  Fld "children" struct_list_head;
  Fld "sibling" struct_list_head;
  Fld "group_leader" TPtr;
  Fld "ptraced" struct_list_head;
  Fld "ptrace_entry" struct_list_head;
  Fld "thread_pid" TPtr;
  Fld "pid_links" (TArr struct_hlist_node 4);
  Fld "thread_group" struct_list_head;
  Fld "thread_node" struct_list_head;
  Fld "vfork_done" TPtr;
  Fld "set_child_tid" TPtr;
  Fld "clear_child_tid" TPtr;
  Fld "worker_private" TPtr;
  Fld "utime" u64;
  Fld "stime" u64;
  Fld "gtime" u64;
  Fld "prev_cputime" struct_prev_cputime;
  Fld "nvcsw" c_ulong;
  Fld "nivcsw" c_ulong;
  Fld "start_time" u64;
  Fld "start_boottime" u64;
  Fld "min_flt" c_ulong;
  Fld "maj_flt" c_ulong;
  Fld "posix_cputimers" struct_posix_cputimers;
  Fld "posix_cputimers_work" struct_posix_cputimers_work;
  Fld "ptracer_cred" TPtr;
  Fld "real_cred" TPtr;
  Fld "cred" TPtr;
  Fld "cached_requested_key" TPtr;
  Fld "comm" (TArr c_char 16);
  Fld "nameidata" TPtr;
  Fld "sysvsem" struct_sysv_sem;
  Fld "sysvshm" struct_sysv_shm;
  Fld "last_switch_count" c_ulong }.

Definition struct_task_struct_members_2 : cfields := fields{
  Fld "last_switch_time" c_ulong;
  Fld "fs" TPtr;
  Fld "files" TPtr;
  Fld "io_uring" TPtr;
  Fld "nsproxy" TPtr;
  Fld "signal" TPtr;
  Fld "sighand" TPtr;
  Fld "blocked" sigset_t;
  Fld "real_blocked" sigset_t;
  Fld "saved_sigmask" sigset_t;
  Fld "pending" struct_sigpending;
  Fld "sas_ss_sp" c_ulong;
  Fld "sas_ss_size" size_t;
  Fld "sas_ss_flags" c_uint;
  Fld "task_works" TPtr;
  Fld "audit_context" TPtr;
  Fld "loginuid" kuid_t;
  Fld "sessionid" c_uint;
  Fld "seccomp" struct_seccomp;
  Fld "syscall_dispatch" struct_syscall_user_dispatch;
  Fld "parent_exec_id" u64;
  Fld "self_exec_id" u64;
  Fld "alloc_lock" spinlock_t;
  Fld "pi_lock" raw_spinlock_t;
  Fld "wake_q" struct_wake_q_node;
  Fld "pi_waiters" struct_rb_root_cached;
  Fld "pi_top_task" TPtr;
  Fld "pi_blocked_on" TPtr;
  Fld "journal_info" TPtr;
  Fld "bio_list" TPtr;
  Fld "plug" TPtr;
  Fld "reclaim_state" TPtr;
  Fld "io_context" TPtr;
  Fld "capture_control" TPtr;
  Fld "ptrace_message" c_ulong;
  Fld "last_siginfo" TPtr;
  Fld "ioac" struct_task_io_accounting;
  Fld "psi_flags" c_uint;
  Fld "acct_rss_mem1" u64;
  Fld "acct_vm_mem1" u64;
  Fld "acct_timexpd" u64;
  Fld "mems_allowed" nodemask_t;
  Fld "mems_allowed_seq" seqcount_spinlock_t;
  Fld "cpuset_mem_spread_rotor" c_int;
  Fld "cpuset_slab_spread_rotor" c_int;
  Fld "cgroups" TPtr;
  Fld "cg_list" struct_list_head;
  Fld "robust_list" TPtr;
  Fld "compat_robust_list" TPtr;
  Fld "pi_state_list" struct_list_head;
  Fld "pi_state_cache" TPtr;
  Fld "futex_exit_mutex" struct_mutex;
  Fld "futex_state" c_uint;
  Fld "perf_event_ctxp" TPtr;
  Fld "perf_event_mutex" struct_mutex;
  Fld "perf_event_list" struct_list_head;
  Fld "preempt_disable_ip" c_ulong;
  Fld "mempolicy" TPtr;
  Fld "il_prev" c_short;
  Fld "pref_node_fork" c_short;
  Fld "rseq" TPtr;
  Fld "rseq_len" u32;
  Fld "rseq_sig" u32;
  Fld "rseq_event_mask" c_ulong;
  Fld "mm_cid" c_int;
  Fld "last_mm_cid" c_int;
  Fld "migrate_from_cpu" c_int;
  Fld "mm_cid_active" c_int;
  Fld "cid_work" struct_callback_head;
  Fld "tlb_ubc" struct_tlbflush_unmap_batch;
  Fld "splice_pipe" TPtr;
  Fld "task_frag" struct_page_frag;
  Fld "delays" TPtr;
  Fld "nr_dirtied" c_int;
  Fld "nr_dirtied_pause" c_int;
  Fld "dirty_paused_when" c_ulong;
  Fld "latency_record_count" c_int;
  Fld "latency_record" (TArr struct_latency_record 32);
  Fld "timer_slack_ns" u64;
  Fld "default_timer_slack_ns" u64;
  Fld "curr_ret_stack" c_int;
  Fld "curr_ret_depth" c_int;
  Fld "ret_stack" TPtr;
  Fld "ftrace_timestamp" c_ullong;
  Fld "trace_overrun" atomic_t;
  Fld "tracing_graph_pause" atomic_t;
  Fld "trace_recursion" c_ulong;
  Fld "memcg_in_oom" TPtr;
  Fld "memcg_oom_gfp_mask" gfp_t;
  Fld "memcg_oom_order" c_int;
  Fld "memcg_nr_pages_over_high" c_uint;
  Fld "active_memcg" TPtr;
  Fld "throttle_disk" TPtr;
  Fld "utask" TPtr;
  Fld "kmap_ctrl" struct_kmap_ctrl;
  Fld "rcu" struct_callback_head;
  Fld "rcu_users" refcount_t;
  Fld "pagefault_disabled" c_int;
  Fld "oom_reaper_list" TPtr;
  Fld "oom_reaper_timer" struct_timer_list;
  Fld "stack_vm_area" TPtr;
  Fld "stack_refcount" refcount_t;
  Fld "patch_state" c_int;
  Fld "security" TPtr;
  Fld "bpf_storage" TPtr;
  Fld "bpf_ctx" TPtr;
  Fld "mce_vaddr" TPtr;
  Fld "mce_kflags" __u64;
  Fld "mce_addr" u64;
  Bits "mce_ripv" __u64 1;
  Bits "mce_whole_page" __u64 1;
  Bits "__mce_reserved" __u64 62;
  Fld "mce_kill_me" struct_callback_head;
  Fld "mce_count" c_int;
  Fld "kretprobe_instances" struct_llist_head;
  Fld "rethooks" struct_llist_head;
  Fld "l1d_flush_kill" struct_callback_head;
  Fld "user_event_mm" TPtr;
  Pad c_long 64;
  Pad c_long 64;
  Pad c_long 64;
  Pad c_long 64;
  Fld "thread" struct_thread_struct }.

Definition struct_task_struct : ctype := TStruct false (fapp struct_task_struct_members_1 struct_task_struct_members_2).
