(* ===== verification/Packet.v ===== *)
(** * Packets on the wire: the vocabulary of the specifications

    The fields of an Ethernet/IPv4/TCP or UDP frame as slices of its bytes, and
    validity of the IPv4 header checksum and of the layer 4 checksum with its
    pseudo-header.  Nothing here depends on the programs; the offsets are those
    of the protocols. *)

From S2P Require Import Prelude Endian Csum.

Implicit Types p : list byte.

Definition eth_dst p : list byte := slice 0 6 p.
Definition eth_src p : list byte := slice 6 6 p.
Definition ip_ihl p : Z := of_bytes BE (slice 14 1 p) mod 16.
Definition ip_tot_len p : Z := of_bytes BE (slice 16 2 p).
Definition ip_proto p : Z := of_bytes BE (slice 23 1 p).
Definition ip_src p : Z := of_bytes BE (slice 26 4 p).
Definition ip_dst p : Z := of_bytes BE (slice 30 4 p).
Definition l4_sport p : Z := of_bytes BE (slice 34 2 p).
Definition l4_dport p : Z := of_bytes BE (slice 36 2 p).

Definition ip_header p : list byte := slice 14 (Z.to_nat (4 * ip_ihl p)) p.

(** The IPv4 header is complete and its checksum is right. *)
Definition ip_valid (e : endianness) p : Prop :=
  5 <= ip_ihl p /\ 14 + 4 * ip_ihl p <= Z.of_nat (length p) /\ csum_valid e (ip_header p).

(** Layer 4 length and the bytes its checksum covers, for a header without
    options. *)
Definition l4_len p : Z := ip_tot_len p - 20.

Definition l4_pseudo p : list byte :=
  slice 26 8 p ++ [Init.Byte.x00] ++ slice 23 1 p ++ to_bytes BE 2 (l4_len p).

Definition l4_segment p : list byte := slice 34 (Z.to_nat (l4_len p)) p.

(** [hdr] bytes of layer 4 header are inside the packet and the checksum over
    pseudo-header and segment is right. *)
Definition l4_valid (e : endianness) (hdr : Z) p : Prop :=
  ip_ihl p = 5 /\ hdr <= l4_len p /\ 34 + l4_len p <= Z.of_nat (length p) /\
  0 < ip_proto p /\ csum_valid e (l4_pseudo p ++ l4_segment p).

(** ** Sums of the covered regions *)

Lemma sum16_pos_cons e a b l : 0 < byte_to_Z a + byte_to_Z b -> 0 < sum16 e (a :: b :: l).
Proof.
  intros Ha. cbn [sum16]. pose proof (proj1 (sum16_range e l)).
  pose proof (byte_to_Z_range a). pose proof (byte_to_Z_range b).
  destruct e; cbn [of_bytes rev app le_combine]; lia.
Qed.

Lemma slice_cons (o n : nat) p :
  (o < length p)%nat -> exists b, slice o (S n) p = b :: slice (S o) n p /\ slice o 1 p = [b].
Proof.
  intros Ho. assert (length (slice o 1 p) = 1%nat) as H1 by slen.
  destruct (slice o 1 p) as [|b [|]] eqn:E; try discriminate H1.
  exists b. split; [|done]. change (S n) with (1 + n)%nat. rewrite slice_app_split, E.
  by replace (o + 1)%nat with (S o) by lia.
Qed.

Lemma ip_header_pos e p :
  5 <= ip_ihl p -> 14 + 4 * ip_ihl p <= Z.of_nat (length p) -> 0 < sum16 e (ip_header p).
Proof.
  intros Hi Hl. unfold ip_header, ip_ihl in *.
  destruct (slice_cons 14 (Z.to_nat (4 * ip_ihl p) - 1) p ltac:(lia)) as (b & E & Eb).
  destruct (slice_cons 15 (Z.to_nat (4 * ip_ihl p) - 2) p ltac:(lia)) as (b' & E' & _).
  rewrite Eb in Hi |- *. cbn [of_bytes rev app le_combine] in *.
  replace (Z.to_nat (4 * ((byte_to_Z b + 256 * 0) mod 16)))
    with (S (Z.to_nat (4 * ip_ihl p) - 1))
    by (unfold ip_ihl; rewrite Eb; cbn [of_bytes rev app le_combine]; lia).
  rewrite E. replace (Z.to_nat (4 * ip_ihl p) - 1)%nat
    with (S (Z.to_nat (4 * ip_ihl p) - 2)).
  - rewrite E'. apply sum16_pos_cons. pose proof (byte_to_Z_range b').
    pose proof (byte_to_Z_range b). dlia.
  - unfold ip_ihl; rewrite Eb; cbn [of_bytes rev app le_combine]; lia.
Qed.

Lemma l4_cover_split e p :
  34 <= Z.of_nat (length p) ->
  sum16 e (l4_pseudo p ++ l4_segment p)
  = sum16 e (slice 26 8 p) + sum16 e ([Init.Byte.x00] ++ slice 23 1 p)
    + sum16 e (to_bytes BE 2 (l4_len p)) + sum16 e (l4_segment p).
Proof.
  intros Hl. unfold l4_pseudo.
  replace (slice 26 8 p ++ [Init.Byte.x00] ++ slice 23 1 p ++ to_bytes BE 2 (l4_len p))
    with ((slice 26 8 p ++ ([Init.Byte.x00] ++ slice 23 1 p)) ++ to_bytes BE 2 (l4_len p))
    by (by rewrite <-!app_assoc).
  rewrite sum16_app.
  - rewrite sum16_app; [rewrite sum16_app; [lia|]|]; rewrite ?length_app, ?length_slice by lia; done.
  - rewrite !length_app, length_to_bytes, !length_slice by lia. done.
Qed.

Lemma l4_cover_pos e p :
  34 <= Z.of_nat (length p) -> 0 < ip_proto p -> 0 < sum16 e (l4_pseudo p ++ l4_segment p).
Proof.
  intros Hl Hp. rewrite l4_cover_split by done.
  pose proof (proj1 (sum16_range e (slice 26 8 p))).
  pose proof (proj1 (sum16_range e (to_bytes BE 2 (l4_len p)))).
  pose proof (proj1 (sum16_range e (l4_segment p))).
  destruct (slice_cons 23 0 p ltac:(lia)) as (b & _ & Eb).
  assert (0 < sum16 e ([Init.Byte.x00] ++ slice 23 1 p)); [|lia].
  unfold ip_proto in Hp. rewrite Eb in *. cbn [of_bytes rev app le_combine] in Hp.
  apply sum16_pos_cons. change (byte_to_Z Init.Byte.x00) with 0. lia.
Qed.

Lemma l4_cover_length p :
  34 <= Z.of_nat (length p) -> 34 + l4_len p <= Z.of_nat (length p) ->
  Z.of_nat (length (l4_pseudo p ++ l4_segment p)) <= 65556.
Proof.
  intros Hl Hs. unfold l4_pseudo, l4_segment.
  rewrite !length_app, length_to_bytes, (length_slice 26), (length_slice 23) by lia.
  unfold slice. rewrite length_take. cbn [length].
  assert (l4_len p <= 65535); [|lia]. unfold l4_len, ip_tot_len.
  pose proof (of_bytes_2_range BE (slice 16 2 p) (length_slice 16 2 p ltac:(lia))). lia.
Qed.
