(* ===== verification/Samples.v ===== *)
(** * Concrete packets and states

    Frames with correct checksums, and a state around a frame, on which the
    theorems about the programs are instantiated. *)

From S2P Require Import Prelude Endian Csum Helpers Packet.

(** 203.0.113.7:50000 to 198.51.100.1:30001, TCP *)
Definition frame_client : list byte := map byte_of_Z
  [2; 0; 0; 0; 0; 1; 2; 0; 0; 0; 0; 2; 8; 0; 69; 0; 0; 40; 0; 1;
   64; 0; 64; 6; 212; 146; 203; 0; 113; 7; 198; 51; 100; 1; 195; 80; 117; 49; 0; 0;
   3; 232; 0; 0; 0; 0; 80; 2; 255; 255; 13; 60; 0; 0].

(** 10.0.0.3:25565 to 203.0.113.7:50000, TCP *)
Definition frame_pod_reply : list byte := map byte_of_Z
  [126; 144; 196; 237; 223; 208; 10; 11; 12; 13; 14; 15; 8; 0; 69; 0; 0; 40; 0; 1;
   64; 0; 64; 6; 244; 196; 10; 0; 0; 3; 203; 0; 113; 7; 99; 221; 195; 80; 0; 0;
   3; 232; 0; 0; 0; 0; 80; 2; 255; 255; 62; 194; 0; 0].

(** 10.0.0.3:40000 to 93.184.216.34:80, TCP *)
Definition frame_pod_http : list byte := map byte_of_Z
  [126; 144; 196; 237; 223; 208; 10; 11; 12; 13; 14; 15; 8; 0; 69; 0; 0; 40; 0; 1;
   64; 0; 64; 6; 250; 241; 10; 0; 0; 3; 93; 184; 216; 34; 156; 64; 0; 80; 0; 0;
   3; 232; 0; 0; 0; 0; 80; 2; 255; 255; 207; 140; 0; 0].

(** 10.0.0.3:40000 to 93.184.216.34:5000, UDP with a payload *)
Definition frame_pod_udp : list byte := map byte_of_Z
  [126; 144; 196; 237; 223; 208; 10; 11; 12; 13; 14; 15; 8; 0; 69; 0; 0; 40; 0; 1;
   64; 0; 64; 17; 250; 230; 10; 0; 0; 3; 93; 184; 216; 34; 156; 64; 19; 136; 0; 20;
   207; 211; 104; 101; 108; 108; 111; 44; 32; 119; 111; 114; 108; 100].

(** 10.0.0.2:9080 to 10.0.0.3:40000, TCP *)
Definition frame_proxy_reply : list byte := map byte_of_Z
  [10; 11; 12; 13; 14; 15; 126; 144; 196; 237; 223; 208; 8; 0; 69; 0; 0; 40; 0; 1;
   64; 0; 64; 6; 38; 203; 10; 0; 0; 2; 10; 0; 0; 3; 35; 120; 156; 64; 0; 0;
   3; 232; 0; 0; 0; 0; 80; 2; 255; 255; 216; 61; 0; 0].

(** who has 10.0.0.2, tell 10.0.0.3 *)
Definition frame_arp_request : list byte := map byte_of_Z
  [255; 255; 255; 255; 255; 255; 10; 11; 12; 13; 14; 15; 8; 6; 0; 1; 8; 0; 6; 4;
   0; 1; 10; 11; 12; 13; 14; 15; 10; 0; 0; 3; 0; 0; 0; 0; 0; 0; 10; 0;
   0; 2].

Definition no_maps : bpf_maps :=
  {| ptp_snat_config := ∅; net_data_map := ∅; ptp_dnat_targets := ∅;
     veth_pair_map := ∅; original_dst_map := ∅ |}.

(** A frame of an ethertype arriving on interface 7, all of it linear. *)
Definition arriving (e : endianness) (ethertype : Z) (m : bpf_maps) (p : list byte) : state :=
  mk_state (mk_skb p (Z.of_nat (length p)) (bpf_htons true ethertype) 7 false) 0 m [].

Lemma frame_client_valid :
  ip_valid LE frame_client /\ l4_valid LE 20 frame_client /\ ip_valid BE frame_client.
Proof.
  repeat split; vm_compute; (reflexivity || (intros; discriminate)).
Qed.
