(* ===== verification/NetHelpers.v ===== *)
(** * lib/net_helpers.h

    The constants and inline functions shared by the tc programs: header
    offsets (computed from the layouts of the header structs), [parse_ethhdr],
    [rewrite_ip_addr], [rewrite_port] and [get_port], and what they do to a
    packet and to its checksums. *)

From S2P Require Import Prelude Endian Csum CLayout Helpers RefHelpers CTypes VmPacket Packet Samples.

(** ** Constants *)

(** linux/if_ether.h *)
Definition ETH_ALEN : Z := 6.
Definition ETH_HLEN : Z := 14.
Definition ETH_P_IP : Z := 2048.
Definition ETH_P_ARP : Z := 2054.

(** [IPPROTO_*] of vmlinux.h *)
Definition IPPROTO_TCP : Z := 6.
Definition IPPROTO_UDP : Z := 17.

Definition IP_ADDR_LEN : Z := 4.
Definition ARPOP_REQUEST : Z := 1.
Definition ARPOP_REPLY : Z := 2.
Definition MC_SERVER_PORT : Z := 25565.

Definition IP_CSUM_OFF : Z :=
  Eval vm_compute in (ETH_HLEN + off struct_iphdr ["check"]).
Definition IP_DST_OFF : Z :=
  Eval vm_compute in (ETH_HLEN + off struct_iphdr ["daddr"]).
Definition IP_SRC_OFF : Z :=
  Eval vm_compute in (ETH_HLEN + off struct_iphdr ["saddr"]).
Definition TCP_CSUM_OFF : Z :=
  Eval vm_compute in (ETH_HLEN + sizeof struct_iphdr + off struct_tcphdr ["check"]).
Definition TCP_DPORT_OFF : Z :=
  Eval vm_compute in (ETH_HLEN + sizeof struct_iphdr + off struct_tcphdr ["dest"]).
Definition TCP_SPORT_OFF : Z :=
  Eval vm_compute in (ETH_HLEN + sizeof struct_iphdr + off struct_tcphdr ["source"]).
Definition UDP_CSUM_OFF : Z :=
  Eval vm_compute in (ETH_HLEN + sizeof struct_iphdr + off struct_udphdr ["check"]).
Definition UDP_DPORT_OFF : Z :=
  Eval vm_compute in (ETH_HLEN + sizeof struct_iphdr + off struct_udphdr ["dest"]).
Definition UDP_SPORT_OFF : Z :=
  Eval vm_compute in (ETH_HLEN + sizeof struct_iphdr + off struct_udphdr ["source"]).

(** 7e:90:c4:ed:df:d0 *)
Definition host_peer_mac : list byte := map byte_of_Z [126; 144; 196; 237; 223; 208].

(** The offsets that the macros compute from the struct layouts are the
    protocols' positions in an Ethernet frame with an IPv4 header without
    options. *)
Theorem net_offsets :
  IP_CSUM_OFF = 24 /\ IP_SRC_OFF = 26 /\ IP_DST_OFF = 30 /\
  TCP_SPORT_OFF = 34 /\ TCP_DPORT_OFF = 36 /\ TCP_CSUM_OFF = 50 /\
  UDP_SPORT_OFF = 34 /\ UDP_DPORT_OFF = 36 /\ UDP_CSUM_OFF = 40.
Proof. repeat split; vm_compute; reflexivity. Qed.

Ltac norm_offs :=
  change IP_CSUM_OFF with 24 in *; change IP_SRC_OFF with 26 in *;
  change IP_DST_OFF with 30 in *; change TCP_SPORT_OFF with 34 in *;
  change TCP_DPORT_OFF with 36 in *; change TCP_CSUM_OFF with 50 in *;
  change UDP_SPORT_OFF with 34 in *; change UDP_DPORT_OFF with 36 in *;
  change UDP_CSUM_OFF with 40 in *; change ETH_HLEN with 14 in *;
  change ETH_ALEN with 6 in *; change IP_ADDR_LEN with 4 in *;
  change (sizeof struct_iphdr) with 20 in *; change (sizeof struct_ethhdr) with 14 in *;
  change (off struct_ethhdr ["h_dest"]) with 0 in *;
  change (off struct_ethhdr ["h_source"]) with 6 in *;
  change (off struct_iphdr ["protocol"]) with 9 in *;
  change (off struct_iphdr ["saddr"]) with 12 in *;
  change (off struct_iphdr ["daddr"]) with 16 in *.

(** ** Field access through a packet pointer *)

Definition fld_size (t : ctype) (path : list string) : Z :=
  match resolve t path with Some (_, t') => sizeof t' | None => 0 end.

Ltac norm_flds :=
  norm_offs; change (fld_size struct_iphdr ["protocol"]) with 1 in *;
  change (fld_size struct_iphdr ["saddr"]) with 4 in *;
  change (fld_size struct_iphdr ["daddr"]) with 4 in *.

(** [p->path] for a struct type [t] *)
Definition ld {e : endianness} (p : pkt_ptr) (t : ctype) (path : list string) : M Z :=
  bs ← pkt_read (ptr_add p (off t path)) (fld_size t path); mret (of_bytes e bs).

(** [__builtin_memcpy(dst, p->path, n)] and [__builtin_memcpy(p->path, src, n)] *)
Definition memcpy_from (p : pkt_ptr) (t : ctype) (path : list string) (n : Z) : M (list byte) :=
  pkt_read (ptr_add p (off t path)) n.

Definition memcpy_to (p : pkt_ptr) (t : ctype) (path : list string) (src : list byte) : M unit :=
  pkt_write (ptr_add p (off t path)) src.

(** ** Inline functions *)

(** Returns the C return value, the advanced [data] and, on success, the
    Ethernet header. *)
Definition parse_ethhdr (data data_end : pkt_ptr) : Z * pkt_ptr * option pkt_ptr :=
  let len := sizeof struct_ethhdr in
  if ptr_gtb (ptr_add data len) data_end
  then (-1, data, None)
  else (0, ptr_add data len, Some data).

Section prog.
Context {e : endianness} {H : BpfHelpers}.

Definition rewrite_ip_addr (new offset proto : Z) : M unit :=
  prev ← bpf_skb_load_bytes offset IP_ADDR_LEN;
  let prev := of_bytes e prev.2 in
  bpf_skb_store_bytes offset (to_bytes e 4 new) 0;;
  bpf_l3_csum_replace IP_CSUM_OFF prev new 4;;
  (if proto =? IPPROTO_TCP
   then bpf_l4_csum_replace TCP_CSUM_OFF prev new (Z.lor BPF_F_PSEUDO_HDR 4);; mret tt
   else mret tt);;
  (if proto =? IPPROTO_UDP
   then bpf_l4_csum_replace UDP_CSUM_OFF prev new (Z.lor BPF_F_PSEUDO_HDR 4);; mret tt
   else mret tt).

Definition rewrite_port (new offset proto : Z) : M unit :=
  prev ← bpf_skb_load_bytes offset 2;
  let prev := of_bytes e prev.2 in
  bpf_skb_store_bytes offset (to_bytes e 2 new) 0;;
  if proto =? IPPROTO_TCP then
    bpf_l4_csum_replace TCP_CSUM_OFF prev new 0;; mret tt
  else if proto =? IPPROTO_UDP then
    bpf_l4_csum_replace UDP_CSUM_OFF prev new 0;; mret tt
  else mret tt.

Definition get_port (tcp_offset udp_offset proto : Z) : M Z :=
  if proto =? IPPROTO_TCP then
    port ← bpf_skb_load_bytes tcp_offset 2; mret (of_bytes e port.2)
  else if proto =? IPPROTO_UDP then
    port ← bpf_skb_load_bytes udp_offset 2; mret (of_bytes e port.2)
  else mret 0.
End prog.

(** ** Rules for the inline functions *)

Lemma pkt_log_call c s : pkt (log_call c s) = pkt s.
Proof. done. Qed.

(** The header of a C struct read through a pointer into the packet. *)
Lemma wp_ld {e : endianness} p t path Q s :
  p_gen p = st_gen s -> 0 <= p_off p + off t path ->
  p_off p + off t path + fld_size t path <= skb_headlen (st_skb s) ->
  Q (of_bytes e (slice (Z.to_nat (p_off p + off t path)) (Z.to_nat (fld_size t path)) (pkt s))) s ->
  wp (ld p t path) Q s.
Proof. intros. unfold ld. apply wp_bind, wp_pkt_read; done. Qed.

Section spec.
Context {e : endianness} {H : BpfHelpers}.
Context {L : BpfHelperLaws e H} {S : BpfHelpersSucceed H}.

(** The layer 4 checksum offset the rewrite functions use for [proto]. *)
Definition l4_csum_off (proto : Z) : option Z :=
  if proto =? IPPROTO_TCP then Some TCP_CSUM_OFF
  else if proto =? IPPROTO_UDP then Some UDP_CSUM_OFF else None.

(** The effect of [rewrite_ip_addr] on the bytes: the address, the IP
    checksum and, for TCP and UDP, the layer 4 checksum. *)
Definition addr_rewritten (o : nat) (new : Z) (l4 : option Z) (partial : bool)
    (p p' : list byte) : Prop :=
  exists c3, 0 <= c3 < 2 ^ 16 /\
    c3 mod 65535 = (of_bytes e (slice 24 2 p)
                    + words16 (of_bytes e (slice o 4 p)) - words16 new) mod 65535 /\
    match l4 with
    | None => p' = splice 24 (to_bytes e 2 c3) (splice o (to_bytes e 4 new) p)
    | Some l4 => exists c4, 0 <= c4 < 2 ^ 16 /\
        (partial = false ->
         c4 mod 65535 = (of_bytes e (slice (Z.to_nat l4) 2 p)
                         + words16 (of_bytes e (slice o 4 p)) - words16 new) mod 65535) /\
        p' = splice (Z.to_nat l4) (to_bytes e 2 c4)
               (splice 24 (to_bytes e 2 c3) (splice o (to_bytes e 4 new) p))
    end.

(** [s'] is [s] after helper calls that touched only the packet bytes. *)
Definition only_bytes (s s' : state) : Prop :=
  same_meta (st_skb s) (st_skb s') /\ st_maps s' = st_maps s.

Lemma only_bytes_refl s : only_bytes s s.
Proof. done. Qed.

Lemma only_bytes_trans s1 s2 s3 : only_bytes s1 s2 -> only_bytes s2 s3 -> only_bytes s1 s3.
Proof.
  unfold only_bytes, same_meta. intros ((? & ? & ?) & ?) ((? & ? & ?) & ?).
  repeat split; congruence.
Qed.

Lemma evolves_only_bytes s c s' : evolves s c s' -> only_bytes s s'.
Proof. intros (? & ? & ?). done. Qed.

Lemma only_bytes_partial s s' :
  only_bytes s s' -> skb_csum_partial (st_skb s') = skb_csum_partial (st_skb s).
Proof. intros ((? & ? & ?) & ?). done. Qed.

Lemma l4_csum_off_cases proto x : l4_csum_off proto = Some x -> x = 50 \/ x = 40.
Proof. unfold l4_csum_off. norm_offs. intros. repeat case_match; simplify_eq; auto. Qed.

Lemma tcp_l4_off n : 52 <= n ->
  forall x, l4_csum_off IPPROTO_TCP = Some x -> x + 2 <= n.
Proof. intros Hn x Hx. change (Some 50 = Some x) in Hx. injection Hx as <-. lia. Qed.

Lemma tcp_l4_some n : 52 <= n ->
  forall x, Some TCP_CSUM_OFF = Some x -> (x = 50 \/ x = 40) /\ x + 2 <= n.
Proof. intros Hn x Hx. change (Some 50 = Some x) in Hx. injection Hx as <-. lia. Qed.

Lemma tcp_off_cases x : Some TCP_CSUM_OFF = Some x -> x = 50 \/ x = 40.
Proof. intros Hx. change (Some 50 = Some x) in Hx. injection Hx as <-. by left. Qed.

Lemma in_packet_intro s x n :
  0 <= x -> 0 <= n -> x + n <= Z.of_nat (length (pkt s)) -> in_packet (st_skb s) x n.
Proof. unfold in_packet, skb_len, pkt. lia. Qed.

Lemma wp_store_from s0 off bs Q s :
  only_bytes s0 s -> 0 <= off -> off + Z.of_nat (length bs) <= Z.of_nat (length (pkt s)) ->
  (forall s', only_bytes s0 s' -> pkt s' = splice (Z.to_nat off) bs (pkt s) ->
     length (pkt s') = length (pkt s) -> Q 0 s') ->
  wp (bpf_skb_store_bytes off bs 0) Q s.
Proof using L S.
  intros Hob Ho Hlen HQ. apply wp_store; [apply in_packet_intro; lia|].
  intros s' Hev Hp. apply HQ; [|done|rewrite Hp; slen].
  eapply only_bytes_trans; [done|by eapply evolves_only_bytes].
Qed.

Lemma wp_rewrite_ip_addr new o proto Q s :
  0 <= new < 2 ^ 32 -> (o = IP_SRC_OFF \/ o = IP_DST_OFF) ->
  34 <= Z.of_nat (length (pkt s)) ->
  (forall x, l4_csum_off proto = Some x -> x + 2 <= Z.of_nat (length (pkt s))) ->
  (forall s', only_bytes s s' ->
     addr_rewritten (Z.to_nat o) new (l4_csum_off proto)
       (skb_csum_partial (st_skb s)) (pkt s) (pkt s') -> Q tt s') ->
  wp (rewrite_ip_addr new o proto) Q s.
Proof using L S.
  intros Hnew Ho Hlen Hl4 HQ. unfold rewrite_ip_addr.
  assert (o = 26 \/ o = 30) as Ho' by (norm_offs; done). clear Ho. norm_offs.
  apply wp_bind, wp_load; [apply in_packet_intro; lia|]. cbn [snd].
  set (prev := of_bytes e (slice (Z.to_nat o) (Z.to_nat 4) (pkt s))). norm_nats.
  assert (0 <= prev < 2 ^ 32) as Hprev by (apply of_bytes_4_range; slen).
  apply wp_bind, wp_store; [apply in_packet_intro; slen; rewrite pkt_log_call; lia|].
  rewrite pkt_log_call. intros s1 Hev1 Hp1.
  assert (length (pkt s1) = length (pkt s)) as Hl1 by (rewrite Hp1; slen).
  apply wp_bind, (wp_l3 (e := e)); [apply in_packet_intro; lia|lia|exact Hprev|exact Hnew|].
  intros s2 c3 Hev2 Hc3 Hp2 Hm3. norm_nats.
  assert (length (pkt s2) = length (pkt s)) as Hl2 by (rewrite Hp2; slen).
  assert (field16 e (st_skb s1) 24 = of_bytes e (slice 24 2 (pkt s))) as Hf3.
  { unfold field16. norm_nats. fold (pkt s1). rewrite Hp1. by slices. }
  rewrite Hf3 in Hm3.
  assert (only_bytes s s2) as Hob.
  { eapply only_bytes_trans; [|by eapply evolves_only_bytes].
    by apply (evolves_only_bytes (log_call (CallLoad o 4) s) _ _ Hev1). }
  assert (Hl4case : forall x, l4_csum_off proto = Some x ->
    wp (bpf_l4_csum_replace x prev new (Z.lor BPF_F_PSEUDO_HDR 4)) (fun _ => Q tt) s2).
  { intros x Hx. specialize (Hl4 x Hx).
    pose proof (l4_csum_off_cases _ _ Hx) as Hx'.
    apply (wp_l4 (e := e) x prev new 4); [apply in_packet_intro; lia|lia|by right|exact Hprev|exact Hnew|].
    intros s3 c4 Hev3 Hc4 Hp3 Hm4. apply HQ.
    { eapply only_bytes_trans; [exact Hob|by eapply evolves_only_bytes]. }
    exists c3. split; [done|]. split; [done|]. rewrite Hx. exists c4.
    split; [done|]. split.
    - intros Hpart. rewrite Hm4 by (rewrite (only_bytes_partial s s2); done).
      f_equal. f_equal. f_equal. unfold field16. fold (pkt s2). rewrite Hp2, Hp1.
      f_equal. destruct Hx' as [-> | ->], Ho' as [-> | ->]; norm_nats; by slices.
    - rewrite Hp3, Hp2, Hp1. done. }
  unfold l4_csum_off in Hl4case, HQ. norm_offs.
  apply wp_bind. destruct (proto =? IPPROTO_TCP) eqn:Et.
  - apply wp_bind. eapply wp_mono; [apply (Hl4case 50 eq_refl)|].
    intros ? s3 Hq. apply wp_ret. destruct (proto =? IPPROTO_UDP) eqn:Eu; [|by apply wp_ret].
    apply Z.eqb_eq in Et, Eu. rewrite Et in Eu. discriminate Eu.
  - apply wp_ret. destruct (proto =? IPPROTO_UDP) eqn:Eu.
    + apply wp_bind. eapply wp_mono; [apply (Hl4case 40 eq_refl)|].
      intros ? s3 Hq. by apply wp_ret.
    + apply wp_ret. apply HQ; [done|]. exists c3. split; [done|]. split; [done|].
      rewrite Hp2, Hp1. done.
Qed.

(** *** What an address rewrite does to the packet *)

Section addr.
Context (o : nat) (new : Z) (l4 : option Z) (partial : bool) (p p' : list byte).
Context (Hnew : 0 <= new < 2 ^ 32) (Ho : o = 26%nat \/ o = 30%nat).
Context (Hlen : (34 <= length p)%nat).
Context (Hl4 : forall x, l4 = Some x -> (x = 50 \/ x = 40) /\ x + 2 <= Z.of_nat (length p)).
Context (Hrw : addr_rewritten o new l4 partial p p').

Lemma addr_rewritten_shape :
  exists c3, 0 <= c3 < 2 ^ 16 /\
    c3 mod 65535 = (of_bytes e (slice 24 2 p)
                    + words16 (of_bytes e (slice o 4 p)) - words16 new) mod 65535 /\
    exists q, q = splice 24 (to_bytes e 2 c3) (splice o (to_bytes e 4 new) p) /\
    length q = length p /\ length p' = length p /\
    take 34 p' = take 34 q.
Proof using Hlen Ho Hl4 Hrw.
  destruct Hrw as (c3 & Hc3 & Hm & Hp'). exists c3. split; [done|]. split; [done|].
  eexists. split; [done|]. destruct l4 as [x|].
  - destruct Hp' as (c4 & Hc4 & _ & ->). destruct (Hl4 x eq_refl) as [Hx Hxl].
    split; [slen|]. split; [slen|].
    change (take 34 ?l) with (slice 0 34 l). by rewrite slice_splice_before by slen.
  - subst p'. split; [slen|]. split; [slen|]. done.
Qed.

Lemma addr_rewritten_prefix a n :
  (a + n <= 34)%nat ->
  exists c3, 0 <= c3 < 2 ^ 16 /\
    c3 mod 65535 = (of_bytes e (slice 24 2 p)
                    + words16 (of_bytes e (slice o 4 p)) - words16 new) mod 65535 /\
    slice a n p' = slice a n (splice 24 (to_bytes e 2 c3) (splice o (to_bytes e 4 new) p)).
Proof using Hlen Ho Hl4 Hrw.
  intros Han. destruct addr_rewritten_shape as (c3 & Hc & Hm & q & -> & Hlq & Hlp & Ht).
  exists c3. split; [done|]. split; [done|].
  assert (forall l : list byte, (34 <= length l)%nat -> slice a n l = slice a n (take 34 l)) as Hs.
  { intros l Hl. change (take 34 l) with (slice 0 34 l). rewrite slice_slice by lia. done. }
  rewrite (Hs p') by lia. rewrite Ht, <-Hs; [done|slen].
Qed.

Lemma addr_rewritten_length : length p' = length p.
Proof using Hlen Ho Hl4 Hrw.
  by destruct addr_rewritten_shape as (c3 & _ & _ & q & _ & _ & Hlp & _).
Qed.

(** Nothing before the IP checksum changes, and the other address stays. *)
Lemma addr_rewritten_keeps a n :
  (a + n <= 24)%nat \/ (26 <= a /\ a + n <= o)%nat \/ (o + 4 <= a /\ a + n <= 34)%nat ->
  slice a n p' = slice a n p.
Proof using Hlen Ho Hl4 Hrw.
  intros Han. destruct (addr_rewritten_prefix a n ltac:(lia)) as (c3 & _ & _ & ->).
  destruct Han as [?|[?|?]]; [by slices| |].
  - rewrite slice_splice_after by slen. by slices.
  - rewrite slice_splice_after by slen. by slices.
Qed.

Lemma addr_rewritten_addr : slice o 4 p' = to_bytes e 4 new.
Proof using Hlen Ho Hl4 Hrw.
  destruct (addr_rewritten_prefix o 4 ltac:(lia)) as (c3 & _ & _ & ->).
  rewrite slice_splice_after by slen. by slices.
Qed.

(** The IPv4 header checksum stays valid (header without options). *)
Lemma addr_rewritten_ip_valid :
  ip_ihl p = 5 -> ip_valid e p -> ip_valid e p'.
Proof using Hnew Hlen Ho Hl4 Hrw.
  intros Hihl (_ & Hhl & Hv).
  assert (ip_ihl p' = 5) as Hihl'.
  { unfold ip_ihl in *. by rewrite addr_rewritten_keeps by lia. }
  unfold ip_valid. rewrite Hihl', addr_rewritten_length. split; [lia|]. split; [lia|].
  unfold ip_header in *. rewrite Hihl' in *. rewrite Hihl in Hv. norm_nats.
  change (Z.to_nat (4 * 5)) with 20%nat in *.
  pose proof (ip_header_pos e p ltac:(lia) ltac:(lia)) as Hpos.
  unfold ip_header in Hpos. rewrite Hihl in Hpos. change (Z.to_nat (4 * 5)) with 20%nat in Hpos.
  assert (0 < sum16 e (slice 14 20 p')) as Hpos'.
  { pose proof (ip_header_pos e p') as Hq. unfold ip_header in Hq.
    rewrite Hihl', addr_rewritten_length in Hq. apply Hq; lia. }
  apply csum_valid_iff in Hv; [|slen|done].
  apply csum_valid_iff; [rewrite length_slice; [lia|rewrite addr_rewritten_length; lia]|done|].
  destruct (addr_rewritten_prefix 14 20 ltac:(lia)) as (c3 & Hc3 & Hm & E).
  rewrite E. rewrite sum16_slice_splice; [|slen..|done|by rewrite length_to_bytes].
  rewrite sum16_slice_splice;
    [|slen..|destruct Ho as [-> | ->]; done|by rewrite length_to_bytes].
  rewrite !length_to_bytes, sum16_to_bytes_2, sum16_to_bytes_4 by done.
  rewrite (sum16_field_4 e (slice o 4 p)) by slen.
  rewrite (sum16_field_2 e (slice 24 2 _)) by slen.
  replace (slice 24 2 (splice o (to_bytes e 4 new) p)) with (slice 24 2 p)
    by (destruct Ho as [-> | ->]; by slices).
  clear -Hv Hm. revert Hv Hm. generalize (sum16 e (slice 14 20 p)).
  generalize (of_bytes e (slice 24 2 p)). generalize (words16 (of_bytes e (slice o 4 p))).
  intros. dlia.
Qed.

Lemma addr_rewritten_l4_shape x :
  l4 = Some x -> partial = false ->
  exists c4, 0 <= c4 < 2 ^ 16 /\
    c4 mod 65535 = (of_bytes e (slice (Z.to_nat x) 2 p)
                    + words16 (of_bytes e (slice o 4 p)) - words16 new) mod 65535 /\
    forall a n, (34 <= a)%nat -> slice a n p' = slice a n (splice (Z.to_nat x) (to_bytes e 2 c4) p).
Proof using Hlen Ho Hl4 Hrw.
  intros Hx Hpart. destruct Hrw as (c3 & Hc3 & Hm & Hp'). rewrite Hx in Hp'.
  destruct Hp' as (c4 & Hc4 & Hm4 & ->). destruct (Hl4 x Hx) as [Hx' Hxl].
  exists c4. split; [done|]. split; [by apply Hm4|]. intros a n Ha.
  unfold slice. f_equal.
  assert (forall l : list byte, (34 <= length l)%nat -> drop a l = drop (a - 34) (drop 34 l)) as Hd.
  { intros l Hl. rewrite drop_drop. f_equal. lia. }
  rewrite !Hd by slen. f_equal. unfold splice at 1 4. rewrite length_to_bytes.
  rewrite !drop_app_le by (rewrite length_take; slen).
  rewrite !(drop_splice_after _ _ _ (_ + 2)) by slen. f_equal.
  rewrite !skipn_firstn_comm. by rewrite !(drop_splice_after _ _ _ 34) by slen.
Qed.

(** The layer 4 checksum stays valid when it is kept in the packet. *)
Lemma addr_rewritten_l4_valid x hdr :
  l4 = Some x -> partial = false -> x + 2 <= 34 + hdr ->
  l4_valid e hdr p -> l4_valid e hdr p'.
Proof using Hnew Hlen Ho Hl4 Hrw.
  intros Hx Hpart Hxh (Hihl & Hh & Hseg & Hproto & Hv).
  destruct (Hl4 x Hx) as [Hx' Hxl].
  assert (ip_ihl p' = ip_ihl p) as E1 by (unfold ip_ihl; by rewrite addr_rewritten_keeps by lia).
  assert (l4_len p' = l4_len p) as E2
    by (unfold l4_len, ip_tot_len; by rewrite addr_rewritten_keeps by lia).
  assert (ip_proto p' = ip_proto p) as E3
    by (unfold ip_proto; by rewrite addr_rewritten_keeps by lia).
  unfold l4_valid. rewrite E1, E2, E3, addr_rewritten_length.
  repeat (split; [done|]).
  assert (34 <= Z.of_nat (length p')) as Hlen' by (rewrite addr_rewritten_length; lia).
  pose proof (l4_cover_pos e p ltac:(lia) Hproto) as Hpos.
  pose proof (l4_cover_pos e p' Hlen' ltac:(rewrite E3; done)) as Hpos'.
  apply csum_valid_iff in Hv; [|apply l4_cover_length; lia|done].
  apply csum_valid_iff;
    [apply l4_cover_length; [done|rewrite E2, addr_rewritten_length; done]|done|].
  rewrite l4_cover_split in Hv by lia. rewrite l4_cover_split by done.
  rewrite E2. replace (slice 23 1 p') with (slice 23 1 p) by (by rewrite addr_rewritten_keeps by lia).
  destruct (addr_rewritten_prefix 26 8 ltac:(lia)) as (c3 & _ & _ & ->).
  destruct (addr_rewritten_l4_shape x Hx Hpart) as (c4 & Hc4 & Hm4 & Hs).
  unfold l4_segment. rewrite E2, Hs by lia.
  rewrite (slice_splice_after 24) by slen.
  rewrite sum16_slice_splice;
    [|slen..|destruct Ho as [-> | ->]; done|by rewrite length_to_bytes].
  rewrite sum16_slice_splice;
    [|slen..|destruct Hx' as [-> | ->]; done|by rewrite length_to_bytes].
  rewrite !length_to_bytes, sum16_to_bytes_2, sum16_to_bytes_4 by done.
  rewrite (sum16_field_4 e (slice o 4 p)) by slen.
  rewrite (sum16_field_2 e (slice (Z.to_nat x) 2 p)) by slen.
  clear -Hv Hm4. revert Hv Hm4. unfold l4_segment.
  generalize (sum16 e (slice 34 (Z.to_nat (l4_len p)) p)) as a.
  generalize (sum16 e (to_bytes BE 2 (l4_len p))) as b.
  generalize (sum16 e ([Init.Byte.x00] ++ slice 23 1 p)) as c.
  generalize (sum16 e (slice 26 8 p)) as d.
  generalize (of_bytes e (slice (Z.to_nat x) 2 p)) as f.
  generalize (words16 (of_bytes e (slice o 4 p))) as g.
  intros. dlia.
Qed.
End addr.

(** *** [rewrite_port] and [get_port] *)

(** The effect of [rewrite_port]: the port and at most the layer 4 checksum. *)
Definition port_rewritten (o : nat) (new : Z) (l4 : option Z) (p p' : list byte) : Prop :=
  match l4 with
  | None => p' = splice o (to_bytes e 2 new) p
  | Some x => exists w, length w = 2%nat /\
      p' = splice (Z.to_nat x) w (splice o (to_bytes e 2 new) p)
  end.

Lemma wp_rewrite_port new o proto Q s :
  0 <= o -> o + 2 <= Z.of_nat (length (pkt s)) ->
  (forall x, l4_csum_off proto = Some x -> x + 2 <= Z.of_nat (length (pkt s))) ->
  (forall s', only_bytes s s' ->
     port_rewritten (Z.to_nat o) new (l4_csum_off proto) (pkt s) (pkt s') -> Q tt s') ->
  wp (rewrite_port new o proto) Q s.
Proof using L S.
  intros Ho Hlen Hl4 HQ. unfold rewrite_port.
  apply wp_bind, wp_load; [apply in_packet_intro; lia|]. cbn [snd]. norm_nats.
  apply wp_bind, wp_store; [apply in_packet_intro; slen; rewrite pkt_log_call; lia|].
  rewrite pkt_log_call. intros s1 Hev1 Hp1.
  assert (length (pkt s1) = length (pkt s)) as Hl1 by (rewrite Hp1; slen).
  assert (only_bytes s s1) as Hob
    by apply (evolves_only_bytes (log_call (CallLoad o 2) s) _ _ Hev1).
  unfold l4_csum_off in Hl4, HQ.
  destruct (proto =? IPPROTO_TCP); [|destruct (proto =? IPPROTO_UDP)].
  3: { apply wp_ret, HQ; [done|]. by rewrite Hp1. }
  all: specialize (Hl4 _ eq_refl); norm_offs;
    apply wp_bind, wp_l4_frame; [apply in_packet_intro; lia|];
    intros s2 r w Hev2 Hw Hp2; apply wp_ret, HQ;
    [eapply only_bytes_trans; [exact Hob|by eapply evolves_only_bytes]|];
    exists w; split; [done|]; by rewrite Hp2, Hp1.
Qed.

(** With a known protocol the last call is the checksum update. *)
Lemma wp_rewrite_port_call new o proto x Q s :
  l4_csum_off proto = Some x ->
  0 <= o -> o + 2 <= Z.of_nat (length (pkt s)) -> 0 <= x -> x + 2 <= Z.of_nat (length (pkt s)) ->
  (forall s' prev, only_bytes s s' -> port_rewritten (Z.to_nat o) new (Some x) (pkt s) (pkt s') ->
     head (st_calls s') = Some (CallL4Csum x prev new 0) -> Q tt s') ->
  wp (rewrite_port new o proto) Q s.
Proof using L S.
  intros Hx Ho Hlen Hx0 Hxl HQ. unfold rewrite_port.
  apply wp_bind, wp_load; [apply in_packet_intro; lia|]. cbn [snd]. norm_nats.
  apply wp_bind, (wp_store_from s); [done|lia|rewrite pkt_log_call; slen|]. rewrite pkt_log_call.
  intros s1 Hob Hp1 Hl1. set (prev := of_bytes e _).
  assert (wp (bpf_l4_csum_replace x prev new 0) (fun _ => Q tt) s1) as Hw.
  { apply wp_l4_frame; [apply in_packet_intro; lia|]. intros s2 r w Hev Hw Hp2.
    apply (HQ s2 prev); [by eapply only_bytes_trans, evolves_only_bytes| |].
    - exists w. split; [done|]. by rewrite Hp2, Hp1.
    - destruct Hev as (_ & _ & ->). done. }
  unfold l4_csum_off in Hx. destruct (proto =? IPPROTO_TCP);
    [|destruct (proto =? IPPROTO_UDP); [|discriminate Hx]];
    injection Hx as Hx; rewrite Hx; apply wp_bind; (eapply wp_mono; [exact Hw|]);
    intros; by apply wp_ret.
Qed.

Lemma wp_get_port to uo proto Q s :
  0 <= to -> 0 <= uo ->
  to + 2 <= Z.of_nat (length (pkt s)) -> uo + 2 <= Z.of_nat (length (pkt s)) -> to = uo ->
  (proto = IPPROTO_TCP \/ proto = IPPROTO_UDP) ->
  Q (of_bytes e (slice (Z.to_nat to) 2 (pkt s))) (log_call (CallLoad to 2) s) ->
  wp (get_port to uo proto) Q s.
Proof using L S.
  intros Hto Huo Ht Hu -> Hp HQ. unfold get_port.
  destruct Hp as [-> | ->]; apply wp_bind, wp_load; try (apply in_packet_intro; lia);
    apply wp_ret, HQ.
Qed.

(** Ports rewritten at offset 34 or 36 leave the IPv4 header alone. *)
Section port.
Context (o : nat) (new : Z) (l4 : option Z) (p p' : list byte).
Context (Ho : o = 34%nat \/ o = 36%nat) (Hlen : (38 <= length p)%nat).
Context (Hl4 : forall x, l4 = Some x -> (x = 50 \/ x = 40) /\ x + 2 <= Z.of_nat (length p)).
Context (Hrw : port_rewritten o new l4 p p').

Lemma port_rewritten_length : length p' = length p.
Proof using Ho Hlen Hl4 Hrw.
  destruct l4 as [x|]; cbn in Hrw; [|subst; slen].
  destruct Hrw as (w & Hw & ->). destruct (Hl4 x eq_refl). slen.
Qed.

Lemma port_rewritten_keeps a n :
  (a + n <= 34)%nat \/ (34 <= a /\ a + n <= o)%nat \/ (o + 2 <= a /\ a + n <= 40)%nat ->
  slice a n p' = slice a n p.
Proof using Ho Hlen Hl4 Hrw.
  intros Han. destruct l4 as [x|]; cbn in Hrw.
  - destruct Hrw as (w & Hw & ->). destruct (Hl4 x eq_refl) as [? ?].
    rewrite slice_splice_before by slen.
    destruct Han as [?|[?|?]]; by slices.
  - subst p'. destruct Han as [?|[?|?]]; by slices.
Qed.

Lemma port_rewritten_ip_valid : ip_ihl p = 5 -> ip_valid e p -> ip_valid e p'.
Proof using Ho Hlen Hl4 Hrw.
  intros Hihl (_ & Hhl & Hv).
  assert (ip_ihl p' = 5) as Hihl'
    by (unfold ip_ihl in *; by rewrite port_rewritten_keeps by lia).
  unfold ip_valid, ip_header in *. rewrite Hihl', port_rewritten_length.
  rewrite Hihl in Hv. change (Z.to_nat (4 * 5)) with 20%nat in *.
  rewrite port_rewritten_keeps by lia. repeat (split; [lia|]). done.
Qed.
End port.

(** An address rewrite followed by a port rewrite keeps the length and the
    validity of the IPv4 header. *)
Lemma addr_port_ip_valid o new l4 partial o' new' l4' p p1 p' :
  0 <= new < 2 ^ 32 -> o = 26%nat \/ o = 30%nat -> o' = 34%nat \/ o' = 36%nat ->
  (52 <= length p)%nat ->
  (forall x, l4 = Some x -> x = 50 \/ x = 40) -> (forall x, l4' = Some x -> x = 50 \/ x = 40) ->
  addr_rewritten o new l4 partial p p1 -> port_rewritten o' new' l4' p1 p' ->
  ip_ihl p = 5 -> ip_valid e p -> ip_valid e p'.
Proof using Type.
  intros Hnew Ho Ho' Hlen Hx Hx' Hr1 Hr2 Hihl Hv.
  assert (forall x, l4 = Some x -> (x = 50 \/ x = 40) /\ x + 2 <= Z.of_nat (length p)) as Hl4.
  { intros x E. specialize (Hx x E). lia. }
  assert (length p1 = length p) as Hl1 by (by eapply (addr_rewritten_length o); try lia).
  assert (ip_ihl p1 = 5) as Hi1.
  { unfold ip_ihl in *. rewrite <-Hihl. f_equal. f_equal.
    by eapply (addr_rewritten_keeps o); try lia. }
  eapply (port_rewritten_ip_valid o' _ _ p1); [done|lia| |exact Hr2|done|].
  - intros x E. specialize (Hx' x E). lia.
  - eapply (addr_rewritten_ip_valid o _ _ _ p); done || lia.
Qed.
End spec.

#[export] Hint Resolve only_bytes_refl only_bytes_trans evolves_only_bytes : wp.

(** dnat.c and snat.c spell the TCP case of [rewrite_ip_addr] out. *)
Lemma inline_rewrite_tcp {e : endianness} {H : BpfHelpers} {A} (new o : Z) (K : M A) Q s :
  wp (rewrite_ip_addr new o IPPROTO_TCP;; K) Q s ->
  wp (prev ← bpf_skb_load_bytes o IP_ADDR_LEN;
      let prev := of_bytes e prev.2 in
      bpf_skb_store_bytes o (to_bytes e 4 new) 0;;
      bpf_l3_csum_replace IP_CSUM_OFF prev new 4;;
      bpf_l4_csum_replace TCP_CSUM_OFF prev new (Z.lor BPF_F_PSEUDO_HDR 4);;
      K) Q s.
Proof.
  unfold wp, rewrite_ip_addr, mbind, M_bind, bpf_skb_load_bytes, bpf_skb_store_bytes,
    bpf_l3_csum_replace, bpf_l4_csum_replace.
  destruct (h_store _ _ _ _ _). destruct (h_l3_csum _ _ _ _ _ _).
  change (IPPROTO_TCP =? IPPROTO_TCP) with true. change (IPPROTO_TCP =? IPPROTO_UDP) with false.
  cbv iota. unfold mret, M_ret. destruct (h_l4_csum _ _ _ _ _ _). auto.
Qed.

(** The parsed Ethernet header is the start of the packet. *)
Lemma parse_ethhdr_ok (s : state) :
  14 <= skb_headlen (st_skb s) ->
  parse_ethhdr {| p_off := 0; p_gen := st_gen s |}
               {| p_off := skb_headlen (st_skb s); p_gen := st_gen s |}
  = (0, {| p_off := 14; p_gen := st_gen s |}, Some {| p_off := 0; p_gen := st_gen s |}).
Proof.
  intros Hh. unfold parse_ethhdr, ptr_gtb, ptr_add. cbn [p_off p_gen].
  change (sizeof struct_ethhdr) with 14. rewrite (proj2 (Z.ltb_ge _ _)) by lia. done.
Qed.

Lemma parse_ethhdr_short (s : state) :
  skb_headlen (st_skb s) < 14 ->
  parse_ethhdr {| p_off := 0; p_gen := st_gen s |}
               {| p_off := skb_headlen (st_skb s); p_gen := st_gen s |}
  = (-1, {| p_off := 0; p_gen := st_gen s |}, None).
Proof.
  intros Hh. unfold parse_ethhdr, ptr_gtb, ptr_add. cbn [p_off p_gen].
  change (sizeof struct_ethhdr) with 14. rewrite (proj2 (Z.ltb_lt _ _)) by lia. done.
Qed.

(** An IPv4 frame on an interface: the kernel's protocol field says so. *)
Definition is_ip {e : endianness} (s : state) : Prop :=
  skb_protocol (st_skb s) = bpf_htons true ETH_P_IP.

(** *** The common beginning of the tc programs *)

(** The context reads every program starts with. *)
Ltac wp_prologue :=
  apply wp_bind, wp_ctx_data, wp_bind, wp_ctx_data_end, wp_bind, wp_ctx_protocol.

Definition start (s : state) : pkt_ptr := {| p_off := 0; p_gen := st_gen s |}.
Definition limit (s : state) : pkt_ptr :=
  {| p_off := skb_headlen (st_skb s); p_gen := st_gen s |}.

Lemma ip_bounds s :
  ptr_gtb (ptr_add (ptr_add (start s) ETH_HLEN) (sizeof struct_iphdr)) (limit s)
  = (skb_headlen (st_skb s) <? 34).
Proof. done. Qed.

Lemma ip_bounds_ok s :
  34 <= skb_headlen (st_skb s) ->
  ptr_gtb (ptr_add (ptr_add (start s) ETH_HLEN) (sizeof struct_iphdr)) (limit s) = false.
Proof. rewrite ip_bounds. lia. Qed.

Lemma ip_bounds_short s :
  skb_headlen (st_skb s) < 34 ->
  ptr_gtb (ptr_add (ptr_add (start s) ETH_HLEN) (sizeof struct_iphdr)) (limit s) = true.
Proof. rewrite ip_bounds. lia. Qed.

Section header.
Context {e : endianness}.

Lemma ip_proto_native p : (23 < length p)%nat -> of_bytes e (slice 23 1 p) = ip_proto p.
Proof.
  intros Hl. unfold ip_proto. destruct (slice_cons 23 0 p Hl) as (b & _ & ->). by destruct e.
Qed.

(** Fields of the IPv4 header through a pointer that is still current. *)
Lemma wp_ld_proto s s0 Q :
  st_gen s = st_gen s0 -> 34 <= skb_headlen (st_skb s) -> 34 <= Z.of_nat (length (pkt s)) ->
  Q (ip_proto (pkt s)) s ->
  wp (ld (ptr_add (start s0) ETH_HLEN) struct_iphdr ["protocol"]) Q s.
Proof.
  intros Hg Hh Hl HQ. apply wp_ld; [done|norm_flds; cbn; lia..|]. norm_flds.
  cbn [p_off ptr_add start]. change (Z.to_nat (0 + 14 + 9)) with 23%nat. norm_nats.
  by rewrite ip_proto_native by lia.
Qed.

Lemma wp_ld_saddr s s0 Q :
  st_gen s = st_gen s0 -> 34 <= skb_headlen (st_skb s) ->
  Q (of_bytes e (slice 26 4 (pkt s))) s ->
  wp (ld (ptr_add (start s0) ETH_HLEN) struct_iphdr ["saddr"]) Q s.
Proof. intros Hg Hh HQ. apply wp_ld; [done|norm_flds; cbn; lia..|]. exact HQ. Qed.

Lemma wp_ld_daddr s s0 Q :
  st_gen s = st_gen s0 -> 34 <= skb_headlen (st_skb s) ->
  Q (of_bytes e (slice 30 4 (pkt s))) s ->
  wp (ld (ptr_add (start s0) ETH_HLEN) struct_iphdr ["daddr"]) Q s.
Proof. intros Hg Hh HQ. apply wp_ld; [done|norm_flds; cbn; lia..|]. exact HQ. Qed.
End header.

(** Enters an IPv4 program past the header bounds check. *)
Ltac ip_prologue Hip :=
  wp_prologue; rewrite Hip, Z.eqb_refl; cbn [negb];
  match goal with |- context [{| p_off := 0; p_gen := st_gen ?s |}] =>
    fold (start s); fold (limit s)
  end; cbv zeta;
  first [rewrite ip_bounds_ok by lia | rewrite ip_bounds_short by lia].

(** ** The layer 4 checksum call of [rewrite_port] *)

Section port_csum.
Context {e : endianness} {H : BpfHelpers}.
Context {L : BpfHelperLaws e H} {S : BpfHelpersSucceed H}.

(** The port as the program reads it from the packet. *)
Definition port_at (o : Z) (p : list byte) : Z := of_bytes e (slice (Z.to_nat o) 2 p).

Lemma rewrite_port_run new o proto x s :
  l4_csum_off proto = Some x -> 0 <= o -> o + 2 <= Z.of_nat (length (pkt s)) ->
  exists s1, evolves (log_call (CallLoad o 2) s) (CallStore o (to_bytes e 2 new) 0) s1 /\
    pkt s1 = splice (Z.to_nat o) (to_bytes e 2 new) (pkt s) /\
    rewrite_port new o proto s =
      (bpf_l4_csum_replace x (port_at o (pkt s)) new 0;; mret tt) s1.
Proof using L S.
  intros Hx Ho Hlen. unfold rewrite_port, port_at.
  assert (wp (bpf_skb_load_bytes o 2)
    (fun r s' => r.2 = slice (Z.to_nat o) 2 (pkt s) /\ s' = log_call (CallLoad o 2) s) s) as Hl.
  { apply wp_load; [apply in_packet_intro; lia|]. done. }
  apply wp_elim in Hl as (r & s' & E & Hr & ->). rewrite (wp_bind_inv _ _ _ _ _ E), Hr.
  assert (wp (bpf_skb_store_bytes o (to_bytes e 2 new) 0)
    (fun _ s' => evolves (log_call (CallLoad o 2) s) (CallStore o (to_bytes e 2 new) 0) s' /\
       pkt s' = splice (Z.to_nat o) (to_bytes e 2 new) (pkt s)) (log_call (CallLoad o 2) s)) as Hs.
  { apply wp_store; [apply in_packet_intro; slen; rewrite pkt_log_call; lia|]. done. }
  apply wp_elim in Hs as (r' & s1 & E' & Hev & Hp). exists s1. split; [done|]. split; [done|].
  rewrite (wp_bind_inv _ _ _ _ _ E'). unfold l4_csum_off in Hx.
  destruct (proto =? IPPROTO_TCP); [|destruct (proto =? IPPROTO_UDP)]; by simplify_eq.
Qed.

(** A rejected checksum call leaves exactly the new port in the packet. *)
Lemma rewrite_port_rejected new o proto x s :
  (forall t skb off from to flags, csum_contract (l4_size flags) from = false ->
     skb_bytes (h_l4_csum t skb off from to flags).2 = skb_bytes skb) ->
  l4_csum_off proto = Some x -> 0 <= o -> o + 2 <= Z.of_nat (length (pkt s)) ->
  port_at o (pkt s) <> 0 ->
  exists s', rewrite_port new o proto s = Some (tt, s') /\
    pkt s' = splice (Z.to_nat o) (to_bytes e 2 new) (pkt s).
Proof using L S.
  intros Hrej Hx Ho Hlen Hnz.
  destruct (rewrite_port_run new o proto x s Hx Ho Hlen) as (s1 & _ & Hp & ->).
  unfold mbind, M_bind, bpf_l4_csum_replace.
  specialize (Hrej (length (st_calls s1)) (st_skb s1) x (port_at o (pkt s)) new 0).
  destruct (h_l4_csum _ _ _ _ _ _) as [r skb] eqn:E.
  eexists. split; [done|]. unfold pkt at 1. cbn [new_skb st_skb].
  cbn [snd] in Hrej. rewrite Hrej; [exact Hp|].
  unfold csum_contract. change (l4_size 0) with 0. lia.
Qed.

(** Replacing a port in a segment with a valid checksum, and nothing else,
    invalidates the checksum. *)
Lemma port_only_breaks_l4 o new hdr p :
  (o = 34 \/ o = 36) -> 4 <= hdr -> 0 < new < 65535 -> 0 < port_at o p < 65535 ->
  new <> port_at o p -> l4_valid e hdr p ->
  ~ l4_valid e hdr (splice (Z.to_nat o) (to_bytes e 2 new) p).
Proof using Type.
  intros Ho Hh Hnew Hold Hne (Hihl & Hhl & Hseg & Hproto & Hv) (_ & _ & Hseg' & Hproto' & Hv').
  assert (length (splice (Z.to_nat o) (to_bytes e 2 new) p) = length p) as Hl' by slen.
  assert (l4_len (splice (Z.to_nat o) (to_bytes e 2 new) p) = l4_len p) as E2
    by (unfold l4_len, ip_tot_len; by rewrite slice_splice_before by slen).
  apply csum_valid_iff in Hv;
    [|apply l4_cover_length; lia|apply l4_cover_pos; [lia|done]].
  apply csum_valid_iff in Hv';
    [|apply l4_cover_length; lia|apply l4_cover_pos; [lia|done]].
  rewrite l4_cover_split in Hv by lia. rewrite l4_cover_split in Hv' by lia.
  unfold l4_segment in *. rewrite E2 in Hv'.
  rewrite !(slice_splice_before (Z.to_nat o) _ _ 26) in Hv' by slen.
  rewrite !(slice_splice_before (Z.to_nat o) _ _ 23) in Hv' by slen.
  rewrite sum16_slice_splice in Hv';
    [|slen..|destruct Ho as [-> | ->]; done|by rewrite length_to_bytes].
  rewrite length_to_bytes, sum16_to_bytes_2 in Hv' by lia.
  rewrite (sum16_field_2 e (slice (Z.to_nat o) 2 p)) in Hv' by slen.
  fold (port_at o p) in Hv'. revert Hv Hv'.
  generalize (sum16 e (slice 34 (Z.to_nat (l4_len p)) p)) as a.
  generalize (sum16 e (to_bytes BE 2 (l4_len p))) as b.
  generalize (sum16 e ([Init.Byte.x00] ++ slice 23 1 p)) as c.
  generalize (sum16 e (slice 26 8 p)) as d.
  intros. dlia.
Qed.
End port_csum.

(** [rewrite_port] calls [bpf_l4_csum_replace] with a zero size in [flags]
    and the old port in [from].  The helper documents a size of 2 or 4, or a
    zero size with a zero [from]; so for every nonzero old port the call is
    outside the helper's contract. *)
Theorem rewrite_port_csum_call (e : endianness) (H : BpfHelpers)
    (L : BpfHelperLaws e H) (S : BpfHelpersSucceed H) (new o proto x : Z) (s : state) :
  l4_csum_off proto = Some x -> 0 <= o -> o + 2 <= skb_len (st_skb s) ->
  port_at (e := e) o (pkt s) <> 0 ->
  exists s', rewrite_port new o proto s = Some (tt, s') /\
    head (st_calls s') = Some (CallL4Csum x (port_at o (pkt s)) new 0) /\
    csum_contract (l4_size 0) (port_at o (pkt s)) = false.
Proof.
  intros Hx Ho Hlen Hnz.
  destruct (rewrite_port_run new o proto x s Hx Ho Hlen) as (s1 & _ & _ & ->).
  unfold mbind, M_bind, bpf_l4_csum_replace.
  destruct (h_l4_csum _ _ _ _ _ _) as [r skb].
  eexists. split; [done|]. split; [done|].
  unfold csum_contract. change (l4_size 0) with 0. lia.
Qed.

(** Consequently, when the helper rejects such calls (and leaves the packet
    alone), [rewrite_port] turns every TCP or UDP segment with a valid checksum
    into one with an invalid checksum, whenever it changes the port. *)
Theorem rewrite_port_invalidates_l4 (e : endianness) (H : BpfHelpers)
    (L : BpfHelperLaws e H) (S : BpfHelpersSucceed H) (new o proto x hdr : Z) (s : state) :
  (forall t skb off from to flags, csum_contract (l4_size flags) from = false ->
     skb_bytes (h_l4_csum t skb off from to flags).2 = skb_bytes skb) ->
  l4_csum_off proto = Some x -> (o = TCP_SPORT_OFF \/ o = TCP_DPORT_OFF) ->
  4 <= hdr -> 0 < new < 65535 -> 0 < port_at (e := e) o (pkt s) < 65535 ->
  new <> port_at (e := e) o (pkt s) -> l4_valid e hdr (pkt s) ->
  exists s', rewrite_port new o proto s = Some (tt, s') /\ ~ l4_valid e hdr (pkt s').
Proof.
  intros Hrej Hx Ho Hh Hnew Hold Hne Hv.
  assert (o = 34 \/ o = 36) as Ho' by (norm_offs; done).
  pose proof Hv as (_ & Hhl & Hseg & _ & _).
  clear Ho. assert (0 <= o) by lia. assert (o + 2 <= Z.of_nat (length (pkt s))) by lia.
  assert (port_at o (pkt s) <> 0) by lia.
  destruct (rewrite_port_rejected new o proto x s Hrej Hx) as (s' & E & Hp); [done..|].
  exists s'. split; [done|]. rewrite Hp. by apply port_only_breaks_l4.
Qed.

Lemma rewrite_port_csum_call_witness :
  exists s', rewrite_port (e := LE) (H := ref_helpers LE) 5555 TCP_DPORT_OFF IPPROTO_TCP
               (arriving LE ETH_P_IP no_maps frame_client) = Some (tt, s') /\
    head (st_calls s') = Some (CallL4Csum TCP_CSUM_OFF (port_at (e := LE) 36 frame_client) 5555 0) /\
    csum_contract (l4_size 0) (port_at (e := LE) 36 frame_client) = false.
Proof.
  apply (rewrite_port_csum_call LE (ref_helpers LE) (ref_laws LE) (ref_succeed LE));
    vm_compute; (reflexivity || discriminate).
Defined.

Lemma ref_rejects e t skb off from to flags :
  csum_contract (l4_size flags) from = false ->
  skb_bytes (h_l4_csum (BpfHelpers := ref_helpers e) t skb off from to flags).2 = skb_bytes skb.
Proof.
  intros Hc. cbn. unfold ref_l4_csum, ref_csum. rewrite Hc, andb_false_r. cbn.
  by destruct (in_packetb skb off 2).
Qed.

Lemma rewrite_port_invalidates_l4_witness :
  exists s', rewrite_port (e := LE) (H := ref_helpers LE) 5555 TCP_DPORT_OFF IPPROTO_TCP
               (arriving LE ETH_P_IP no_maps frame_client) = Some (tt, s') /\
    ~ l4_valid LE 20 (pkt s').
Proof.
  apply (rewrite_port_invalidates_l4 LE (ref_helpers LE) (ref_laws LE) (ref_succeed LE)
           5555 TCP_DPORT_OFF IPPROTO_TCP TCP_CSUM_OFF 20).
  - apply ref_rejects.
  - reflexivity.
  - right. reflexivity.
  - vm_compute. discriminate.
  - vm_compute. split; reflexivity.
  - vm_compute. split; reflexivity.
  - vm_compute. discriminate.
  - apply frame_client_valid.
Defined.

(** C37: [rewrite_ip_addr] replaces the source or destination address of a TCP
    or UDP packet and keeps it a valid packet: the header checksum is right
    again, and so is the layer 4 checksum with its pseudo-header when the packet
    carries one. *)
Theorem rewrite_ip_addr_correct (e : endianness) (H : BpfHelpers)
    (L : BpfHelperLaws e H) (S : BpfHelpersSucceed H) (new o proto x hdr : Z) (s : state) :
  0 <= new < 2 ^ 32 -> (o = IP_SRC_OFF \/ o = IP_DST_OFF) ->
  l4_csum_off proto = Some x -> 34 <= skb_len (st_skb s) -> x + 2 <= skb_len (st_skb s) ->
  ip_ihl (pkt s) = 5 -> ip_valid e (pkt s) ->
  exists s', rewrite_ip_addr new o proto s = Some (tt, s') /\
    slice (Z.to_nat o) 4 (pkt s') = to_bytes e 4 new /\
    length (pkt s') = length (pkt s) /\ ip_valid e (pkt s') /\
    (skb_csum_partial (st_skb s) = false -> x + 2 <= 34 + hdr ->
     l4_valid e hdr (pkt s) -> l4_valid e hdr (pkt s')).
Proof.
  intros Hnew Ho Hx Hl Hxl Hihl Hv. unfold skb_len in *. fold (pkt s) in *.
  assert (forall y, l4_csum_off proto = Some y -> y + 2 <= Z.of_nat (length (pkt s))) as Hfit.
  { intros y Hy. rewrite Hx in Hy. by injection Hy as <-. }
  assert (forall y, l4_csum_off proto = Some y ->
    (y = 50 \/ y = 40) /\ y + 2 <= Z.of_nat (length (pkt s))) as Hl4.
  { intros y Hy. split; [by apply (l4_csum_off_cases proto)|by apply Hfit]. }
  assert (Z.to_nat o = 26%nat \/ Z.to_nat o = 30%nat) as Ho'
    by (destruct Ho as [-> | ->]; [by left|by right]).
  assert (34 <= length (pkt s))%nat as Hlen by lia.
  assert (wp (rewrite_ip_addr new o proto) (fun _ s' => addr_rewritten (Z.to_nat o) new
    (l4_csum_off proto) (skb_csum_partial (st_skb s)) (pkt s) (pkt s')) s) as Hw
    by (apply wp_rewrite_ip_addr; [done|done|lia|exact Hfit|auto]).
  apply wp_elim in Hw as ([] & s' & E & Hrw). exists s'. split; [exact E|].
  split; [exact (addr_rewritten_addr _ _ _ _ _ _ Ho' Hlen Hl4 Hrw)|].
  split; [exact (addr_rewritten_length _ _ _ _ _ _ Ho' Hlen Hl4 Hrw)|].
  split; [exact (addr_rewritten_ip_valid _ _ _ _ _ _ Hnew Ho' Hlen Hl4 Hrw Hihl Hv)|].
  intros Hpart Hxh Hv4.
  exact (addr_rewritten_l4_valid _ _ _ _ _ _ Hnew Ho' Hlen Hl4 Hrw x hdr Hx Hpart Hxh Hv4).
Qed.

Lemma rewrite_ip_addr_correct_witness :
  exists s', rewrite_ip_addr (e := LE) (H := ref_helpers LE) 50331658 IP_DST_OFF IPPROTO_TCP
               (arriving LE ETH_P_IP no_maps frame_client) = Some (tt, s') /\
    ip_valid LE (pkt s') /\ l4_valid LE 20 (pkt s').
Proof.
  destruct (rewrite_ip_addr_correct LE (ref_helpers LE) (ref_laws LE) (ref_succeed LE)
    50331658 IP_DST_OFF IPPROTO_TCP TCP_CSUM_OFF 20
    (arriving LE ETH_P_IP no_maps frame_client)) as (s' & E & _ & _ & Hv & Hv4).
  - vm_compute. split; [discriminate|reflexivity].
  - right. reflexivity.
  - reflexivity.
  - vm_compute. discriminate.
  - vm_compute. discriminate.
  - reflexivity.
  - apply frame_client_valid.
  - exists s'. split; [exact E|]. split; [exact Hv|].
    apply Hv4; [reflexivity|vm_compute; discriminate|apply frame_client_valid].
Defined.
