(* ===== verification/Arp.v ===== *)
(** * arp.c: answering ARP requests of a workload *)

From S2P Require Import Prelude Endian Csum CLayout Helpers RefHelpers CTypes VmPacket Packet Samples NetHelpers.

Definition ARP_OP_OFF : Z := 20.
Definition ARP_SHA_OFF : Z := 22.
Definition ARP_SIP_OFF : Z := 28.
Definition ARP_THA_OFF : Z := 32.
Definition ARP_TIP_OFF : Z := 38.

Section prog.
Context {e : endianness} {H : BpfHelpers}.

Definition arp : M Z :=
  data ← ctx_data;
  data_end ← ctx_data_end;
  protocol ← ctx_protocol;
  if negb (protocol =? bpf_htons true ETH_P_ARP) then mret TC_ACT_UNSPEC else
  let '(ret, _, ethh) := parse_ethhdr data data_end in
  if negb (ret =? 0) then mret TC_ACT_OK else
  match ethh with
  | None => fault
  | Some ethh =>
      eth_src ← memcpy_from ethh struct_ethhdr ["h_source"] ETH_ALEN;
      memcpy_to ethh struct_ethhdr ["h_dest"] eth_src;;
      memcpy_to ethh struct_ethhdr ["h_source"] host_peer_mac;;
      arp_op ← bpf_skb_load_bytes ARP_OP_OFF 2;
      if negb (bpf_ntohs false (of_bytes e arp_op.2) =? ARPOP_REQUEST)
      then mret TC_ACT_OK else
      tip ← bpf_skb_load_bytes ARP_TIP_OFF 4;
      sip ← bpf_skb_load_bytes ARP_SIP_OFF 4;
      let arp_op := bpf_htons true ARPOP_REPLY in
      bpf_skb_store_bytes ARP_OP_OFF (to_bytes e 2 arp_op) 0;;
      bpf_skb_store_bytes ARP_SHA_OFF host_peer_mac 0;;
      bpf_skb_store_bytes ARP_THA_OFF eth_src 0;;
      bpf_skb_store_bytes ARP_SIP_OFF tip.2 0;;
      bpf_skb_store_bytes ARP_TIP_OFF sip.2 0;;
      ifindex ← ctx_ifindex;
      bpf_redirect ifindex 0
  end.
End prog.

(** ** ARP packets *)

Definition arp_op (p : list byte) : Z := of_bytes BE (slice 20 2 p).
Definition arp_sha (p : list byte) : list byte := slice 22 6 p.
Definition arp_spa (p : list byte) : list byte := slice 28 4 p.
Definition arp_tha (p : list byte) : list byte := slice 32 6 p.
Definition arp_tpa (p : list byte) : list byte := slice 38 4 p.

Definition is_arp {e : endianness} (s : state) : Prop :=
  skb_protocol (st_skb s) = bpf_htons true ETH_P_ARP.

(** The Ethernet header with which arp sends a frame back. *)
Definition eth_turned (p : list byte) : list byte :=
  splice 6 host_peer_mac (splice 0 (eth_src p) p).

(** The reply, as the sequence of writes that builds it. *)
Definition arp_reply (p : list byte) : list byte :=
  splice 38 (arp_spa p) (splice 28 (arp_tpa p) (splice 32 (eth_src p)
    (splice 22 host_peer_mac (splice 20 (to_bytes BE 2 ARPOP_REPLY) (eth_turned p))))).

Lemma length_eth_turned p : (14 <= length p)%nat -> length (eth_turned p) = length p.
Proof. intros. unfold eth_turned, eth_src, host_peer_mac. slen. Qed.

(** What a host expects of the answer to its request. *)
Lemma arp_reply_fields p :
  (42 <= length p)%nat ->
  length (arp_reply p) = length p /\
  eth_dst (arp_reply p) = eth_src p /\ eth_src (arp_reply p) = host_peer_mac /\
  arp_op (arp_reply p) = ARPOP_REPLY /\
  arp_sha (arp_reply p) = host_peer_mac /\ arp_spa (arp_reply p) = arp_tpa p /\
  arp_tha (arp_reply p) = eth_src p /\ arp_tpa (arp_reply p) = arp_spa p /\
  slice 12 8 (arp_reply p) = slice 12 8 p /\ drop 42 (arp_reply p) = drop 42 p.
Proof.
  intros Hl. assert (length host_peer_mac = 6%nat) as Hm by done.
  unfold arp_reply, eth_turned, arp_spa, arp_tpa, arp_op, arp_sha, arp_tha, eth_src, eth_dst.
  split; [slen|]. repeat (split; [by slices; rewrite ?of_to_bytes|]). by slices.
Qed.

Section spec.
Context {e : endianness} {H : BpfHelpers}.

Lemma arp_unspec s : ~ is_arp s -> arp s = Some (TC_ACT_UNSPEC, s).
Proof.
  intros Hp. apply wp_exact. unfold arp. wp_prologue.
  rewrite (proj2 (Z.eqb_neq _ _) Hp). by apply wp_ret.
Qed.

(** Past the protocol check the Ethernet header is turned around before the
    operation is looked at. *)
Lemma wp_arp_turn s Q :
  is_arp s -> 14 <= skb_headlen (st_skb s) -> 14 <= skb_len (st_skb s) ->
  (wp (arp_op ← bpf_skb_load_bytes ARP_OP_OFF 2;
       if negb (bpf_ntohs false (of_bytes e arp_op.2) =? ARPOP_REQUEST)
       then mret TC_ACT_OK else
       tip ← bpf_skb_load_bytes ARP_TIP_OFF 4;
       sip ← bpf_skb_load_bytes ARP_SIP_OFF 4;
       let arp_op := bpf_htons true ARPOP_REPLY in
       bpf_skb_store_bytes ARP_OP_OFF (to_bytes e 2 arp_op) 0;;
       bpf_skb_store_bytes ARP_SHA_OFF host_peer_mac 0;;
       bpf_skb_store_bytes ARP_THA_OFF (eth_src (pkt s)) 0;;
       bpf_skb_store_bytes ARP_SIP_OFF tip.2 0;;
       bpf_skb_store_bytes ARP_TIP_OFF sip.2 0;;
       ifindex ← ctx_ifindex;
       bpf_redirect ifindex 0) Q (with_bytes (eth_turned (pkt s)) s)) ->
  wp arp Q s.
Proof.
  intros Harp Hh Hl HQ. unfold skb_len in Hl. fold (pkt s) in Hl. unfold arp.
  wp_prologue. rewrite Harp, Z.eqb_refl. cbn [negb].
  rewrite parse_ethhdr_ok by done. cbn [negb Z.eqb].
  unfold memcpy_from, memcpy_to. norm_flds.
  apply wp_bind, wp_pkt_read; [done|cbn; lia..|]. cbn [ptr_add p_off]. 
  change (slice _ _ (pkt s)) with (eth_src (pkt s)).
  assert (length (eth_src (pkt s)) = 6%nat) as He by (unfold eth_src; slen).
  apply wp_bind, wp_pkt_write; [done|done|cbn; rewrite He; lia|].
  apply wp_bind, wp_pkt_write; [done|done|cbn; lia|]. exact HQ.
Qed.

Context {L : BpfHelperLaws e H} {S : BpfHelpersSucceed H}.

Lemma arp_op_native p :
  (22 <= length p)%nat -> bpf_ntohs false (of_bytes e (slice 20 2 p)) = arp_op p.
Proof using Type.
  intros. change (@bpf_ntohs e) with (@bpf_htons e). by rewrite htons_of_bytes by slen.
Qed.

Lemma wp_arp_request s Q :
  is_arp s -> 14 <= skb_headlen (st_skb s) -> 42 <= skb_len (st_skb s) ->
  arp_op (pkt s) = ARPOP_REQUEST ->
  (forall s1, only_bytes s s1 -> pkt s1 = arp_reply (pkt s) ->
     Q (h_redirect (length (st_calls s1)) (st_skb s1) (skb_ifindex (st_skb s1)) 0)
       (log_call (CallRedirect (skb_ifindex (st_skb s1)) 0) s1)) ->
  wp arp Q s.
Proof using L S.
  intros Harp Hh Hl Hop HQ. apply wp_arp_turn; [done|done|lia|].
  unfold skb_len in Hl. fold (pkt s) in Hl.
  set (s0 := with_bytes _ _). assert (pkt s0 = eth_turned (pkt s)) as Hp0 by done.
  assert (length (pkt s0) = length (pkt s)) as Hl0 by (rewrite Hp0; apply length_eth_turned; lia).
  assert (only_bytes s s0) as Hob0 by done. clearbody s0.
  assert (forall o n, (14 <= o)%nat -> slice o n (pkt s0) = slice o n (pkt s)) as Hs0.
  { intros o n Ho. rewrite Hp0. unfold eth_turned, eth_src, host_peer_mac. by slices. }
  apply wp_bind, wp_load; [apply in_packet_intro; unfold ARP_OP_OFF; lia|].
  change (Z.to_nat ARP_OP_OFF) with 20%nat. change (Z.to_nat 2) with 2%nat. cbn [snd].
  rewrite Hs0, arp_op_native, Hop by lia. cbn [negb]. change (_ =? _) with true. cbn [negb].
  apply wp_bind, wp_load; [apply in_packet_intro; unfold ARP_TIP_OFF; rewrite ?pkt_log_call; lia|].
  apply wp_bind, wp_load; [apply in_packet_intro; unfold ARP_SIP_OFF; rewrite ?pkt_log_call; lia|].
  cbn [snd]. rewrite !pkt_log_call.
  change (slice (Z.to_nat ARP_TIP_OFF) (Z.to_nat 4) (pkt s0)) with (arp_tpa (pkt s0)).
  change (slice (Z.to_nat ARP_SIP_OFF) (Z.to_nat 4) (pkt s0)) with (arp_spa (pkt s0)).
  replace (arp_tpa (pkt s0)) with (arp_tpa (pkt s)) by (unfold arp_tpa; by rewrite Hs0 by lia).
  replace (arp_spa (pkt s0)) with (arp_spa (pkt s)) by (unfold arp_spa; by rewrite Hs0 by lia).
  cbv zeta. rewrite to_bytes_htons.
  assert (length (arp_tpa (pkt s)) = 4%nat) by (unfold arp_tpa; slen).
  assert (length (arp_spa (pkt s)) = 4%nat) by (unfold arp_spa; slen).
  assert (length (eth_src (pkt s)) = 6%nat) by (unfold eth_src; slen).
  set (s0' := log_call _ _). assert (only_bytes s s0') as Hob' by exact Hob0.
  assert (pkt s0' = eth_turned (pkt s)) as Hp0' by exact Hp0.
  assert (length (pkt s0') = length (pkt s)) as Hl0' by exact Hl0.
  clearbody s0'. clear Hob0 Hp0 Hl0 Hs0 s0.
  unfold ARP_OP_OFF, ARP_SHA_OFF, ARP_THA_OFF, ARP_SIP_OFF, ARP_TIP_OFF.
  apply wp_bind, (wp_store_from s); [done|slen..|]. intros s1 Hob1 Hp1 Hl1.
  apply wp_bind, (wp_store_from s); [done|slen..|]. intros s2 Hob2 Hp2 Hl2.
  apply wp_bind, (wp_store_from s); [done|slen..|]. intros s3 Hob3 Hp3 Hl3.
  apply wp_bind, (wp_store_from s); [done|slen..|]. intros s4 Hob4 Hp4 Hl4.
  apply wp_bind, (wp_store_from s); [done|slen..|]. intros s5 Hob5 Hp5 Hl5.
  apply wp_bind, wp_ctx_ifindex. apply HQ; [done|].
  by rewrite Hp5, Hp4, Hp3, Hp2, Hp1, Hp0'.
Qed.

Lemma arp_other_op s :
  is_arp s -> 14 <= skb_headlen (st_skb s) -> 22 <= skb_len (st_skb s) ->
  arp_op (pkt s) <> ARPOP_REQUEST ->
  arp s = Some (TC_ACT_OK,
    log_call (CallLoad ARP_OP_OFF 2) (with_bytes (eth_turned (pkt s)) s)).
Proof using L S.
  intros Harp Hh Hl Hop. apply wp_exact, wp_arp_turn; [done|done|lia|].
  unfold skb_len in Hl. fold (pkt s) in Hl.
  set (s0 := with_bytes _ _). assert (pkt s0 = eth_turned (pkt s)) as Hp0 by done.
  assert (length (pkt s0) = length (pkt s)) as Hl0 by (rewrite Hp0; apply length_eth_turned; lia).
  apply wp_bind, wp_load; [apply in_packet_intro; unfold ARP_OP_OFF; lia|]. cbn [snd].
  change (Z.to_nat ARP_OP_OFF) with 20%nat. change (Z.to_nat 2) with 2%nat.
  rewrite arp_op_native by lia. rewrite Hp0. unfold arp_op, eth_turned, eth_src, host_peer_mac in *.
  rewrite !slice_splice_after by slen. rewrite (proj2 (Z.eqb_neq _ _) Hop). by apply wp_ret.
Qed.
End spec.

(** C34: an ARP request is answered on behalf of whatever address it asks for:
    arp sends the frame back out of the interface it came from as a reply that
    says the requested address is at [host_peer_mac]; the reply is addressed to
    the Ethernet source of the request, and nothing else of the frame
    changes. *)
Theorem arp_answers (e : endianness) (H : BpfHelpers)
    (L : BpfHelperLaws e H) (S : BpfHelpersSucceed H) (s : state) :
  is_arp s -> 14 <= skb_headlen (st_skb s) -> 42 <= skb_len (st_skb s) ->
  arp_op (pkt s) = ARPOP_REQUEST ->
  exists v s', arp s = Some (v, s') /\
    (v = TC_ACT_REDIRECT \/ v = TC_ACT_SHOT) /\
    head (st_calls s') = Some (CallRedirect (skb_ifindex (st_skb s)) 0) /\
    st_maps s' = st_maps s /\
    length (pkt s') = length (pkt s) /\
    eth_dst (pkt s') = eth_src (pkt s) /\ eth_src (pkt s') = host_peer_mac /\
    arp_op (pkt s') = ARPOP_REPLY /\
    arp_sha (pkt s') = host_peer_mac /\ arp_spa (pkt s') = arp_tpa (pkt s) /\
    arp_tha (pkt s') = eth_src (pkt s) /\ arp_tpa (pkt s') = arp_spa (pkt s) /\
    slice 12 8 (pkt s') = slice 12 8 (pkt s) /\ drop 42 (pkt s') = drop 42 (pkt s).
Proof.
  intros Harp Hh Hl Hop. apply wp_elim, wp_arp_request; [done..|].
  intros s1 [(_ & Hif & _) Hm] Hp. rewrite <-Hif. split; [apply redirect_ret|]. split; [done|].
  split; [exact Hm|]. rewrite pkt_log_call, Hp. apply arp_reply_fields.
  unfold skb_len in Hl. fold (pkt s) in Hl. lia.
Qed.

Lemma arp_answers_witness :
  exists v s', arp (e := LE) (H := ref_helpers LE)
                 (arriving LE ETH_P_ARP no_maps frame_arp_request) = Some (v, s') /\
    arp_op (pkt s') = 2 /\ arp_spa (pkt s') = map byte_of_Z [10; 0; 0; 2].
Proof.
  edestruct (arp_answers LE (ref_helpers LE) (ref_laws LE) (ref_succeed LE)
    (arriving LE ETH_P_ARP no_maps frame_arp_request))
    as (v & s' & E & _ & _ & _ & _ & _ & _ & Hop & _ & Hspa & _).
  - reflexivity.
  - vm_compute. discriminate.
  - vm_compute. discriminate.
  - reflexivity.
  - exists v, s'. split; [exact E|]. split; [exact Hop|]. rewrite Hspa. reflexivity.
Defined.

(** What arp does with everything else: a frame that is not ARP is left to
    the next program, one whose Ethernet header cannot be accessed is accepted,
    and an ARP packet that is not a request (a reply of the workload, say) is
    accepted too, but its Ethernet header has already been overwritten: it is
    addressed to its own sender, from [host_peer_mac]. *)
Theorem arp_passes (e : endianness) (H : BpfHelpers)
    (L : BpfHelperLaws e H) (S : BpfHelpersSucceed H) (s : state) :
  (~ is_arp s -> arp s = Some (TC_ACT_UNSPEC, s)) /\
  (is_arp s -> skb_headlen (st_skb s) < 14 -> arp s = Some (TC_ACT_OK, s)) /\
  (is_arp s -> 14 <= skb_headlen (st_skb s) -> 22 <= skb_len (st_skb s) ->
   arp_op (pkt s) <> ARPOP_REQUEST ->
   exists s', arp s = Some (TC_ACT_OK, s') /\
     eth_dst (pkt s') = eth_src (pkt s) /\ eth_src (pkt s') = host_peer_mac /\
     drop 12 (pkt s') = drop 12 (pkt s)).
Proof.
  split; [|split].
  - apply arp_unspec.
  - intros Harp Hh. apply wp_exact. unfold arp. wp_prologue.
    rewrite Harp, Z.eqb_refl. cbn [negb]. rewrite parse_ethhdr_short by done. by apply wp_ret.
  - intros Harp Hh Hl Hop. eexists. split; [by apply arp_other_op|].
    unfold skb_len in Hl. fold (pkt s) in Hl.
    cbn [pkt with_bytes log_call st_skb set_bytes skb_bytes].
    assert (length host_peer_mac = 6%nat) by done.
    unfold eth_turned, eth_dst, eth_src. repeat split; by slices.
Qed.

Lemma arp_passes_witness :
  exists s', arp (e := LE) (H := ref_helpers LE)
      (arriving LE ETH_P_ARP no_maps (arp_reply frame_arp_request)) = Some (TC_ACT_OK, s') /\
    eth_dst (pkt s') = host_peer_mac.
Proof.
  edestruct (proj2 (proj2 (arp_passes LE (ref_helpers LE) (ref_laws LE) (ref_succeed LE)
    (arriving LE ETH_P_ARP no_maps (arp_reply frame_arp_request))))) as (s' & E & Hd & _).
  - reflexivity.
  - vm_compute. discriminate.
  - vm_compute. discriminate.
  - vm_compute. discriminate.
  - exists s'. split; [exact E|]. rewrite Hd. reflexivity.
Defined.
