(* ===== verification/Dnat.v ===== *)
(** * dnat.c: delivering connections to the workload that owns the port *)

From S2P Require Import Prelude Endian Csum CLayout Helpers RefHelpers CTypes VmPacket Packet Samples NetHelpers.

Section prog.
Context {e : endianness} {H : BpfHelpers}.

Definition dnat : M Z :=
  data ← ctx_data;
  data_end ← ctx_data_end;
  protocol ← ctx_protocol;
  if negb (protocol =? bpf_htons true ETH_P_IP) then mret TC_ACT_OK else
  nport ← bpf_skb_load_bytes TCP_DPORT_OFF 2;
  let hport := bpf_ntohs false (of_bytes e nport.2) in
  tgt ← bpf_map_lookup_elem ptp_dnat_targets hport;
  match tgt with
  | None => mret TC_ACT_OK
  | Some tgt =>
      let '(ret, _, ethh) := parse_ethhdr data data_end in
      if negb (ret =? 0) then mret TC_ACT_OK else
      match ethh with
      | None => fault
      | Some ethh =>
          memcpy_to ethh struct_ethhdr ["h_dest"] (dnat_mac_addr tgt);;
          let dst := bpf_htonl false (dnat_ip_addr tgt) in
          prev_dst ← bpf_skb_load_bytes IP_DST_OFF IP_ADDR_LEN;
          let prev_dst := of_bytes e prev_dst.2 in
          bpf_skb_store_bytes IP_DST_OFF (to_bytes e 4 dst) 0;;
          bpf_l3_csum_replace IP_CSUM_OFF prev_dst dst 4;;
          bpf_l4_csum_replace TCP_CSUM_OFF prev_dst dst (Z.lor BPF_F_PSEUDO_HDR 4);;
          rewrite_port (bpf_htons true MC_SERVER_PORT) TCP_DPORT_OFF IPPROTO_TCP;;
          bpf_redirect_peer (dnat_iface_idx tgt) 0
      end
  end.
End prog.

(** ** What dnat does to a packet for a known port *)

(** The Ethernet destination is replaced, then the IP destination with the
    checksums, then the port. *)
Definition dnat_rewritten {e : endianness} (tgt : dnat_target) (partial : bool)
    (p p' : list byte) : Prop :=
  exists p1 p2, p1 = splice 0 (dnat_mac_addr tgt) p /\
    addr_rewritten 30 (bpf_htonl false (dnat_ip_addr tgt)) (Some TCP_CSUM_OFF) partial p1 p2 /\
    port_rewritten 36 (bpf_htons true MC_SERVER_PORT) (Some TCP_CSUM_OFF) p2 p'.

(** A target as the map holds it: a 32-bit address and a MAC address. *)
Definition target_wf (tgt : dnat_target) : Prop :=
  0 <= dnat_ip_addr tgt < 2 ^ 32 /\ length (dnat_mac_addr tgt) = 6%nat.

Section spec.
Context {e : endianness} {H : BpfHelpers}.
Context {L : BpfHelperLaws e H} {S : BpfHelpersSucceed H}.

(** Up to the address rewrite. *)
Lemma wp_dnat_addr s tgt Q :
  is_ip s -> 52 <= Z.of_nat (length (pkt s)) -> 14 <= skb_headlen (st_skb s) ->
  ptp_dnat_targets (st_maps s) !! l4_dport (pkt s) = Some tgt -> target_wf tgt ->
  (forall s1, only_bytes s s1 -> length (pkt s1) = length (pkt s) ->
     addr_rewritten 30 (bpf_htonl false (dnat_ip_addr tgt)) (Some TCP_CSUM_OFF)
       (skb_csum_partial (st_skb s)) (splice 0 (dnat_mac_addr tgt) (pkt s)) (pkt s1) ->
     wp (rewrite_port (bpf_htons true MC_SERVER_PORT) TCP_DPORT_OFF IPPROTO_TCP;;
         bpf_redirect_peer (dnat_iface_idx tgt) 0) Q s1) ->
  wp dnat Q s.
Proof using L S.
  intros Hip Hlen Hh Hm [Hipr Hmac] HQ. unfold dnat. wp_prologue.
  rewrite Hip, Z.eqb_refl. cbn [negb].
  apply wp_bind, wp_load; [apply in_packet_intro; norm_offs; lia|]. cbn [snd].
  norm_offs. norm_nats.
  apply wp_bind, wp_map_lookup. cbn [st_maps log_call].
  change (@bpf_ntohs e) with (@bpf_htons e). rewrite htons_of_bytes by slen.
  fold (l4_dport (pkt s)). rewrite Hm. rewrite parse_ethhdr_ok by done. cbn [negb Z.eqb].
  unfold memcpy_to. norm_flds.
  apply wp_bind, wp_pkt_write; [done|done|cbn; rewrite Hmac; lia|].
  apply inline_rewrite_tcp, wp_bind.
  set (s0 := with_bytes _ _).
  assert (pkt s0 = splice 0 (dnat_mac_addr tgt) (pkt s)) as Hp0 by done.
  assert (length (pkt s0) = length (pkt s)) as Hl0 by (rewrite Hp0; slen).
  assert (only_bytes s s0) as Hob0 by done.
  apply (wp_rewrite_ip_addr (e := e));
    [auto with bytes|by right|lia|apply tcp_l4_off; lia|].
  intros s1 Hob1 Hr1. apply HQ; [eauto with wp| |exact Hr1].
  rewrite <-Hl0. eapply (addr_rewritten_length 30); [by right|lia| |exact Hr1].
  apply tcp_l4_some. lia.
Qed.

Lemma wp_dnat s tgt Q :
  is_ip s -> 52 <= Z.of_nat (length (pkt s)) -> 14 <= skb_headlen (st_skb s) ->
  ptp_dnat_targets (st_maps s) !! l4_dport (pkt s) = Some tgt -> target_wf tgt ->
  (forall s1, only_bytes s s1 ->
     dnat_rewritten tgt (skb_csum_partial (st_skb s)) (pkt s) (pkt s1) ->
     Q (h_redirect_peer (length (st_calls s1)) (st_skb s1) (dnat_iface_idx tgt) 0)
       (log_call (CallRedirectPeer (dnat_iface_idx tgt) 0) s1)) ->
  wp dnat Q s.
Proof using L S.
  intros Hip Hlen Hh Hm Hwf HQ. apply (wp_dnat_addr s tgt); [done..|].
  intros s1 Hob1 Hl1 Hr1.
  apply wp_bind, (wp_rewrite_port (e := e)); [norm_offs; lia|norm_offs; lia|apply tcp_l4_off; lia|].
  intros s2 Hob2 Hr2. apply HQ; [eauto with wp|].
  exists (splice 0 (dnat_mac_addr tgt) (pkt s)), (pkt s1). split; [done|]. split; [exact Hr1|exact Hr2].
Qed.

(** The fields of the rewritten packet; [w4] is the window of the TCP
    checksum. *)
Lemma dnat_rewritten_fields tgt partial p p' :
  target_wf tgt -> (52 <= length p)%nat -> dnat_rewritten tgt partial p p' ->
  length p' = length p /\
  eth_dst p' = dnat_mac_addr tgt /\ ip_dst p' = dnat_ip_addr tgt /\
  l4_dport p' = MC_SERVER_PORT /\
  slice 6 18 p' = slice 6 18 p /\ ip_src p' = ip_src p /\ l4_sport p' = l4_sport p /\
  slice 38 12 p' = slice 38 12 p /\ drop 52 p' = drop 52 p.
Proof using Type.
  intros [Hip Hmac] Hlen (p1 & p2 & -> & (c3 & _ & _ & c4 & _ & _ & ->) & (w & Hw & ->)).
  norm_offs. norm_nats. split; [slen|].
  unfold eth_dst, ip_dst, l4_dport, ip_src, l4_sport.
  split; [slices; done|].
  split; [slices; rewrite to_bytes_htonl, of_to_bytes; by apply Z.mod_small|].
  split; [slices; rewrite to_bytes_htons, of_to_bytes; done|].
  repeat (split; [by slices|]). by slices.
Qed.

Lemma dnat_rewritten_ip_valid tgt partial p p' :
  target_wf tgt -> (52 <= length p)%nat -> dnat_rewritten tgt partial p p' ->
  ip_ihl p = 5 -> ip_valid e p -> ip_valid e p'.
Proof using Type.
  intros [Hip Hmac] Hlen (p1 & p2 & -> & Hr1 & Hr2) Hihl Hv.
  assert (length (splice 0 (dnat_mac_addr tgt) p) = length p) as Hl1 by slen.
  assert (ip_ihl (splice 0 (dnat_mac_addr tgt) p) = 5) as Hi1
    by (unfold ip_ihl in *; by rewrite slice_splice_after by slen).
  eapply (addr_port_ip_valid 30 _ _ _ 36 _ _ (splice 0 (dnat_mac_addr tgt) p) p2);
    [by apply htonl_range|by right|by right|lia|apply tcp_off_cases|apply tcp_off_cases|exact Hr1|exact Hr2|done|].
  unfold ip_valid, ip_header in *. rewrite Hi1, Hl1. rewrite Hihl in Hv.
  rewrite slice_splice_after by slen. done.
Qed.
End spec.

(** The helpers that [dnat] calls for a packet with a target, the last one first:
    the checksums are updated for the address and for the port. *)
Definition dnat_calls {e : endianness} (tgt : dnat_target) (p : list byte) : list helper_call :=
  let dst := bpf_htonl false (dnat_ip_addr tgt) in
  let prev_dst := of_bytes e (slice 30 4 p) in
  let port := bpf_htons true MC_SERVER_PORT in
  [CallRedirectPeer (dnat_iface_idx tgt) 0;
   CallL4Csum TCP_CSUM_OFF (port_at (e := e) 36 p) port 0;
   CallStore TCP_DPORT_OFF (to_bytes e 2 port) 0;
   CallLoad TCP_DPORT_OFF 2;
   CallL4Csum TCP_CSUM_OFF prev_dst dst (Z.lor BPF_F_PSEUDO_HDR 4);
   CallL3Csum IP_CSUM_OFF prev_dst dst 4;
   CallStore IP_DST_OFF (to_bytes e 4 dst) 0;
   CallLoad IP_DST_OFF IP_ADDR_LEN;
   CallLoad TCP_DPORT_OFF 2].

Section calls.
Context {e : endianness} {H : BpfHelpers}.
Context {L : BpfHelperLaws e H} {S : BpfHelpersSucceed H}.

Lemma wp_dnat_calls s tgt :
  is_ip s -> 52 <= Z.of_nat (length (pkt s)) -> 14 <= skb_headlen (st_skb s) ->
  ptp_dnat_targets (st_maps s) !! l4_dport (pkt s) = Some tgt -> target_wf tgt ->
  wp dnat (fun _ s' => st_calls s' = (dnat_calls tgt (pkt s) ++ st_calls s)%list) s.
Proof using L S.
  intros Hip Hlen Hh Hm [Hipr Hmac]. unfold dnat. wp_prologue. rewrite Hip, Z.eqb_refl. cbn [negb].
  apply wp_bind, wp_load; [apply in_packet_intro; norm_offs; lia|]. cbn [snd]. norm_offs. norm_nats.
  apply wp_bind, wp_map_lookup. cbn [st_maps log_call].
  change (@bpf_ntohs e) with (@bpf_htons e). rewrite htons_of_bytes by slen.
  fold (l4_dport (pkt s)). rewrite Hm. rewrite parse_ethhdr_ok by done. cbn [negb Z.eqb].
  unfold memcpy_to. norm_flds. apply wp_bind, wp_pkt_write; [done|done|cbn; rewrite Hmac; lia|].
  set (s0 := with_bytes _ _).
  assert (pkt s0 = splice 0 (dnat_mac_addr tgt) (pkt s)) as Hp0 by done.
  assert (length (pkt s0) = length (pkt s)) as Hl0 by (rewrite Hp0; slen).
  assert (of_bytes e (slice 30 4 (pkt s0)) = of_bytes e (slice 30 4 (pkt s))) as Hd0
    by (rewrite Hp0; by slices).
  apply wp_bind, wp_load; [apply in_packet_intro; norm_offs; lia|]. cbn [snd]. norm_nats. cbv zeta. rewrite Hd0.
  set (prev := of_bytes e (slice 30 4 (pkt s))). set (dst := bpf_htonl false (dnat_ip_addr tgt)).
  apply wp_bind, wp_store; [apply in_packet_intro; slen; rewrite pkt_log_call; lia|]. rewrite pkt_log_call.
  intros s1 (_ & _ & Hc1) Hp1. assert (length (pkt s1) = length (pkt s)) as Hl1 by (rewrite Hp1; slen).
  apply wp_bind, (wp_l3 (e := e));
    [apply in_packet_intro; lia|lia|apply of_bytes_4_range; slen|by apply htonl_range|].
  intros s2 c3 (_ & _ & Hc2) _ Hp2 _. norm_nats. assert (length (pkt s2) = length (pkt s)) as Hl2 by (rewrite Hp2; slen).
  apply wp_bind, wp_l4_frame; [apply in_packet_intro; lia|].
  intros s3 r w (_ & _ & Hc3) Hw Hp3. assert (length (pkt s3) = length (pkt s)) as Hl3 by (rewrite Hp3; slen).
  assert (of_bytes e (slice 36 2 (pkt s3)) = port_at (e := e) 36 (pkt s)) as Hport.
  { unfold port_at. rewrite Hp3, Hp2, Hp1, Hp0. norm_nats. f_equal. by slices. }
  apply wp_bind. unfold rewrite_port. apply wp_bind, wp_load; [apply in_packet_intro; lia|]. cbn [snd]. norm_nats.
  cbv zeta. rewrite Hport.
  apply wp_bind, wp_store; [apply in_packet_intro; slen; rewrite pkt_log_call; lia|]. rewrite pkt_log_call.
  intros s4 (_ & _ & Hc4) Hp4. assert (length (pkt s4) = length (pkt s)) as Hl4 by (rewrite Hp4; slen).
  change (IPPROTO_TCP =? IPPROTO_TCP) with true. cbv iota.
  apply wp_bind, wp_l4_frame; [apply in_packet_intro; norm_offs; lia|]. intros s5 r5 w5 (_ & _ & Hc5) _ _.
  apply wp_ret. unfold wp, bpf_redirect_peer. cbn [st_calls log_call].
  rewrite Hc5, Hc4. cbn [st_calls log_call]. rewrite Hc3, Hc2, Hc1. done.
Qed.
End calls.

(** The remaining branches. *)
Section branches.
Context {e : endianness} {H : BpfHelpers}.
Context {L : BpfHelperLaws e H} {S : BpfHelpersSucceed H}.

Lemma dnat_not_delivered s :
  is_ip s -> 38 <= skb_len (st_skb s) ->
  (ptp_dnat_targets (st_maps s) !! l4_dport (pkt s) = None \/ skb_headlen (st_skb s) < 14) ->
  dnat s = Some (TC_ACT_OK, log_call (CallLoad TCP_DPORT_OFF 2) s).
Proof using L S.
  intros Hip Hlen Hm. unfold skb_len in Hlen. fold (pkt s) in Hlen.
  apply wp_exact. unfold dnat. wp_prologue. rewrite Hip, Z.eqb_refl. cbn [negb].
  apply wp_bind, wp_load; [apply in_packet_intro; norm_offs; lia|]. cbn [snd].
  norm_offs. norm_nats. apply wp_bind, wp_map_lookup. cbn [st_maps log_call].
  change (@bpf_ntohs e) with (@bpf_htons e). rewrite htons_of_bytes by slen.
  fold (l4_dport (pkt s)).
  destruct (ptp_dnat_targets (st_maps s) !! l4_dport (pkt s)); [|by apply wp_ret].
  destruct Hm as [?|Hh]; [done|]. rewrite parse_ethhdr_short by done. by apply wp_ret.
Qed.
End branches.

(** C2: a TCP segment for a port with a target is delivered to that target: dnat
    does not fault, asks the kernel to redirect the packet to the peer of the
    target's interface and returns its verdict, and the packet then carries the
    target's MAC and IP address and the Minecraft port.  Apart from the two
    checksums every other byte is unchanged.  The IP checksum is still valid; of
    the TCP checksum it is shown that the kernel is asked for exactly one update
    for the address and one for the port, in this order and with the old and the
    new values, along with the other helper calls. *)
Theorem dnat_delivers (e : endianness) (H : BpfHelpers)
    (L : BpfHelperLaws e H) (S : BpfHelpersSucceed H) (s : state) (tgt : dnat_target) :
  is_ip s -> ip_proto (pkt s) = IPPROTO_TCP -> 52 <= skb_len (st_skb s) -> 14 <= skb_headlen (st_skb s) ->
  ptp_dnat_targets (st_maps s) !! l4_dport (pkt s) = Some tgt -> target_wf tgt ->
  exists v s', dnat s = Some (v, s') /\
    (v = TC_ACT_REDIRECT \/ v = TC_ACT_SHOT) /\
    st_calls s' = (dnat_calls (e := e) tgt (pkt s) ++ st_calls s)%list /\
    st_maps s' = st_maps s /\ length (pkt s') = length (pkt s) /\
    eth_dst (pkt s') = dnat_mac_addr tgt /\ ip_dst (pkt s') = dnat_ip_addr tgt /\
    l4_dport (pkt s') = MC_SERVER_PORT /\
    slice 6 18 (pkt s') = slice 6 18 (pkt s) /\ ip_src (pkt s') = ip_src (pkt s) /\
    l4_sport (pkt s') = l4_sport (pkt s) /\
    slice 38 12 (pkt s') = slice 38 12 (pkt s) /\ drop 52 (pkt s') = drop 52 (pkt s) /\
    (ip_ihl (pkt s) = 5 -> ip_valid e (pkt s) -> ip_valid e (pkt s')).
Proof.
  intros Hip _ Hlen Hh Hm Hwf. unfold skb_len in Hlen. fold (pkt s) in Hlen.
  destruct (wp_elim _ _ _ (wp_dnat_calls s tgt Hip Hlen Hh Hm Hwf)) as (v & s' & E & Hc). exists v, s'.
  split; [exact E|].
  assert (wp dnat (fun v s' => (v = TC_ACT_REDIRECT \/ v = TC_ACT_SHOT) /\ st_maps s' = st_maps s /\
    dnat_rewritten tgt (skb_csum_partial (st_skb s)) (pkt s) (pkt s')) s) as Hwp.
  { apply (wp_dnat s tgt); [done..|]. intros s1 [_ Hmaps] Hrw. split; [apply redirect_peer_ret|done]. }
  unfold wp in Hwp. rewrite E in Hwp. destruct Hwp as (Hv & Hmaps & Hrw).
  assert (52 <= length (pkt s))%nat as Hl by lia.
  destruct (dnat_rewritten_fields _ _ _ _ Hwf Hl Hrw) as (? & ? & ? & ? & ? & ? & ? & ? & ?).
  do 12 (split; [done|]). by apply (dnat_rewritten_ip_valid tgt (skb_csum_partial (st_skb s))).
Qed.

(** A target for port 30001: the workload at 10.0.0.3 behind interface 7. *)
Definition demo_target : dnat_target :=
  {| dnat_ip_addr := 167772163; dnat_iface_idx := 7;
     dnat_mac_addr := map byte_of_Z [10; 11; 12; 13; 14; 15] |}.

Definition demo_dnat_maps : bpf_maps :=
  {| ptp_snat_config := ∅; net_data_map := ∅; ptp_dnat_targets := {[30001 := demo_target]};
     veth_pair_map := ∅; original_dst_map := ∅ |}.

Lemma dnat_delivers_witness :
  exists v s', dnat (e := LE) (H := ref_helpers LE)
                 (arriving LE ETH_P_IP demo_dnat_maps frame_client) = Some (v, s') /\
    ip_dst (pkt s') = 167772163 /\ l4_dport (pkt s') = 25565 /\ ip_valid LE (pkt s').
Proof.
  edestruct (dnat_delivers LE (ref_helpers LE) (ref_laws LE) (ref_succeed LE)
    (arriving LE ETH_P_IP demo_dnat_maps frame_client) demo_target)
    as (v & s' & E & _ & _ & _ & _ & _ & Hd & Hp & _ & _ & _ & _ & _ & Hv).
  - reflexivity.
  - vm_compute. reflexivity.
  - vm_compute. discriminate.
  - vm_compute. discriminate.
  - vm_compute. reflexivity.
  - split; [vm_compute; split; [discriminate|reflexivity]|reflexivity].
  - exists v, s'. split; [exact E|]. split; [exact Hd|]. split; [exact Hp|].
    apply Hv; [reflexivity|apply frame_client_valid].
Defined.

(** Every other packet is handed to the network stack untouched: a frame
    that is not IPv4, an IPv4 packet whose destination port has no target, and
    one whose Ethernet header cannot be accessed. *)
Theorem dnat_passes (e : endianness) (H : BpfHelpers)
    (L : BpfHelperLaws e H) (S : BpfHelpersSucceed H) (s : state) :
  (~ is_ip s -> dnat s = Some (TC_ACT_OK, s)) /\
  (is_ip s -> 38 <= skb_len (st_skb s) ->
   (ptp_dnat_targets (st_maps s) !! l4_dport (pkt s) = None \/ skb_headlen (st_skb s) < 14) ->
   dnat s = Some (TC_ACT_OK, log_call (CallLoad TCP_DPORT_OFF 2) s)).
Proof.
  split; [|apply dnat_not_delivered].
  intros Hp. apply wp_exact. unfold dnat. wp_prologue.
  rewrite (proj2 (Z.eqb_neq _ _) Hp). by apply wp_ret.
Qed.

Lemma dnat_passes_witness :
  dnat (e := LE) (H := ref_helpers LE) (arriving LE ETH_P_IP no_maps frame_client)
  = Some (TC_ACT_OK, log_call (CallLoad TCP_DPORT_OFF 2)
                       (arriving LE ETH_P_IP no_maps frame_client)).
Proof.
  apply (dnat_passes LE (ref_helpers LE) (ref_laws LE) (ref_succeed LE)).
  - reflexivity.
  - vm_compute. discriminate.
  - left. reflexivity.
Defined.

(** The address rewrite changes the two bytes at the place of the TCP checksum
    unless the old and the new address have the same one's complement sum. *)
Lemma addr_rewrite_touches_csum (e : endianness) new p p' :
  (52 <= length p)%nat ->
  (words16 (of_bytes e (slice 30 4 p)) - words16 new) mod 65535 <> 0 ->
  addr_rewritten (e := e) 30 new (Some TCP_CSUM_OFF) false p p' ->
  slice 50 2 p' <> slice 50 2 p.
Proof.
  intros Hl Hne Hr E. assert (34 <= length p)%nat as Hl' by lia.
  destruct (addr_rewritten_l4_shape 30 _ _ _ p p' ltac:(by right) Hl'
    (tcp_l4_some (Z.of_nat (length p)) ltac:(lia)) Hr TCP_CSUM_OFF eq_refl eq_refl) as (c4 & Hc & Hm & Hs).
  norm_offs. norm_nats. rewrite Hs in E by lia. rewrite slice_splice_eq in E by slen.
  apply (f_equal (of_bytes e)) in E. rewrite of_to_bytes, Z.mod_small in E by done.
  rewrite <-E in Hm. apply Hne. dlia.
Qed.

(** Dnat does not look at the IP protocol.  A UDP datagram to a port with a
    target is redirected like a TCP segment, and the update meant for the TCP
    checksum changes two bytes of its payload (when the helper rejects the
    out-of-contract call of [rewrite_port], and unless the two addresses have
    the same one's complement sum). *)
Theorem dnat_alters_udp_payload (e : endianness) (H : BpfHelpers)
    (L : BpfHelperLaws e H) (S : BpfHelpersSucceed H) (s : state) (tgt : dnat_target) :
  (forall t skb off from to flags, csum_contract (l4_size flags) from = false ->
     skb_bytes (h_l4_csum t skb off from to flags).2 = skb_bytes skb) ->
  is_ip s -> 52 <= skb_len (st_skb s) -> 14 <= skb_headlen (st_skb s) ->
  ip_proto (pkt s) = IPPROTO_UDP -> skb_csum_partial (st_skb s) = false ->
  ptp_dnat_targets (st_maps s) !! l4_dport (pkt s) = Some tgt -> target_wf tgt ->
  port_at (e := e) 36 (pkt s) <> 0 ->
  (words16 (of_bytes e (slice 30 4 (pkt s)))
   - words16 (bpf_htonl false (dnat_ip_addr tgt))) mod 65535 <> 0 ->
  exists v s', dnat s = Some (v, s') /\
    head (st_calls s') = Some (CallRedirectPeer (dnat_iface_idx tgt) 0) /\
    slice 50 2 (pkt s') <> slice 50 2 (pkt s).
Proof.
  intros Hrej Hip Hl Hh Hu Hpart Hm Hwf Hnz Hne. unfold skb_len in Hl. fold (pkt s) in Hl.
  apply wp_elim, (wp_dnat_addr s tgt); [done..|]. intros s1 Hob Hl1 Hr. rewrite Hpart in Hr.
  pose proof Hwf as [_ Hmac].
  assert (52 <= length (splice 0 (dnat_mac_addr tgt) (pkt s)))%nat as Hl0 by slen.
  assert (slice 50 2 (pkt s1) <> slice 50 2 (pkt s)) as Hs.
  { rewrite <-(slice_splice_after 0 (dnat_mac_addr tgt) (pkt s) 50 2) by slen.
    eapply addr_rewrite_touches_csum; [exact Hl0| |exact Hr].
    by rewrite slice_splice_after by slen. }
  assert (port_at 36 (pkt s1) = port_at 36 (pkt s)) as Hp.
  { unfold port_at. f_equal. norm_nats. destruct Hr as (c3 & _ & _ & c4 & _ & _ & ->).
    norm_offs. norm_nats. by slices. }
  destruct (rewrite_port_rejected (bpf_htons true MC_SERVER_PORT) TCP_DPORT_OFF IPPROTO_TCP
    TCP_CSUM_OFF s1 Hrej eq_refl) as (s2 & E & Hp2); [done|norm_offs; lia|norm_offs; congruence|].
  unfold wp. rewrite (wp_bind_inv _ _ _ _ _ E). split; [done|].
  rewrite pkt_log_call, Hp2. norm_offs. norm_nats. by rewrite slice_splice_after by slen.
Qed.

Definition demo_udp_maps : bpf_maps :=
  {| ptp_snat_config := ∅; net_data_map := ∅; ptp_dnat_targets := {[5000 := demo_target]};
     veth_pair_map := ∅; original_dst_map := ∅ |}.

Lemma dnat_alters_udp_payload_witness :
  exists v s', dnat (e := LE) (H := ref_helpers LE)
      (arriving LE ETH_P_IP demo_udp_maps frame_pod_udp) = Some (v, s') /\
    slice 50 2 (pkt s') <> slice 50 2 frame_pod_udp.
Proof.
  destruct (dnat_alters_udp_payload LE (ref_helpers LE) (ref_laws LE) (ref_succeed LE)
    (arriving LE ETH_P_IP demo_udp_maps frame_pod_udp) demo_target) as (v & s' & E & _ & Hs).
  - apply ref_rejects.
  - reflexivity.
  - vm_compute. discriminate.
  - vm_compute. discriminate.
  - vm_compute. reflexivity.
  - reflexivity.
  - vm_compute. reflexivity.
  - split; [vm_compute; split; [discriminate|reflexivity]|reflexivity].
  - vm_compute. discriminate.
  - vm_compute. discriminate.
  - exists v, s'. split; [exact E|exact Hs].
Defined.
