(* ===== verification/Snat.v ===== *)
(** * snat.c: hiding a workload behind the host's address and port *)

From S2P Require Import Prelude Endian Csum CLayout Helpers RefHelpers CTypes VmPacket Packet Samples NetHelpers.

Section prog.
Context {e : endianness} {H : BpfHelpers}.

Definition snat : M Z :=
  data ← ctx_data;
  data_end ← ctx_data_end;
  protocol ← ctx_protocol;
  if negb (protocol =? bpf_htons true ETH_P_IP) then mret TC_ACT_UNSPEC else
  let iph := ptr_add data ETH_HLEN in
  if ptr_gtb (ptr_add (ptr_add data ETH_HLEN) (sizeof struct_iphdr)) data_end
  then mret TC_ACT_SHOT else
  proto ← ld iph struct_iphdr ["protocol"];
  if negb (proto =? IPPROTO_TCP) then mret TC_ACT_OK else
  sport ← get_port TCP_SPORT_OFF UDP_SPORT_OFF proto;
  if negb (sport =? bpf_htons true MC_SERVER_PORT) then mret TC_ACT_OK else
  let idx := 0 in
  entry ← bpf_map_lookup_elem ptp_snat_config idx;
  match entry with
  | None =>
      bpf_printk "no snat config entry found" [];;
      mret TC_ACT_OK
  | Some entry =>
      saddr ← ld iph struct_iphdr ["saddr"];
      let k := bpf_ntohl false saddr in
      nd ← bpf_map_lookup_elem net_data_map k;
      match nd with
      | None =>
          saddr ← ld iph struct_iphdr ["saddr"];
          bpf_printk "no netdata entry found for pod peer address: %d" [saddr];;
          mret TC_ACT_OK
      | Some nd =>
          let src := bpf_htonl false (snat_ip_addr entry) in
          prev_src ← bpf_skb_load_bytes IP_SRC_OFF IP_ADDR_LEN;
          let prev_src := of_bytes e prev_src.2 in
          bpf_skb_store_bytes IP_SRC_OFF (to_bytes e 4 src) 0;;
          bpf_l3_csum_replace IP_CSUM_OFF prev_src src 4;;
          bpf_l4_csum_replace TCP_CSUM_OFF prev_src src (Z.lor BPF_F_PSEUDO_HDR 4);;
          rewrite_port (bpf_htons false (host_port nd)) TCP_SPORT_OFF IPPROTO_TCP;;
          bpf_redirect_neigh (snat_iface_idx entry) 0 0
      end
  end.
End prog.

(** ** What snat does to a reply of a known workload *)

Definition snat_rewritten {e : endianness} (entry : ptp_snat_entry) (nd : net_data)
    (partial : bool) (p p' : list byte) : Prop :=
  exists p1,
    addr_rewritten 26 (bpf_htonl false (snat_ip_addr entry)) (Some TCP_CSUM_OFF) partial p p1 /\
    port_rewritten 34 (bpf_htons false (host_port nd)) (Some TCP_CSUM_OFF) p1 p'.

(** The map values are in the range of their C types. *)
Definition snat_wf (entry : ptp_snat_entry) (nd : net_data) : Prop :=
  0 <= snat_ip_addr entry < 2 ^ 32 /\ 0 <= host_port nd < 2 ^ 16.

(** A TCP segment from the Minecraft port. *)
Definition from_mc_server (p : list byte) : Prop :=
  ip_proto p = IPPROTO_TCP /\ l4_sport p = MC_SERVER_PORT.

Section spec.
Context {e : endianness} {H : BpfHelpers}.
Context {L : BpfHelperLaws e H} {S : BpfHelpersSucceed H}.

(** The guards of snat up to the map lookups. *)
Lemma wp_snat_guards s Q :
  is_ip s -> 52 <= Z.of_nat (length (pkt s)) -> 34 <= skb_headlen (st_skb s) ->
  from_mc_server (pkt s) ->
  (forall entry, ptp_snat_config (st_maps s) !! 0 = entry ->
    forall nd, net_data_map (st_maps s) !! ip_src (pkt s) = nd ->
    let s1 := log_call (CallLoad 34 2) s in
    match entry, nd with
    | None, _ => Q TC_ACT_OK (log_call (CallPrintk "no snat config entry found" []) s1)
    | Some _, None =>
        Q TC_ACT_OK (log_call (CallPrintk "no netdata entry found for pod peer address: %d"
                                 [of_bytes e (slice 26 4 (pkt s))]) s1)
    | Some entry, Some nd =>
        wp (rewrite_ip_addr (bpf_htonl false (snat_ip_addr entry)) IP_SRC_OFF IPPROTO_TCP;;
            rewrite_port (bpf_htons false (host_port nd)) TCP_SPORT_OFF IPPROTO_TCP;;
            bpf_redirect_neigh (snat_iface_idx entry) 0 0) Q s1
    end) ->
  wp snat Q s.
Proof using L S.
  intros Hip Hlen Hh [Hproto Hsp] HQ. unfold snat. ip_prologue Hip.
  apply wp_bind, wp_ld_proto; [done..|lia|]. rewrite Hproto.
  change (IPPROTO_TCP =? IPPROTO_TCP) with true. cbn [negb]. norm_offs.
  apply wp_bind, wp_get_port; [lia..|by left|]. norm_nats.
  rewrite (proj2 (Z.eqb_eq _ _)) by (apply htons_eq_iff; [slen|done|exact Hsp]).
  cbn [negb].
  apply wp_bind, wp_map_lookup. cbn [log_call st_maps].
  specialize (HQ _ eq_refl _ eq_refl). cbv zeta in HQ.
  destruct (ptp_snat_config (st_maps s) !! 0) as [entry|].
  2: { apply wp_bind, wp_printk, wp_ret, HQ. }
  apply wp_bind, wp_ld_saddr; [done..|]. apply wp_bind, wp_map_lookup. cbn [log_call st_maps].
  change (@bpf_ntohl e) with (@bpf_htonl e). rewrite pkt_log_call, htonl_of_bytes by slen.
  fold (ip_src (pkt s)).
  destruct (net_data_map (st_maps s) !! ip_src (pkt s)) as [nd|].
  - by apply inline_rewrite_tcp.
  - apply wp_bind, wp_ld_saddr; [done..|]. apply wp_bind, wp_printk, wp_ret, HQ.
Qed.

Lemma wp_snat s entry nd Q :
  is_ip s -> 52 <= Z.of_nat (length (pkt s)) -> 34 <= skb_headlen (st_skb s) ->
  from_mc_server (pkt s) ->
  ptp_snat_config (st_maps s) !! 0 = Some entry ->
  net_data_map (st_maps s) !! ip_src (pkt s) = Some nd -> snat_wf entry nd ->
  (forall s1, only_bytes s s1 ->
     snat_rewritten entry nd (skb_csum_partial (st_skb s)) (pkt s) (pkt s1) ->
     Q (h_redirect_neigh (length (st_calls s1)) (st_skb s1) (snat_iface_idx entry) 0 0)
       (log_call (CallRedirectNeigh (snat_iface_idx entry) 0 0) s1)) ->
  wp snat Q s.
Proof using L S.
  intros Hip Hlen Hh Hmc He Hn [Hwf1 Hwf2] HQ.
  apply wp_snat_guards; [done..|]. intros entry' He' nd' Hn'. cbv zeta.
  rewrite He in He'. rewrite Hn in Hn'. subst entry' nd'.
  apply wp_bind, (wp_rewrite_ip_addr (e := e));
    [auto with bytes|by left|rewrite pkt_log_call; lia|
     rewrite pkt_log_call; apply tcp_l4_off; lia|].
  rewrite pkt_log_call. intros s1 Hob1 Hr1.
  assert (length (pkt s1) = length (pkt s)) as Hl1.
  { eapply (addr_rewritten_length 26); [by left|lia| |exact Hr1]. apply tcp_l4_some. lia. }
  apply wp_bind, (wp_rewrite_port (e := e)); [norm_offs; lia..|apply tcp_l4_off; lia|].
  intros s2 Hob2 Hr2. apply HQ.
  - eapply only_bytes_trans; [exact Hob1|exact Hob2].
  - exists (pkt s1). split; [exact Hr1|exact Hr2].
Qed.

Lemma snat_rewritten_fields entry nd partial p p' :
  snat_wf entry nd -> (52 <= length p)%nat -> snat_rewritten entry nd partial p p' ->
  length p' = length p /\
  ip_src p' = snat_ip_addr entry /\ l4_sport p' = host_port nd /\
  slice 0 24 p' = slice 0 24 p /\ ip_dst p' = ip_dst p /\ l4_dport p' = l4_dport p /\
  slice 38 12 p' = slice 38 12 p /\ drop 52 p' = drop 52 p.
Proof using Type.
  intros [Hip Hport] Hlen (p1 & (c3 & _ & _ & c4 & _ & _ & ->) & (w & Hw & ->)).
  norm_offs. norm_nats. split; [slen|].
  unfold ip_dst, l4_dport, ip_src, l4_sport.
  split; [slices; rewrite to_bytes_htonl, of_to_bytes; by apply Z.mod_small|].
  split; [slices; rewrite to_bytes_htons, of_to_bytes; by apply Z.mod_small|].
  repeat (split; [by slices|]). by slices.
Qed.

Lemma snat_rewritten_ip_valid entry nd partial p p' :
  snat_wf entry nd -> (52 <= length p)%nat -> snat_rewritten entry nd partial p p' ->
  ip_ihl p = 5 -> ip_valid e p -> ip_valid e p'.
Proof using Type.
  intros [Hip Hport] Hlen (p1 & Hr1 & Hr2).
  eapply (addr_port_ip_valid 26 _ _ _ 34);
    [by apply htonl_range|by left|by left|done|apply tcp_off_cases|apply tcp_off_cases|exact Hr1|exact Hr2].
Qed.
End spec.

(** The remaining branches. *)
Section branches.
Context {e : endianness} {H : BpfHelpers}.

Lemma snat_unspec s : ~ is_ip s -> snat s = Some (TC_ACT_UNSPEC, s).
Proof.
  intros Hp. apply wp_exact. unfold snat. wp_prologue.
  rewrite (proj2 (Z.eqb_neq _ _) Hp). by apply wp_ret.
Qed.

Lemma snat_short s :
  is_ip s -> skb_headlen (st_skb s) < 34 -> snat s = Some (TC_ACT_SHOT, s).
Proof.
  intros Hip Hh. apply wp_exact. unfold snat. ip_prologue Hip. by apply wp_ret.
Qed.

Lemma snat_other_proto s :
  is_ip s -> 34 <= skb_headlen (st_skb s) <= skb_len (st_skb s) ->
  ip_proto (pkt s) <> IPPROTO_TCP -> snat s = Some (TC_ACT_OK, s).
Proof.
  intros Hip Hh Hp. unfold skb_len in Hh. fold (pkt s) in Hh.
  apply wp_exact. unfold snat. ip_prologue Hip.
  apply wp_bind, wp_ld_proto; [done|lia..|].
  rewrite (proj2 (Z.eqb_neq _ _) Hp). by apply wp_ret.
Qed.

Context {L : BpfHelperLaws e H} {S : BpfHelpersSucceed H}.

Lemma snat_other_port s :
  is_ip s -> 34 <= skb_headlen (st_skb s) -> 52 <= skb_len (st_skb s) ->
  ip_proto (pkt s) = IPPROTO_TCP -> l4_sport (pkt s) <> MC_SERVER_PORT ->
  snat s = Some (TC_ACT_OK, log_call (CallLoad TCP_SPORT_OFF 2) s).
Proof using L S.
  intros Hip Hh Hl Hp Hs. unfold skb_len in Hl. fold (pkt s) in Hl.
  apply wp_exact. unfold snat. ip_prologue Hip.
  apply wp_bind, wp_ld_proto; [done|lia..|].
  rewrite Hp. change (IPPROTO_TCP =? IPPROTO_TCP) with true. norm_offs.
  cbn [negb]. apply wp_bind, wp_get_port; [lia..|by left|]. norm_nats.
  rewrite (proj2 (Z.eqb_neq _ _)); [by apply wp_ret|].
  intros E. apply Hs. apply htons_eq_iff in E; [exact E|slen|done].
Qed.

Lemma snat_unconfigured s :
  is_ip s -> 34 <= skb_headlen (st_skb s) -> 52 <= skb_len (st_skb s) ->
  from_mc_server (pkt s) ->
  ptp_snat_config (st_maps s) !! 0 = None \/
  net_data_map (st_maps s) !! ip_src (pkt s) = None ->
  exists msg args, snat s = Some (TC_ACT_OK,
    log_call (CallPrintk msg args) (log_call (CallLoad TCP_SPORT_OFF 2) s)).
Proof using L S.
  intros Hip Hh Hl Hmc Hnone. unfold skb_len in Hl. fold (pkt s) in Hl.
  assert (wp snat (fun v s' => exists msg args, v = TC_ACT_OK /\
    s' = log_call (CallPrintk msg args) (log_call (CallLoad TCP_SPORT_OFF 2) s)) s) as Hw.
  { apply wp_snat_guards; [done..|]. intros entry He nd Hn. cbv zeta.
    destruct entry; [destruct nd|]; [destruct Hnone; congruence|eauto..]. }
  apply wp_elim in Hw as (v & s' & E & msg & args & -> & ->). eauto.
Qed.
End branches.

(** C3: a reply of a workload's Minecraft server leaves under the host's
    identity: snat does not fault, asks the kernel to send the packet out of
    the configured interface, and the packet's source is the host's address and
    the host port of the workload that owns the original source address; the
    receiver's address and port, the rest of the headers and the payload are
    unchanged and the IP checksum is still valid. *)
Theorem snat_translates (e : endianness) (H : BpfHelpers)
    (L : BpfHelperLaws e H) (S : BpfHelpersSucceed H) (s : state)
    (entry : ptp_snat_entry) (nd : net_data) :
  is_ip s -> 52 <= skb_len (st_skb s) -> 34 <= skb_headlen (st_skb s) ->
  from_mc_server (pkt s) ->
  ptp_snat_config (st_maps s) !! 0 = Some entry ->
  net_data_map (st_maps s) !! ip_src (pkt s) = Some nd -> snat_wf entry nd ->
  exists v s', snat s = Some (v, s') /\
    (v = TC_ACT_REDIRECT \/ v = TC_ACT_SHOT) /\
    head (st_calls s') = Some (CallRedirectNeigh (snat_iface_idx entry) 0 0) /\
    st_maps s' = st_maps s /\ length (pkt s') = length (pkt s) /\
    ip_src (pkt s') = snat_ip_addr entry /\ l4_sport (pkt s') = host_port nd /\
    slice 0 24 (pkt s') = slice 0 24 (pkt s) /\ ip_dst (pkt s') = ip_dst (pkt s) /\
    l4_dport (pkt s') = l4_dport (pkt s) /\
    slice 38 12 (pkt s') = slice 38 12 (pkt s) /\ drop 52 (pkt s') = drop 52 (pkt s) /\
    (ip_ihl (pkt s) = 5 -> ip_valid e (pkt s) -> ip_valid e (pkt s')).
Proof.
  intros Hip Hlen Hh Hmc He Hn Hwf. apply wp_elim. unfold skb_len in Hlen.
  apply (wp_snat s entry nd); [done..|]. intros s1 [_ Hmaps] Hrw.
  assert (52 <= length (pkt s))%nat as Hl by (unfold pkt; lia).
  destruct (snat_rewritten_fields _ _ _ _ _ Hwf Hl Hrw) as (? & ? & ? & ? & ? & ? & ? & ?).
  split; [apply redirect_neigh_ret|]. repeat (split; [done|]).
  by apply (snat_rewritten_ip_valid entry nd (skb_csum_partial (st_skb s))).
Qed.

(** The host is 198.51.100.1 behind interface 2; the workload at 10.0.0.3 owns
    port 30001. *)
Definition demo_net_data : net_data :=
  {| pod_peer := {| if_index := 8; if_addr := 167772163;
                    mac_addr := map byte_of_Z [10; 11; 12; 13; 14; 15] |};
     host_peer := {| if_index := 7; if_addr := 167772162; mac_addr := host_peer_mac |};
     host_port := 30001 |}.

Definition demo_snat_maps : bpf_maps :=
  {| ptp_snat_config := {[0 := {| snat_ip_addr := 3325256705; snat_iface_idx := 2 |}]};
     net_data_map := {[167772163 := demo_net_data]}; ptp_dnat_targets := ∅;
     veth_pair_map := ∅; original_dst_map := ∅ |}.

Lemma snat_translates_witness :
  exists v s', snat (e := LE) (H := ref_helpers LE)
                 (arriving LE ETH_P_IP demo_snat_maps frame_pod_reply) = Some (v, s') /\
    ip_src (pkt s') = 3325256705 /\ l4_sport (pkt s') = 30001.
Proof.
  edestruct (snat_translates LE (ref_helpers LE) (ref_laws LE) (ref_succeed LE)
    (arriving LE ETH_P_IP demo_snat_maps frame_pod_reply)
    {| snat_ip_addr := 3325256705; snat_iface_idx := 2 |} demo_net_data)
    as (v & s' & E & _ & _ & _ & _ & Hs & Hp & _).
  - reflexivity.
  - vm_compute. discriminate.
  - vm_compute. discriminate.
  - split; vm_compute; reflexivity.
  - vm_compute. reflexivity.
  - vm_compute. reflexivity.
  - split; vm_compute; (split; [discriminate|reflexivity]).
  - exists v, s'. split; [exact E|]. split; [exact Hs|exact Hp].
Defined.

(** Traffic that is not a workload's Minecraft reply passes unchanged, with
    the verdict each case calls for: other protocols are left to the next
    program ([TC_ACT_UNSPEC], state untouched), a truncated IP header is
    dropped, other IP traffic is accepted, and a reply without configuration is
    accepted after a log line; no helper that changes the packet is called. *)
Theorem snat_passes (e : endianness) (H : BpfHelpers)
    (L : BpfHelperLaws e H) (S : BpfHelpersSucceed H) (s : state) :
  let ip_ok := is_ip s /\ 34 <= skb_headlen (st_skb s) <= skb_len (st_skb s) in
  let seg_ok := ip_ok /\ 52 <= skb_len (st_skb s) in
  (~ is_ip s -> snat s = Some (TC_ACT_UNSPEC, s)) /\
  (is_ip s -> skb_headlen (st_skb s) < 34 -> snat s = Some (TC_ACT_SHOT, s)) /\
  (ip_ok -> ip_proto (pkt s) <> IPPROTO_TCP -> snat s = Some (TC_ACT_OK, s)) /\
  (seg_ok -> ip_proto (pkt s) = IPPROTO_TCP -> l4_sport (pkt s) <> MC_SERVER_PORT ->
     snat s = Some (TC_ACT_OK, log_call (CallLoad TCP_SPORT_OFF 2) s)) /\
  (seg_ok -> from_mc_server (pkt s) ->
     (ptp_snat_config (st_maps s) !! 0 = None \/
      net_data_map (st_maps s) !! ip_src (pkt s) = None) ->
     exists msg args, snat s = Some (TC_ACT_OK,
       log_call (CallPrintk msg args) (log_call (CallLoad TCP_SPORT_OFF 2) s))).
Proof.
  cbv zeta. split; [|split; [|split; [|split]]].
  - apply snat_unspec.
  - intros Hip Hh. by apply snat_short.
  - intros [Hip Hh] Hp. by apply snat_other_proto.
  - intros [[Hip Hh] Hl] Hp Hs. apply snat_other_port; [done|lia|done..].
  - intros [[Hip Hh] Hl] Hmc Hnone. apply snat_unconfigured; [done|lia|done..].
Qed.

Lemma snat_passes_witness :
  snat (e := LE) (H := ref_helpers LE) (arriving LE ETH_P_IP no_maps frame_pod_http)
  = Some (TC_ACT_OK, log_call (CallLoad TCP_SPORT_OFF 2)
                       (arriving LE ETH_P_IP no_maps frame_pod_http)).
Proof.
  apply (snat_passes LE (ref_helpers LE) (ref_laws LE) (ref_succeed LE)).
  - repeat split; vm_compute; (reflexivity || discriminate).
  - vm_compute. reflexivity.
  - vm_compute. discriminate.
Defined.
