(* ===== verification/Tproxy.v ===== *)
(** * tproxy.c: transparent proxying of a workload's outgoing traffic *)

From S2P Require Import Prelude Endian Csum CLayout Helpers RefHelpers CTypes VmPacket Packet Samples NetHelpers.

Definition TPROXY_HTTP_PORT : Z := 9080.
Definition TPROXY_DNS_PORT : Z := 9053.
Definition TPROXY_TCP_PORT : Z := 9111.
Definition DPORT_DNS : Z := 53.
Definition DPORT_HTTP : Z := 80.
Definition SO_ORIGINAL_DST : Z := 80.
Definition AF_INET : Z := 2.

(** [(addr << 24) | (port << 8) | proto]: the shift of the [__be32] happens in
    32 bits, the promoted [__be16] and [__u8] are [int]s; the result is
    widened to [__u64]. *)
Definition dst_key (addr port proto : Z) : Z :=
  cast_u64 (Z.lor (Z.lor (cast_u32 (Z.shiftl addr 24)) (Z.shiftl port 8)) proto).

Section prog.
Context {e : endianness} {H : BpfHelpers}.

Definition ctr_peer_egress : M Z :=
  data ← ctx_data;
  data_end ← ctx_data_end;
  protocol ← ctx_protocol;
  if negb (protocol =? bpf_htons true ETH_P_IP) then mret TC_ACT_OK else
  let iph := ptr_add data ETH_HLEN in
  if ptr_gtb (ptr_add (ptr_add data ETH_HLEN) (sizeof struct_iphdr)) data_end
  then mret TC_ACT_OK else
  proto ← ld iph struct_iphdr ["protocol"];
  daddr ← ld iph struct_iphdr ["daddr"];
  if negb (proto =? IPPROTO_TCP) && negb (proto =? IPPROTO_UDP)
  then mret TC_ACT_SHOT else
  dport ← get_port TCP_DPORT_OFF UDP_DPORT_OFF proto;
  sport ← get_port TCP_SPORT_OFF UDP_SPORT_OFF proto;
  if sport =? bpf_htons true MC_SERVER_PORT then mret TC_ACT_OK else
  if_idx ← ctx_ifindex;
  vp ← bpf_map_lookup_elem veth_pair_map if_idx;
  match vp with
  | None =>
      bpf_printk "tproxy: ctr egress: veth pair data not found (if_index: %d)" [if_idx];;
      mret TC_ACT_SHOT
  | Some vp =>
      let host_peer_addr := bpf_htonl false (host_if_addr vp) in
      let key := dst_key host_peer_addr sport proto in
      let val := {| od_port := dport; od_ip_addr := daddr |} in
      bpf_map_update_elem key val BPF_ANY;;
      rewrite_ip_addr host_peer_addr IP_DST_OFF proto;;
      if dport =? bpf_htons true DPORT_DNS then
        (if proto =? IPPROTO_TCP
         then rewrite_port (bpf_htons true TPROXY_DNS_PORT) TCP_DPORT_OFF IPPROTO_TCP
         else mret tt);;
        (if proto =? IPPROTO_UDP
         then rewrite_port (bpf_htons true TPROXY_DNS_PORT) UDP_DPORT_OFF IPPROTO_UDP
         else mret tt);;
        mret TC_ACT_OK
      else if dport =? bpf_htons true DPORT_HTTP then
        rewrite_port (bpf_htons true TPROXY_HTTP_PORT) TCP_DPORT_OFF IPPROTO_TCP;;
        mret TC_ACT_OK
      else
        rewrite_port (bpf_htons true TPROXY_TCP_PORT) TCP_DPORT_OFF IPPROTO_TCP;;
        mret TC_ACT_OK
  end.

Definition host_peer_egress : M Z :=
  data ← ctx_data;
  data_end ← ctx_data_end;
  protocol ← ctx_protocol;
  if negb (protocol =? bpf_htons true ETH_P_IP) then mret TC_ACT_OK else
  let iph := ptr_add data ETH_HLEN in
  if ptr_gtb (ptr_add (ptr_add data ETH_HLEN) (sizeof struct_iphdr)) data_end
  then mret TC_ACT_OK else
  proto ← ld iph struct_iphdr ["protocol"];
  daddr ← ld iph struct_iphdr ["daddr"];
  dport ← get_port TCP_DPORT_OFF UDP_DPORT_OFF proto;
  let key := dst_key daddr dport proto in
  entry ← bpf_map_lookup_elem original_dst_map key;
  match entry with
  | None =>
      bpf_printk "tproxy: egress: no entry for port %d/%d" [proto; bpf_ntohs false dport];;
      mret TC_ACT_SHOT
  | Some entry =>
      rewrite_ip_addr (od_ip_addr entry) IP_SRC_OFF proto;;
      rewrite_port (od_port entry) TCP_SPORT_OFF UDP_SPORT_OFF;;
      mret TC_ACT_OK
  end.
End prog.

(** ** The key of [original_dst_map] *)

Lemma dst_key_value addr port proto :
  0 <= port < 2 ^ 16 -> 0 <= proto < 2 ^ 8 ->
  dst_key addr port proto = addr mod 256 * 2 ^ 24 + port * 2 ^ 8 + proto.
Proof.
  intros Hp Hq. unfold dst_key, cast_u32, cast_u64, wrap.
  rewrite (Z.shiftl_mul_pow2 addr) by lia.
  replace ((addr * 2 ^ 24) mod 2 ^ 32) with (Z.shiftl (addr mod 256) 24)
    by (rewrite Z.shiftl_mul_pow2 by lia; dlia).
  rewrite (Z.lor_comm (Z.shiftl _ _)), lor_shiftl_add
    by (rewrite ?Z.shiftl_mul_pow2 by lia; dlia).
  rewrite Z.shiftl_mul_pow2 by lia.
  replace (port * 2 ^ 8 + addr mod 256 * 2 ^ 24) with ((port + addr mod 256 * 2 ^ 16) * 2 ^ 8) by lia.
  rewrite <-Z.shiftl_mul_pow2 by lia. rewrite Z.lor_comm, lor_shiftl_add by lia.
  rewrite Z.mod_small; dlia.
Qed.

(** The key keeps eight bits of the address. *)
Lemma dst_key_eq_iff a a' port port' proto proto' :
  0 <= port < 2 ^ 16 -> 0 <= port' < 2 ^ 16 -> 0 <= proto < 2 ^ 8 -> 0 <= proto' < 2 ^ 8 ->
  dst_key a port proto = dst_key a' port' proto' <->
  a mod 256 = a' mod 256 /\ port = port' /\ proto = proto'.
Proof. intros. rewrite !dst_key_value by done. split; dlia. Qed.

(** The octet of an address that survives in the key: the first one on a
    little-endian machine, the last one on a big-endian machine. *)
Definition key_octet {e : endianness} (addr : Z) : Z :=
  match e with LE => addr / 2 ^ 24 | BE => addr mod 256 end.

Lemma htonl_low_byte {e : endianness} (addr : Z) :
  0 <= addr < 2 ^ 32 -> bpf_htonl false addr mod 256 = key_octet addr.
Proof.
  intros Ha. destruct e; [|done]. cbn [bpf_htonl key_octet].
  unfold __builtin_bswap. cbn [rev le_split app le_combine]. rewrite !byte_to_of_Z. dlia.
Qed.

Lemma of_bytes_low_byte {e : endianness} (l : list byte) :
  length l = 4%nat -> of_bytes e l mod 256 = key_octet (of_bytes BE l).
Proof.
  intros Hl. destruct l as [|b0 [|b1 [|b2 [|b3 [|]]]]]; try discriminate Hl.
  pose proof (byte_to_Z_range b0). pose proof (byte_to_Z_range b1).
  pose proof (byte_to_Z_range b2). pose proof (byte_to_Z_range b3).
  destruct e; cbn [key_octet of_bytes rev app le_combine]; dlia.
Qed.

(** ** ctr_peer_egress *)

(** The proxy's port for traffic to [dport]. *)
Definition proxy_port (dport : Z) : Z :=
  if dport =? DPORT_DNS then TPROXY_DNS_PORT
  else if dport =? DPORT_HTTP then TPROXY_HTTP_PORT else TPROXY_TCP_PORT.

(** Where the code expects the checksum that covers the port. *)
Definition port_csum_off (proto dport : Z) : Z :=
  if (proto =? IPPROTO_UDP) && (dport =? DPORT_DNS) then UDP_CSUM_OFF else TCP_CSUM_OFF.

(** The destination is replaced by the host's end of the veth pair, the port by
    the proxy's. *)
Definition proxied {e : endianness} (vp : veth_pair) (partial : bool) (p p' : list byte) : Prop :=
  exists p1,
    addr_rewritten 30 (bpf_htonl false (host_if_addr vp)) (l4_csum_off (ip_proto p)) partial p p1 /\
    port_rewritten 36 (bpf_htons true (proxy_port (l4_dport p)))
      (Some (port_csum_off (ip_proto p) (l4_dport p))) p1 p'.

(** The key under which the destination of a packet is stored, and the entry. *)
Definition stored_key {e : endianness} (vp : veth_pair) (p : list byte) : Z :=
  dst_key (bpf_htonl false (host_if_addr vp)) (of_bytes e (slice 34 2 p)) (ip_proto p).

Definition stored_entry {e : endianness} (p : list byte) : original_dst_entry :=
  {| od_ip_addr := of_bytes e (slice 30 4 p); od_port := of_bytes e (slice 36 2 p) |}.

(** The maps after [ctr_peer_egress]: the entry is there, and entries of other
    keys are kept or evicted. *)
Definition dst_recorded {e : endianness} (vp : veth_pair) (p : list byte) (m m' : bpf_maps) : Prop :=
  exists od, m' = set_original_dst od m /\
    od !! stored_key vp p = Some (stored_entry p) /\
    (forall k, k <> stored_key vp p -> od !! k = original_dst_map m !! k \/ od !! k = None).

Definition tcp_or_udp (p : list byte) : Prop :=
  ip_proto p = IPPROTO_TCP \/ ip_proto p = IPPROTO_UDP.

Section spec.
Context {e : endianness} {H : BpfHelpers}.
Context {L : BpfHelperLaws e H} {S : BpfHelpersSucceed H}.

(** The port rewrite at the end of [ctr_peer_egress]. *)
Lemma wp_ctr_port proto dport Q s :
  52 <= Z.of_nat (length (pkt s)) -> (proto = IPPROTO_TCP \/ proto = IPPROTO_UDP) ->
  length dport = 2%nat ->
  (forall s' prev, only_bytes s s' ->
     port_rewritten 36 (bpf_htons true (proxy_port (of_bytes BE dport)))
       (Some (port_csum_off proto (of_bytes BE dport))) (pkt s) (pkt s') ->
     head (st_calls s') = Some (CallL4Csum (port_csum_off proto (of_bytes BE dport)) prev
                                  (bpf_htons true (proxy_port (of_bytes BE dport))) 0) ->
     Q TC_ACT_OK s') ->
  wp (let dport := of_bytes e dport in
      if dport =? bpf_htons true DPORT_DNS then
        (if proto =? IPPROTO_TCP
         then rewrite_port (bpf_htons true TPROXY_DNS_PORT) TCP_DPORT_OFF IPPROTO_TCP
         else mret tt);;
        (if proto =? IPPROTO_UDP
         then rewrite_port (bpf_htons true TPROXY_DNS_PORT) UDP_DPORT_OFF IPPROTO_UDP
         else mret tt);;
        mret TC_ACT_OK
      else if dport =? bpf_htons true DPORT_HTTP then
        rewrite_port (bpf_htons true TPROXY_HTTP_PORT) TCP_DPORT_OFF IPPROTO_TCP;;
        mret TC_ACT_OK
      else
        rewrite_port (bpf_htons true TPROXY_TCP_PORT) TCP_DPORT_OFF IPPROTO_TCP;;
        mret TC_ACT_OK) Q s.
Proof using L S.
  intros Hlen Hpr Hd HQ. cbv zeta.
  assert (forall n, 0 <= n < 2 ^ 16 ->
    (of_bytes e dport =? bpf_htons true n) = (of_bytes BE dport =? n)) as Hcmp.
  { intros n Hn. apply eq_bool_prop_intro. rewrite !Is_true_true, !Z.eqb_eq.
    by apply htons_eq_iff. }
  rewrite !Hcmp by done. clear Hcmp. revert HQ. unfold proxy_port, port_csum_off.
  destruct (of_bytes BE dport =? DPORT_DNS); [|destruct (of_bytes BE dport =? DPORT_HTTP)];
    rewrite ?andb_true_r, ?andb_false_r; intros HQ.
  - destruct Hpr as [-> | ->].
    + change (IPPROTO_TCP =? IPPROTO_TCP) with true in *.
      change (IPPROTO_TCP =? IPPROTO_UDP) with false in *.
      apply wp_bind, (wp_rewrite_port_call _ _ _ TCP_CSUM_OFF); [done|norm_offs; lia..|].
      intros s' prev Hob Hr Hc. apply wp_bind, wp_ret, wp_ret. by apply (HQ s' prev).
    + change (IPPROTO_UDP =? IPPROTO_TCP) with false in *.
      change (IPPROTO_UDP =? IPPROTO_UDP) with true in *.
      apply wp_bind, wp_ret, wp_bind, (wp_rewrite_port_call _ _ _ UDP_CSUM_OFF);
        [done|norm_offs; lia..|].
      intros s' prev Hob Hr Hc. apply wp_ret. by apply (HQ s' prev).
  - apply wp_bind, (wp_rewrite_port_call _ _ _ TCP_CSUM_OFF); [done|norm_offs; lia..|].
    intros s' prev Hob Hr Hc. apply wp_ret. by apply (HQ s' prev).
  - apply wp_bind, (wp_rewrite_port_call _ _ _ TCP_CSUM_OFF); [done|norm_offs; lia..|].
    intros s' prev Hob Hr Hc. apply wp_ret. by apply (HQ s' prev).
Qed.

Lemma l4_off_fits p : 52 <= Z.of_nat (length p) -> tcp_or_udp p ->
  forall x, l4_csum_off (ip_proto p) = Some x -> x + 2 <= Z.of_nat (length p).
Proof using Type.
  intros Hl _ x Hx. apply l4_csum_off_cases in Hx. lia.
Qed.

Lemma l4_some_fits p : 52 <= Z.of_nat (length p) ->
  forall x, l4_csum_off (ip_proto p) = Some x ->
    (x = 50 \/ x = 40) /\ x + 2 <= Z.of_nat (length p).
Proof using Type. intros Hl x Hx. apply l4_csum_off_cases in Hx. lia. Qed.

Lemma wp_ctr_peer_egress s vp Q :
  is_ip s -> 34 <= skb_headlen (st_skb s) -> 52 <= Z.of_nat (length (pkt s)) ->
  tcp_or_udp (pkt s) -> l4_sport (pkt s) <> MC_SERVER_PORT ->
  veth_pair_map (st_maps s) !! skb_ifindex (st_skb s) = Some vp ->
  0 <= host_if_addr vp < 2 ^ 32 ->
  (forall s1, same_meta (st_skb s) (st_skb s1) ->
     dst_recorded vp (pkt s) (st_maps s) (st_maps s1) ->
     proxied vp (skb_csum_partial (st_skb s)) (pkt s) (pkt s1) ->
     (exists prev new, head (st_calls s1) = Some (CallL4Csum
        (port_csum_off (ip_proto (pkt s)) (l4_dport (pkt s))) prev new 0)) ->
     Q TC_ACT_OK s1) ->
  wp ctr_peer_egress Q s.
Proof using L S.
  intros Hip Hh Hl Hpr Hsp Hvp Hr HQ. unfold ctr_peer_egress. ip_prologue Hip.
  apply wp_bind, wp_ld_proto; [done|lia..|]. apply wp_bind, wp_ld_daddr; [done|lia|].
  replace (negb (ip_proto (pkt s) =? IPPROTO_TCP) && negb (ip_proto (pkt s) =? IPPROTO_UDP))
    with false by (destruct Hpr as [-> | ->]; done).
  norm_offs.
  apply wp_bind, wp_get_port; [lia..|done|].
  apply wp_bind, wp_get_port; [rewrite ?pkt_log_call; lia..|done|]. rewrite !pkt_log_call. norm_nats.
  rewrite (proj2 (Z.eqb_neq _ _)).
  2: { intros E. apply Hsp. apply htons_eq_iff in E; [exact E|slen|done]. }
  apply wp_bind, wp_ctx_ifindex, wp_bind, wp_map_lookup. cbn [log_call st_maps st_skb].
  rewrite Hvp. apply wp_bind, wp_map_update. intros od Hod Hother.
  set (s1 := mk_state _ _ _ _).
  apply wp_bind, (wp_rewrite_ip_addr (e := e));
    [auto with bytes|by right|change (pkt s1) with (pkt s); lia|
     change (pkt s1) with (pkt s); by apply l4_off_fits|].
  intros s2 Hob Hrw. change (pkt s1) with (pkt s) in Hrw. norm_nats.
  assert (length (pkt s2) = length (pkt s)) as Hl2.
  { eapply (addr_rewritten_length 30); [by right|lia| |exact Hrw]. by apply l4_some_fits. }
  apply (wp_ctr_port (ip_proto (pkt s)) (slice 36 2 (pkt s))); [lia|done|slen|].
  intros s3 prev Hob3 Hpo Hcall. pose proof (only_bytes_trans _ _ _ Hob Hob3) as [Hmeta Hmaps].
  apply HQ; [exact Hmeta| | |by eauto].
  - exists od. split; [exact Hmaps|]. split; [exact Hod|exact Hother].
  - exists (pkt s2). split; [exact Hrw|exact Hpo].
Qed.

(** Either checksum may be written, each at the TCP or the UDP offset, the
    latter only in a UDP datagram. *)
Definition csum_at (p : list byte) (x : nat) : Prop :=
  x = 50%nat \/ x = 40%nat /\ ip_proto p <> IPPROTO_TCP.

Lemma proxied_shape vp partial p p' :
  tcp_or_udp p -> proxied vp partial p p' ->
  exists x y c3 c4 w, csum_at p x /\ csum_at p y /\ length w = 2%nat /\
    p' = splice y w (splice 36 (to_bytes BE 2 (proxy_port (l4_dport p)))
           (splice x (to_bytes e 2 c4) (splice 24 (to_bytes e 2 c3)
             (splice 30 (to_bytes BE 4 (host_if_addr vp)) p)))).
Proof using Type.
  intros Hpr (p1 & (c3 & _ & _ & Hr1) & (w & Hw & ->)).
  exists (match l4_csum_off (ip_proto p) with Some x => Z.to_nat x | None => 0%nat end),
    (Z.to_nat (port_csum_off (ip_proto p) (l4_dport p))), c3.
  rewrite to_bytes_htons. rewrite to_bytes_htonl in Hr1.
  unfold csum_at, port_csum_off. destruct Hpr as [Ht | Hu].
  - rewrite Ht in *. change (l4_csum_off IPPROTO_TCP) with (Some 50) in *.
    destruct Hr1 as (c4 & _ & _ & ->). exists c4, w. split; [by left|]. split; [by left|]. done.
  - rewrite Hu in *. change (l4_csum_off IPPROTO_UDP) with (Some 40) in *.
    destruct Hr1 as (c4 & _ & _ & ->). exists c4, w. split; [by right|]. split; [|done].
    change (IPPROTO_UDP =? IPPROTO_UDP) with true. cbn [andb].
    destruct (l4_dport p =? DPORT_DNS); [by right|by left].
Qed.

(** The fields of a proxied packet. *)
Lemma proxied_fields vp partial p p' :
  0 <= host_if_addr vp < 2 ^ 32 -> (52 <= length p)%nat -> tcp_or_udp p ->
  proxied vp partial p p' ->
  length p' = length p /\
  ip_dst p' = host_if_addr vp /\ l4_dport p' = proxy_port (l4_dport p) /\
  slice 0 24 p' = slice 0 24 p /\ ip_src p' = ip_src p /\ l4_sport p' = l4_sport p /\
  slice 38 2 p' = slice 38 2 p /\ slice 42 8 p' = slice 42 8 p /\ drop 52 p' = drop 52 p /\
  (ip_proto p = IPPROTO_TCP -> slice 40 2 p' = slice 40 2 p).
Proof using Type.
  intros Hip Hlen Hpr Hpx.
  assert (0 <= proxy_port (l4_dport p) < 2 ^ 16) as Hpp
    by (unfold proxy_port; repeat case_match; done).
  destruct (proxied_shape _ _ _ _ Hpr Hpx) as (x & y & c3 & c4 & w & Hx & Hy & Hw & ->).
  revert Hpp. generalize (proxy_port (l4_dport p)). intros pp Hpp.
  unfold ip_dst, ip_src, l4_sport, l4_dport.
  destruct Hx as [-> | [-> Hx]], Hy as [-> | [-> Hy]].
  all: split; [slen|].
  all: split; [slices; rewrite of_to_bytes; by apply Z.mod_small|].
  all: split; [slices; rewrite of_to_bytes; by apply Z.mod_small|].
  all: repeat (split; [by slices|]).
  all: intros Ht; first [done | by slices].
Qed.

Lemma proxied_ip_valid vp partial p p' :
  0 <= host_if_addr vp < 2 ^ 32 -> (52 <= length p)%nat ->
  proxied vp partial p p' -> ip_ihl p = 5 -> ip_valid e p -> ip_valid e p'.
Proof using Type.
  intros Hip Hlen (p1 & Hr1 & Hr2).
  eapply (addr_port_ip_valid 30 _ _ _ 36);
    [by apply htonl_range|by right|by right|done|apply l4_csum_off_cases| |exact Hr1|exact Hr2].
  intros x [= <-]. unfold port_csum_off. case_match; auto.
Qed.

(** ** host_peer_egress *)

(** The entry a reply is looked up with. *)
Definition lookup_key (p : list byte) : Z :=
  dst_key (of_bytes e (slice 30 4 p)) (of_bytes e (slice 36 2 p)) (ip_proto p).

(** The source becomes the recorded destination; no checksum is updated for
    the port. *)
Definition unproxied (entry : original_dst_entry) (partial : bool) (p p' : list byte) : Prop :=
  exists p1, addr_rewritten 26 (od_ip_addr entry) (l4_csum_off (ip_proto p)) partial p p1 /\
    p' = splice 34 (to_bytes e 2 (od_port entry)) p1.

Definition entry_wf (entry : original_dst_entry) : Prop :=
  0 <= od_ip_addr entry < 2 ^ 32 /\ 0 <= od_port entry < 2 ^ 16.

Lemma wp_host_guards s Q :
  is_ip s -> 34 <= skb_headlen (st_skb s) -> 52 <= Z.of_nat (length (pkt s)) ->
  tcp_or_udp (pkt s) ->
  let s1 := log_call (CallLoad TCP_DPORT_OFF 2) s in
  match original_dst_map (st_maps s) !! lookup_key (pkt s) with
  | Some entry =>
      wp (rewrite_ip_addr (od_ip_addr entry) IP_SRC_OFF (ip_proto (pkt s));;
          rewrite_port (od_port entry) TCP_SPORT_OFF UDP_SPORT_OFF;;
          mret TC_ACT_OK) Q s1
  | None => forall msg args, Q TC_ACT_SHOT (log_call (CallPrintk msg args) s1)
  end -> wp host_peer_egress Q s.
Proof using L S.
  intros Hip Hh Hl Hpr s1 HQ. unfold host_peer_egress. ip_prologue Hip.
  apply wp_bind, wp_ld_proto; [done|lia..|]. apply wp_bind, wp_ld_daddr; [done|lia|].
  norm_offs. apply wp_bind, wp_get_port; [lia..|done|]. norm_nats.
  apply wp_bind, wp_map_lookup. cbn [log_call st_maps]. fold (lookup_key (pkt s)).
  destruct (original_dst_map (st_maps s) !! lookup_key (pkt s)) as [entry|]; [exact HQ|].
  apply wp_bind, wp_printk, wp_ret, HQ.
Qed.

Lemma wp_host_peer_egress s entry Q :
  is_ip s -> 34 <= skb_headlen (st_skb s) -> 52 <= Z.of_nat (length (pkt s)) ->
  tcp_or_udp (pkt s) ->
  original_dst_map (st_maps s) !! lookup_key (pkt s) = Some entry -> entry_wf entry ->
  (forall s1, only_bytes s s1 ->
     unproxied entry (skb_csum_partial (st_skb s)) (pkt s) (pkt s1) -> Q TC_ACT_OK s1) ->
  wp host_peer_egress Q s.
Proof using L S.
  intros Hip Hh Hl Hpr Hm [Hwa Hwp] HQ. apply wp_host_guards; [done..|]. rewrite Hm.
  set (s1 := log_call _ s).
  apply wp_bind, (wp_rewrite_ip_addr (e := e));
    [done|by left|change (pkt s1) with (pkt s); lia|
     change (pkt s1) with (pkt s); by apply l4_off_fits|].
  intros s2 Hob Hrw. change (pkt s1) with (pkt s) in Hrw.
  assert (length (pkt s2) = length (pkt s)) as Hl2.
  { eapply (addr_rewritten_length 26); [by left|lia| |exact Hrw]. by apply l4_some_fits. }
  apply wp_bind, wp_rewrite_port; [norm_offs; lia..|done|].
  intros s3 Hob3 Hpo. apply wp_ret, HQ.
  - eauto with wp.
  - exists (pkt s2). split; [exact Hrw|exact Hpo].
Qed.

Lemma unproxied_fields entry partial p p' :
  (52 <= length p)%nat -> tcp_or_udp p -> unproxied entry partial p p' ->
  length p' = length p /\
  slice 26 4 p' = to_bytes e 4 (od_ip_addr entry) /\
  slice 34 2 p' = to_bytes e 2 (od_port entry) /\
  slice 0 24 p' = slice 0 24 p /\ ip_dst p' = ip_dst p /\ l4_dport p' = l4_dport p /\
  slice 38 2 p' = slice 38 2 p /\ slice 42 8 p' = slice 42 8 p /\ drop 52 p' = drop 52 p /\
  (ip_proto p = IPPROTO_TCP -> slice 40 2 p' = slice 40 2 p) /\
  (ip_proto p = IPPROTO_UDP -> slice 50 2 p' = slice 50 2 p).
Proof using Type.
  intros Hlen Hpr (p1 & (c3 & _ & _ & Hr1) & ->). unfold ip_dst, l4_dport.
  assert (exists x c4, (x = 50 /\ ip_proto p <> IPPROTO_UDP \/ x = 40 /\ ip_proto p <> IPPROTO_TCP) /\
    p1 = splice (Z.to_nat x) (to_bytes e 2 c4)
           (splice 24 (to_bytes e 2 c3) (splice 26 (to_bytes e 4 (od_ip_addr entry)) p)))
    as (x & c4 & Hx & ->).
  { destruct Hpr as [Ht | Hu].
    - rewrite Ht in *. change (l4_csum_off IPPROTO_TCP) with (Some 50) in Hr1.
      destruct Hr1 as (c4 & _ & _ & ->). exists 50, c4. split; [by left|done].
    - rewrite Hu in *. change (l4_csum_off IPPROTO_UDP) with (Some 40) in Hr1.
      destruct Hr1 as (c4 & _ & _ & ->). exists 40, c4. split; [by right|done]. }
  destruct Hx as [[-> Hx] | [-> Hx]]; norm_nats.
  all: split; [slen|]. all: do 8 (split; [by slices|]).
  all: split; intros ?; first [done | by slices].
Qed.

Lemma unproxied_ip_valid entry partial p p' :
  entry_wf entry -> (52 <= length p)%nat -> unproxied entry partial p p' ->
  ip_ihl p = 5 -> ip_valid e p -> ip_valid e p'.
Proof using Type.
  intros [Hip Hport] Hlen (p1 & Hr1 & Hr2).
  by eapply (addr_port_ip_valid 26 _ _ _ 34 (od_port entry) None);
    [exact Hip|by left|by left|done|apply l4_csum_off_cases|done|exact Hr1|exact Hr2].
Qed.
End spec.

(** ** Storing and looking up *)

Section keys.
Context {e : endianness}.

Lemma ip_proto_range p : (24 <= length p)%nat -> 0 <= ip_proto p < 2 ^ 8.
Proof.
  intros Hl. unfold ip_proto. pose proof (of_bytes_range BE (slice 23 1 p)) as Hr.
  rewrite length_slice in Hr by lia. exact Hr.
Qed.

Lemma native_port_inj (l l' : list byte) :
  length l = 2%nat -> length l' = 2%nat ->
  of_bytes e l = of_bytes e l' <-> of_bytes BE l = of_bytes BE l'.
Proof.
  intros Hl Hl'. rewrite <-(htons_of_bytes true l), <-(htons_of_bytes true l') by done.
  split; [by intros ->|]. intros E.
  rewrite !htons_of_bytes in E by done.
  apply (f_equal (to_bytes BE 2)) in E. rewrite !to_of_bytes in E by done. by subst.
Qed.

Lemma keys_agree vp p r :
  0 <= host_if_addr vp < 2 ^ 32 -> (38 <= length p)%nat -> (38 <= length r)%nat ->
  stored_key vp p = lookup_key r <->
  key_octet (host_if_addr vp) = key_octet (ip_dst r) /\
  l4_sport p = l4_dport r /\ ip_proto p = ip_proto r.
Proof.
  intros Hr Hp Hl. unfold stored_key, lookup_key.
  rewrite dst_key_eq_iff;
    [|by apply of_bytes_2_range; slen|by apply of_bytes_2_range; slen
     |by apply ip_proto_range; lia|by apply ip_proto_range; lia].
  rewrite htonl_low_byte by done. rewrite of_bytes_low_byte by slen.
  rewrite native_port_inj by slen. done.
Qed.

Lemma stored_entry_wf p : (38 <= length p)%nat -> entry_wf (stored_entry p).
Proof.
  intros. split; [apply of_bytes_4_range|apply of_bytes_2_range]; slen.
Qed.
End keys.

(** C30: outgoing TCP and UDP traffic of a workload is handed to the proxy on
    its host: ctr_peer_egress accepts the packet with its destination replaced
    by the host's address and by the proxy port for the kind of traffic (DNS,
    HTTP or other), after recording the original destination; sender, other
    headers and IP checksum stay intact. *)
Theorem ctr_peer_egress_proxies (e : endianness) (H : BpfHelpers)
    (L : BpfHelperLaws e H) (S : BpfHelpersSucceed H) (s : state) (vp : veth_pair) :
  is_ip s -> 34 <= skb_headlen (st_skb s) -> 52 <= skb_len (st_skb s) ->
  tcp_or_udp (pkt s) -> l4_sport (pkt s) <> MC_SERVER_PORT ->
  veth_pair_map (st_maps s) !! skb_ifindex (st_skb s) = Some vp ->
  0 <= host_if_addr vp < 2 ^ 32 ->
  exists s', ctr_peer_egress s = Some (TC_ACT_OK, s') /\
    dst_recorded vp (pkt s) (st_maps s) (st_maps s') /\
    length (pkt s') = length (pkt s) /\
    ip_dst (pkt s') = host_if_addr vp /\
    l4_dport (pkt s') = proxy_port (l4_dport (pkt s)) /\
    slice 0 24 (pkt s') = slice 0 24 (pkt s) /\ ip_src (pkt s') = ip_src (pkt s) /\
    l4_sport (pkt s') = l4_sport (pkt s) /\
    slice 38 2 (pkt s') = slice 38 2 (pkt s) /\ slice 42 8 (pkt s') = slice 42 8 (pkt s) /\
    drop 52 (pkt s') = drop 52 (pkt s) /\
    (ip_proto (pkt s) = IPPROTO_TCP -> slice 40 2 (pkt s') = slice 40 2 (pkt s)) /\
    (ip_ihl (pkt s) = 5 -> ip_valid e (pkt s) -> ip_valid e (pkt s')).
Proof.
  intros Hip Hh Hl Hpr Hsp Hvp Hr. unfold skb_len in Hl. fold (pkt s) in Hl.
  assert (wp ctr_peer_egress (fun v s1 => v = TC_ACT_OK /\
    dst_recorded vp (pkt s) (st_maps s) (st_maps s1) /\
    proxied vp (skb_csum_partial (st_skb s)) (pkt s) (pkt s1)) s) as Hw
    by (apply (wp_ctr_peer_egress s vp); try done; auto).
  apply wp_elim in Hw as (v & s' & E & -> & Hrec & Hpx). exists s'. split; [exact E|].
  split; [exact Hrec|]. assert (52 <= length (pkt s))%nat as Hl' by lia.
  destruct (proxied_fields _ _ _ _ Hr Hl' Hpr Hpx) as (? & ? & ? & ? & ? & ? & ? & ? & ? & ?).
  repeat (split; [done|]). by eapply proxied_ip_valid.
Qed.

(** C31: a reply of the proxy reaches the workload under the address and port
    the workload had connected to: host_peer_egress accepts the packet with its
    source replaced by the recorded destination; a reply without a record is
    dropped. *)
Theorem host_peer_egress_restores (e : endianness) (H : BpfHelpers)
    (L : BpfHelperLaws e H) (S : BpfHelpersSucceed H) (s : state) :
  is_ip s -> 34 <= skb_headlen (st_skb s) -> 52 <= skb_len (st_skb s) ->
  tcp_or_udp (pkt s) ->
  match original_dst_map (st_maps s) !! lookup_key (pkt s) with
  | None => exists msg args, host_peer_egress s =
      Some (TC_ACT_SHOT, log_call (CallPrintk msg args) (log_call (CallLoad TCP_DPORT_OFF 2) s))
  | Some entry => entry_wf entry ->
      exists s', host_peer_egress s = Some (TC_ACT_OK, s') /\ st_maps s' = st_maps s /\
        length (pkt s') = length (pkt s) /\
        slice 26 4 (pkt s') = to_bytes e 4 (od_ip_addr entry) /\
        slice 34 2 (pkt s') = to_bytes e 2 (od_port entry) /\
        slice 0 24 (pkt s') = slice 0 24 (pkt s) /\ ip_dst (pkt s') = ip_dst (pkt s) /\
        l4_dport (pkt s') = l4_dport (pkt s) /\
        slice 38 2 (pkt s') = slice 38 2 (pkt s) /\ slice 42 8 (pkt s') = slice 42 8 (pkt s) /\
        drop 52 (pkt s') = drop 52 (pkt s) /\
        (ip_proto (pkt s) = IPPROTO_TCP -> slice 40 2 (pkt s') = slice 40 2 (pkt s)) /\
        (ip_proto (pkt s) = IPPROTO_UDP -> slice 50 2 (pkt s') = slice 50 2 (pkt s)) /\
        (ip_ihl (pkt s) = 5 -> ip_valid e (pkt s) -> ip_valid e (pkt s'))
  end.
Proof.
  intros Hip Hh Hl Hpr. unfold skb_len in Hl. fold (pkt s) in Hl.
  destruct (original_dst_map (st_maps s) !! lookup_key (pkt s)) as [entry|] eqn:Em.
  - intros Hwf.
    assert (wp host_peer_egress (fun v s1 => v = TC_ACT_OK /\ only_bytes s s1 /\
      unproxied entry (skb_csum_partial (st_skb s)) (pkt s) (pkt s1)) s) as Hw
      by (apply (wp_host_peer_egress s entry); try done; auto).
    apply wp_elim in Hw as (v & s' & E & -> & [_ Hm] & Hu). exists s'.
    split; [exact E|]. split; [exact Hm|]. assert (52 <= length (pkt s))%nat as Hl' by lia.
    destruct (unproxied_fields _ _ _ _ Hl' Hpr Hu) as (? & ? & ? & ? & ? & ? & ? & ? & ? & ? & ?).
    repeat (split; [done|]). by eapply unproxied_ip_valid.
  - assert (wp host_peer_egress (fun v s' => exists msg args, v = TC_ACT_SHOT /\
      s' = log_call (CallPrintk msg args) (log_call (CallLoad TCP_DPORT_OFF 2) s)) s) as Hw
      by (apply wp_host_guards; [done..|]; rewrite Em; eauto).
    apply wp_elim in Hw as (v & s' & E & msg & args & -> & ->). eauto.
Qed.

(** C32: the proxy round trip: once a packet of a workload has gone through
    ctr_peer_egress, a reply of the proxy to the workload's port leaves
    host_peer_egress with the address and port the workload had sent to,
    provided that the address the reply is for and the host's address agree in
    the octet that the key keeps. *)
Theorem tproxy_roundtrip (e : endianness) (H : BpfHelpers)
    (L : BpfHelperLaws e H) (S : BpfHelpersSucceed H) (s r : state) (vp : veth_pair) :
  is_ip s -> 34 <= skb_headlen (st_skb s) -> 52 <= skb_len (st_skb s) ->
  tcp_or_udp (pkt s) -> l4_sport (pkt s) <> MC_SERVER_PORT ->
  veth_pair_map (st_maps s) !! skb_ifindex (st_skb s) = Some vp ->
  0 <= host_if_addr vp < 2 ^ 32 ->
  is_ip r -> 34 <= skb_headlen (st_skb r) -> 52 <= skb_len (st_skb r) ->
  ip_proto (pkt r) = ip_proto (pkt s) -> l4_dport (pkt r) = l4_sport (pkt s) ->
  key_octet (ip_dst (pkt r)) = key_octet (host_if_addr vp) ->
  exists s', ctr_peer_egress s = Some (TC_ACT_OK, s') /\
    (original_dst_map (st_maps r) = original_dst_map (st_maps s') ->
     exists r', host_peer_egress r = Some (TC_ACT_OK, r') /\
       ip_src (pkt r') = ip_dst (pkt s) /\ l4_sport (pkt r') = l4_dport (pkt s) /\
       ip_dst (pkt r') = ip_dst (pkt r) /\ l4_dport (pkt r') = l4_dport (pkt r)).
Proof.
  intros Hip Hh Hl Hpr Hsp Hvp Hr Hip' Hh' Hl' Epr Eport Eoct.
  unfold skb_len in Hl, Hl'. fold (pkt s) in Hl. fold (pkt r) in Hl'.
  assert (wp ctr_peer_egress (fun v s1 => v = TC_ACT_OK /\
    dst_recorded vp (pkt s) (st_maps s) (st_maps s1)) s) as Hw
    by (apply (wp_ctr_peer_egress s vp); try done; auto).
  apply wp_elim in Hw as (v & s' & E & -> & od & Hm & Hod & _). exists s'. split; [exact E|].
  intros Hmr. rewrite Hm in Hmr. cbn [set_original_dst original_dst_map] in Hmr.
  assert (stored_key vp (pkt s) = lookup_key (pkt r)) as Ek.
  { apply keys_agree; [done|lia..|]. done. }
  assert (wp host_peer_egress (fun v s1 => v = TC_ACT_OK /\
    unproxied (stored_entry (pkt s)) (skb_csum_partial (st_skb r)) (pkt r) (pkt s1)) r) as Hw.
  { apply (wp_host_peer_egress r (stored_entry (pkt s))); try done; [..|auto].
    - unfold tcp_or_udp. by rewrite Epr.
    - by rewrite Hmr, <-Ek.
    - apply stored_entry_wf. lia. }
  apply wp_elim in Hw as (v & r' & E' & -> & Hu). exists r'. split; [exact E'|].
  assert (52 <= length (pkt r))%nat as Hlr by lia.
  assert (tcp_or_udp (pkt r)) as Hpr' by (unfold tcp_or_udp; by rewrite Epr).
  destruct (unproxied_fields (stored_entry (pkt s)) _ _ _ Hlr Hpr' Hu)
    as (_ & Ha & Hp & _ & Hd & Hdp & _).
  unfold ip_src, l4_sport. rewrite Ha, Hp. cbn [stored_entry od_ip_addr od_port].
  rewrite !to_of_bytes by slen. done.
Qed.

(** Two workloads share a record exactly when their packets have the same
    protocol and source port and their hosts' addresses agree in one octet (the
    first one on little-endian machines): the 64-bit key does not hold the
    whole address, because it is shifted before it is widened. *)
Theorem original_dst_key_collides (e : endianness) (vp vp' : veth_pair) (p p' : list byte) :
  0 <= host_if_addr vp < 2 ^ 32 -> 0 <= host_if_addr vp' < 2 ^ 32 ->
  (38 <= length p)%nat -> (38 <= length p')%nat ->
  stored_key vp p = stored_key vp' p' <->
  key_octet (host_if_addr vp) = key_octet (host_if_addr vp') /\
  l4_sport p = l4_sport p' /\ ip_proto p = ip_proto p'.
Proof.
  intros Hr Hr' Hp Hp'. unfold stored_key.
  rewrite dst_key_eq_iff;
    [|by apply of_bytes_2_range; slen|by apply of_bytes_2_range; slen
     |by apply ip_proto_range; lia|by apply ip_proto_range; lia].
  rewrite !htonl_low_byte by done. rewrite native_port_inj by slen. done.
Qed.

(** Host_peer_egress passes a header offset where [rewrite_port] expects
    the protocol, so no checksum is updated for the port: every reply whose
    layer 4 checksum was right leaves with a wrong one when the restored port
    differs from the proxy's. *)
Theorem host_peer_egress_invalidates_l4 (e : endianness) (H : BpfHelpers)
    (L : BpfHelperLaws e H) (S : BpfHelpersSucceed H) (s : state)
    (entry : original_dst_entry) (hdr : Z) :
  is_ip s -> 34 <= skb_headlen (st_skb s) -> 52 <= skb_len (st_skb s) ->
  tcp_or_udp (pkt s) -> skb_csum_partial (st_skb s) = false ->
  original_dst_map (st_maps s) !! lookup_key (pkt s) = Some entry -> entry_wf entry ->
  8 <= hdr -> (ip_proto (pkt s) = IPPROTO_TCP -> 18 <= hdr) -> l4_valid e hdr (pkt s) ->
  0 < port_at (e := e) 34 (pkt s) < 65535 -> 0 < od_port entry < 65535 ->
  od_port entry <> port_at (e := e) 34 (pkt s) ->
  exists s', host_peer_egress s = Some (TC_ACT_OK, s') /\ ~ l4_valid e hdr (pkt s').
Proof.
  intros Hip Hh Hl Hpr Hpart Hm Hwf Hhdr Hhdr' Hv Hold Hnew Hne.
  unfold skb_len in Hl. fold (pkt s) in Hl.
  assert (wp host_peer_egress (fun v s1 => v = TC_ACT_OK /\
    unproxied entry (skb_csum_partial (st_skb s)) (pkt s) (pkt s1)) s) as Hw
    by (apply (wp_host_peer_egress s entry); try done; auto).
  apply wp_elim in Hw as (v & s' & E & -> & p1 & Hr1 & Hr2). exists s'. split; [exact E|].
  assert (exists x, l4_csum_off (ip_proto (pkt s)) = Some x /\ x + 2 <= 34 + hdr) as (x & Ex & Hx).
  { destruct Hpr as [Ht | Hu]; [exists 50|exists 40].
    - specialize (Hhdr' Ht). rewrite Ht. split; [done|lia].
    - rewrite Hu. split; [done|lia]. }
  assert (l4_valid e hdr p1) as Hv1.
  { eapply (addr_rewritten_l4_valid 26 _ _ _ (pkt s)) with (x := x);
      [apply Hwf|by left|lia|by apply l4_some_fits|exact Hr1|done..]. }
  assert (slice 34 2 p1 = slice 34 2 (pkt s)) as Es.
  { destruct (addr_rewritten_l4_shape 26 _ _ _ (pkt s) p1 ltac:(by left) ltac:(lia)
      (l4_some_fits _ Hl) Hr1 x Ex Hpart) as (c4 & _ & _ & Hs).
    rewrite Hs by lia. apply l4_csum_off_cases in Ex as [-> | ->]; by slices. }
  rewrite Hr2. unfold port_at in *. norm_nats.
  apply (port_only_breaks_l4 34); unfold port_at; norm_nats; rewrite ?Es; done || (try lia; auto).
Qed.

(** a UDP datagram that is not for the DNS port gets its port rewritten as
    if it were TCP: the checksum helper is called for offset 50, which is eight
    bytes into the payload of a UDP datagram, and not for the UDP checksum. *)
Theorem ctr_udp_csum_offset (e : endianness) (H : BpfHelpers)
    (L : BpfHelperLaws e H) (S : BpfHelpersSucceed H) (s : state) (vp : veth_pair) :
  is_ip s -> 34 <= skb_headlen (st_skb s) -> 52 <= skb_len (st_skb s) ->
  ip_proto (pkt s) = IPPROTO_UDP -> l4_dport (pkt s) <> DPORT_DNS ->
  l4_sport (pkt s) <> MC_SERVER_PORT ->
  veth_pair_map (st_maps s) !! skb_ifindex (st_skb s) = Some vp ->
  0 <= host_if_addr vp < 2 ^ 32 ->
  exists s' prev new, ctr_peer_egress s = Some (TC_ACT_OK, s') /\
    head (st_calls s') = Some (CallL4Csum TCP_CSUM_OFF prev new 0) /\
    TCP_CSUM_OFF = ETH_HLEN + sizeof struct_iphdr + sizeof struct_udphdr + 8.
Proof.
  intros Hip Hh Hl Hu Hd Hsp Hvp Hr. unfold skb_len in Hl. fold (pkt s) in Hl.
  assert (wp ctr_peer_egress (fun v s1 => v = TC_ACT_OK /\
    exists prev new, head (st_calls s1) = Some (CallL4Csum
      (port_csum_off (ip_proto (pkt s)) (l4_dport (pkt s))) prev new 0)) s) as Hw
    by (apply (wp_ctr_peer_egress s vp); [done|done|done|by right|done|done|done|auto]).
  apply wp_elim in Hw as (v & s' & E & -> & prev & new & Hc). exists s', prev, new.
  split; [exact E|]. split; [|done]. rewrite Hc. unfold port_csum_off.
  by rewrite (proj2 (Z.eqb_neq _ _) Hd), andb_false_r.
Qed.

Section branches.
Context {e : endianness} {H : BpfHelpers}.

Lemma ctr_other_proto s :
  is_ip s -> 34 <= skb_headlen (st_skb s) <= skb_len (st_skb s) -> ~ tcp_or_udp (pkt s) ->
  ctr_peer_egress s = Some (TC_ACT_SHOT, s).
Proof.
  intros Hip Hh Hpr. unfold skb_len in Hh. fold (pkt s) in Hh.
  apply wp_exact. unfold ctr_peer_egress. ip_prologue Hip.
  apply wp_bind, wp_ld_proto; [done|lia..|]. apply wp_bind, wp_ld_daddr; [done|lia|].
  rewrite (proj2 (Z.eqb_neq _ IPPROTO_TCP)) by (intros E; apply Hpr; by left).
  rewrite (proj2 (Z.eqb_neq _ IPPROTO_UDP)) by (intros E; apply Hpr; by right).
  by apply wp_ret.
Qed.

Context {L : BpfHelperLaws e H} {S : BpfHelpersSucceed H}.

(** The two ports have been read. *)
Definition ports_read (s : state) : state :=
  log_call (CallLoad TCP_SPORT_OFF 2) (log_call (CallLoad TCP_DPORT_OFF 2) s).

Lemma ctr_not_proxied s :
  is_ip s -> 34 <= skb_headlen (st_skb s) -> 52 <= skb_len (st_skb s) -> tcp_or_udp (pkt s) ->
  (l4_sport (pkt s) = MC_SERVER_PORT -> ctr_peer_egress s = Some (TC_ACT_OK, ports_read s)) /\
  (l4_sport (pkt s) <> MC_SERVER_PORT ->
   veth_pair_map (st_maps s) !! skb_ifindex (st_skb s) = None ->
   exists msg, ctr_peer_egress s = Some (TC_ACT_SHOT,
     log_call (CallPrintk msg [skb_ifindex (st_skb s)]) (ports_read s))).
Proof using L S.
  intros Hip Hh Hl Hpr. unfold skb_len in Hl. fold (pkt s) in Hl.
  assert (forall Q, (if of_bytes e (slice 34 2 (pkt s)) =? bpf_htons true MC_SERVER_PORT
    then Q TC_ACT_OK (ports_read s) else
      veth_pair_map (st_maps s) !! skb_ifindex (st_skb s) = None /\
      forall msg, Q TC_ACT_SHOT (log_call (CallPrintk msg [skb_ifindex (st_skb s)]) (ports_read s))) ->
    wp ctr_peer_egress Q s) as Hw.
  { intros Q HQ. unfold ctr_peer_egress. ip_prologue Hip.
    apply wp_bind, wp_ld_proto; [done|lia..|]. apply wp_bind, wp_ld_daddr; [done|lia|].
    replace (negb (ip_proto (pkt s) =? IPPROTO_TCP) && negb (ip_proto (pkt s) =? IPPROTO_UDP))
      with false by (destruct Hpr as [-> | ->]; done).
    norm_offs. apply wp_bind, wp_get_port; [lia..|done|].
    apply wp_bind, wp_get_port; [rewrite ?pkt_log_call; lia..|done|]. rewrite !pkt_log_call.
    norm_nats. destruct (_ =? _); [by apply wp_ret|]. destruct HQ as [Hvp HQ].
    apply wp_bind, wp_ctx_ifindex, wp_bind, wp_map_lookup. cbn [log_call st_maps st_skb].
    rewrite Hvp. apply wp_bind, wp_printk, wp_ret, HQ. }
  split.
  - intros Hsp. apply wp_exact, Hw.
    rewrite (proj2 (Z.eqb_eq _ _)) by (apply htons_eq_iff; [slen|done|exact Hsp]). done.
  - intros Hsp Hvp. apply (wp_elim _ (fun v s' => exists msg, v = TC_ACT_SHOT /\
      s' = log_call (CallPrintk msg [skb_ifindex (st_skb s)]) (ports_read s))) in Hw
      as (v & s' & E & msg & -> & ->); [eauto|].
    rewrite (proj2 (Z.eqb_neq _ _)); [eauto|].
    intros E. apply Hsp. apply htons_eq_iff in E; [exact E|slen|done].
Qed.
End branches.

(** What ctr_peer_egress does not hand to the proxy: frames that are not
    IPv4 and truncated ones are accepted, protocols other than TCP and UDP are
    dropped, traffic from the Minecraft port is accepted unchanged, and traffic
    on an interface without veth pair data is dropped after a log line. *)
Theorem ctr_peer_egress_other (e : endianness) (H : BpfHelpers)
    (L : BpfHelperLaws e H) (S : BpfHelpersSucceed H) (s : state) :
  let seg_ok := is_ip s /\ 34 <= skb_headlen (st_skb s) /\ 52 <= skb_len (st_skb s) /\
                tcp_or_udp (pkt s) in
  (~ is_ip s -> ctr_peer_egress s = Some (TC_ACT_OK, s)) /\
  (is_ip s -> skb_headlen (st_skb s) < 34 -> ctr_peer_egress s = Some (TC_ACT_OK, s)) /\
  (is_ip s -> 34 <= skb_headlen (st_skb s) <= skb_len (st_skb s) -> ~ tcp_or_udp (pkt s) ->
   ctr_peer_egress s = Some (TC_ACT_SHOT, s)) /\
  (seg_ok -> l4_sport (pkt s) = MC_SERVER_PORT ->
   ctr_peer_egress s = Some (TC_ACT_OK, ports_read s)) /\
  (seg_ok -> l4_sport (pkt s) <> MC_SERVER_PORT ->
   veth_pair_map (st_maps s) !! skb_ifindex (st_skb s) = None ->
   exists msg, ctr_peer_egress s = Some (TC_ACT_SHOT,
     log_call (CallPrintk msg [skb_ifindex (st_skb s)]) (ports_read s))).
Proof.
  cbv zeta. split; [|split; [|split; [|split]]].
  - intros Hp. apply wp_exact. unfold ctr_peer_egress. wp_prologue.
    rewrite (proj2 (Z.eqb_neq _ _) Hp). by apply wp_ret.
  - intros Hip Hh. apply wp_exact. unfold ctr_peer_egress. ip_prologue Hip. by apply wp_ret.
  - apply ctr_other_proto.
  - intros (Hip & Hh & Hl & Hpr). by apply ctr_not_proxied.
  - intros (Hip & Hh & Hl & Hpr). by apply ctr_not_proxied.
Qed.

(** ** Concrete runs *)

(** The workload 10.0.0.3 behind interface 7; its host's end is 10.0.0.2. *)
Definition demo_veth : veth_pair := {| host_if_index := 7; host_if_addr := 167772162 |}.

Definition demo_tproxy_maps (od : gmap Z original_dst_entry) : bpf_maps :=
  {| ptp_snat_config := ∅; net_data_map := ∅; ptp_dnat_targets := ∅;
     veth_pair_map := {[7 := demo_veth]}; original_dst_map := od |}.

Definition demo_http : state := arriving LE ETH_P_IP (demo_tproxy_maps ∅) frame_pod_http.

(** The record that the packet leaves: 93.184.216.34:80. *)
Definition demo_record : gmap Z original_dst_entry :=
  {[stored_key (e := LE) demo_veth frame_pod_http := stored_entry (e := LE) frame_pod_http]}.

Definition demo_reply : state := arriving LE ETH_P_IP (demo_tproxy_maps demo_record) frame_proxy_reply.

Lemma ctr_peer_egress_proxies_witness :
  exists s', ctr_peer_egress (e := LE) (H := ref_helpers LE) demo_http = Some (TC_ACT_OK, s') /\
    ip_dst (pkt s') = 167772162 /\ l4_dport (pkt s') = 9080.
Proof.
  edestruct (ctr_peer_egress_proxies LE (ref_helpers LE) (ref_laws LE) (ref_succeed LE)
    demo_http demo_veth) as (s' & E & _ & _ & Hd & Hp & _).
  - reflexivity.
  - vm_compute. discriminate.
  - vm_compute. discriminate.
  - left. vm_compute. reflexivity.
  - vm_compute. discriminate.
  - vm_compute. reflexivity.
  - vm_compute. split; [discriminate|reflexivity].
  - exists s'. split; [exact E|]. split; [exact Hd|]. rewrite Hp. vm_compute. reflexivity.
Defined.

Lemma host_peer_egress_restores_witness :
  exists s', host_peer_egress (e := LE) (H := ref_helpers LE) demo_reply = Some (TC_ACT_OK, s') /\
    slice 26 4 (pkt s') = map byte_of_Z [93; 184; 216; 34].
Proof.
  pose proof (host_peer_egress_restores LE (ref_helpers LE) (ref_laws LE) (ref_succeed LE)
    demo_reply) as T.
  replace (original_dst_map (st_maps demo_reply) !! lookup_key (e := LE) (pkt demo_reply))
    with (Some (stored_entry (e := LE) frame_pod_http)) in T by (vm_compute; reflexivity).
  destruct T as (s' & E & _ & _ & Ha & _).
  - reflexivity.
  - vm_compute. discriminate.
  - vm_compute. discriminate.
  - left. vm_compute. reflexivity.
  - split; vm_compute; (split; [discriminate|reflexivity]).
  - exists s'. split; [exact E|]. rewrite Ha. vm_compute. reflexivity.
Defined.

Lemma tproxy_roundtrip_witness :
  exists s', ctr_peer_egress (e := LE) (H := ref_helpers LE) demo_http = Some (TC_ACT_OK, s') /\
    (original_dst_map (st_maps demo_reply) = original_dst_map (st_maps s') ->
     exists r', host_peer_egress (e := LE) (H := ref_helpers LE) demo_reply = Some (TC_ACT_OK, r') /\
       ip_src (pkt r') = 1572395042 /\ l4_sport (pkt r') = 80).
Proof.
  destruct (tproxy_roundtrip LE (ref_helpers LE) (ref_laws LE) (ref_succeed LE)
    demo_http demo_reply demo_veth) as (s' & E & Hr).
  1, 8: reflexivity.
  1, 2, 7, 8: vm_compute; discriminate.
  - left. vm_compute. reflexivity.
  - vm_compute. discriminate.
  - vm_compute. reflexivity.
  - vm_compute. split; [discriminate|reflexivity].
  - vm_compute. reflexivity.
  - vm_compute. reflexivity.
  - vm_compute. reflexivity.
  - exists s'. split; [exact E|]. intros Hm. destruct (Hr Hm) as (r' & Er & Ha & Hp & _).
    exists r'. split; [exact Er|]. split; [exact Ha|exact Hp].
Defined.

(** Hosts 10.0.0.2 and 10.7.1.9 share a record. *)
Lemma original_dst_key_collides_witness :
  stored_key (e := LE) demo_veth frame_pod_http
  = stored_key (e := LE) {| host_if_index := 9; host_if_addr := 168231177 |} frame_pod_http.
Proof.
  apply (original_dst_key_collides LE).
  - vm_compute. split; [discriminate|reflexivity].
  - vm_compute. split; [discriminate|reflexivity].
  - apply (Nat.leb_le 38). reflexivity.
  - apply (Nat.leb_le 38). reflexivity.
  - split; [vm_compute; reflexivity|split; reflexivity].
Defined.

Lemma host_peer_egress_invalidates_l4_witness :
  exists s', host_peer_egress (e := LE) (H := ref_helpers LE) demo_reply = Some (TC_ACT_OK, s') /\
    ~ l4_valid LE 20 (pkt s').
Proof.
  apply (host_peer_egress_invalidates_l4 LE (ref_helpers LE) (ref_laws LE) (ref_succeed LE)
    demo_reply (stored_entry (e := LE) frame_pod_http) 20).
  - reflexivity.
  - vm_compute. discriminate.
  - vm_compute. discriminate.
  - left. vm_compute. reflexivity.
  - reflexivity.
  - vm_compute. reflexivity.
  - split; vm_compute; (split; [discriminate|reflexivity]).
  - vm_compute. discriminate.
  - intros _. vm_compute. discriminate.
  - split; [vm_compute; reflexivity|]. split; [vm_compute; discriminate|].
    split; [vm_compute; discriminate|]. split; vm_compute; reflexivity.
  - vm_compute. split; reflexivity.
  - vm_compute. split; reflexivity.
  - vm_compute. discriminate.
Defined.

Lemma ctr_peer_egress_other_witness :
  ctr_peer_egress (e := LE) (H := ref_helpers LE)
    (arriving LE ETH_P_IP no_maps frame_pod_reply)
  = Some (TC_ACT_OK, ports_read (arriving LE ETH_P_IP no_maps frame_pod_reply)).
Proof.
  apply (ctr_peer_egress_other LE (ref_helpers LE) (ref_laws LE) (ref_succeed LE)
    (arriving LE ETH_P_IP no_maps frame_pod_reply)).
  - split; [reflexivity|]. split; [vm_compute; discriminate|]. split; [vm_compute; discriminate|].
    left. vm_compute. reflexivity.
  - vm_compute. reflexivity.
Defined.

Lemma ctr_udp_csum_offset_witness :
  exists s' prev new, ctr_peer_egress (e := LE) (H := ref_helpers LE)
      (arriving LE ETH_P_IP (demo_tproxy_maps ∅) frame_pod_udp) = Some (TC_ACT_OK, s') /\
    head (st_calls s') = Some (CallL4Csum 50 prev new 0).
Proof.
  destruct (ctr_udp_csum_offset LE (ref_helpers LE) (ref_laws LE) (ref_succeed LE)
    (arriving LE ETH_P_IP (demo_tproxy_maps ∅) frame_pod_udp) demo_veth)
    as (s' & prev & new & E & Hc & _).
  - reflexivity.
  - vm_compute. discriminate.
  - vm_compute. discriminate.
  - vm_compute. reflexivity.
  - vm_compute. discriminate.
  - vm_compute. discriminate.
  - vm_compute. reflexivity.
  - vm_compute. split; [discriminate|reflexivity].
  - exists s', prev, new. split; [exact E|exact Hc].
Defined.
