(* ===== verification/Getsockopt.v ===== *)
(** * The getsockopt program of tproxy.c

    A proxy that accepted a redirected connection asks for [SO_ORIGINAL_DST]
    to learn where the workload wanted to connect; this cgroup program answers
    from [original_dst_map]. *)

From S2P Require Import Prelude Endian Csum CLayout Helpers RefHelpers CTypes VmPacket Packet Samples NetHelpers Tproxy.

(** [struct bpf_sock]; [dst_port], [dst_ip4] and the other addresses are in
    network order, held as native integers. *)
Record bpf_sock := {
  sk_bound_dev_if : Z;
  sk_family : Z;
  sk_type : Z;
  sk_protocol : Z;
  sk_mark : Z;
  sk_priority : Z;
  sk_src_ip4 : Z;
  sk_src_ip6 : list Z;
  sk_src_port : Z;
  sk_dst_port : Z;
  sk_dst_ip4 : Z;
  sk_dst_ip6 : list Z;
  sk_state : Z;
  sk_rx_queue_mapping : Z;
}.

(** [struct bpf_sockopt]: [so_optval] is the buffer between [optval] and
    [optval_end]. *)
Record bpf_sockopt := mk_sockopt {
  so_sk : bpf_sock;
  so_optval : list byte;
  so_level : Z;
  so_optname : Z;
  so_optlen : Z;
  so_retval : Z;
}.

(** The context after the program filled the buffer. *)
Definition answer (ctx : bpf_sockopt) (buf : list byte) (len : Z) : bpf_sockopt :=
  mk_sockopt (so_sk ctx) buf (so_level ctx) (so_optname ctx) len 0.

Section prog.
Context {e : endianness}.

(** [sa->path = v] for the [struct sockaddr_in] at the start of the buffer *)
Definition sa_store (path : list string) (v : Z) (buf : list byte) : list byte :=
  splice (Z.to_nat (off struct_sockaddr_in path))
    (to_bytes e (Z.to_nat (fld_size struct_sockaddr_in path)) v) buf.

(** The return value, the context afterwards and the log lines. *)
Definition getsockopt (maps : bpf_maps) (ctx : bpf_sockopt)
    : Z * bpf_sockopt * list helper_call :=
  if negb (so_optname ctx =? SO_ORIGINAL_DST) then (1, ctx, []) else
  if negb (sk_family (so_sk ctx) =? AF_INET) then (1, ctx, []) else
  let client_port := sk_dst_port (so_sk ctx) in
  let proto := cast_u8 (sk_protocol (so_sk ctx)) in
  let key := dst_key (sk_dst_ip4 (so_sk ctx)) client_port proto in
  match original_dst_map maps !! key with
  | None =>
      (0, ctx, [CallPrintk "tproxy: getsockopt: no entry for port %d/%d"
                  [proto; bpf_ntohs false client_port]])
  | Some entry =>
      if Z.of_nat (length (so_optval ctx)) <? sizeof struct_sockaddr_in
      then (1, ctx, []) else
      let sa := so_optval ctx in
      let sa := sa_store ["sin_family"] (sk_family (so_sk ctx)) sa in
      let sa := sa_store ["sin_addr"; "s_addr"] (od_ip_addr entry) sa in
      let sa := sa_store ["sin_port"] (od_port entry) sa in
      (1, answer ctx sa (sizeof struct_sockaddr_in), [])
  end.
End prog.

(** The buffer holds the IPv4 socket address [addr:port], both given as they
    are in memory. *)
Definition is_sockaddr (e : endianness) (buf addr port : list byte) : Prop :=
  slice 0 2 buf = to_bytes e 2 AF_INET /\ slice 2 2 buf = port /\ slice 4 4 buf = addr.

Definition sk_key (ctx : bpf_sockopt) : Z :=
  dst_key (sk_dst_ip4 (so_sk ctx)) (sk_dst_port (so_sk ctx)) (cast_u8 (sk_protocol (so_sk ctx))).

Definition asks_original_dst (ctx : bpf_sockopt) : Prop :=
  so_optname ctx = SO_ORIGINAL_DST /\ sk_family (so_sk ctx) = AF_INET.

Section spec.
Context {e : endianness}.

Lemma getsockopt_found maps ctx entry :
  asks_original_dst ctx -> original_dst_map maps !! sk_key ctx = Some entry ->
  16 <= Z.of_nat (length (so_optval ctx)) ->
  exists buf, getsockopt maps ctx = (1, answer ctx buf 16, []) /\
    is_sockaddr e buf (to_bytes e 4 (od_ip_addr entry)) (to_bytes e 2 (od_port entry)) /\
    length buf = length (so_optval ctx) /\ drop 8 buf = drop 8 (so_optval ctx).
Proof.
  intros [Ho Hf] Hm Hl. unfold getsockopt. rewrite Ho, Hf. fold (sk_key ctx). rewrite Hm.
  change (sizeof struct_sockaddr_in) with 16. rewrite (proj2 (Z.ltb_ge _ _)) by done.
  change (SO_ORIGINAL_DST =? SO_ORIGINAL_DST) with true. change (AF_INET =? AF_INET) with true.
  cbn [negb]. eexists. split; [reflexivity|]. unfold sa_store.
  change (off struct_sockaddr_in ["sin_family"]) with 0.
  change (off struct_sockaddr_in ["sin_port"]) with 2.
  change (off struct_sockaddr_in ["sin_addr"; "s_addr"]) with 4.
  change (fld_size struct_sockaddr_in ["sin_family"]) with 2.
  change (fld_size struct_sockaddr_in ["sin_port"]) with 2.
  change (fld_size struct_sockaddr_in ["sin_addr"; "s_addr"]) with 4. norm_nats.
  unfold is_sockaddr. split; [split; [|split]|split]; [by slices..|slen|by slices].
Qed.
End spec.

(** C39: the whole of getsockopt: other options and other address families are
    left to the kernel; without a record the call is rejected; with a record
    and room for a [struct sockaddr_in] the buffer becomes the recorded
    address, with the length and a zero result; with too little room the call
    is left to the kernel. *)
Theorem getsockopt_behaviour (e : endianness) (maps : bpf_maps) (ctx : bpf_sockopt) :
  (~ asks_original_dst ctx -> getsockopt maps ctx = (1, ctx, [])) /\
  (asks_original_dst ctx ->
   match original_dst_map maps !! sk_key ctx with
   | None => exists msg args, getsockopt maps ctx = (0, ctx, [CallPrintk msg args])
   | Some entry =>
       if Z.of_nat (length (so_optval ctx)) <? 16 then getsockopt maps ctx = (1, ctx, [])
       else exists buf,
         getsockopt maps ctx = (1, answer ctx buf 16, []) /\
         is_sockaddr e buf (to_bytes e 4 (od_ip_addr entry)) (to_bytes e 2 (od_port entry)) /\
         length buf = length (so_optval ctx) /\ drop 8 buf = drop 8 (so_optval ctx)
   end).
Proof.
  split.
  - intros Hn. unfold getsockopt.
    destruct (Z.eqb_spec (so_optname ctx) SO_ORIGINAL_DST) as [E|]; [|done]. cbn [negb].
    destruct (Z.eqb_spec (sk_family (so_sk ctx)) AF_INET) as [E'|]; [|done].
    destruct Hn. by split.
  - intros Ha. destruct (original_dst_map maps !! sk_key ctx) as [entry|] eqn:Em.
    + destruct (Z.ltb_spec (Z.of_nat (length (so_optval ctx))) 16) as [Hl|Hl];
        [|by apply getsockopt_found].
      unfold getsockopt. destruct Ha as [-> ->]. fold (sk_key ctx). rewrite Em.
      change (sizeof struct_sockaddr_in) with 16. by rewrite (proj2 (Z.ltb_lt _ _)) by done.
    + unfold getsockopt. destruct Ha as [-> ->]. fold (sk_key ctx). rewrite Em. cbn [negb]. eauto.
Qed.

(** C33: the proxy learns the destination the workload meant: after a packet of
    a workload has gone through ctr_peer_egress, [SO_ORIGINAL_DST] on the
    proxy's socket for that connection (same client port and protocol, client
    address agreeing with the host's in the octet the key keeps) yields the
    packet's original destination address and port. *)
Theorem original_dst_roundtrip (e : endianness) (H : BpfHelpers)
    (L : BpfHelperLaws e H) (S : BpfHelpersSucceed H) (s : state) (vp : veth_pair)
    (ctx : bpf_sockopt) :
  is_ip s -> 34 <= skb_headlen (st_skb s) -> 52 <= skb_len (st_skb s) ->
  tcp_or_udp (pkt s) -> l4_sport (pkt s) <> MC_SERVER_PORT ->
  veth_pair_map (st_maps s) !! skb_ifindex (st_skb s) = Some vp ->
  0 <= host_if_addr vp < 2 ^ 32 ->
  asks_original_dst ctx -> 16 <= Z.of_nat (length (so_optval ctx)) ->
  sk_dst_port (so_sk ctx) = port_at (e := e) 34 (pkt s) ->
  sk_protocol (so_sk ctx) = ip_proto (pkt s) ->
  sk_dst_ip4 (so_sk ctx) mod 256 = key_octet (host_if_addr vp) ->
  exists s', ctr_peer_egress s = Some (TC_ACT_OK, s') /\
    exists buf, getsockopt (st_maps s') ctx
                = (1, answer ctx buf 16, []) /\
      is_sockaddr e buf (slice 30 4 (pkt s)) (slice 36 2 (pkt s)).
Proof.
  intros Hip Hh Hl Hpr Hsp Hvp Hr Ha Hb Eport Epr Eoct.
  unfold skb_len in Hl. fold (pkt s) in Hl.
  assert (wp ctr_peer_egress (fun v s1 => v = TC_ACT_OK /\
    dst_recorded vp (pkt s) (st_maps s) (st_maps s1)) s) as Hw
    by (apply (wp_ctr_peer_egress s vp); try done; auto).
  apply wp_elim in Hw as (v & s' & E & -> & od & Hm & Hod & _). exists s'. split; [exact E|].
  assert (0 <= ip_proto (pkt s) < 2 ^ 8) as Hpr8 by (apply ip_proto_range; lia).
  assert (0 <= port_at 34 (pkt s) < 2 ^ 16) as Hpt by (apply of_bytes_2_range; slen).
  assert (sk_key ctx = stored_key vp (pkt s)) as Ek.
  { unfold sk_key, stored_key, cast_u8. rewrite Eport, Epr, wrap_small by done.
    apply dst_key_eq_iff; [done..|]. by rewrite htonl_low_byte. }
  destruct (getsockopt_found (st_maps s') ctx (stored_entry (pkt s))) as (buf & Eg & Hs & _).
  - done.
  - by rewrite Hm, Ek.
  - done.
  - exists buf. split; [exact Eg|]. cbn [stored_entry od_ip_addr od_port] in Hs.
    by rewrite !to_of_bytes in Hs by slen.
Qed.

(** The proxy's socket for the connection of the sample HTTP packet. *)
Definition demo_sockopt : bpf_sockopt :=
  {| so_sk := {| sk_bound_dev_if := 0; sk_family := 2; sk_type := 1; sk_protocol := 6;
                 sk_mark := 0; sk_priority := 0;
                 sk_src_ip4 := of_bytes LE (map byte_of_Z [10; 0; 0; 2]); sk_src_ip6 := [];
                 sk_src_port := 9080; sk_dst_port := port_at (e := LE) 34 frame_pod_http;
                 sk_dst_ip4 := of_bytes LE (slice 26 4 frame_pod_http); sk_dst_ip6 := [];
                 sk_state := 1; sk_rx_queue_mapping := 0 |};
     so_optval := replicate 16 Init.Byte.x00; so_level := 0; so_optname := 80;
     so_optlen := 16; so_retval := -92 |}.

Lemma original_dst_roundtrip_witness :
  exists s', ctr_peer_egress (e := LE) (H := ref_helpers LE) demo_http = Some (TC_ACT_OK, s') /\
    exists buf, getsockopt (e := LE) (st_maps s') demo_sockopt
                = (1, answer demo_sockopt buf 16, []) /\
      is_sockaddr LE buf (map byte_of_Z [93; 184; 216; 34]) (map byte_of_Z [0; 80]).
Proof.
  apply (original_dst_roundtrip LE (ref_helpers LE) (ref_laws LE) (ref_succeed LE)
    demo_http demo_veth demo_sockopt).
  - reflexivity.
  - vm_compute. discriminate.
  - vm_compute. discriminate.
  - left. vm_compute. reflexivity.
  - vm_compute. discriminate.
  - vm_compute. reflexivity.
  - vm_compute. split; [discriminate|reflexivity].
  - split; reflexivity.
  - vm_compute. discriminate.
  - reflexivity.
  - vm_compute. reflexivity.
  - vm_compute. reflexivity.
Defined.
