(* ===== verification/Sock.v ===== *)
(** * sock.c: cutting a container's connections before a checkpoint

    [destroy_tcp] and [destroy_udp] run once per socket of the system (and once
    more with a NULL socket); they walk kernel structures through pointers and
    ask the kernel to destroy the sockets of the current task's network
    namespace, sparing servers.  [block_connect4/6] refuse new connections.

    Kernel memory is a function from addresses to bytes; a field access is a
    load at the offset that the layout of its struct gives.  A load through a
    bad pointer gives zero, so memory is total.  The specification speaks of
    sockets as records ([sock_info]); [tcp_sock_at] and [udp_sock_at] relate
    them to memory. *)

From S2P Require Import Prelude Endian CLayout CTypes VmPacket VmSock VmNetns VmTask NetHelpers.

(** [enum] of TCP states in vmlinux.h *)
Inductive tcp_state :=
| TCP_ESTABLISHED | TCP_SYN_SENT | TCP_SYN_RECV | TCP_FIN_WAIT1 | TCP_FIN_WAIT2
| TCP_TIME_WAIT | TCP_CLOSE | TCP_CLOSE_WAIT | TCP_LAST_ACK | TCP_LISTEN
| TCP_CLOSING | TCP_NEW_SYN_RECV.

Definition tcp_state_code (st : tcp_state) : Z :=
  match st with
  | TCP_ESTABLISHED => 1 | TCP_SYN_SENT => 2 | TCP_SYN_RECV => 3 | TCP_FIN_WAIT1 => 4
  | TCP_FIN_WAIT2 => 5 | TCP_TIME_WAIT => 6 | TCP_CLOSE => 7 | TCP_CLOSE_WAIT => 8
  | TCP_LAST_ACK => 9 | TCP_LISTEN => 10 | TCP_CLOSING => 11 | TCP_NEW_SYN_RECV => 12
  end.

#[global] Instance tcp_state_eq_dec : EqDecision tcp_state.
Proof. solve_decision. Defined.

Lemma tcp_state_code_inj st st' : tcp_state_code st = tcp_state_code st' -> st = st'.
Proof. by destruct st, st'. Qed.

Definition kmem := Z -> byte.

Section prog.
Context {e : endianness}.

Definition kload (mem : kmem) (p n : Z) : Z := of_bytes e (map mem (seqZ p n)).

(** [p->path] where [p] points to a [t] *)
Definition kfield (mem : kmem) (p : Z) (t : ctype) (path : list string) : Z :=
  kload mem (p + off t path) (fld_size t path).

(** [&p->path] *)
Definition kaddr (p : Z) (t : ctype) (path : list string) : Z := p + off t path.

(** The programs return their value and the sockets passed to
    [bpf_sock_destroy]; [task] is the result of
    [bpf_get_current_task_btf]. *)
Definition destroy_tcp (mem : kmem) (task ctx : Z) : Z * list Z :=
  let seq := kfield mem (kfield mem ctx struct_bpf_iter__tcp ["meta"])
               struct_bpf_iter_meta ["seq"] in
  let sk := kfield mem ctx struct_bpf_iter__tcp ["sk_common"] in
  if sk =? 0 then (0, []) else
  let netns := kfield mem sk struct_sock_common ["skc_net"; "net"] in
  if netns =? 0 then (0, []) else
  let sockns := kfield mem netns struct_net ["ns"; "inum"] in
  let tskns := kfield mem (kfield mem (kfield mem task struct_task_struct ["nsproxy"])
                             struct_nsproxy ["net_ns"]) struct_net ["ns"; "inum"] in
  if negb (tskns =? sockns) then (0, []) else
  if kfield mem sk struct_sock_common ["skc_state"] =? tcp_state_code TCP_LISTEN
  then (0, []) else (0, [sk]).

Definition destroy_udp (mem : kmem) (task ctx : Z) : Z * list Z :=
  let seq := kfield mem (kfield mem ctx struct_bpf_iter__udp ["meta"])
               struct_bpf_iter_meta ["seq"] in
  let usk := kfield mem ctx struct_bpf_iter__udp ["udp_sk"] in
  if usk =? 0 then (0, []) else
  let inet := kaddr usk struct_udp_sock ["inet"] in
  let sk := kaddr inet struct_inet_sock ["sk"; "__sk_common"] in
  let sockns := kfield mem (kfield mem sk struct_sock_common ["skc_net"; "net"])
                  struct_net ["ns"; "inum"] in
  let tskns := kfield mem (kfield mem (kfield mem task struct_task_struct ["nsproxy"])
                             struct_nsproxy ["net_ns"]) struct_net ["ns"; "inum"] in
  if negb (tskns =? sockns) then (0, []) else
  if bpf_ntohs false (kfield mem sk struct_sock_common ["skc_dport"]) =? 0
  then (0, []) else (0, [sk]).

(** cgroup programs: a zero result makes the kernel refuse the call. *)
Definition block_connect4 (mem : kmem) (ctx : Z) : Z := 0.
Definition block_connect6 (mem : kmem) (ctx : Z) : Z := 0.
End prog.

(** ** Specification *)

(** A socket as far as the programs are concerned: the inode number of its
    network namespace, if it has one, its TCP state and its peer's port. *)
Record sock_info := {
  si_netns : option Z;
  si_state : tcp_state;
  si_dport : Z;
}.

Section spec.
Context {e : endianness} (mem : kmem).

Definition netns_at (sk : Z) (ns : option Z) : Prop :=
  let net := kfield mem sk struct_sock_common ["skc_net"; "net"] in
  match ns with
  | None => net = 0
  | Some inum => net <> 0 /\ kfield mem net struct_net ["ns"; "inum"] = inum
  end.

Definition tcp_sock_at (sk : Z) (i : sock_info) : Prop :=
  netns_at sk (si_netns i) /\
  kfield mem sk struct_sock_common ["skc_state"] = tcp_state_code (si_state i).

(** A UDP socket is found through its [struct udp_sock]; it always has a
    network namespace. *)
Definition udp_sock_at (sk : Z) (i : sock_info) : Prop :=
  netns_at sk (si_netns i) /\ is_Some (si_netns i) /\
  0 <= si_dport i < 2 ^ 16 /\
  kfield mem sk struct_sock_common ["skc_dport"] = bpf_htons false (si_dport i).

Definition task_in (task inum : Z) : Prop :=
  kfield mem (kfield mem (kfield mem task struct_task_struct ["nsproxy"])
                struct_nsproxy ["net_ns"]) struct_net ["ns"; "inum"] = inum.

(** The sockets to be destroyed for a container in namespace [c]. *)
Definition tcp_doomed (c : Z) (i : sock_info) : bool :=
  bool_decide (si_netns i = Some c) && negb (bool_decide (si_state i = TCP_LISTEN)).

Definition udp_doomed (c : Z) (i : sock_info) : bool :=
  bool_decide (si_netns i = Some c) && negb (si_dport i =? 0).

Definition tcp_ctx_sock (ctx : Z) : Z := kfield mem ctx struct_bpf_iter__tcp ["sk_common"].
Definition udp_ctx_sock (ctx : Z) : Z := kfield mem ctx struct_bpf_iter__udp ["udp_sk"].

(** One context of the iterator: the socket and what is known about it. *)
Definition tcp_visit (ctx : Z) (o : option (Z * sock_info)) : Prop :=
  match o with
  | None => tcp_ctx_sock ctx = 0
  | Some (sk, i) => sk <> 0 /\ tcp_ctx_sock ctx = sk /\ tcp_sock_at sk i
  end.

Definition udp_visit (ctx : Z) (o : option (Z * sock_info)) : Prop :=
  match o with
  | None => udp_ctx_sock ctx = 0
  | Some (sk, i) => sk <> 0 /\ udp_ctx_sock ctx = sk /\ udp_sock_at sk i
  end.

Definition doomed (test : sock_info -> bool) (o : option (Z * sock_info)) : list Z :=
  match o with Some (sk, i) => if test i then [sk] else [] | None => [] end.

Lemma destroy_tcp_one task c ctx o :
  task_in task c -> tcp_visit ctx o ->
  destroy_tcp mem task ctx = (0, doomed (tcp_doomed c) o).
Proof.
  unfold destroy_tcp, task_in, tcp_visit, tcp_ctx_sock, tcp_sock_at, netns_at.
  intros -> Hv. destruct o as [[sk i]|]; [|by rewrite Hv].
  destruct Hv as (Hnz & -> & Hns & ->).
  rewrite (proj2 (Z.eqb_neq _ _) Hnz). cbn [doomed]. unfold tcp_doomed.
  destruct (si_netns i) as [inum|]; [|by rewrite Hns].
  destruct Hns as [Hnet ->]. rewrite (proj2 (Z.eqb_neq _ _) Hnet).
  destruct (Z.eqb_spec c inum) as [-> |Hne]; cbn [negb].
  - rewrite bool_decide_eq_true_2 by done. cbn [andb].
    destruct (bool_decide_reflect (si_state i = TCP_LISTEN)) as [-> |Hs]; [done|].
    rewrite (proj2 (Z.eqb_neq _ _)); [done|]. intros E. by apply Hs, tcp_state_code_inj.
  - rewrite bool_decide_eq_false_2; [done|]. congruence.
Qed.

Lemma sock_common_first usk :
  kaddr (kaddr usk struct_udp_sock ["inet"]) struct_inet_sock ["sk"; "__sk_common"] = usk.
Proof.
  unfold kaddr.
  change (off struct_udp_sock ["inet"]) with 0.
  change (off struct_inet_sock ["sk"; "__sk_common"]) with 0. lia.
Qed.

Lemma ntohs_htons x : 0 <= x < 2 ^ 16 -> bpf_ntohs false (bpf_htons false x) = x.
Proof. intros Hx. destruct e; [|done]. by apply bswap_involutive. Qed.

Lemma destroy_udp_one task c ctx o :
  task_in task c -> udp_visit ctx o ->
  destroy_udp mem task ctx = (0, doomed (udp_doomed c) o).
Proof.
  unfold destroy_udp, task_in, udp_visit, udp_ctx_sock, udp_sock_at, netns_at.
  intros -> Hv. destruct o as [[sk i]|]; [|by rewrite Hv].
  destruct Hv as (Hnz & -> & Hns & [inum Ei] & Hr & Hd).
  rewrite (proj2 (Z.eqb_neq _ _) Hnz). rewrite sock_common_first, Hd, ntohs_htons by done.
  rewrite Ei in Hns. destruct Hns as [_ ->]. cbn [doomed]. unfold udp_doomed. rewrite Ei.
  destruct (Z.eqb_spec c inum) as [-> |Hne]; cbn [negb].
  - rewrite bool_decide_eq_true_2 by done. by destruct (si_dport i =? 0).
  - rewrite bool_decide_eq_false_2; [done|]. congruence.
Qed.

(** A program run over the contexts of an iteration. *)
Lemma iterate_exact (visit : Z -> option (Z * sock_info) -> Prop) (prog : Z -> Z * list Z)
    (test : sock_info -> bool) ctxs visits :
  (forall ctx o, visit ctx o -> prog ctx = (0, doomed test o)) ->
  Forall2 visit ctxs visits ->
  map prog ctxs = map (fun o => (0, doomed test o)) visits.
Proof.
  intros Hone. induction 1 as [|ctx o ctxs visits Hv _ IH]; [done|].
  cbn. by rewrite (Hone _ _ Hv), IH.
Qed.
End spec.

(** What a whole iteration destroys, in order. *)
Definition destroyed (runs : list (Z * list Z)) : list Z := concat (map snd runs).

Lemma destroyed_doomed test visits sk :
  sk ∈ destroyed (map (fun o => (0, doomed test o)) visits) <->
  exists i, Some (sk, i) ∈ visits /\ test i = true.
Proof.
  unfold destroyed. rewrite map_map. cbn [snd]. induction visits as [|[[sk' i']|] visits IH]; cbn.
  - split; [by intros ?%elem_of_nil|]. intros (i & ?%elem_of_nil & _). done.
  - rewrite elem_of_app, IH. split.
    + intros [Hin|(i & Hin & Ht)].
      * destruct (test i') eqn:Et; [|by apply elem_of_nil in Hin].
        apply list_elem_of_singleton in Hin as ->. exists i'. split; [left|done].
      * exists i. split; [by right|done].
    + intros (i & Hin & Ht). apply elem_of_cons in Hin as [[= -> ->]|Hin]; [left|right; eauto].
      rewrite Ht. left.
  - rewrite IH. split; intros (i & Hin & Ht); exists i; (split; [|done]); [by right|].
    by apply elem_of_cons in Hin as [?|Hin].
Qed.

(** C35: iterating [destroy_tcp] over the sockets of the system destroys exactly
    the TCP sockets of the calling task's network namespace that are not
    listening; each run returns zero, and the final NULL socket and sockets
    without a namespace are harmless. *)
Theorem destroy_tcp_exact (e : endianness) (mem : kmem) (task c : Z) (ctxs : list Z)
    (visits : list (option (Z * sock_info))) :
  task_in mem task c -> Forall2 (tcp_visit mem) ctxs visits ->
  Forall (fun run => run.1 = 0) (map (destroy_tcp mem task) ctxs) /\
  forall sk, sk ∈ destroyed (map (destroy_tcp mem task) ctxs) <->
    exists i, Some (sk, i) ∈ visits /\ si_netns i = Some c /\ si_state i <> TCP_LISTEN.
Proof.
  intros Ht Hv.
  rewrite (iterate_exact (tcp_visit mem) _ (tcp_doomed c) ctxs visits
    (fun ctx o => destroy_tcp_one mem task c ctx o Ht) Hv).
  split; [apply Forall_map, Forall_true; done|]. intros sk. rewrite destroyed_doomed.
  f_equiv. intros i. f_equiv. unfold tcp_doomed.
  rewrite andb_true_iff, negb_true_iff, bool_decide_eq_true, bool_decide_eq_false. done.
Qed.

(** C36: likewise [destroy_udp] destroys exactly the UDP sockets of the task's
    namespace that are connected to a peer (whose destination port is not
    zero). *)
Theorem destroy_udp_exact (e : endianness) (mem : kmem) (task c : Z) (ctxs : list Z)
    (visits : list (option (Z * sock_info))) :
  task_in mem task c -> Forall2 (udp_visit mem) ctxs visits ->
  Forall (fun run => run.1 = 0) (map (destroy_udp mem task) ctxs) /\
  forall sk, sk ∈ destroyed (map (destroy_udp mem task) ctxs) <->
    exists i, Some (sk, i) ∈ visits /\ si_netns i = Some c /\ si_dport i <> 0.
Proof.
  intros Ht Hv.
  rewrite (iterate_exact (udp_visit mem) _ (udp_doomed c) ctxs visits
    (fun ctx o => destroy_udp_one mem task c ctx o Ht) Hv).
  split; [apply Forall_map, Forall_true; done|]. intros sk. rewrite destroyed_doomed.
  f_equiv. intros i. f_equiv. unfold udp_doomed.
  rewrite andb_true_iff, negb_true_iff, bool_decide_eq_true, Z.eqb_neq. done.
Qed.

(** ** A concrete kernel memory *)

(** Memory that holds the given byte strings and is zero elsewhere. *)
Fixpoint kmem_of (segs : list (Z * list byte)) : kmem := fun a =>
  match segs with
  | [] => Init.Byte.x00
  | (base, bs) :: segs =>
      if (base <=? a) && (a <? base + Z.of_nat (length bs))
      then nth (Z.to_nat (a - base)) bs Init.Byte.x00 else kmem_of segs a
  end.

Definition seg (p : Z) (t : ctype) (path : list string) (v : Z) : Z * list byte :=
  (p + off t path, to_bytes LE (Z.to_nat (fld_size t path)) v).

(** A task of namespace 4026531840 with an established and a listening TCP
    socket, a UDP client and a UDP server. *)
Definition demo_mem : kmem := kmem_of
  [seg 4096 struct_task_struct ["nsproxy"] 65536; seg 65536 struct_nsproxy ["net_ns"] 131072;
   seg 131072 struct_net ["ns"; "inum"] 4026531840;
   seg 262144 struct_sock_common ["skc_net"; "net"] 131072;
   seg 262144 struct_sock_common ["skc_state"] 1;
   seg 262144 struct_sock_common ["skc_dport"] 13568;
   seg 327680 struct_sock_common ["skc_net"; "net"] 131072;
   seg 327680 struct_sock_common ["skc_state"] 10;
   seg 393216 struct_bpf_iter__tcp ["sk_common"] 262144;
   seg 393472 struct_bpf_iter__tcp ["sk_common"] 327680;
   seg 393728 struct_bpf_iter__udp ["udp_sk"] 262144;
   seg 393984 struct_bpf_iter__udp ["udp_sk"] 327680].

Definition demo_client : sock_info :=
  {| si_netns := Some 4026531840; si_state := TCP_ESTABLISHED; si_dport := 53 |}.
Definition demo_server : sock_info :=
  {| si_netns := Some 4026531840; si_state := TCP_LISTEN; si_dport := 0 |}.

Definition demo_visits : list (option (Z * sock_info)) :=
  [Some (262144, demo_client); Some (327680, demo_server); None].

Lemma destroy_tcp_exact_witness :
  262144 ∈ destroyed (map (destroy_tcp (e := LE) demo_mem 4096) [393216; 393472; 0]).
Proof.
  refine (proj2 (proj2 (destroy_tcp_exact LE demo_mem 4096 4026531840 [393216; 393472; 0]
    demo_visits _ _) 262144) _).
  - vm_compute. reflexivity.
  - repeat constructor; vm_compute; (reflexivity || discriminate).
  - exists demo_client. split; [left|split; [reflexivity|discriminate]].
Defined.

Lemma destroy_udp_exact_witness :
  262144 ∈ destroyed (map (destroy_udp (e := LE) demo_mem 4096) [393728; 393984; 0]).
Proof.
  refine (proj2 (proj2 (destroy_udp_exact LE demo_mem 4096 4026531840 [393728; 393984; 0]
    demo_visits _ _) 262144) _).
  - vm_compute. reflexivity.
  - repeat constructor; vm_compute; try (reflexivity || discriminate); by eexists.
  - exists demo_client. split; [left|split; [reflexivity|discriminate]].
Defined.
