(* ===== verification/Chain.v ===== *)
(** * The programs together: safety and program chains

    No tc program of the datapath faults, whatever the helpers do; and the
    chains in which the kernel runs them. *)

From S2P Require Import Prelude Endian Csum CLayout Helpers RefHelpers CTypes VmPacket Packet Samples NetHelpers Arp Dnat Snat Tproxy.

(** ** Safety *)

(** The type of [struct dnat_target] gives every MAC address six bytes. *)
Definition maps_wf (m : bpf_maps) : Prop :=
  map_Forall (fun _ tgt => length (dnat_mac_addr tgt) = 6%nat) (ptp_dnat_targets m).

(** The verdicts a program ends a packet's processing with: its own constants,
    or what a redirect helper returned. *)
Definition final_verdict {H : BpfHelpers} (v : Z) : Prop :=
  v = TC_ACT_OK \/ v = TC_ACT_SHOT \/
  (exists t skb i f, v = h_redirect t skb i f) \/
  (exists t skb i f, v = h_redirect_peer t skb i f) \/
  (exists t skb i p f, v = h_redirect_neigh t skb i p f).

(** A program that ran in [s] has given a final verdict, or has left a packet
    that is not its own alone. *)
Definition tc_post {H : BpfHelpers} (own : Prop) (s : state) (v : Z) (s' : state) : Prop :=
  final_verdict v \/ (v = TC_ACT_UNSPEC /\ ~ own /\ s' = s).

Section safety.
Context {e : endianness} {H : BpfHelpers}.

Lemma wp_rewrite_ip_addr_any new o proto Q s :
  (forall s', st_maps s' = st_maps s -> Q tt s') -> wp (rewrite_ip_addr new o proto) Q s.
Proof.
  intros HQ. unfold rewrite_ip_addr.
  apply wp_bind, wp_load_any. intros r bs. apply wp_bind, wp_store_any. intros r1 k1.
  apply wp_bind, wp_l3_any. intros r2 k2. apply wp_bind.
  destruct (proto =? IPPROTO_TCP); [apply wp_bind, wp_l4_any; intros r3 k3|]; apply wp_ret;
    (destruct (proto =? IPPROTO_UDP); [apply wp_bind, wp_l4_any; intros r4 k4|];
     by apply wp_ret, HQ).
Qed.

Lemma wp_rewrite_port_any new o proto Q s :
  (forall s', st_maps s' = st_maps s -> Q tt s') -> wp (rewrite_port new o proto) Q s.
Proof.
  intros HQ. unfold rewrite_port.
  apply wp_bind, wp_load_any. intros r bs. apply wp_bind, wp_store_any. intros r1 k1.
  destruct (proto =? IPPROTO_TCP); [apply wp_bind, wp_l4_any; intros r3 k3; by apply wp_ret, HQ|].
  destruct (proto =? IPPROTO_UDP); [apply wp_bind, wp_l4_any; intros r4 k4|]; by apply wp_ret, HQ.
Qed.

Lemma wp_get_port_any to uo proto Q s :
  (forall v, Q v s) -> (forall v c, Q v (log_call c s)) -> wp (get_port to uo proto) Q s.
Proof.
  intros HQ1 HQ2. unfold get_port.
  destruct (proto =? IPPROTO_TCP); [apply wp_bind, wp_load_any; intros r3 k3; apply wp_ret, HQ2|].
  destruct (proto =? IPPROTO_UDP); [apply wp_bind, wp_load_any; intros r4 k4|]; apply wp_ret; auto.
Qed.

Lemma wp_redirect_final i f own s0 s : wp (bpf_redirect i f) (tc_post own s0) s.
Proof. left. right. right. left. eauto. Qed.
Lemma wp_redirect_peer_final i f own s0 s : wp (bpf_redirect_peer i f) (tc_post own s0) s.
Proof. left. right. right. right. left. eauto. Qed.
Lemma wp_redirect_neigh_final i p f own s0 s :
  wp (bpf_redirect_neigh i p f) (tc_post own s0) s.
Proof. left. right. right. right. right. eauto 6. Qed.

Lemma parse_ethhdr_cases s :
  parse_ethhdr (start s) (limit s) = (-1, start s, None) /\ skb_headlen (st_skb s) < 14 \/
  parse_ethhdr (start s) (limit s) = (0, {| p_off := 14; p_gen := st_gen s |}, Some (start s)) /\
  14 <= skb_headlen (st_skb s).
Proof.
  destruct (Z.lt_ge_cases (skb_headlen (st_skb s)) 14).
  - left. split; [by apply parse_ethhdr_short|done].
  - right. split; [by apply parse_ethhdr_ok|done].
Qed.
End safety.

(** One step of a program through the rules that assume nothing of a helper. *)
Ltac wp_any1 :=
  lazymatch goal with
  | |- wp (mbind _ _) _ _ => apply wp_bind
  | |- wp (mret _) _ _ => apply wp_ret
  | |- wp (bpf_redirect _ _) _ _ => apply wp_redirect_final
  | |- wp (bpf_redirect_peer _ _) _ _ => apply wp_redirect_peer_final
  | |- wp (bpf_redirect_neigh _ _ _) _ _ => apply wp_redirect_neigh_final
  | |- wp ctx_data _ _ => apply wp_ctx_data
  | |- wp ctx_data_end _ ?s => apply wp_ctx_data_end; fold (start s); fold (limit s)
  | |- wp ctx_protocol _ _ => apply wp_ctx_protocol
  | |- wp ctx_ifindex _ _ => apply wp_ctx_ifindex
  | |- wp (bpf_skb_load_bytes _ _) _ _ => apply wp_load_any; intros ? ?
  | |- wp (bpf_skb_store_bytes _ _ _) _ _ => apply wp_store_any; intros ? ?
  | |- wp (bpf_l3_csum_replace _ _ _ _) _ _ => apply wp_l3_any; intros ? ?
  | |- wp (bpf_l4_csum_replace _ _ _ _) _ _ => apply wp_l4_any; intros ? ?
  | |- wp (bpf_map_lookup_elem ?m ?k) _ ?s =>
      apply wp_map_lookup; destruct (m (st_maps s) !! k) eqn:?
  | |- wp (bpf_map_update_elem _ _ _) _ _ => apply wp_map_update_any; intros ? ?
  | |- wp (bpf_printk _ _) _ _ => apply wp_printk
  | |- wp (rewrite_ip_addr _ _ _) _ _ => apply wp_rewrite_ip_addr_any; intros ? ?
  | |- wp (rewrite_port _ _ _) _ _ => apply wp_rewrite_port_any; intros ? ?
  | |- wp (get_port _ _ _) _ _ => apply wp_get_port_any; intros
  | |- wp (memcpy_from _ _ _ _) _ _ =>
      apply wp_pkt_read; [reflexivity|norm_flds; cbn; lia..|]
  | |- wp (memcpy_to _ _ _ _) _ _ =>
      apply wp_pkt_write; [reflexivity|norm_flds; cbn; lia|norm_flds; cbn [ptr_add p_off start]|]
  | |- wp (ld _ _ _) _ _ => apply wp_ld; [reflexivity|norm_flds; cbn; lia..|]
  | |- wp (if ptr_gtb _ _ then _ else _) _ _ =>
      rewrite ip_bounds; case Z.ltb_spec; intros ?
  | |- wp (if ?b then _ else _) _ _ => destruct b
  end; cbv beta zeta.


Ltac verdict := left; first [left; reflexivity | right; left; reflexivity].

(** Runs a program to its end, leaving the goals about direct packet writes. *)
Ltac wp_any := repeat wp_any1; try verdict.

Section programs.
Context {e : endianness} {H : BpfHelpers}.

Lemma arp_safe s : wp arp (tc_post (is_arp s) s) s.
Proof.
  unfold arp. do 6 wp_any1.
  destruct (Z.eqb_spec (skb_protocol (st_skb s)) (bpf_htons true ETH_P_ARP)).
  2: { apply wp_ret. by right. }
  cbn [negb]. destruct (parse_ethhdr_cases s) as [[-> Hh]|[-> Hh]]; cbn [negb Z.eqb].
  { apply wp_ret. verdict. }
  wp_any.
  - unfold slice. rewrite length_take. lia.
  - cbn. lia.
Qed.

Lemma snat_safe s : wp snat (tc_post (is_ip s) s) s.
Proof.
  unfold snat. do 6 wp_any1.
  destruct (Z.eqb_spec (skb_protocol (st_skb s)) (bpf_htons true ETH_P_IP)).
  2: { apply wp_ret. by right. }
  cbn [negb]. wp_any.
Qed.

Lemma dnat_safe s : maps_wf (st_maps s) -> wp dnat (tc_post True s) s.
Proof.
  intros Hwf. unfold dnat. wp_any.
  destruct (parse_ethhdr_cases s) as [[-> Hh]|[-> Hh]]; cbn [negb Z.eqb]; wp_any.
  apply map_Forall_lookup_1 with (1 := Hwf) in Heqo. cbn [log_call st_skb]. lia.
Qed.

Lemma ctr_peer_egress_safe s : wp ctr_peer_egress (tc_post True s) s.
Proof. unfold ctr_peer_egress. wp_any. Qed.

Lemma arp_not_ip s : is_arp s -> ~ is_ip s.
Proof. unfold is_arp, is_ip. intros ->. by destruct e. Qed.

Lemma host_peer_egress_safe s : wp host_peer_egress (tc_post True s) s.
Proof. unfold host_peer_egress. wp_any. Qed.
End programs.

(** ** Program chains

    snat and arp share the ingress hook of a workload's host-side interface.
    The kernel runs the programs attached to a hook in order; the verdict
    [TC_ACT_UNSPEC] ([TCX_NEXT]) passes the packet on to the next one and any
    other ends the chain.  The comments in snat.c and arp.c rely on this. *)

Class TcxChain (run : list (M Z) -> M Z) : Prop := {
  run_nil s : run [] s = Some (TC_ACT_UNSPEC, s);
  run_cons p ps s :
    run (p :: ps) s = match p s with
                      | Some (v, s') => if v =? TC_ACT_UNSPEC then run ps s' else Some (v, s')
                      | None => None
                      end;
}.

Fixpoint tcx_run (ps : list (M Z)) : M Z := fun s =>
  match ps with
  | [] => Some (TC_ACT_UNSPEC, s)
  | p :: ps =>
      match p s with
      | Some (v, s') => if v =? TC_ACT_UNSPEC then tcx_run ps s' else Some (v, s')
      | None => None
      end
  end.

#[global] Instance tcx_run_chain : TcxChain tcx_run.
Proof. split; reflexivity. Qed.

Section chain.
Context {e : endianness} {H : BpfHelpers} {L : BpfHelperLaws e H}.
Context {run : list (M Z) -> M Z} {C : TcxChain run}.

Lemma final_not_unspec v : final_verdict v -> v <> TC_ACT_UNSPEC.
Proof using L.
  intros [-> | [-> | [(t & skb & i & f & ->) | [(t & skb & i & f & ->) | (t & skb & i & p & f & ->)]]]].
  - done.
  - done.
  - by destruct (redirect_ret t skb i f) as [-> | ->].
  - by destruct (redirect_peer_ret t skb i f) as [-> | ->].
  - by destruct (redirect_neigh_ret t skb i p f) as [-> | ->].
Qed.

Lemma run_single p own s :
  wp p (tc_post own s) s -> run [p] s = p s.
Proof using C.
  intros (v & s' & E & _)%wp_elim. rewrite run_cons, E, run_nil.
  destruct (Z.eqb_spec v TC_ACT_UNSPEC) as [-> |]; done.
Qed.

(** A program that owns the packet ends the chain. *)
Lemma run_owner p ps own s :
  own -> wp p (tc_post own s) s -> run (p :: ps) s = p s.
Proof using C L.
  intros Hown (v & s' & E & Hpost)%wp_elim. rewrite run_cons, E.
  destruct Hpost as [Hf|(_ & ? & _)]; [|done].
  by rewrite (proj2 (Z.eqb_neq _ _) (final_not_unspec _ Hf)).
Qed.

Lemma run_pass p ps s : p s = Some (TC_ACT_UNSPEC, s) -> run (p :: ps) s = run ps s.
Proof using C. intros E. by rewrite run_cons, E. Qed.

Lemma chain_dispatch ps s :
  ps = [snat; arp] \/ ps = [arp; snat] ->
  (is_arp s -> run ps s = arp s) /\ (is_ip s -> run ps s = snat s) /\
  (~ is_arp s -> ~ is_ip s -> run ps s = Some (TC_ACT_UNSPEC, s)).
Proof using C L.
  intros Hps. split; [|split].
  - intros Ha. pose proof (arp_not_ip s Ha) as Hi. destruct Hps as [-> | ->].
    + rewrite run_pass by (by apply snat_unspec). eapply run_single, arp_safe.
    + by apply (run_owner _ _ (is_arp s)), arp_safe.
  - intros Hi. assert (~ is_arp s) as Ha by (intros Ha; by apply (arp_not_ip s)).
    destruct Hps as [-> | ->].
    + by apply (run_owner _ _ (is_ip s)), snat_safe.
    + rewrite run_pass by (by apply arp_unspec). eapply run_single, snat_safe.
  - intros Ha Hi. pose proof (snat_unspec s Hi) as E1. pose proof (arp_unspec s Ha) as E2.
    destruct Hps as [-> | ->].
    + rewrite (run_pass snat [arp] s E1). etransitivity; [exact (run_pass arp [] s E2)|apply run_nil].
    + rewrite (run_pass arp [snat] s E2). etransitivity; [exact (run_pass snat [] s E1)|apply run_nil].
Qed.
End chain.

(** C4: no tc program of the datapath makes an invalid packet access, whatever
    the kernel helpers return and however long the packet is: every program
    ends with a verdict that is one of its constants or the result of a
    redirect helper, and [TC_ACT_UNSPEC] is only returned by arp and snat, for
    packets that are not theirs and with nothing changed. *)
Theorem tc_programs_safe (e : endianness) (H : BpfHelpers) (s : state) :
  maps_wf (st_maps s) ->
  wp arp (tc_post (is_arp s) s) s /\ wp snat (tc_post (is_ip s) s) s /\
  wp dnat (tc_post True s) s /\
  wp ctr_peer_egress (tc_post True s) s /\ wp host_peer_egress (tc_post True s) s.
Proof.
  intros Hwf. split; [apply arp_safe|]. split; [apply snat_safe|].
  split; [by apply dnat_safe|]. split; [apply ctr_peer_egress_safe|apply host_peer_egress_safe].
Qed.

Lemma tc_programs_safe_witness :
  wp (dnat (e := BE) (H := ref_helpers BE))
     (tc_post (H := ref_helpers BE) True (arriving BE ETH_P_IP demo_dnat_maps [])) 
     (arriving BE ETH_P_IP demo_dnat_maps []).
Proof.
  refine (proj1 (proj2 (proj2 (tc_programs_safe BE (ref_helpers BE)
    (arriving BE ETH_P_IP demo_dnat_maps []) _)))).
  intros i x Hx. change (({[30001 := demo_target]} : gmap Z dnat_target) !! i = Some x) in Hx.
  apply lookup_singleton_Some in Hx as [_ <-]. reflexivity.
Defined.

(** C38: on the ingress hook that snat and arp share, the order in which they
    were attached does not matter: IPv4 packets get snat's treatment, ARP
    packets arp's, and everything else is left to the network stack. *)
Theorem ingress_chain (e : endianness) (H : BpfHelpers) (L : BpfHelperLaws e H)
    (run : list (M Z) -> M Z) (C : TcxChain run) (s : state) :
  run [snat; arp] s = run [arp; snat] s /\
  (is_arp s -> run [arp; snat] s = arp s) /\ (is_ip s -> run [arp; snat] s = snat s) /\
  (~ is_arp s -> ~ is_ip s -> run [arp; snat] s = Some (TC_ACT_UNSPEC, s)).
Proof.
  destruct (chain_dispatch [snat; arp] s ltac:(auto)) as (Ha1 & Hi1 & Hn1).
  destruct (chain_dispatch [arp; snat] s ltac:(auto)) as (Ha2 & Hi2 & Hn2).
  split; [|done].
  destruct (Z.eq_dec (skb_protocol (st_skb s)) (bpf_htons true ETH_P_ARP)) as [Ha|Ha];
    [by rewrite Ha1, Ha2|].
  destruct (Z.eq_dec (skb_protocol (st_skb s)) (bpf_htons true ETH_P_IP)) as [Hi|Hi];
    [by rewrite Hi1, Hi2|]. by rewrite Hn1, Hn2.
Qed.

Lemma ingress_chain_witness :
  tcx_run [snat (e := LE) (H := ref_helpers LE); arp (e := LE) (H := ref_helpers LE)]
    (arriving LE ETH_P_ARP no_maps frame_arp_request)
  = tcx_run [arp (e := LE) (H := ref_helpers LE); snat (e := LE) (H := ref_helpers LE)]
      (arriving LE ETH_P_ARP no_maps frame_arp_request).
Proof.
  exact (proj1 (ingress_chain LE (ref_helpers LE) (ref_laws LE) tcx_run tcx_run_chain
    (arriving LE ETH_P_ARP no_maps frame_arp_request))).
Defined.
