(* ===== verification/MapDefs.v ===== *)
(** * The BPF maps: definitions and value layouts

    The maps the programs declare, the C structs of their values, and the Go
    structs through which the control plane writes them.  The theorem at the
    end says that what Go writes is what C reads. *)

From S2P Require Import Prelude Endian CLayout Helpers CTypes VmPacket NetHelpers.

(** ** Declarations *)

Inductive bpf_map_type := BPF_MAP_TYPE_HASH | BPF_MAP_TYPE_LRU_HASH.

(** The numbers of [enum bpf_map_type] *)
Definition bpf_map_type_code (t : bpf_map_type) : Z :=
  match t with BPF_MAP_TYPE_HASH => 1 | BPF_MAP_TYPE_LRU_HASH => 9 end.

(** [LIBBPF_PIN_BY_NAME] for [md_pinning] *)
Record map_def := {
  md_type : bpf_map_type;
  md_key : ctype;
  md_value : ctype;
  md_max_entries : Z;
  md_pinned_by_name : bool;
}.

(** C structs of the values *)
Definition struct_ptp_snat_entry : ctype := struct{
  Fld "ip_addr" __u32;
  Fld "iface_idx" __u8 }.

Definition struct_dnat_target : ctype := struct{
  Fld "ip_addr" __u32;
  Fld "iface_idx" __u8;
  Fld "mac_addr" (TArr __u8 ETH_ALEN) }.

Definition struct_veth_peer : ctype := struct{
  Fld "if_index" __u32;
  Fld "if_addr" __be32;
  Fld "mac_addr" (TArr __u8 ETH_ALEN) }.

Definition struct_net_data : ctype := struct{
  Fld "pod_peer" struct_veth_peer;
  Fld "host_peer" struct_veth_peer;
  Fld "host_port" __u16 }.

Definition struct_veth_pair : ctype := struct{
  Fld "host_if_index" __u32;
  Fld "host_if_addr" __be32 }.

Definition struct_original_dst_entry : ctype := struct{
  Fld "ip_addr" __be32;
  Fld "port" __be16 }.

Definition ptp_snat_config_def : map_def :=
  {| md_type := BPF_MAP_TYPE_HASH; md_key := __u8; md_value := struct_ptp_snat_entry;
     md_max_entries := 1; md_pinned_by_name := true |}.

Definition ptp_dnat_targets_def : map_def :=
  {| md_type := BPF_MAP_TYPE_HASH; md_key := __u16; md_value := struct_dnat_target;
     md_max_entries := 256; md_pinned_by_name := true |}.

Definition net_data_map_def : map_def :=
  {| md_type := BPF_MAP_TYPE_HASH; md_key := __u32; md_value := struct_net_data;
     md_max_entries := 256; md_pinned_by_name := true |}.

Definition veth_pair_map_def : map_def :=
  {| md_type := BPF_MAP_TYPE_HASH; md_key := __u32; md_value := struct_veth_pair;
     md_max_entries := 256; md_pinned_by_name := true |}.

Definition original_dst_map_def : map_def :=
  {| md_type := BPF_MAP_TYPE_LRU_HASH; md_key := __u64; md_value := struct_original_dst_entry;
     md_max_entries := 10000; md_pinned_by_name := true |}.

(** ** The Go structs *)

Definition go_uint8 : ctype := TInt 1.
Definition go_uint16 : ctype := TInt 2.
Definition go_uint32 : ctype := TInt 4.

Definition snatPtpSnatEntry : ctype := struct{
  Fld "IpAddr" go_uint32;
  Fld "IfaceIdx" go_uint8;
  Fld "_" (TArr go_uint8 3) }.

Definition dnatDnatTarget : ctype := struct{
  Fld "IpAddr" go_uint32;
  Fld "IfaceIdx" go_uint8;
  Fld "MacAddr" (TArr go_uint8 6);
  Fld "_" (TArr go_uint8 1) }.

Definition dnatNetData_peer : ctype := struct{
  Fld "IfIndex" go_uint32;
  Fld "IfAddr" go_uint32;
  Fld "MacAddr" (TArr go_uint8 6);
  Fld "_" (TArr go_uint8 2) }.

Definition dnatNetData : ctype := struct{
  Fld "PodPeer" dnatNetData_peer;
  Fld "HostPeer" dnatNetData_peer;
  Fld "HostPort" go_uint16;
  Fld "_" (TArr go_uint8 2) }.

Definition tproxyOriginalDstEntry : ctype := struct{
  Fld "IpAddr" go_uint32;
  Fld "Port" go_uint16;
  Fld "_" (TArr go_uint8 2) }.

Definition tproxyVethPair : ctype := struct{
  Fld "HostIfIndex" go_uint32;
  Fld "HostIfAddr" go_uint32 }.

(** ** Values in memory *)

Definition put (t : ctype) (path : list string) (bs buf : list byte) : list byte :=
  splice (Z.to_nat (off t path)) bs buf.

Definition get (t : ctype) (path : list string) (buf : list byte) : list byte :=
  slice (Z.to_nat (off t path)) (Z.to_nat (fld_size t path)) buf.

Definition zeros (t : ctype) : list byte := replicate (Z.to_nat (sizeof t)) Init.Byte.x00.

Section values.
Context {e : endianness}.

(** How the control plane serialises a value: in the layout of the Go struct,
    integers in native order. *)
Definition go_snat_entry (v : ptp_snat_entry) : list byte :=
  put snatPtpSnatEntry ["IfaceIdx"] (to_bytes e 1 (snat_iface_idx v))
    (put snatPtpSnatEntry ["IpAddr"] (to_bytes e 4 (snat_ip_addr v)) (zeros snatPtpSnatEntry)).

Definition go_dnat_target (v : dnat_target) : list byte :=
  put dnatDnatTarget ["MacAddr"] (dnat_mac_addr v)
    (put dnatDnatTarget ["IfaceIdx"] (to_bytes e 1 (dnat_iface_idx v))
      (put dnatDnatTarget ["IpAddr"] (to_bytes e 4 (dnat_ip_addr v)) (zeros dnatDnatTarget))).

Definition go_peer (peer : string) (v : veth_peer) (buf : list byte) : list byte :=
  put dnatNetData [peer; "MacAddr"] (mac_addr v)
    (put dnatNetData [peer; "IfAddr"] (to_bytes e 4 (if_addr v))
      (put dnatNetData [peer; "IfIndex"] (to_bytes e 4 (if_index v)) buf)).

Definition go_net_data (v : net_data) : list byte :=
  put dnatNetData ["HostPort"] (to_bytes e 2 (host_port v))
    (go_peer "HostPeer" (host_peer v) (go_peer "PodPeer" (pod_peer v) (zeros dnatNetData))).

Definition go_veth_pair (v : veth_pair) : list byte :=
  put tproxyVethPair ["HostIfAddr"] (to_bytes e 4 (host_if_addr v))
    (put tproxyVethPair ["HostIfIndex"] (to_bytes e 4 (host_if_index v)) (zeros tproxyVethPair)).

(** How the C programs read a value, and how tproxy.c writes one. *)
Definition c_snat_entry (buf : list byte) : ptp_snat_entry :=
  {| snat_ip_addr := of_bytes e (get struct_ptp_snat_entry ["ip_addr"] buf);
     snat_iface_idx := of_bytes e (get struct_ptp_snat_entry ["iface_idx"] buf) |}.

Definition c_dnat_target (buf : list byte) : dnat_target :=
  {| dnat_ip_addr := of_bytes e (get struct_dnat_target ["ip_addr"] buf);
     dnat_iface_idx := of_bytes e (get struct_dnat_target ["iface_idx"] buf);
     dnat_mac_addr := get struct_dnat_target ["mac_addr"] buf |}.

Definition c_peer (peer : string) (buf : list byte) : veth_peer :=
  {| if_index := of_bytes e (get struct_net_data [peer; "if_index"] buf);
     if_addr := of_bytes e (get struct_net_data [peer; "if_addr"] buf);
     mac_addr := get struct_net_data [peer; "mac_addr"] buf |}.

Definition c_net_data (buf : list byte) : net_data :=
  {| pod_peer := c_peer "pod_peer" buf; host_peer := c_peer "host_peer" buf;
     host_port := of_bytes e (get struct_net_data ["host_port"] buf) |}.

Definition c_veth_pair (buf : list byte) : veth_pair :=
  {| host_if_index := of_bytes e (get struct_veth_pair ["host_if_index"] buf);
     host_if_addr := of_bytes e (get struct_veth_pair ["host_if_addr"] buf) |}.

Definition c_put_original_dst (v : original_dst_entry) : list byte :=
  put struct_original_dst_entry ["ip_addr"] (to_bytes e 4 (od_ip_addr v))
    (put struct_original_dst_entry ["port"] (to_bytes e 2 (od_port v))
      (zeros struct_original_dst_entry)).

Definition c_original_dst (buf : list byte) : original_dst_entry :=
  {| od_ip_addr := of_bytes e (get struct_original_dst_entry ["ip_addr"] buf);
     od_port := of_bytes e (get struct_original_dst_entry ["port"] buf) |}.
End values.

(** The values a program can hold. *)
Definition u8 (x : Z) : Prop := 0 <= x < 256.
Definition u16 (x : Z) : Prop := 0 <= x < 65536.
Definition u32 (x : Z) : Prop := 0 <= x < 4294967296.

Definition snat_entry_ok (v : ptp_snat_entry) : Prop :=
  u32 (snat_ip_addr v) /\ u8 (snat_iface_idx v).
Definition dnat_target_ok (v : dnat_target) : Prop :=
  u32 (dnat_ip_addr v) /\ u8 (dnat_iface_idx v) /\ length (dnat_mac_addr v) = 6%nat.
Definition peer_ok (v : veth_peer) : Prop :=
  u32 (if_index v) /\ u32 (if_addr v) /\ length (mac_addr v) = 6%nat.
Definition net_data_ok (v : net_data) : Prop :=
  peer_ok (pod_peer v) /\ peer_ok (host_peer v) /\ u16 (host_port v).
Definition veth_pair_ok (v : veth_pair) : Prop :=
  u32 (host_if_index v) /\ u32 (host_if_addr v).
Definition original_dst_ok (v : original_dst_entry) : Prop :=
  u32 (od_ip_addr v) /\ u16 (od_port v).

(** Evaluates the offsets and sizes of the value structs. *)
Ltac eval_layout :=
  repeat match goal with
  | |- context [Z.to_nat (off ?t ?p)] =>
      let v := eval vm_compute in (Z.to_nat (off t p)) in change (Z.to_nat (off t p)) with v
  | |- context [Z.to_nat (fld_size ?t ?p)] =>
      let v := eval vm_compute in (Z.to_nat (fld_size t p)) in
      change (Z.to_nat (fld_size t p)) with v
  | |- context [zeros ?t] =>
      let v := eval vm_compute in (Z.to_nat (sizeof t)) in
      change (zeros t) with (replicate v Init.Byte.x00)
  | |- context [sizeof ?t] => let v := eval vm_compute in (sizeof t) in change (sizeof t) with v
  end.

Ltac layout_roundtrip :=
  unfold put, get; eval_layout; slices; rewrite ?of_to_bytes;
  rewrite ?Z.mod_small by (unfold u8, u16, u32 in *; lia).

Section roundtrip.
Context {e : endianness}.

Lemma snat_entry_roundtrip v :
  snat_entry_ok v -> c_snat_entry (e := e) (go_snat_entry (e := e) v) = v.
Proof.
  destruct v as [ip idx]. intros [Hip Hidx]. cbn in *. unfold c_snat_entry, go_snat_entry.
  cbn [snat_ip_addr snat_iface_idx]. by f_equal; layout_roundtrip.
Qed.

Lemma dnat_target_roundtrip v :
  dnat_target_ok v -> c_dnat_target (e := e) (go_dnat_target (e := e) v) = v.
Proof.
  destruct v as [ip idx mac]. intros (Hip & Hidx & Hmac). cbn in *.
  unfold c_dnat_target, go_dnat_target. cbn [dnat_ip_addr dnat_iface_idx dnat_mac_addr].
  by f_equal; layout_roundtrip.
Qed.

Lemma net_data_roundtrip v :
  net_data_ok v -> c_net_data (e := e) (go_net_data (e := e) v) = v.
Proof.
  destruct v as [[i1 a1 m1] [i2 a2 m2] port]. intros ((? & ? & ?) & (? & ? & ?) & ?). cbn in *.
  unfold c_net_data, go_net_data, c_peer, go_peer.
  cbn [pod_peer host_peer host_port if_index if_addr mac_addr].
  by f_equal; [f_equal|f_equal|]; layout_roundtrip.
Qed.

Lemma veth_pair_roundtrip v :
  veth_pair_ok v -> c_veth_pair (e := e) (go_veth_pair (e := e) v) = v.
Proof.
  destruct v as [i a]. intros [Hi Ha]. cbn in *. unfold c_veth_pair, go_veth_pair.
  cbn [host_if_index host_if_addr]. by f_equal; layout_roundtrip.
Qed.

Lemma original_dst_entry_roundtrip v :
  original_dst_ok v -> c_original_dst (e := e) (c_put_original_dst (e := e) v) = v.
Proof.
  destruct v as [a p]. intros [Ha Hp]. cbn in *. unfold c_original_dst, c_put_original_dst.
  cbn [od_ip_addr od_port]. by f_equal; layout_roundtrip.
Qed.
End roundtrip.

(** C40: the control plane and the programs agree on the representation of map
    values: a value serialised in the layout of the Go struct that bpf2go
    generated has the size of the C struct and is read back by the C field
    accesses unchanged, on both byte orders; an original destination that
    tproxy.c stores is read back unchanged, too. *)
Theorem map_values_agree (e : endianness) (sn : ptp_snat_entry) (dt : dnat_target)
    (nd : net_data) (vp : veth_pair) (od : original_dst_entry) :
  snat_entry_ok sn -> dnat_target_ok dt -> net_data_ok nd -> veth_pair_ok vp ->
  original_dst_ok od ->
  c_snat_entry (e := e) (go_snat_entry (e := e) sn) = sn /\
  c_dnat_target (e := e) (go_dnat_target (e := e) dt) = dt /\
  c_net_data (e := e) (go_net_data (e := e) nd) = nd /\
  c_veth_pair (e := e) (go_veth_pair (e := e) vp) = vp /\
  c_original_dst (e := e) (c_put_original_dst (e := e) od) = od /\
  Z.of_nat (length (go_snat_entry (e := e) sn)) = sizeof (md_value ptp_snat_config_def) /\
  Z.of_nat (length (go_dnat_target (e := e) dt)) = sizeof (md_value ptp_dnat_targets_def) /\
  Z.of_nat (length (go_net_data (e := e) nd)) = sizeof (md_value net_data_map_def) /\
  Z.of_nat (length (go_veth_pair (e := e) vp)) = sizeof (md_value veth_pair_map_def).
Proof.
  intros Hsn Hdt Hnd Hvp Hod.
  split; [by apply snat_entry_roundtrip|]. split; [by apply dnat_target_roundtrip|].
  split; [by apply net_data_roundtrip|]. split; [by apply veth_pair_roundtrip|].
  split; [by apply original_dst_entry_roundtrip|].
  destruct Hdt as (_ & _ & Hm). destruct Hnd as ((_ & _ & Hm1) & (_ & _ & Hm2) & _).
  cbn [md_value ptp_snat_config_def ptp_dnat_targets_def net_data_map_def veth_pair_map_def].
  unfold go_snat_entry, go_dnat_target, go_net_data, go_peer, go_veth_pair, put.
  eval_layout. repeat split; slen.
Qed.

Lemma map_values_agree_witness :
  let dt := {| dnat_ip_addr := 167772163; dnat_iface_idx := 7; dnat_mac_addr := host_peer_mac |} in
  c_dnat_target (e := BE) (go_dnat_target (e := BE) dt) = dt.
Proof.
  cbv zeta.
  refine (proj1 (proj2 (map_values_agree BE {| snat_ip_addr := 1; snat_iface_idx := 2 |}
    {| dnat_ip_addr := 167772163; dnat_iface_idx := 7; dnat_mac_addr := host_peer_mac |}
    {| pod_peer := {| if_index := 8; if_addr := 167772163; mac_addr := host_peer_mac |};
       host_peer := {| if_index := 7; if_addr := 167772162; mac_addr := host_peer_mac |};
       host_port := 30001 |}
    {| host_if_index := 7; host_if_addr := 167772162 |}
    {| od_ip_addr := 1572395042; od_port := 80 |} _ _ _ _ _))).
  - repeat split; vm_compute; (discriminate || reflexivity).
  - repeat split; vm_compute; (discriminate || reflexivity).
  - repeat split; vm_compute; (discriminate || reflexivity).
  - repeat split; vm_compute; (discriminate || reflexivity).
  - repeat split; vm_compute; (discriminate || reflexivity).
Defined.
