(* ===== verification/Abi.v ===== *)
(** * The binary interface to the kernel

    The struct layouts and numbers that the compiled programs have in common
    with the kernel: every member of the structs the programs access is inside
    its struct, aligned, and disjoint from its siblings; the helper numbers,
    verdicts, protocol numbers and socket states are those of vmlinux.h. *)

From S2P Require Import Prelude Endian CLayout Helpers CTypes VmPacket VmSock VmNetns VmTask VmEnums NetHelpers Sock MapDefs.

(** The structs of vmlinux.h that the programs access, and those of the map
    values. *)
Definition accessed_structs : list ctype :=
  [struct_ethhdr; struct_iphdr; struct_tcphdr; struct_udphdr; struct___sk_buff;
   struct_bpf_sockopt; struct_bpf_sock; struct_bpf_sock_addr; struct_sockaddr_in;
   struct_bpf_iter__tcp; struct_bpf_iter__udp; struct_bpf_iter_meta;
   struct_sock_common; struct_sock; struct_inet_sock; struct_udp_sock;
   struct_nsproxy; struct_net; struct_task_struct;
   struct_ptp_snat_entry; struct_dnat_target; struct_veth_peer; struct_net_data;
   struct_veth_pair; struct_original_dst_entry].

Lemma accessed_wf t : t ∈ accessed_structs -> wf t = true.
Proof.
  intros Hin. assert (forallb wf accessed_structs = true) as Hall by (vm_compute; reflexivity).
  rewrite forallb_forall in Hall. apply Hall. by apply list_elem_of_In.
Qed.

Lemma accessed_natural t : t ∈ accessed_structs -> natural t = true.
Proof.
  intros Hin. assert (forallb natural accessed_structs = true) as Hall by (vm_compute; reflexivity).
  rewrite forallb_forall in Hall. apply Hall. by apply list_elem_of_In.
Qed.

(** For every struct the programs access, any member path that resolves
    lies inside the struct, and at any properly aligned base address the member
    is aligned for its own type; two different members of a struct never
    overlap. *)
Theorem accessed_layouts_sound (t : ctype) :
  t ∈ accessed_structs ->
  (forall path o t' base, resolve t path = Some (o, t') -> (alignof t | base) ->
     off t path = o / 8 /\ o = 8 * off t path /\ 0 <= off t path /\
     off t path + sizeof t' <= sizeof t /\ (alignof t' | base + off t path)) /\
  (forall p fs i j s1 w1 s2 w2, t = TStruct p fs -> (i < j)%nat ->
     extents p fs 0 !! i = Some (s1, w1) -> extents p fs 0 !! j = Some (s2, w2) ->
     s1 + w1 <= s2).
Proof.
  intros Hin. pose proof (accessed_wf t Hin) as Hwf. pose proof (accessed_natural t Hin) as Hn.
  split.
  - intros path o t' base Hr Hb.
    destruct (resolve_inside t path o t' Hwf Hr) as (_ & Ho & Hs).
    destruct (resolve_aligned t path o t' Hwf Hn Hr) as ([a Ha] & [k Hk]).
    unfold off, offsetof. rewrite Hr. change (default (-1) (Some (o / 8))) with (o / 8).
    assert (o = (k * alignof t') * 8) as Ek by (rewrite Hk; ring).
    assert (o / 8 = k * alignof t') as E8 by (rewrite Ek; by apply Z.div_mul).
    rewrite E8. split; [done|]. split; [lia|]. split; [lia|]. split; [lia|].
    apply Z.divide_add_r; [|by exists k].
    apply Z.divide_trans with (alignof t); [by exists a|done].
  - intros p fs i j s1 w1 s2 w2 -> Hij H1 H2.
    assert (wfs fs = true) as Hwfs by exact Hwf.
    eapply ordered_disjoint; [apply (extents_ordered p fs 0 Hwfs); lia|exact Hij|exact H1|exact H2].
Qed.

(** The namespace of a socket is found through members at these offsets. *)
Lemma accessed_layouts_sound_witness :
  off struct_sock_common ["skc_net"; "net"] + 8 <= sizeof struct_sock_common.
Proof.
  assert (struct_sock_common ∈ accessed_structs) as Hin.
  { do 12 right. left. }
  apply (proj1 (accessed_layouts_sound struct_sock_common Hin)
    ["skc_net"; "net"] 384 TPtr 0).
  - vm_compute. reflexivity.
  - exists 0. reflexivity.
Defined.

(** ** Numbers *)

Fixpoint enum_value (tab : list (string * Z)) (name : string) : option Z :=
  match tab with
  | [] => None
  | (n, v) :: tab => if String.eqb n name then Some v else enum_value tab name
  end.

Definition enum_bpf_func_id : list (string * Z) := enum_bpf_func_id_1 ++ enum_bpf_func_id_2.

(** The name of a helper in [enum bpf_func_id]. *)
Definition helper_name (c : helper_call) : string :=
  match c with
  | CallLoad _ _ => "BPF_FUNC_skb_load_bytes"
  | CallStore _ _ _ => "BPF_FUNC_skb_store_bytes"
  | CallL3Csum _ _ _ _ => "BPF_FUNC_l3_csum_replace"
  | CallL4Csum _ _ _ _ => "BPF_FUNC_l4_csum_replace"
  | CallMapUpdate _ _ => "BPF_FUNC_map_update_elem"
  | CallRedirect _ _ => "BPF_FUNC_redirect"
  | CallRedirectPeer _ _ => "BPF_FUNC_redirect_peer"
  | CallRedirectNeigh _ _ _ => "BPF_FUNC_redirect_neigh"
  | CallPrintk _ _ => "BPF_FUNC_trace_printk"
  | CallVprintk _ _ => "BPF_FUNC_trace_vprintk"
  end.

Definition tcp_state_name (st : tcp_state) : string :=
  match st with
  | TCP_ESTABLISHED => "TCP_ESTABLISHED" | TCP_SYN_SENT => "TCP_SYN_SENT"
  | TCP_SYN_RECV => "TCP_SYN_RECV" | TCP_FIN_WAIT1 => "TCP_FIN_WAIT1"
  | TCP_FIN_WAIT2 => "TCP_FIN_WAIT2" | TCP_TIME_WAIT => "TCP_TIME_WAIT"
  | TCP_CLOSE => "TCP_CLOSE" | TCP_CLOSE_WAIT => "TCP_CLOSE_WAIT"
  | TCP_LAST_ACK => "TCP_LAST_ACK" | TCP_LISTEN => "TCP_LISTEN"
  | TCP_CLOSING => "TCP_CLOSING" | TCP_NEW_SYN_RECV => "TCP_NEW_SYN_RECV"
  end.

(** The numbers the programs are compiled with are the kernel's: each
    helper declared in bpf_helper_defs.h has the number that [enum bpf_func_id]
    gives it, that enumeration is a numbering of its names without gaps or
    duplicates, and the verdicts, protocols, map types and socket states used
    have their values of vmlinux.h. *)
Theorem kernel_numbers (c : helper_call) (st : tcp_state) :
  enum_value enum_bpf_func_id (helper_name c) = Some (helper_number c) /\
  map snd enum_bpf_func_id = seqZ 0 213 /\ NoDup (map fst enum_bpf_func_id) /\
  enum_value enum_tcx_action_base "TCX_NEXT" = Some TC_ACT_UNSPEC /\
  enum_value enum_tcx_action_base "TCX_PASS" = Some TC_ACT_OK /\
  enum_value enum_tcx_action_base "TCX_DROP" = Some TC_ACT_SHOT /\
  enum_value enum_tcx_action_base "TCX_REDIRECT" = Some TC_ACT_REDIRECT /\
  enum_value enum_ipproto "IPPROTO_TCP" = Some IPPROTO_TCP /\
  enum_value enum_ipproto "IPPROTO_UDP" = Some IPPROTO_UDP /\
  enum_value enum_bpf_map_type "BPF_MAP_TYPE_HASH" = Some (bpf_map_type_code BPF_MAP_TYPE_HASH) /\
  enum_value enum_bpf_map_type "BPF_MAP_TYPE_LRU_HASH"
    = Some (bpf_map_type_code BPF_MAP_TYPE_LRU_HASH) /\
  enum_value enum_tcp_states (tcp_state_name st) = Some (tcp_state_code st).
Proof.
  split; [by destruct c|]. split; [vm_compute; reflexivity|].
  split; [apply (bool_decide_unpack (NoDup _)); vm_compute; exact I|].
  repeat (split; [reflexivity|]). by destruct st.
Qed.
