(* ===== verification/Control.v ===== *)
(** * The control plane's side of the maps

    [internal/datapath/objects.go] writes the maps that the programs read, on
    behalf of the CNI plugin ([cni/handler.go]).  The kernel's hash maps are a
    class with the documented laws; operations run in a monad over the maps
    with Go's errors and panics.  The theorems connect both sides: what the
    control plane registers is what the programs then do. *)

From S2P Require Import Prelude Go Endian Csum CLayout Helpers RefHelpers CTypes VmPacket Packet Samples NetHelpers Dnat Snat Tproxy MapDefs.

(** ** Kernel hash maps *)

(** [Put] and [Delete] of a hash map with a maximum number of entries. *)
Class KMaps := {
  k_put : forall {V}, Z -> Z -> V -> gmap Z V -> option (gmap Z V);
  k_del : forall {V}, Z -> gmap Z V -> option (gmap Z V);
}.

(** bpf(2): an update creates or replaces the element; it fails with [E2BIG]
    when the map is full and the key is new.  Deleting a missing key fails with
    [ENOENT]. *)
Class KMapLaws (K : KMaps) : Prop := {
  put_room V (max k : Z) (v : V) m :
    is_Some (m !! k) \/ Z.of_nat (size m) < max -> k_put max k v m = Some (<[k := v]> m);
  put_full V (max k : Z) (v : V) m :
    m !! k = None -> max <= Z.of_nat (size m) -> k_put max k v m = None;
  del_present V (k : Z) (m : gmap Z V) : is_Some (m !! k) -> k_del k m = Some (delete k m);
  del_absent V (k : Z) (m : gmap Z V) : m !! k = None -> k_del k m = None;
}.

#[global] Instance ref_kmaps : KMaps := {|
  k_put V max k v m :=
    if bool_decide (is_Some (m !! k)) || (Z.of_nat (size m) <? max)
    then Some (<[k := v]> m) else None;
  k_del V k m := if bool_decide (is_Some (m !! k)) then Some (delete k m) else None;
|}.

#[global] Instance ref_kmaps_laws : KMapLaws ref_kmaps.
Proof.
  split; cbn.
  - intros V max k v m [Hk|Hs]; [by rewrite bool_decide_eq_true_2|].
    rewrite (proj2 (Z.ltb_lt _ _)) by done. by rewrite orb_true_r.
  - intros V max k v m Hk Hs. rewrite bool_decide_eq_false_2 by (by rewrite Hk; intros [? ?]).
    by rewrite (proj2 (Z.ltb_ge _ _)).
  - intros V k m Hk. by rewrite bool_decide_eq_true_2.
  - intros V k m Hk. by rewrite bool_decide_eq_false_2 by (by rewrite Hk; intros [? ?]).
Qed.

(** ** Go values *)

(** Operations on the maps. *)
Abbreviation G := (GoM bpf_maps).

(** net.Interface (the fields used), VethPeer, VethPair and NetData of
    net_data.go; a [net.IP] is a byte slice. *)
Record Interface := { Index : Z; HardwareAddr : list byte }.
Record VethPeer := { Iface : Interface; Addr : list byte }.
Record VethPair := { HostPeer : VethPeer; PodPeer : VethPeer }.
Record NetData := { Veth : VethPair; HostPort : Z }.

(** net.IP.To4: a 4-byte address, or a 16-byte one with the IPv4 prefix *)
Definition To4 (ip : list byte) : option (list byte) :=
  if (length ip =? 4)%nat then Some ip
  else if (length ip =? 16)%nat
          && bool_decide (take 10 ip = replicate 10 Init.Byte.x00)
          && bool_decide (slice 10 2 ip = [Init.Byte.xff; Init.Byte.xff])
       then Some (slice 12 4 ip)
       else None.

(** Reading four bytes of a nil slice panics. *)
Definition ipToInt (ip : list byte) : option Z :=
  match To4 ip with Some b => Some (of_bytes BE b) | None => None end.

Definition intToIP (val : Z) : list byte := to_bytes BE 4 val.

(** Conversion of a slice to a [[6]byte] panics when it is too short. *)
Definition array6 (b : list byte) : option (list byte) :=
  if (6 <=? length b)%nat then Some (take 6 b) else None.

(** ** objects.go *)

Definition upd_net_data (f : gmap Z net_data) (m : bpf_maps) : bpf_maps :=
  {| ptp_snat_config := ptp_snat_config m; net_data_map := f;
     ptp_dnat_targets := ptp_dnat_targets m; veth_pair_map := veth_pair_map m;
     original_dst_map := original_dst_map m |}.
Definition upd_dnat (f : gmap Z dnat_target) (m : bpf_maps) : bpf_maps :=
  {| ptp_snat_config := ptp_snat_config m; net_data_map := net_data_map m;
     ptp_dnat_targets := f; veth_pair_map := veth_pair_map m;
     original_dst_map := original_dst_map m |}.
Definition upd_snat (f : gmap Z ptp_snat_entry) (m : bpf_maps) : bpf_maps :=
  {| ptp_snat_config := f; net_data_map := net_data_map m;
     ptp_dnat_targets := ptp_dnat_targets m; veth_pair_map := veth_pair_map m;
     original_dst_map := original_dst_map m |}.
Definition upd_veth (f : gmap Z veth_pair) (m : bpf_maps) : bpf_maps :=
  {| ptp_snat_config := ptp_snat_config m; net_data_map := net_data_map m;
     ptp_dnat_targets := ptp_dnat_targets m; veth_pair_map := f;
     original_dst_map := original_dst_map m |}.

Section ops.
Context {K : KMaps}.

(** [Put] and [Delete] on a map of the record, with the error message of the
    caller. *)
Definition Put {V} (sel : bpf_maps -> gmap Z V) (upd : gmap Z V -> bpf_maps -> bpf_maps)
    (def : map_def) (k : Z) (v : V) (msg : string) : G unit := fun m =>
  match k_put (md_max_entries def) k v (sel m) with
  | Some m' => (Ok tt, upd m' m)
  | None => (Err msg, m)
  end.

Definition Delete {V} (sel : bpf_maps -> gmap Z V) (upd : gmap Z V -> bpf_maps -> bpf_maps)
    (k : Z) (msg : string) : G unit := fun m =>
  match k_del k (sel m) with
  | Some m' => (Ok tt, upd m' m)
  | None => (Err msg, m)
  end.

Definition peerValue (p : VethPeer) : option veth_peer :=
  match ipToInt (Addr p), array6 (HardwareAddr (Iface p)) with
  | Some a, Some mac =>
      Some {| if_index := cast_u32 (Index (Iface p)); if_addr := a; mac_addr := mac |}
  | _, _ => None
  end.

Definition netDataToMapValue (data : NetData) : option net_data :=
  match peerValue (PodPeer (Veth data)), peerValue (HostPeer (Veth data)) with
  | Some pod, Some host =>
      Some {| pod_peer := pod; host_peer := host; host_port := HostPort data |}
  | _, _ => None
  end.

Definition AddNetData (data : NetData) : G unit :=
  value ← must (netDataToMapValue data);
  let podPeerAddr := if_addr (pod_peer value) in
  Put net_data_map upd_net_data net_data_map_def (HostPort data) value "add dnat by port";;
  Put net_data_map upd_net_data net_data_map_def podPeerAddr value "add dnat by addr".

Definition peerOf (v : veth_peer) : VethPeer :=
  {| Iface := {| Index := if_index v; HardwareAddr := mac_addr v |};
     Addr := intToIP (if_addr v) |}.

Definition GetNetData (port : Z) : G NetData := fun m =>
  match net_data_map m !! port with
  | None => (Err "get by port", m)
  | Some value =>
      (Ok {| Veth := {| HostPeer := peerOf (host_peer value); PodPeer := peerOf (pod_peer value) |};
             HostPort := host_port value |}, m)
  end.

Definition DelNetData (data : NetData) : G unit :=
  podPeerAddr ← must (ipToInt (Addr (PodPeer (Veth data))));
  Delete net_data_map upd_net_data (HostPort data) "remove by port";;
  Delete net_data_map upd_net_data podPeerAddr "remove by addr".

Definition AddDNATTarget (key : Z) (ip : list byte) (ifaceIdx : Z) (mac : list byte) : G unit :=
  addr ← must (ipToInt ip);
  mac ← must (array6 mac);
  Put ptp_dnat_targets upd_dnat ptp_dnat_targets_def key
    {| dnat_ip_addr := addr; dnat_iface_idx := ifaceIdx; dnat_mac_addr := mac |} "".

Definition DelDNATTarget (port : Z) : G unit :=
  Delete ptp_dnat_targets upd_dnat port "".

Definition AddSNATTarget (key : Z) (ip : list byte) (ifaceIdx : Z) : G unit :=
  addr ← must (ipToInt ip);
  Put ptp_snat_config upd_snat ptp_snat_config_def key
    {| snat_ip_addr := addr; snat_iface_idx := ifaceIdx |} "".

Definition DelSNATTarget (key : Z) : G unit :=
  Delete ptp_snat_config upd_snat key "".

Definition AddVethPairEntry (veth : VethPair) : G unit :=
  addr ← must (ipToInt (Addr (HostPeer veth)));
  let mapValue := {| host_if_index := cast_u32 (Index (Iface (HostPeer veth)));
                     host_if_addr := addr |} in
  Put veth_pair_map upd_veth veth_pair_map_def
    (cast_u32 (Index (Iface (HostPeer veth)))) mapValue "host";;
  Put veth_pair_map upd_veth veth_pair_map_def
    (cast_u32 (Index (Iface (PodPeer veth)))) mapValue "pod".

Definition DelVethPairEntry (veth : VethPair) : G unit :=
  Delete veth_pair_map upd_veth (cast_u32 (Index (Iface (HostPeer veth))))
    "delete using host peer index";;
  Delete veth_pair_map upd_veth (cast_u32 (Index (Iface (PodPeer veth))))
    "delete using pod peer index".

(** ** cni/handler.go *)

Definition cniAddDNATTarget (veth : VethPair) (port : Z) : G unit :=
  AddDNATTarget port (Addr (PodPeer veth)) (cast_u8 (Index (Iface (HostPeer veth))))
    (HardwareAddr (Iface (PodPeer veth))).

Definition GetVethPair (hostPort : Z) : G VethPair :=
  data ← GetNetData hostPort; mret (Veth data).

(** The error of each step is wrapped; the messages are not modelled. *)
Definition DelMapEntries (veth : VethPair) (hostPort : Z) : G unit :=
  DelNetData {| Veth := veth; HostPort := hostPort |};;
  DelDNATTarget hostPort;;
  DelVethPairEntry veth.
End ops.

(** ** Lemmas about the operations *)

(** The four bytes of an IPv4 address, whether the slice has four bytes or the
    sixteen that [net.ParseIP] and [net.ParseCIDR] return. *)
Definition ip4 (ip : list byte) : list byte := default [] (To4 ip).

Definition is_v4 (ip : list byte) : Prop := length (ip4 ip) = 4%nat.

(** A peer with an IPv4 address and a MAC address, as the CNI plugin sees it. *)
Definition peer_wf (p : VethPeer) : Prop :=
  is_v4 (Addr p) /\ length (HardwareAddr (Iface p)) = 6%nat /\
  0 <= Index (Iface p) < 2 ^ 32.

Definition addr_val (ip : list byte) : Z := of_bytes BE (ip4 ip).

(** To4 answers exactly for the addresses that have four bytes. *)
Lemma To4_v4 ip : is_v4 ip <-> To4 ip = Some (ip4 ip).
Proof.
  unfold is_v4, ip4, To4. destruct (Nat.eqb_spec (length ip) 4) as [E|E]; [done|].
  destruct (Nat.eqb_spec (length ip) 16) as [E'|E']; [|by split].
  cbn [andb]. match goal with |- context [if ?c then _ else _] => destruct c end; [|by split].
  split; [done|intros _]. change (length (slice 12 4 ip) = 4%nat). rewrite length_slice; lia.
Qed.

Lemma ip4_short ip : length ip = 4%nat -> ip4 ip = ip.
Proof. intros Hl. unfold ip4, To4. by rewrite Hl. Qed.

Lemma ip4_idem ip : is_v4 ip -> ip4 (ip4 ip) = ip4 ip.
Proof. apply ip4_short. Qed.

Lemma addr_val_ip4 ip : is_v4 ip -> addr_val (ip4 ip) = addr_val ip.
Proof. intros Hl. unfold addr_val. by rewrite ip4_idem. Qed.

Lemma ipToInt_4 ip : is_v4 ip -> ipToInt ip = Some (addr_val ip).
Proof. intros Hl. unfold ipToInt. by rewrite (proj1 (To4_v4 ip) Hl). Qed.

Lemma addr_val_range ip : is_v4 ip -> 0 <= addr_val ip < 2 ^ 32.
Proof. intros Hl. unfold addr_val. by apply of_bytes_4_range. Qed.

Lemma intToIP_addr_val ip : is_v4 ip -> intToIP (addr_val ip) = ip4 ip.
Proof. intros Hl. unfold intToIP, addr_val. by apply to_of_bytes. Qed.

(** A field that holds the value of an address holds its bytes. *)
Lemma addr_val_slice k p ip :
  is_v4 ip -> (k + 4 <= length p)%nat -> of_bytes BE (slice k 4 p) = addr_val ip ->
  slice k 4 p = ip4 ip.
Proof.
  intros Hip Hk E. unfold addr_val in E. apply (f_equal (to_bytes BE 4)) in E.
  rewrite !to_of_bytes in E; [exact E|done|]. by rewrite length_slice.
Qed.

Lemma array6_6 b : length b = 6%nat -> array6 b = Some b.
Proof. intros Hl. unfold array6. rewrite Hl. cbn [Nat.leb]. by rewrite take_ge by lia. Qed.

Definition peer_value (p : VethPeer) : veth_peer :=
  {| if_index := Index (Iface p); if_addr := addr_val (Addr p);
     mac_addr := HardwareAddr (Iface p) |}.

Lemma peerValue_wf p : peer_wf p -> peerValue p = Some (peer_value p).
Proof.
  intros (Ha & Hm & Hi). unfold peerValue. rewrite ipToInt_4, array6_6 by done.
  unfold cast_u32. by rewrite wrap_small.
Qed.

(** Addresses read back from the maps have four bytes. *)
Definition short_peer (p : VethPeer) : VethPeer := {| Iface := Iface p; Addr := ip4 (Addr p) |}.

Definition short_pair (veth : VethPair) : VethPair :=
  {| HostPeer := short_peer (HostPeer veth); PodPeer := short_peer (PodPeer veth) |}.

Lemma peerOf_value p : peer_wf p -> peerOf (peer_value p) = short_peer p.
Proof.
  destruct p as [[i mac] a]. intros (Ha & Hm & Hi). unfold peerOf, peer_value, short_peer.
  cbn [if_index if_addr mac_addr Iface Addr Index HardwareAddr] in *. by rewrite intToIP_addr_val.
Qed.

Definition data_wf (d : NetData) : Prop :=
  peer_wf (HostPeer (Veth d)) /\ peer_wf (PodPeer (Veth d)) /\ 0 <= HostPort d < 2 ^ 16.

Definition data_value (d : NetData) : net_data :=
  {| pod_peer := peer_value (PodPeer (Veth d)); host_peer := peer_value (HostPeer (Veth d));
     host_port := HostPort d |}.

Lemma netDataToMapValue_wf d : data_wf d -> netDataToMapValue d = Some (data_value d).
Proof.
  intros (Hh & Hp & _). unfold netDataToMapValue. by rewrite !peerValue_wf.
Qed.

Definition pod_addr (d : NetData) : Z := addr_val (Addr (PodPeer (Veth d))).

Lemma size_insert_le {V} (m : gmap Z V) k v :
  Z.of_nat (size (<[k := v]> m)) <= Z.of_nat (size m) + 1.
Proof.
  destruct (m !! k) as [w|] eqn:E.
  - rewrite map_size_insert_Some by eauto. lia.
  - rewrite map_size_insert_None by done. lia.
Qed.

Section spec.
Context {K : KMaps} {KL : KMapLaws K}.

Lemma Put_room {V} sel upd def k (v : V) msg m :
  is_Some (sel m !! k) \/ Z.of_nat (size (sel m)) < md_max_entries def ->
  Put sel upd def k v msg m = (Ok tt, upd (<[k := v]> (sel m)) m).
Proof using KL. intros Hr. unfold Put. by rewrite put_room. Qed.

Lemma Put_full {V} sel upd def k (v : V) msg m :
  sel m !! k = None -> md_max_entries def <= Z.of_nat (size (sel m)) ->
  Put sel upd def k v msg m = (Err msg, m).
Proof using KL. intros Hk Hs. unfold Put. by rewrite put_full. Qed.

Lemma Delete_present {V} sel (upd : gmap Z V -> bpf_maps -> bpf_maps) k msg m :
  is_Some (sel m !! k) -> Delete sel upd k msg m = (Ok tt, upd (delete k (sel m)) m).
Proof using KL. intros Hk. unfold Delete. by rewrite del_present. Qed.

Lemma AddNetData_ok d m :
  data_wf d -> Z.of_nat (size (net_data_map m)) <= 254 ->
  AddNetData d m
  = (Ok tt, upd_net_data (<[pod_addr d := data_value d]>
              (<[HostPort d := data_value d]> (net_data_map m))) m).
Proof using KL.
  intros Hwf Hs. unfold AddNetData, must. rewrite netDataToMapValue_wf by done.
  rewrite (GoM_bind_ok _ _ m (data_value d) m) by done. cbv zeta.
  erewrite GoM_bind_ok by (apply Put_room; right; cbn; lia).
  rewrite Put_room; [done|]. right.
  cbn [upd_net_data net_data_map md_max_entries net_data_map_def].
  eapply Z.le_lt_trans; [apply size_insert_le|lia].
Qed.

Lemma AddSNATTarget_ok ip idx m :
  is_v4 ip -> ptp_snat_config m = ∅ \/ is_Some (ptp_snat_config m !! 0) ->
  AddSNATTarget 0 ip idx m
  = (Ok tt, upd_snat (<[0 := {| snat_ip_addr := addr_val ip; snat_iface_idx := idx |}]>
              (ptp_snat_config m)) m).
Proof using KL.
  intros Hip Hs. unfold AddSNATTarget, must. rewrite ipToInt_4 by done.
  rewrite (GoM_bind_ok _ _ m (addr_val ip) m) by done.
  apply Put_room. destruct Hs as [Hs|]; [|by left]. right. rewrite Hs. done.
Qed.

Lemma cniAddDNATTarget_ok veth port m :
  peer_wf (PodPeer veth) -> Z.of_nat (size (ptp_dnat_targets m)) < 256 ->
  cniAddDNATTarget veth port m
  = (Ok tt, upd_dnat (<[port := {| dnat_ip_addr := addr_val (Addr (PodPeer veth));
                                   dnat_iface_idx := Index (Iface (HostPeer veth)) mod 256;
                                   dnat_mac_addr := HardwareAddr (Iface (PodPeer veth)) |}]>
              (ptp_dnat_targets m)) m).
Proof using KL.
  intros (Ha & Hm & _) Hs. unfold cniAddDNATTarget, AddDNATTarget, must.
  rewrite ipToInt_4, array6_6 by done.
  rewrite (GoM_bind_ok _ _ m (addr_val (Addr (PodPeer veth))) m) by done.
  rewrite (GoM_bind_ok _ _ m (HardwareAddr (Iface (PodPeer veth))) m) by done.
  apply Put_room. by right.
Qed.
End spec.

(** ** What the CNI plugin does with the maps *)

Section cni.
Context {K : KMaps}.

(** ADD: the map writes of [AllocVethPair], [AddDNATTarget], [AddNetData]. *)
Definition cniAdd (veth : VethPair) (port : Z) : G unit :=
  AddVethPairEntry veth;;
  cniAddDNATTarget veth port;;
  AddNetData {| Veth := veth; HostPort := port |}.

(** ADD that stops after the first [n] of the three, because one of the calls
    between them ([AttachHostVethBPF], the routes, [getHostPort]) fails. *)
Definition cniAdd_upto (n : nat) (veth : VethPair) (port : Z) : G unit :=
  match n with
  | O => mret tt
  | 1%nat => AddVethPairEntry veth
  | 2%nat => AddVethPairEntry veth;; cniAddDNATTarget veth port
  | _ => cniAdd veth port
  end.

(** DEL: [GetVethPair] and [DelMapEntries]. *)
Definition cniDel (port : Z) : G unit :=
  veth ← GetVethPair port;
  DelMapEntries veth port.
End cni.

(** None of the keys of a workload is in use. *)
Definition fresh (veth : VethPair) (port : Z) (m : bpf_maps) : Prop :=
  net_data_map m !! port = None /\ net_data_map m !! addr_val (Addr (PodPeer veth)) = None /\
  port <> addr_val (Addr (PodPeer veth)) /\
  ptp_dnat_targets m !! port = None /\
  veth_pair_map m !! Index (Iface (HostPeer veth)) = None /\
  veth_pair_map m !! Index (Iface (PodPeer veth)) = None /\
  Index (Iface (HostPeer veth)) <> Index (Iface (PodPeer veth)).

(** There is room for one more workload. *)
Definition room (m : bpf_maps) : Prop :=
  Z.of_nat (size (net_data_map m)) <= 254 /\ Z.of_nat (size (ptp_dnat_targets m)) < 256 /\
  Z.of_nat (size (veth_pair_map m)) <= 254.

Section cni_spec.
Context {K : KMaps} {KL : KMapLaws K}.
Context (veth : VethPair) (port : Z).
Context (Hwf : data_wf {| Veth := veth; HostPort := port |}).

Let d : NetData := {| Veth := veth; HostPort := port |}.
Let hi : Z := Index (Iface (HostPeer veth)).
Let pi : Z := Index (Iface (PodPeer veth)).

Definition vp_value : veth_pair :=
  {| host_if_index := Index (Iface (HostPeer veth));
     host_if_addr := addr_val (Addr (HostPeer veth)) |}.

Lemma AddVethPairEntry_ok m :
  Z.of_nat (size (veth_pair_map m)) <= 254 ->
  AddVethPairEntry veth m
  = (Ok tt, upd_veth (<[pi := vp_value]> (<[hi := vp_value]> (veth_pair_map m))) m).
Proof using KL Hwf.
  intros Hs. destruct Hwf as ((Ha & _ & Hi) & (_ & _ & Hp) & _). cbn [Veth] in *.
  unfold AddVethPairEntry, must, cast_u32. rewrite ipToInt_4, !wrap_small by done.
  rewrite (GoM_bind_ok _ _ m (addr_val (Addr (HostPeer veth))) m) by done. cbv zeta.
  erewrite GoM_bind_ok by (apply Put_room; right; cbn; lia).
  rewrite Put_room; [done|]. right. cbn [upd_veth veth_pair_map md_max_entries veth_pair_map_def].
  eapply Z.le_lt_trans; [apply size_insert_le|lia].
Qed.

Definition target_value : dnat_target :=
  {| dnat_ip_addr := pod_addr d; dnat_iface_idx := hi mod 256;
     dnat_mac_addr := HardwareAddr (Iface (PodPeer veth)) |}.

(** The first two writes. *)
Lemma cniAdd_2_ok m :
  room m ->
  cniAdd_upto 2 veth port m
  = (Ok tt, upd_dnat (<[port := target_value]> (ptp_dnat_targets m))
              (upd_veth (<[pi := vp_value]> (<[hi := vp_value]> (veth_pair_map m))) m)).
Proof using KL Hwf.
  intros (_ & Hd & Hv). cbn [cniAdd_upto].
  erewrite GoM_bind_ok by (by apply AddVethPairEntry_ok).
  by rewrite cniAddDNATTarget_ok by (done || apply Hwf).
Qed.

Lemma cniAdd_ok m :
  room m ->
  exists m', cniAdd veth port m = (Ok tt, m') /\
    ptp_snat_config m' = ptp_snat_config m /\ original_dst_map m' = original_dst_map m /\
    veth_pair_map m' = <[pi := vp_value]> (<[hi := vp_value]> (veth_pair_map m)) /\
    ptp_dnat_targets m'
    = <[port := {| dnat_ip_addr := pod_addr d; dnat_iface_idx := hi mod 256;
                   dnat_mac_addr := HardwareAddr (Iface (PodPeer veth)) |}]> (ptp_dnat_targets m) /\
    net_data_map m' = <[pod_addr d := data_value d]> (<[port := data_value d]> (net_data_map m)).
Proof using KL Hwf.
  intros (Hn & Hd & Hv). unfold cniAdd.
  erewrite GoM_bind_ok by (by apply AddVethPairEntry_ok).
  erewrite GoM_bind_ok by (apply cniAddDNATTarget_ok; [apply Hwf|done]).
  rewrite AddNetData_ok by done. by eexists.
Qed.
End cni_spec.

Section cni_del.
Context {K : KMaps} {KL : KMapLaws K}.
Context (veth : VethPair) (port : Z).
Context (Hwf : data_wf {| Veth := veth; HostPort := port |}).

Lemma GetVethPair_ok m v :
  net_data_map m !! port = Some v -> v = data_value {| Veth := veth; HostPort := port |} ->
  GetVethPair port m = (Ok (short_pair veth), m).
Proof using Hwf.
  intros Hl ->. unfold GetVethPair, GetNetData.
  erewrite GoM_bind_ok by (by rewrite Hl). cbn [data_value host_peer pod_peer Veth HostPort].
  by rewrite !peerOf_value by apply Hwf.
Qed.

(** The removal does not depend on the form of the addresses. *)
Lemma DelMapEntries_short m : DelMapEntries (short_pair veth) port m = DelMapEntries veth port m.
Proof using Hwf.
  destruct Hwf as (_ & (Ha & _) & _). cbn [Veth] in Ha.
  unfold DelMapEntries, DelNetData. cbn [Veth HostPort short_pair short_peer PodPeer HostPeer Addr].
  rewrite !ipToInt_4 by (unfold is_v4; rewrite ?ip4_idem by done; exact Ha).
  by rewrite addr_val_ip4.
Qed.

(** Deleting two keys that were just inserted. *)
Lemma delete_two {V} (m : gmap Z V) a b v w :
  m !! a = None -> m !! b = None -> a <> b ->
  delete b (delete a (<[b := v]> (<[a := w]> m))) = m.
Proof using Type.
  intros Ha Hb Hab. rewrite delete_insert_ne by congruence. rewrite (delete_insert_id m a) by done.
  by rewrite delete_insert_id.
Qed.

(** Removal of the entries of a workload that are all there. *)
Lemma DelMapEntries_del m :
  is_Some (net_data_map m !! port) -> is_Some (net_data_map m !! addr_val (Addr (PodPeer veth))) ->
  port <> addr_val (Addr (PodPeer veth)) -> is_Some (ptp_dnat_targets m !! port) ->
  is_Some (veth_pair_map m !! Index (Iface (HostPeer veth))) ->
  is_Some (veth_pair_map m !! Index (Iface (PodPeer veth))) ->
  Index (Iface (HostPeer veth)) <> Index (Iface (PodPeer veth)) ->
  DelMapEntries veth port m
  = (Ok tt, upd_veth (delete (Index (Iface (PodPeer veth)))
                        (delete (Index (Iface (HostPeer veth))) (veth_pair_map m)))
              (upd_dnat (delete port (ptp_dnat_targets m))
                (upd_net_data (delete (addr_val (Addr (PodPeer veth)))
                                 (delete port (net_data_map m))) m))).
Proof using KL Hwf.
  intros Hn1 Hn2 Hne Hd Hv1 Hv2 Hvne.
  destruct Hwf as ((_ & _ & Hi) & (Ha & _ & Hp) & _). cbn [Veth] in *.
  unfold DelMapEntries, DelNetData, must. cbn [Veth HostPort]. rewrite ipToInt_4 by done.
  erewrite GoM_bind_ok.
  2: { erewrite (GoM_bind_ok _ _ m) by done. erewrite GoM_bind_ok by (by apply Delete_present).
       apply Delete_present. cbn [upd_net_data net_data_map]. by rewrite lookup_delete_ne. }
  unfold DelDNATTarget. erewrite GoM_bind_ok by (by apply Delete_present).
  unfold DelVethPairEntry, cast_u32. rewrite !wrap_small by done.
  erewrite GoM_bind_ok by (by apply Delete_present).
  rewrite Delete_present; [by destruct m|].
  cbn [upd_net_data upd_dnat upd_veth veth_pair_map]. by rewrite lookup_delete_ne.
Qed.

Lemma DelMapEntries_ok m m' :
  fresh veth port m ->
  ptp_snat_config m' = ptp_snat_config m -> original_dst_map m' = original_dst_map m ->
  veth_pair_map m' = <[Index (Iface (PodPeer veth)) := vp_value veth]>
    (<[Index (Iface (HostPeer veth)) := vp_value veth]> (veth_pair_map m)) ->
  (exists t, ptp_dnat_targets m' = <[port := t]> (ptp_dnat_targets m)) ->
  (exists v, net_data_map m' = <[addr_val (Addr (PodPeer veth)) := v]>
                                 (<[port := v]> (net_data_map m))) ->
  DelMapEntries veth port m' = (Ok tt, m).
Proof using KL Hwf.
  intros (Hn1 & Hn2 & Hne & Hd & Hv1 & Hv2 & Hvne) Es Eo Ev [t Et] [v En].
  rewrite DelMapEntries_del; [|rewrite ?Ev, ?Et, ?En..].
  - f_equal. destruct m. unfold upd_veth, upd_dnat, upd_net_data. cbn in *.
    rewrite Es, Eo, Ev, Et, En. rewrite !delete_two by done. by rewrite delete_insert_id.
  - rewrite lookup_insert_ne, lookup_insert_eq by congruence. eauto.
  - rewrite lookup_insert_eq. eauto.
  - done.
  - rewrite lookup_insert_eq. eauto.
  - rewrite lookup_insert_ne, lookup_insert_eq by congruence. eauto.
  - rewrite lookup_insert_eq. eauto.
  - done.
Qed.
End cni_del.

(** Registering a workload and removing it again: the CNI plugin's ADD
    makes all entries of the workload, after which DEL, given the host port
    only, finds the workload's veth pair and removes every entry, restoring the
    maps exactly (the addresses it finds have four bytes). *)
Theorem cni_add_del (K : KMaps) (KL : KMapLaws K) (veth : VethPair) (port : Z) (m : bpf_maps) :
  data_wf {| Veth := veth; HostPort := port |} -> room m -> fresh veth port m ->
  exists m', cniAdd veth port m = (Ok tt, m') /\
    GetVethPair port m' = (Ok (short_pair veth), m') /\ cniDel port m' = (Ok tt, m).
Proof.
  intros Hwf Hroom Hf.
  destruct (cniAdd_ok veth port Hwf m Hroom) as (m' & E & Es & Eo & Ev & Et & En).
  exists m'. split; [exact E|].
  assert (GetVethPair port m' = (Ok (short_pair veth), m')) as Eg.
  { eapply GetVethPair_ok; [done| |done]. rewrite En.
    destruct Hf as (_ & _ & Hne & _). by rewrite lookup_insert_ne, lookup_insert_eq. }
  split; [exact Eg|]. unfold cniDel. rewrite (GoM_bind_ok _ _ _ _ _ Eg).
  rewrite DelMapEntries_short by done. eapply DelMapEntries_ok; [done..| |]; eauto.
Qed.

(** From registration to translation: after the CNI plugin registered a
    workload and the platform its own address and interface, every Minecraft
    reply of the workload leaves through that interface with the platform's
    address and the workload's host port as its source. *)
Theorem registered_reply_translated (K : KMaps) (KL : KMapLaws K) (veth : VethPair)
    (port : Z) (ip : list byte) (idx : Z) (m : bpf_maps) :
  data_wf {| Veth := veth; HostPort := port |} -> room m ->
  ptp_snat_config m = ∅ -> is_v4 ip ->
  exists m', (cniAdd veth port;; AddSNATTarget 0 ip idx) m = (Ok tt, m') /\
    forall (e : endianness) (H : BpfHelpers) (L : BpfHelperLaws e H) (S : BpfHelpersSucceed H) s,
      st_maps s = m' -> is_ip s -> 52 <= skb_len (st_skb s) -> 34 <= skb_headlen (st_skb s) ->
      from_mc_server (pkt s) -> slice 26 4 (pkt s) = ip4 (Addr (PodPeer veth)) ->
      exists v s', snat s = Some (v, s') /\
        head (st_calls s') = Some (CallRedirectNeigh idx 0 0) /\
        slice 26 4 (pkt s') = ip4 ip /\ l4_sport (pkt s') = port.
Proof.
  intros Hwf Hroom Hs Hip.
  destruct (cniAdd_ok veth port Hwf m Hroom) as (m1 & E & Es & _ & _ & _ & En).
  eexists. split.
  { rewrite (GoM_bind_ok _ _ _ _ _ E). apply AddSNATTarget_ok; [done|]. left. by rewrite Es. }
  intros e H L S s Hm His Hl Hh Hmc Hsrc. unfold skb_len in Hl. fold (pkt s) in Hl.
  set (entry := {| snat_ip_addr := addr_val ip; snat_iface_idx := idx |}) in *.
  set (nd := data_value {| Veth := veth; HostPort := port |}).
  assert (snat_wf entry nd) as Hswf by (split; [by apply addr_val_range|apply Hwf]).
  assert (wp snat (fun v s' => head (st_calls s') = Some (CallRedirectNeigh idx 0 0) /\
    snat_rewritten entry nd (skb_csum_partial (st_skb s)) (pkt s) (pkt s')) s) as Hw.
  { apply (wp_snat s entry nd); [done..| | |done|].
    - rewrite Hm. cbn [upd_snat ptp_snat_config]. apply lookup_insert_eq.
    - rewrite Hm. cbn [upd_snat net_data_map]. rewrite En. unfold ip_src. rewrite Hsrc.
      apply lookup_insert_eq.
    - intros s1 _ Hr. split; [done|exact Hr]. }
  apply wp_elim in Hw as (v & s' & Ev & Hc & Hr). exists v, s'.
  split; [exact Ev|]. split; [exact Hc|].
  assert (52 <= length (pkt s))%nat as Hl' by lia.
  destruct (snat_rewritten_fields entry nd _ _ _ Hswf Hl' Hr) as (Hlen & Hi & Hp & _).
  split; [|exact Hp]. apply addr_val_slice; [done|lia|exact Hi].
Qed.

(** And from registration to delivery: a frame for the host port of a
    registered workload is redirected with the workload's MAC and IP address;
    the interface it is redirected to is the host peer's only up to its low
    eight bits. *)
Theorem registered_port_delivered (K : KMaps) (KL : KMapLaws K) (veth : VethPair)
    (port : Z) (m : bpf_maps) :
  data_wf {| Veth := veth; HostPort := port |} -> room m ->
  exists m', cniAdd veth port m = (Ok tt, m') /\
    forall (e : endianness) (H : BpfHelpers) (L : BpfHelperLaws e H) (S : BpfHelpersSucceed H) s,
      st_maps s = m' -> is_ip s -> 52 <= skb_len (st_skb s) -> 14 <= skb_headlen (st_skb s) ->
      l4_dport (pkt s) = port ->
      exists v s', dnat s = Some (v, s') /\
        head (st_calls s') =
          Some (CallRedirectPeer (Index (Iface (HostPeer veth)) mod 256) 0) /\
        eth_dst (pkt s') = HardwareAddr (Iface (PodPeer veth)) /\
        slice 30 4 (pkt s') = ip4 (Addr (PodPeer veth)) /\ l4_dport (pkt s') = MC_SERVER_PORT.
Proof.
  intros Hwf Hroom.
  destruct (cniAdd_ok veth port Hwf m Hroom) as (m1 & E & _ & _ & _ & Et & _).
  exists m1. split; [exact E|]. intros e H L S s Hm His Hl Hh Hdp.
  unfold skb_len in Hl. fold (pkt s) in Hl.
  destruct Hwf as (_ & (Ha & Hmac & _) & _). cbn [Veth] in *.
  set (tgt := {| dnat_ip_addr := addr_val (Addr (PodPeer veth));
                 dnat_iface_idx := Index (Iface (HostPeer veth)) mod 256;
                 dnat_mac_addr := HardwareAddr (Iface (PodPeer veth)) |}).
  assert (target_wf tgt) as Htwf by (split; [by apply addr_val_range|done]).
  assert (wp dnat (fun v s' => head (st_calls s') =
      Some (CallRedirectPeer (Index (Iface (HostPeer veth)) mod 256) 0) /\
    dnat_rewritten tgt (skb_csum_partial (st_skb s)) (pkt s) (pkt s')) s) as Hw.
  { apply (wp_dnat s tgt); [done..| |done|].
    - rewrite Hm, Et, Hdp. apply lookup_insert_eq.
    - intros s1 _ Hr. split; [done|exact Hr]. }
  apply wp_elim in Hw as (v & s' & Ev & Hc & Hr). exists v, s'.
  split; [exact Ev|]. split; [exact Hc|].
  assert (52 <= length (pkt s))%nat as Hl' by lia.
  destruct (dnat_rewritten_fields tgt _ _ _ Htwf Hl' Hr) as (Hlen & Hd & Hi & Hp & _).
  split; [exact Hd|]. split; [|exact Hp].
  apply addr_val_slice; [done|lia|exact Hi].
Qed.

(** [r] goes the opposite way of [p]: addresses and ports are swapped. *)
Definition answers (r p : list byte) : Prop :=
  ip_src r = ip_dst p /\ ip_dst r = ip_src p /\ l4_sport r = l4_dport p /\ l4_dport r = l4_sport p.

(** C1: a session through the NAT is transparent to the client: when a client's
    packet to the platform's address and a registered host port has been
    delivered, whatever TCP packet answers the delivered packet is turned by
    snat into one that answers the packet the client sent. *)
Theorem nat_session_transparent (K : KMaps) (KL : KMapLaws K) (veth : VethPair)
    (port : Z) (ip : list byte) (idx : Z) (m : bpf_maps) :
  data_wf {| Veth := veth; HostPort := port |} -> room m ->
  ptp_snat_config m = ∅ -> is_v4 ip ->
  exists m', (cniAdd veth port;; AddSNATTarget 0 ip idx) m = (Ok tt, m') /\
    forall (e : endianness) (H : BpfHelpers) (L : BpfHelperLaws e H) (S : BpfHelpersSucceed H) s,
      st_maps s = m' -> is_ip s -> 52 <= skb_len (st_skb s) -> 14 <= skb_headlen (st_skb s) ->
      ip_dst (pkt s) = addr_val ip -> l4_dport (pkt s) = port ->
      exists v s1, dnat s = Some (v, s1) /\
        forall r, st_maps r = m' -> is_ip r -> 52 <= skb_len (st_skb r) ->
          34 <= skb_headlen (st_skb r) -> ip_proto (pkt r) = IPPROTO_TCP ->
          answers (pkt r) (pkt s1) ->
          exists w r1, snat r = Some (w, r1) /\ answers (pkt r1) (pkt s).
Proof.
  intros Hwf Hroom Hs Hip.
  destruct (cniAdd_ok veth port Hwf m Hroom) as (m1 & E & Es & _ & _ & Et & En).
  eexists. split.
  { rewrite (GoM_bind_ok _ _ _ _ _ E). apply AddSNATTarget_ok; [done|]. left. by rewrite Es. }
  set (entry := {| snat_ip_addr := addr_val ip; snat_iface_idx := idx |}).
  set (nd := data_value {| Veth := veth; HostPort := port |}).
  set (tgt := {| dnat_ip_addr := addr_val (Addr (PodPeer veth));
                 dnat_iface_idx := Index (Iface (HostPeer veth)) mod 256;
                 dnat_mac_addr := HardwareAddr (Iface (PodPeer veth)) |}).
  assert (snat_wf entry nd) as Hswf by (split; [by apply addr_val_range|apply Hwf]).
  assert (target_wf tgt) as Htwf by (split; [apply addr_val_range|]; apply Hwf).
  intros e H L S s Hm His Hl Hh Hdst Hdp. unfold skb_len in Hl. fold (pkt s) in Hl.
  assert (wp dnat (fun v s' =>
    dnat_rewritten tgt (skb_csum_partial (st_skb s)) (pkt s) (pkt s')) s) as Hw.
  { apply (wp_dnat s tgt); [done..| |done|by intros].
    rewrite Hm. cbn [upd_snat ptp_dnat_targets]. rewrite Et, Hdp. apply lookup_insert_eq. }
  apply wp_elim in Hw as (v & s1 & Ev & Hr). exists v, s1. split; [exact Ev|].
  assert (52 <= length (pkt s))%nat as Hl' by lia.
  destruct (dnat_rewritten_fields tgt _ _ _ Htwf Hl' Hr) as (_ & _ & Hd & Hp & _ & Hsa & Hsp & _).
  intros r Hmr Hir Hlr Hhr Hpr (A1 & A2 & A3 & A4).
  unfold skb_len in Hlr. fold (pkt r) in Hlr.
  assert (wp snat (fun w r' =>
    snat_rewritten entry nd (skb_csum_partial (st_skb r)) (pkt r) (pkt r')) r) as Hw.
  { apply (wp_snat r entry nd); [done..|split; [done|congruence]| | |done|by intros].
    - rewrite Hmr. cbn [upd_snat ptp_snat_config]. apply lookup_insert_eq.
    - rewrite Hmr. cbn [upd_snat net_data_map]. rewrite En, A1, Hd. apply lookup_insert_eq. }
  apply wp_elim in Hw as (w & r1 & Ew & Hr'). exists w, r1. split; [exact Ew|].
  assert (52 <= length (pkt r))%nat as Hlr' by lia.
  destruct (snat_rewritten_fields entry nd _ _ _ Hswf Hlr' Hr') as (_ & Hi & Hq & _ & Hda & Hdq & _).
  unfold answers. rewrite Hi, Hda, Hq, Hdq, A2, A4, Hsa, Hsp, Hdst, Hdp. done.
Qed.

(** When the map is one entry short, [AddNetData] fails half-way: it
    reports an error but has already stored the entry under the host port,
    where it can still be found. *)
Theorem add_net_data_partial (K : KMaps) (KL : KMapLaws K) (d : NetData) (m : bpf_maps) :
  data_wf d -> Z.of_nat (size (net_data_map m)) = 255 ->
  net_data_map m !! HostPort d = None -> net_data_map m !! pod_addr d = None ->
  HostPort d <> pod_addr d ->
  exists m', AddNetData d m = (Err "add dnat by addr", m') /\
    GetNetData (HostPort d) m' = (Ok {| Veth := short_pair (Veth d); HostPort := HostPort d |}, m').
Proof.
  intros Hwf Hs Hp Ha Hne. eexists. split.
  - unfold AddNetData, must. rewrite netDataToMapValue_wf by done.
    rewrite (GoM_bind_ok _ _ m (data_value d) m) by done. cbv zeta.
    erewrite GoM_bind_ok by (apply Put_room; right; cbn; lia).
    apply Put_full.
    + cbn [upd_net_data net_data_map data_value pod_peer peer_value if_addr].
      by rewrite lookup_insert_ne.
    + cbn [upd_net_data net_data_map]. rewrite map_size_insert_None by done. cbn. lia.
  - unfold GetNetData. cbn [upd_net_data net_data_map]. rewrite lookup_insert_eq.
    cbn [data_value host_peer pod_peer host_port].
    destruct Hwf as (Hh & Hpp & _). by rewrite !peerOf_value by done.
Qed.

(** ** A concrete workload *)

Definition demo_pair : VethPair :=
  {| HostPeer := {| Iface := {| Index := 7; HardwareAddr := host_peer_mac |};
                    Addr := map byte_of_Z [10; 0; 0; 2] |};
     PodPeer := {| Iface := {| Index := 8; HardwareAddr := map byte_of_Z [10; 11; 12; 13; 14; 15] |};
                   Addr := map byte_of_Z [10; 0; 0; 3] |} |}.

Lemma demo_pair_wf : data_wf {| Veth := demo_pair; HostPort := 30001 |}.
Proof. repeat split; vm_compute; (discriminate || reflexivity). Qed.

Lemma no_maps_room : room no_maps.
Proof. repeat split; vm_compute; (discriminate || reflexivity). Qed.

Lemma cni_add_del_witness :
  exists m', cniAdd demo_pair 30001 no_maps = (Ok tt, m') /\
    GetVethPair 30001 m' = (Ok (short_pair demo_pair), m') /\ cniDel 30001 m' = (Ok tt, no_maps).
Proof.
  apply (cni_add_del ref_kmaps ref_kmaps_laws demo_pair 30001 no_maps).
  - apply demo_pair_wf.
  - apply no_maps_room.
  - repeat split; vm_compute; (discriminate || reflexivity).
Defined.

Definition host_ip : list byte := map byte_of_Z [198; 51; 100; 1].

(** The sixteen-byte form that [net.ParseIP] returns. *)
Example parsed_is_v4 :
  let ip := replicate 10 Init.Byte.x00 ++ [Init.Byte.xff; Init.Byte.xff] ++ host_ip in
  is_v4 ip /\ ip4 ip = host_ip.
Proof. by vm_compute. Qed.

Lemma registered_reply_translated_witness :
  exists m', (cniAdd demo_pair 30001;; AddSNATTarget 0 host_ip 2) no_maps = (Ok tt, m') /\
    exists v s', snat (e := LE) (H := ref_helpers LE) (arriving LE ETH_P_IP m' frame_pod_reply)
      = Some (v, s') /\ slice 26 4 (pkt s') = host_ip /\ l4_sport (pkt s') = 30001.
Proof.
  destruct (registered_reply_translated ref_kmaps ref_kmaps_laws demo_pair 30001 host_ip 2 no_maps
    demo_pair_wf no_maps_room eq_refl eq_refl) as (m' & E & Hr).
  exists m'. split; [exact E|].
  destruct (Hr LE (ref_helpers LE) (ref_laws LE) (ref_succeed LE)
    (arriving LE ETH_P_IP m' frame_pod_reply)) as (v & s' & Es & _ & Hi & Hp).
  - reflexivity.
  - reflexivity.
  - vm_compute. discriminate.
  - vm_compute. discriminate.
  - split; vm_compute; reflexivity.
  - vm_compute. reflexivity.
  - exists v, s'. split; [exact Es|]. split; [exact Hi|exact Hp].
Defined.

Lemma registered_port_delivered_witness :
  exists m', cniAdd demo_pair 30001 no_maps = (Ok tt, m') /\
    exists v s', dnat (e := BE) (H := ref_helpers BE) (arriving BE ETH_P_IP m' frame_client)
      = Some (v, s') /\ head (st_calls s') = Some (CallRedirectPeer 7 0) /\
      slice 30 4 (pkt s') = map byte_of_Z [10; 0; 0; 3].
Proof.
  destruct (registered_port_delivered ref_kmaps ref_kmaps_laws demo_pair 30001 no_maps
    demo_pair_wf no_maps_room) as (m' & E & Hr).
  exists m'. split; [exact E|].
  destruct (Hr BE (ref_helpers BE) (ref_laws BE) (ref_succeed BE)
    (arriving BE ETH_P_IP m' frame_client)) as (v & s' & Es & Hc & _ & Hi & _).
  - reflexivity.
  - reflexivity.
  - vm_compute. discriminate.
  - vm_compute. discriminate.
  - vm_compute. reflexivity.
  - exists v, s'. split; [exact Es|]. split; [exact Hc|exact Hi].
Defined.

Lemma nat_session_transparent_witness :
  exists m', (cniAdd demo_pair 30001;; AddSNATTarget 0 host_ip 2) no_maps = (Ok tt, m') /\
    exists w r1, snat (e := LE) (H := ref_helpers LE)
      (arriving LE ETH_P_IP m' frame_pod_reply) = Some (w, r1) /\ answers (pkt r1) frame_client.
Proof.
  destruct (nat_session_transparent ref_kmaps ref_kmaps_laws demo_pair 30001 host_ip 2 no_maps
    demo_pair_wf no_maps_room eq_refl eq_refl) as (m' & E & Hs).
  exists m'. split; [exact E|].
  destruct (Hs LE (ref_helpers LE) (ref_laws LE) (ref_succeed LE)
    (arriving LE ETH_P_IP m' frame_client)) as (v & s1 & Es & Hr).
  - reflexivity.
  - reflexivity.
  - vm_compute. discriminate.
  - vm_compute. discriminate.
  - vm_compute. reflexivity.
  - vm_compute. reflexivity.
  - apply (Hr (arriving LE ETH_P_IP m' frame_pod_reply)).
    + reflexivity.
    + reflexivity.
    + vm_compute. discriminate.
    + vm_compute. discriminate.
    + vm_compute. reflexivity.
    + clear Hs Hr. vm_compute in E. injection E as <-.
      vm_compute in Es. injection Es as <- <-. vm_compute. repeat split.
Defined.

(** 255 entries under keys that no workload uses. *)
Definition crowded : bpf_maps :=
  upd_net_data (list_to_map (map (fun k => (k, demo_net_data)) (seqZ 1000000 255))) no_maps.

Lemma add_net_data_partial_witness :
  exists m', AddNetData {| Veth := demo_pair; HostPort := 30001 |} crowded
             = (Err "add dnat by addr", m') /\
    GetNetData 30001 m' = (Ok {| Veth := demo_pair; HostPort := 30001 |}, m').
Proof.
  apply (add_net_data_partial ref_kmaps ref_kmaps_laws
    {| Veth := demo_pair; HostPort := 30001 |} crowded).
  - apply demo_pair_wf.
  - vm_compute. reflexivity.
  - vm_compute. reflexivity.
  - vm_compute. reflexivity.
  - vm_compute. discriminate.
Defined.
