(* ===== verification/Datapath.v ===== *)
(** * The datapath as a system

    The programs and the control plane share the pinned maps.  A step of the
    system is one operation of [objects.go] with any outcome, or the run of one
    program on one packet with any kernel behind the helpers.  Reachable states
    keep every map within the ranges of its C types and within its capacity,
    and no program faults in them. *)

From S2P Require Import Prelude Go Endian Csum CLayout Helpers RefHelpers CTypes VmPacket Packet Samples NetHelpers Arp Dnat Snat Tproxy Chain MapDefs Control.

(** ** The programs *)

Inductive program := ProgArp | ProgSnat | ProgDnat | ProgCtrPeerEgress | ProgHostPeerEgress.

Section code.
Context {e : endianness} {H : BpfHelpers}.

Definition code (p : program) : M Z :=
  match p with
  | ProgArp => arp
  | ProgSnat => snat
  | ProgDnat => dnat
  | ProgCtrPeerEgress => ctr_peer_egress
  | ProgHostPeerEgress => host_peer_egress
  end.
End code.

(** A packet arrives: no call has been made yet. *)
Definition start_state (skb : sk_buff) (m : bpf_maps) : state := mk_state skb 0 m [].

(** ** What a program does to the maps *)

(** Entries of [original_dst_map]: the address and the port have the widths of
    their types; the key uses 32 of its 64 bits, and its low byte is the number
    of TCP or UDP. *)
Definition dst_entry_ok (k : Z) (v : original_dst_entry) : Prop :=
  u32 k /\ (k mod 256 = IPPROTO_TCP \/ k mod 256 = IPPROTO_UDP) /\ original_dst_ok v.

(** The only change: entries of [original_dst_map] are dropped, or one is
    written. *)
Definition dst_changed (m m' : bpf_maps) : Prop :=
  exists od, m' = set_original_dst od m /\
    (forall k v, od !! k = Some v -> original_dst_map m !! k = Some v \/ dst_entry_ok k v) /\
    (Z.of_nat (size (original_dst_map m)) <= md_max_entries original_dst_map_def ->
     Z.of_nat (size od) <= md_max_entries original_dst_map_def).

Lemma dst_key_ok addr port proto v :
  u16 port -> proto = IPPROTO_TCP \/ proto = IPPROTO_UDP -> original_dst_ok v ->
  dst_entry_ok (dst_key addr port proto) v.
Proof.
  unfold u16. intros Hp Hq Hv. unfold dst_entry_ok, u32.
  rewrite dst_key_value by (unfold IPPROTO_TCP, IPPROTO_UDP in Hq; lia).
  unfold IPPROTO_TCP, IPPROTO_UDP in *. split; [dlia|]. split; [dlia|done].
Qed.

Lemma dst_changed_refl m : dst_changed m m.
Proof. exists (original_dst_map m). split; [by destruct m|]. auto. Qed.

(** One step of a program whose result is about the maps only. *)
Ltac wp_maps1 :=
  lazymatch goal with
  | |- wp (bpf_redirect _ _) _ _ => unfold wp, bpf_redirect
  | |- wp (bpf_redirect_peer _ _) _ _ => unfold wp, bpf_redirect_peer
  | |- wp (bpf_redirect_neigh _ _ _) _ _ => unfold wp, bpf_redirect_neigh
  | _ => wp_any1
  end.

(** Ends a branch in which no map was written. *)
Ltac same_maps := cbn [log_call new_skb with_bytes st_maps] in *; congruence.

Section frame.
Context {e : endianness} {H : BpfHelpers}.

Let keeps (s : state) : Z -> state -> Prop := fun _ s' => st_maps s' = st_maps s.

Lemma arp_maps s : wp arp (keeps s) s.
Proof.
  unfold arp, keeps. do 6 wp_any1.
  destruct (parse_ethhdr_cases s) as [[-> Hh]|[-> Hh]]; cbn [negb Z.eqb]; repeat wp_maps1;
    first [same_maps | unfold slice; rewrite length_take; lia | cbn; lia].
Qed.

Lemma snat_maps s : wp snat (keeps s) s.
Proof. unfold snat, keeps. repeat wp_maps1; same_maps. Qed.

Lemma dnat_maps s : maps_wf (st_maps s) -> wp dnat (keeps s) s.
Proof.
  intros Hwf. unfold dnat, keeps. repeat wp_maps1; try same_maps.
  destruct (parse_ethhdr_cases s) as [[-> Hh]|[-> Hh]]; cbn [negb Z.eqb]; repeat wp_maps1;
    try same_maps.
  apply map_Forall_lookup_1 with (1 := Hwf) in Heqo. cbn [log_call st_skb]. lia.
Qed.

Lemma host_peer_egress_maps s : wp host_peer_egress (keeps s) s.
Proof. unfold host_peer_egress, keeps. repeat wp_maps1; same_maps. Qed.

Context {L : BpfHelperLaws e H}.

Lemma wp_get_port_u16 to uo proto Q s :
  (forall v s', u16 v -> st_skb s' = st_skb s -> st_gen s' = st_gen s -> st_maps s' = st_maps s ->
     Q v s') ->
  wp (get_port to uo proto) Q s.
Proof using L.
  intros HQ. unfold get_port.
  assert (forall o, wp (port ← bpf_skb_load_bytes o 2; mret (of_bytes e port.2)) Q s) as Hld.
  { intros o. unfold wp, bpf_skb_load_bytes, mbind, M_bind, mret, M_ret. apply HQ; [|done..].
    apply of_bytes_2_range. apply (load_length _ _ _ 2). lia. }
  destruct (proto =? IPPROTO_TCP); [apply Hld|].
  destruct (proto =? IPPROTO_UDP); [apply Hld|]. apply wp_ret, HQ; [|done..]. unfold u16. lia.
Qed.

Lemma slice_u32 k (p : list byte) : u32 (of_bytes e (slice k 4 p)).
Proof using Type.
  pose proof (of_bytes_range e (slice k 4 p)) as R.
  assert (length (slice k 4 p) <= 4)%nat by (unfold slice; rewrite length_take; lia).
  unfold u32. split; [lia|]. eapply Z.lt_le_trans; [apply R|].
  change 4294967296 with (256 ^ 4). apply Z.pow_le_mono_r; lia.
Qed.

Lemma wp_map_update_changed k v Q s :
  dst_entry_ok k v ->
  (forall r s', dst_changed (st_maps s) (st_maps s') -> Q r s') ->
  wp (bpf_map_update_elem k v BPF_ANY) Q s.
Proof using L.
  intros Hv HQ. unfold wp, bpf_map_update_elem.
  pose proof (map_update_ok (length (st_calls s)) (original_dst_map (st_maps s)) k v) as Hu.
  pose proof (map_update_size (length (st_calls s)) (original_dst_map (st_maps s)) k v BPF_ANY) as Hz.
  destruct h_map_update as [r od]. destruct Hu as [Hok Hko]. apply HQ. exists od.
  split; [done|]. split; [|exact Hz]. intros k' v' Hl. destruct (Z.eq_dec r 0) as [Hr|Hr].
  - destruct (Hok Hr) as [Hk Ho]. destruct (Z.eq_dec k' k) as [-> |Hne].
    + right. congruence.
    + left. destruct (Ho _ Hne); congruence.
  - rewrite (Hko Hr) in Hl. auto.
Qed.

Lemma ctr_peer_egress_maps s :
  wp ctr_peer_egress (fun _ s' => dst_changed (st_maps s) (st_maps s')) s.
Proof using L.
  assert (forall s', st_maps s' = st_maps s -> dst_changed (st_maps s) (st_maps s')) as Hsame
    by (intros s' ->; apply dst_changed_refl).
  unfold ctr_peer_egress. do 7 wp_any1; [by apply wp_ret, Hsame|].
  wp_any1; [by apply wp_ret, Hsame|]. do 4 wp_any1.
  norm_flds. norm_nats.
  match goal with |- context [of_bytes e (slice ?k 1 (pkt s))] =>
    set (proto := of_bytes e (slice k 1 (pkt s))) end.
  destruct (negb (proto =? IPPROTO_TCP) && negb (proto =? IPPROTO_UDP)) eqn:Hpr;
    [by apply wp_ret, Hsame|].
  assert (proto = IPPROTO_TCP \/ proto = IPPROTO_UDP) as Hproto by lia.
  apply wp_bind, wp_get_port_u16. intros dport s1 Hd Ek1 Eg1 Em1.
  apply wp_bind, wp_get_port_u16. intros sport s2 Hs Ek2 Eg2 Em2.
  wp_any1; [apply wp_ret, Hsame; congruence|]. do 4 wp_any1.
  - apply wp_bind, wp_map_update_changed.
    { apply dst_key_ok; [done..|]. split; [apply slice_u32|exact Hd]. }
    intros r s3 Hc. rewrite Em2, Em1 in Hc. repeat wp_maps1;
      repeat match goal with
      | E : st_maps ?a = st_maps _ |- context [st_maps ?a] => rewrite E
      end; exact Hc.
  - repeat wp_maps1. apply Hsame. cbn [log_call st_maps]. congruence.
Qed.

Lemma code_maps p s :
  maps_wf (st_maps s) -> wp (code p) (fun _ s' => dst_changed (st_maps s) (st_maps s')) s.
Proof using L.
  intros Hwf.
  assert (forall q : M Z, wp q (keeps s) s ->
    wp q (fun _ s' => dst_changed (st_maps s) (st_maps s')) s) as Hk.
  { intros q Hq. eapply wp_mono; [exact Hq|]. intros _ s' ->. apply dst_changed_refl. }
  destruct p; [apply Hk, arp_maps|apply Hk, snat_maps|by apply Hk, dnat_maps
              |apply ctr_peer_egress_maps|apply Hk, host_peer_egress_maps].
Qed.
End frame.

(** ** The type of the maps *)

(** Every map holds values of its C type and no more entries than declared;
    keys of the maps that the control plane writes are in the range of their
    key type. *)
Definition map_typed {V} (def : map_def) (key : Z -> Prop) (ok : V -> Prop) (m : gmap Z V) : Prop :=
  map_Forall (fun k v => key k /\ ok v) m /\ Z.of_nat (size m) <= md_max_entries def.

Definition maps_typed (m : bpf_maps) : Prop :=
  map_typed ptp_snat_config_def u8 snat_entry_ok (ptp_snat_config m) /\
  map_typed net_data_map_def u32 net_data_ok (net_data_map m) /\
  map_typed ptp_dnat_targets_def u16 dnat_target_ok (ptp_dnat_targets m) /\
  map_typed veth_pair_map_def u32 veth_pair_ok (veth_pair_map m) /\
  map_Forall dst_entry_ok (original_dst_map m) /\
  Z.of_nat (size (original_dst_map m)) <= md_max_entries original_dst_map_def.

Lemma map_typed_empty {V} def key (ok : V -> Prop) :
  0 <= md_max_entries def -> map_typed def key ok ∅.
Proof. intros Hd. split; [apply map_Forall_empty|]. rewrite map_size_empty. lia. Qed.

Lemma map_typed_delete {V} def key (ok : V -> Prop) k m :
  map_typed def key ok m -> map_typed def key ok (delete k m).
Proof.
  intros [Ha Hs]. split; [by apply map_Forall_delete|]. rewrite map_size_delete.
  destruct (m !! k); cbn; lia.
Qed.

Lemma map_typed_insert {V} def key (ok : V -> Prop) k v m :
  key k -> ok v -> is_Some (m !! k) \/ Z.of_nat (size m) < md_max_entries def ->
  map_typed def key ok m -> map_typed def key ok (<[k := v]> m).
Proof.
  intros Hk Hv Hroom [Ha Hs]. split; [by apply map_Forall_insert_2|].
  destruct (m !! k) as [w|] eqn:E.
  - rewrite map_size_insert_Some by eauto. done.
  - rewrite map_size_insert_None by done. destruct Hroom as [[? ?]|]; [done|lia].
Qed.

Lemma maps_typed_wf m : maps_typed m -> maps_wf m.
Proof.
  intros (_ & _ & [Hd _] & _). eapply map_Forall_impl; [exact Hd|]. by intros k v (_ & _ & _ & ?).
Qed.

Lemma dst_changed_typed m m' : maps_typed m -> dst_changed m m' -> maps_typed m'.
Proof.
  intros (H1 & H2 & H3 & H4 & H5 & H6) (od & -> & Hod & Hz). repeat (split; [done|]).
  split; [|exact (Hz H6)]. intros k v Hl. destruct (Hod k v Hl) as [Hold|Hnew]; [exact (H5 k v Hold)|exact Hnew].
Qed.

(** ** Invariants of control operations *)

(** A selector and an updater of a map that the type invariant covers. *)
Class TypedMap {V} (sel : bpf_maps -> gmap Z V) (upd : gmap Z V -> bpf_maps -> bpf_maps)
    (def : map_def) (key : Z -> Prop) (ok : V -> Prop) : Prop := {
  typed_sel m : maps_typed m -> map_typed def key ok (sel m);
  typed_upd f m : maps_typed m -> map_typed def key ok f -> maps_typed (upd f m);
}.

Ltac typed_map :=
  split; intros;
  match goal with H : maps_typed _ |- _ => destruct H as (? & ? & ? & ? & ? & ?) end;
  unfold maps_typed; tauto.

#[global] Instance typed_snat :
  TypedMap ptp_snat_config upd_snat ptp_snat_config_def u8 snat_entry_ok.
Proof. typed_map. Qed.
#[global] Instance typed_net_data :
  TypedMap net_data_map upd_net_data net_data_map_def u32 net_data_ok.
Proof. typed_map. Qed.
#[global] Instance typed_dnat :
  TypedMap ptp_dnat_targets upd_dnat ptp_dnat_targets_def u16 dnat_target_ok.
Proof. typed_map. Qed.
#[global] Instance typed_veth :
  TypedMap veth_pair_map upd_veth veth_pair_map_def u32 veth_pair_ok.
Proof. typed_map. Qed.

Section ops_typed.
Context {K : KMaps} {KL : KMapLaws K}.

Lemma Put_typed {V} sel upd def key (ok : V -> Prop) `{TypedMap V sel upd def key ok} k v msg :
  key k -> ok v -> GoM_inv maps_typed (fun _ => True) (Put sel upd def k v msg).
Proof using KL.
  intros Hk Hv m Hm. split; [|done]. pose proof (typed_sel m Hm) as Ht.
  destruct (sel m !! k) as [w|] eqn:E.
  { rewrite Put_room by (left; rewrite E; eauto). cbn [snd]. apply typed_upd; [done|].
    apply map_typed_insert; [done..| |done]. left. rewrite E. eauto. }
  destruct (Z.lt_ge_cases (Z.of_nat (size (sel m))) (md_max_entries def)) as [Hs|Hs].
  - rewrite Put_room by auto. cbn [snd]. apply typed_upd; [done|]. apply map_typed_insert; auto.
  - by rewrite Put_full.
Qed.

Lemma Delete_typed {V} sel upd def key (ok : V -> Prop) `{TypedMap V sel upd def key ok} k msg :
  GoM_inv maps_typed (fun _ => True) (Delete sel upd k msg).
Proof using KL.
  intros m Hm. split; [|done]. destruct (sel m !! k) as [w|] eqn:E.
  - rewrite Delete_present by (rewrite E; eauto). cbn [snd]. apply typed_upd; [done|].
    by apply map_typed_delete, typed_sel.
  - unfold Delete. by rewrite del_absent.
Qed.

Lemma ipToInt_u32 ip a : ipToInt ip = Some a -> u32 a.
Proof using Type.
  unfold ipToInt, To4. repeat case_match; intros; simplify_eq.
  - apply of_bytes_4_range. by apply Nat.eqb_eq.
  - apply slice_u32.
Qed.

Lemma array6_length b mac : array6 b = Some mac -> length mac = 6%nat.
Proof using Type.
  unfold array6. destruct (Nat.leb_spec 6 (length b)); [|done]. intros [= <-].
  rewrite length_take. lia.
Qed.

Lemma cast_u32_u32 x : u32 (cast_u32 x).
Proof using Type. unfold cast_u32, wrap, u32. dlia. Qed.

Lemma cast_u8_u8 x : u8 (cast_u8 x).
Proof using Type. unfold cast_u8, wrap, u8. dlia. Qed.

Lemma peerValue_ok p v : peerValue p = Some v -> peer_ok v.
Proof using Type.
  unfold peerValue. repeat case_match; intros; simplify_eq.
  split; [apply cast_u32_u32|]. split; [by eapply ipToInt_u32|by eapply array6_length].
Qed.

Lemma netDataToMapValue_ok d v :
  u16 (HostPort d) -> netDataToMapValue d = Some v -> net_data_ok v.
Proof using Type.
  intros Hp. unfold netDataToMapValue. repeat case_match; intros; simplify_eq.
  split; [by eapply peerValue_ok|]. split; [by eapply peerValue_ok|done].
Qed.

Lemma AddNetData_typed d : u16 (HostPort d) -> GoM_inv maps_typed (fun _ => True) (AddNetData d).
Proof using KL.
  intros Hp. unfold AddNetData. eapply GoM_inv_bind; [apply GoM_inv_must|]. intros v Hv.
  pose proof (netDataToMapValue_ok _ _ Hp Hv) as Hok. cbv zeta. apply GoM_inv_seq; [|intros _].
  - eapply Put_typed; [apply _| |exact Hok]. unfold u16, u32 in *. lia.
  - eapply Put_typed; [apply _| |exact Hok]. apply Hok.
Qed.

Lemma DelNetData_typed d : GoM_inv maps_typed (fun _ => True) (DelNetData d).
Proof using KL.
  unfold DelNetData. eapply GoM_inv_bind; [apply GoM_inv_must|]. intros a _.
  apply GoM_inv_seq; [|intros _]; (eapply Delete_typed; apply _).
Qed.

Lemma AddDNATTarget_typed key ip idx mac :
  u16 key -> u8 idx -> GoM_inv maps_typed (fun _ => True) (AddDNATTarget key ip idx mac).
Proof using KL.
  intros Hk Hi. unfold AddDNATTarget. eapply GoM_inv_bind; [apply GoM_inv_must|]. intros a Ha.
  eapply GoM_inv_bind; [apply GoM_inv_must|]. intros mc Hm. eapply Put_typed; [apply _|done|].
  split; [exact (ipToInt_u32 _ _ Ha)|]. split; [done|exact (array6_length _ _ Hm)].
Qed.

Lemma DelDNATTarget_typed port : GoM_inv maps_typed (fun _ => True) (DelDNATTarget port).
Proof using KL. (eapply Delete_typed; apply _). Qed.

Lemma AddSNATTarget_typed key ip idx :
  u8 key -> u8 idx -> GoM_inv maps_typed (fun _ => True) (AddSNATTarget key ip idx).
Proof using KL.
  intros Hk Hi. unfold AddSNATTarget. eapply GoM_inv_bind; [apply GoM_inv_must|]. intros a Ha.
  eapply Put_typed; [apply _|done|]. split; [exact (ipToInt_u32 _ _ Ha)|done].
Qed.

Lemma DelSNATTarget_typed key : GoM_inv maps_typed (fun _ => True) (DelSNATTarget key).
Proof using KL. (eapply Delete_typed; apply _). Qed.

Lemma AddVethPairEntry_typed veth : GoM_inv maps_typed (fun _ => True) (AddVethPairEntry veth).
Proof using KL.
  unfold AddVethPairEntry. eapply GoM_inv_bind; [apply GoM_inv_must|]. intros a Ha. cbv zeta.
  pose proof (ipToInt_u32 _ _ Ha) as Ha'.
  apply GoM_inv_seq; [|intros _]; (eapply Put_typed; [apply _|apply cast_u32_u32|]);
    (split; [apply cast_u32_u32|exact Ha']).
Qed.

Lemma DelVethPairEntry_typed veth : GoM_inv maps_typed (fun _ => True) (DelVethPairEntry veth).
Proof using KL.
  unfold DelVethPairEntry. apply GoM_inv_seq; [|intros _]; (eapply Delete_typed; apply _).
Qed.
End ops_typed.

(** ** The system *)

Section system.
Context (e : endianness) (K : KMaps).

(** Parameters of a Go type have the range of the type; everything else is
    arbitrary, in particular byte slices of any length. *)
Inductive dp_step (m : bpf_maps) : bpf_maps -> Prop :=
| step_packet (H : BpfHelpers) (L : BpfHelperLaws e H) p skb v s' :
    code p (start_state skb m) = Some (v, s') -> dp_step m (st_maps s')
| step_add_net_data d : u16 (HostPort d) -> dp_step m (AddNetData d m).2
| step_get_net_data port : u16 port -> dp_step m (GetNetData port m).2
| step_del_net_data d : u16 (HostPort d) -> dp_step m (DelNetData d m).2
| step_add_dnat_target key ip idx mac :
    u16 key -> u8 idx -> dp_step m (AddDNATTarget key ip idx mac m).2
| step_del_dnat_target port : u16 port -> dp_step m (DelDNATTarget port m).2
| step_add_snat_target key ip idx :
    u8 key -> u8 idx -> dp_step m (AddSNATTarget key ip idx m).2
| step_del_snat_target key : u8 key -> dp_step m (DelSNATTarget key m).2
| step_add_veth_pair veth : dp_step m (AddVethPairEntry veth m).2
| step_del_veth_pair veth : dp_step m (DelVethPairEntry veth m).2.

(** The maps are created empty when the programs are first loaded. *)
Definition reachable (m : bpf_maps) : Prop := rtc dp_step no_maps m.

Lemma no_maps_typed : maps_typed no_maps.
Proof using Type.
  repeat (split; [apply map_typed_empty; cbn; lia|]). split; [apply map_Forall_empty|by cbn].
Qed.

Context {KL : KMapLaws K}.

Lemma dp_step_typed m m' : dp_step m m' -> maps_typed m -> maps_typed m'.
Proof using KL.
  intros Hstep Hm. destruct Hstep as [H L p skb v s' E|d Hp|port Hp|d Hp|key ip idx mac Hk Hi|port Hp
    |key ip idx Hk Hi|key Hk|veth|veth].
  - pose proof (code_maps p (start_state skb m) (maps_typed_wf m Hm)) as Hw.
    apply wp_elim in Hw as (v1 & s1 & E1 & Hc). simplify_eq. exact (dst_changed_typed _ _ Hm Hc).
  - by apply AddNetData_typed.
  - unfold GetNetData. by destruct (net_data_map m !! port).
  - by apply DelNetData_typed.
  - by apply AddDNATTarget_typed.
  - by apply DelDNATTarget_typed.
  - by apply AddSNATTarget_typed.
  - by apply DelSNATTarget_typed.
  - by apply AddVethPairEntry_typed.
  - by apply DelVethPairEntry_typed.
Qed.

Lemma reachable_typed m : reachable m -> maps_typed m.
Proof using KL.
  intros Hr. exact (rtc_preserves dp_step maps_typed dp_step_typed _ _ Hr no_maps_typed).
Qed.
End system.

Arguments reachable e {K} m.
Arguments dp_step e {K} m m'.

(** C7: the datapath is type safe: whatever control operations, packets, kernel
    decisions and failures led to a state of the pinned maps, every map is
    within its capacity, every key and value is in the range of its C type (MAC
    addresses have six bytes), and no program faults on any packet. *)
Theorem reachable_type_safe (e : endianness) (K : KMaps) (KL : KMapLaws K) (m : bpf_maps) :
  reachable e m ->
  maps_typed m /\
  forall (H : BpfHelpers) (p : program) (skb : sk_buff), is_Some (code p (start_state skb m)).
Proof.
  intros Hr. pose proof (reachable_typed e K m Hr) as Ht. split; [exact Ht|].
  intros H p skb. pose proof (maps_typed_wf m Ht) as Hwf.
  set (s := start_state skb m).
  assert (forall Q, wp (code p) Q s -> is_Some (code p s)) as Hok.
  { intros Q (v & s' & -> & _)%wp_elim. eauto. }
  destruct p; eapply Hok;
    [apply arp_safe|apply snat_safe|by apply dnat_safe|apply ctr_peer_egress_safe
    |apply host_peer_egress_safe].
Qed.

(** What host_peer_egress does with packets that are no replies of a proxy:
    frames that are not IPv4 and truncated ones are accepted, and since the
    records in every reachable state are those of TCP and UDP connections,
    packets of any other protocol (ICMP among them) are dropped after a log
    line. *)
Theorem host_peer_egress_other (e : endianness) (K : KMaps) (KL : KMapLaws K) (H : BpfHelpers)
    (L : BpfHelperLaws e H) (s : state) :
  reachable e (st_maps s) ->
  (~ is_ip s -> host_peer_egress s = Some (TC_ACT_OK, s)) /\
  (is_ip s -> skb_headlen (st_skb s) < 34 -> host_peer_egress s = Some (TC_ACT_OK, s)) /\
  (is_ip s -> 34 <= skb_headlen (st_skb s) <= skb_len (st_skb s) -> ~ tcp_or_udp (pkt s) ->
   exists msg args, host_peer_egress s = Some (TC_ACT_SHOT, log_call (CallPrintk msg args) s)).
Proof.
  intros Hr. split; [|split].
  - intros Hp. apply wp_exact. unfold host_peer_egress. wp_prologue.
    rewrite (proj2 (Z.eqb_neq _ _) Hp). by apply wp_ret.
  - intros Hip Hh. apply wp_exact. unfold host_peer_egress. ip_prologue Hip. by apply wp_ret.
  - intros Hip [Hh Hl] Hpr. unfold skb_len in Hl. fold (pkt s) in Hl.
    destruct (reachable_typed e K _ Hr) as (_ & _ & _ & _ & Hod & _).
    assert (wp host_peer_egress (fun v s' => exists msg args, v = TC_ACT_SHOT /\
      s' = log_call (CallPrintk msg args) s) s) as Hw.
    { unfold host_peer_egress. ip_prologue Hip.
      apply wp_bind, wp_ld_proto; [done|lia..|]. apply wp_bind, wp_ld_daddr; [done|lia|].
      unfold tcp_or_udp in Hpr. unfold get_port.
      rewrite !(proj2 (Z.eqb_neq (ip_proto _) _)) by tauto.
      apply wp_bind, wp_ret, wp_bind, wp_map_lookup.
      destruct (original_dst_map (st_maps s) !! _) as [entry|] eqn:E.
      - apply Hod in E as (_ & Hlow & _). exfalso. apply Hpr.
        rewrite dst_key_value in Hlow by (lia || (apply ip_proto_range; lia)).
        pose proof (ip_proto_range (pkt s)). 
        unfold IPPROTO_TCP, IPPROTO_UDP in *. dlia.
      - apply wp_bind, wp_printk, wp_ret. eauto. }
    apply wp_elim in Hw as (v & s' & E & msg & args & -> & ->). eauto.
Qed.

(** A workload is registered and opens a connection, which is recorded. *)
Definition demo_registered : bpf_maps := (AddVethPairEntry demo_pair no_maps).2.

Definition demo_skb : sk_buff := mk_skb frame_pod_http 54 (bpf_htons (e := LE) true ETH_P_IP) 8 false.

Lemma reachable_type_safe_witness :
  exists m, reachable LE m /\ size (original_dst_map m) = 1%nat /\ maps_typed m.
Proof.
  destruct (code (e := LE) (H := ref_helpers LE) ProgCtrPeerEgress
    (start_state demo_skb demo_registered)) as [[v s']|] eqn:E; [|vm_compute in E; discriminate E].
  assert (reachable LE (st_maps s')) as Hr.
  { eapply rtc_l; [apply (step_add_veth_pair _ _ _ demo_pair)|]. apply rtc_once.
    exact (step_packet LE ref_kmaps _ (ref_helpers LE) (ref_laws LE) ProgCtrPeerEgress
      demo_skb v s' E). }
  exists (st_maps s'). split; [exact Hr|].
  split; [|exact (proj1 (reachable_type_safe LE ref_kmaps ref_kmaps_laws _ Hr))].
  clear Hr. vm_compute in E. injection E as <- <-. vm_compute. reflexivity.
Defined.

Lemma host_peer_egress_other_witness :
  exists msg args, host_peer_egress (e := BE) (H := ref_helpers BE)
    (arriving BE ETH_P_IP no_maps (splice 23 [Init.Byte.x01] frame_proxy_reply))
  = Some (TC_ACT_SHOT, log_call (CallPrintk msg args)
      (arriving BE ETH_P_IP no_maps (splice 23 [Init.Byte.x01] frame_proxy_reply))).
Proof.
  apply (host_peer_egress_other BE ref_kmaps ref_kmaps_laws (ref_helpers BE) (ref_laws BE)).
  - apply rtc_refl.
  - reflexivity.
  - split; vm_compute; discriminate.
  - intros [E|E]; vm_compute in E; discriminate E.
Defined.
