(* ===== verification/Registry.v ===== *)
(** * The maps implement a registry of workloads

    What the control plane promises to the rest of the system is simple: a
    table of workloads by host port, with room for 128 of them.  The three maps
    that ADD and DEL write implement it, across any sequence of registrations,
    removals, failures and packets.  An ADD that fails half-way leaves entries
    behind that no DEL removes; they take up room, and a target left in
    [ptp_dnat_targets] attracts the traffic of its port until the port is
    registered again.  The abstract state keeps them apart, so that the maps are
    known exactly.  Traffic is delivered to, and attributed to, the registered
    workload. *)

From S2P Require Import Prelude Go Endian Csum CLayout Helpers RefHelpers CTypes VmPacket Packet Samples NetHelpers Dnat Snat Tproxy Chain MapDefs Control Datapath.

(** ** The abstract registry *)

(** Workloads by host port. *)
Abbreviation registry := (gmap Z VethPair).

(** Two map entries per workload in maps of 256. *)
Definition capacity : nat := 128.

(** The registered workloads, and what ADDs that failed left: veth pairs, by
    host interface, and targets, by port. *)
Record fleet := mk_fleet { registered : registry; lost : registry; dangling : registry }.

Definition no_fleet : fleet := mk_fleet ∅ ∅ ∅.

(** ** Keys of a workload *)

Definition pod_ip (w : VethPair) : Z := addr_val (Addr (PodPeer w)).
Definition host_idx (w : VethPair) : Z := Index (Iface (HostPeer w)).
Definition pod_idx (w : VethPair) : Z := Index (Iface (PodPeer w)).

(** ADD with all its map writes registers a workload; ADD that stops earlier
    leaves a veth pair or a veth pair and a target; without room none of them
    changes anything. *)
Definition spec_add (n : nat) (port : Z) (w : VethPair) (R : fleet) : fleet :=
  if (size (registered R) + size (lost R) <? capacity)%nat then
    match n with
    | O => R
    | 1%nat => mk_fleet (registered R) (<[host_idx w := w]> (lost R)) (dangling R)
    | 2%nat => mk_fleet (registered R) (<[host_idx w := w]> (lost R)) (<[port := w]> (dangling R))
    | _ => mk_fleet (<[port := w]> (registered R)) (lost R) (delete port (dangling R))
    end
  else R.

Definition spec_del (port : Z) (R : fleet) : fleet :=
  mk_fleet (delete port (registered R)) (lost R) (dangling R).

(** What IPAM, the kernel and the port allocator guarantee of a workload:
    well-formed addresses outside 0.0.0.0/16, and two interfaces. *)
Definition workload_ok (port : Z) (w : VethPair) : Prop :=
  data_wf {| Veth := w; HostPort := port |} /\ 2 ^ 16 <= pod_ip w /\ host_idx w <> pod_idx w.

(** Addresses and interfaces are not shared. *)
Definition veth_apart (w w' : VethPair) : Prop :=
  host_idx w <> host_idx w' /\ host_idx w <> pod_idx w' /\
  pod_idx w <> host_idx w' /\ pod_idx w <> pod_idx w'.

Definition apart (w w' : VethPair) : Prop := pod_ip w <> pod_ip w' /\ veth_apart w w'.

Lemma apart_sym w w' : apart w w' -> apart w' w.
Proof. unfold apart, veth_apart. intuition congruence. Qed.

(** The port of a new workload is not registered, its address is not that of a
    registered workload, and its interfaces are not those of any veth pair that
    still has entries.  (An ADD that fails after its last map write gives its
    addresses back although it is registered until DEL; that IPAM does not hand
    them out before is part of this assumption.) *)
Definition fresh_in (R : fleet) (port : Z) (w : VethPair) : Prop :=
  registered R !! port = None /\ workload_ok port w /\
  (forall p' w', registered R !! p' = Some w' -> apart w w') /\
  (forall i' w', lost R !! i' = Some w' -> veth_apart w w').

Definition registry_wf (W : registry) : Prop :=
  (forall p w, W !! p = Some w -> workload_ok p w) /\
  (forall p w p' w', W !! p = Some w -> W !! p' = Some w' -> p <> p' -> apart w w').

Lemma registry_wf_empty : registry_wf ∅.
Proof. split; intros *; by rewrite lookup_empty. Qed.

Lemma registry_wf_insert W port w :
  registry_wf W -> W !! port = None -> workload_ok port w ->
  (forall p' w', W !! p' = Some w' -> apart w w') -> registry_wf (<[port := w]> W).
Proof.
  intros [Hok Hap] Hn Hw Hf. split.
  - intros p w' [[<- <-]|[Hne Hl]]%lookup_insert_Some; eauto.
  - intros p w1 p' w2 [[<- <-]|[Hne Hl]]%lookup_insert_Some
      [[<- <-]|[Hne' Hl']]%lookup_insert_Some Hpp; [done|by eauto| |by eauto].
    apply apart_sym. eauto.
Qed.

Lemma registry_wf_delete W port : registry_wf W -> registry_wf (delete port W).
Proof.
  intros [Hok Hap]. split.
  - intros p w [_ Hl]%lookup_delete_Some. eauto.
  - intros p w p' w' [_ Hl]%lookup_delete_Some [_ Hl']%lookup_delete_Some. eauto.
Qed.

(** The invariant of the abstract state. *)
Record fleet_wf (R : fleet) : Prop := {
  fleet_registered : registry_wf (registered R);
  fleet_lost : forall i w, lost R !! i = Some w -> i = host_idx w;
  fleet_dangling : forall p w, dangling R !! p = Some w -> workload_ok p w;
  fleet_disjoint : registered R ##ₘ dangling R;
  fleet_targets : (size (dangling R) <= size (lost R))%nat;
  fleet_capacity : (size (registered R) + size (lost R) <= capacity)%nat;
}.

(** ** Representation *)

Definition target_of (w : VethPair) : dnat_target :=
  {| dnat_ip_addr := pod_ip w; dnat_iface_idx := host_idx w mod 256;
     dnat_mac_addr := HardwareAddr (Iface (PodPeer w)) |}.

(** [m] holds exactly the entries [val p w] under the two keys [k1 p w] and
    [k2 p w] of each workload. *)
Definition two_keys {V} (val : Z -> VethPair -> V) (k1 k2 : Z -> VethPair -> Z)
    (W : registry) (m : gmap Z V) : Prop :=
  (forall k v, m !! k = Some v <->
     exists p w, W !! p = Some w /\ v = val p w /\ (k = k1 p w \/ k = k2 p w)) /\
  size m = (2 * size W)%nat.

Definition net_value (p : Z) (w : VethPair) : net_data := data_value {| Veth := w; HostPort := p |}.

(** The entries of [veth_pair_map]. *)
Definition veth_keys : registry -> gmap Z veth_pair -> Prop :=
  two_keys (fun _ => vp_value) (fun _ => host_idx) (fun _ => pod_idx).

(** The maps hold the entries of the registered workloads and those left by
    failed ADDs, and nothing else. *)
Record represents (R : fleet) (m : bpf_maps) : Prop := {
  rep_dnat : ptp_dnat_targets m = target_of <$> (registered R ∪ dangling R);
  rep_net : two_keys net_value (fun p _ => p) (fun _ => pod_ip) (registered R) (net_data_map m);
  rep_veth : exists mr ml, veth_pair_map m = mr ∪ ml /\ mr ##ₘ ml /\
    veth_keys (registered R) mr /\ veth_keys (lost R) ml;
}.

Section two_keys.
Context {V : Type} (val : Z -> VethPair -> V) (k1 k2 : Z -> VethPair -> Z).

Lemma two_keys_empty : two_keys val k1 k2 ∅ ∅.
Proof using Type.
  split; [|done]. intros k v. rewrite lookup_empty. split; [done|].
  intros (p & w & Hl & _). by rewrite lookup_empty in Hl.
Qed.

(** The keys of a workload and those of all others in [W] are different. *)
Definition keys_apart (W : registry) (port : Z) (w : VethPair) : Prop :=
  k1 port w <> k2 port w /\
  forall p' w', W !! p' = Some w' -> p' <> port ->
    k1 port w <> k1 p' w' /\ k1 port w <> k2 p' w' /\
    k2 port w <> k1 p' w' /\ k2 port w <> k2 p' w'.

Lemma two_keys_none W port w m :
  two_keys val k1 k2 W m -> W !! port = None -> keys_apart W port w ->
  m !! k1 port w = None /\ m !! k2 port w = None.
Proof using Type.
  intros [Hm _] Hn [_ Hk].
  split; apply eq_None_ne_Some_2; intros v (p & w' & Hl & _ & Hkk)%Hm;
    (assert (p <> port) as Hne by congruence); destruct (Hk p w' Hl Hne) as (? & ? & ? & ?);
    destruct Hkk; congruence.
Qed.

Lemma two_keys_insert W port w m :
  two_keys val k1 k2 W m -> W !! port = None -> keys_apart W port w ->
  two_keys val k1 k2 (<[port := w]> W)
    (<[k2 port w := val port w]> (<[k1 port w := val port w]> m)).
Proof using Type.
  intros Hrep Hn Hk. pose proof (two_keys_none _ _ _ _ Hrep Hn Hk) as [Hn1 Hn2].
  destruct Hrep as [Hm Hs], Hk as [H12 Hk]. split.
  - intros k v. rewrite !lookup_insert_Some. split.
    + intros [[<- <-]|[Hne [[<- <-]|[Hne' Hl]]]].
      * exists port, w. rewrite lookup_insert_eq. auto.
      * exists port, w. rewrite lookup_insert_eq. auto.
      * apply Hm in Hl as (p & w' & Hl & -> & Hkk). exists p, w'.
        rewrite lookup_insert_ne by congruence. auto.
    + intros (p & w' & [[<- <-]|[Hne Hl]]%lookup_insert_Some & -> & Hkk).
      * destruct Hkk as [-> | ->]; auto.
      * destruct (Hk p w' Hl (not_eq_sym Hne)) as (A & B & C & D).
        right. split; [by destruct Hkk as [-> | ->]|]. right.
        split; [by destruct Hkk as [-> | ->]|]. apply Hm. eauto.
  - rewrite !map_size_insert_None by (rewrite ?lookup_insert_ne; done). lia.
Qed.

Lemma two_keys_delete W port w m :
  two_keys val k1 k2 W m -> W !! port = Some w -> keys_apart W port w ->
  two_keys val k1 k2 (delete port W) (delete (k2 port w) (delete (k1 port w) m)).
Proof using Type.
  intros [Hm Hs] Hw [H12 Hk].
  assert (forall k, k = k1 port w \/ k = k2 port w -> m !! k = Some (val port w)) as Hin
    by (intros k Hkk; apply Hm; eauto).
  split.
  - intros k v. rewrite !lookup_delete_Some. split.
    + intros (Hne2 & Hne1 & Hl). apply Hm in Hl as (p & w' & Hl & -> & Hkk). exists p, w'.
      split; [|by auto]. rewrite lookup_delete_ne; [done|]. intros <-.
      destruct Hkk; congruence.
    + intros (p & w' & [Hne Hl]%lookup_delete_Some & -> & Hkk).
      destruct (Hk p w' Hl (not_eq_sym Hne)) as (A & B & C & D).
      split; [by destruct Hkk as [-> | ->]|]. split; [by destruct Hkk as [-> | ->]|].
      apply Hm. eauto.
  - rewrite !map_size_delete, lookup_delete_ne by done.
    rewrite (Hin (k1 port w)), (Hin (k2 port w)), Hw by auto. cbn. lia.
Qed.
End two_keys.

(** ** The operations refine the registry *)

(** A workload that shares nothing with the other workloads of [W]. *)
Definition others_apart (W : registry) (port : Z) (w : VethPair) : Prop :=
  workload_ok port w /\
  forall p' w', W !! p' = Some w' -> p' <> port -> workload_ok p' w' /\ apart w w'.

Lemma others_apart_fresh R port w :
  registry_wf (registered R) -> fresh_in R port w -> others_apart (registered R) port w.
Proof. intros [Hok _] (_ & Hw & Hf & _). split; [done|]. intros p' w' Hl _. eauto. Qed.

Lemma others_apart_member W port w :
  registry_wf W -> W !! port = Some w -> others_apart W port w.
Proof. intros [Hok Hap] Hw. split; [eauto|]. intros p' w' Hl Hne. split; [eauto|]. by eapply Hap. Qed.

Lemma net_keys_apart W port w :
  others_apart W port w -> keys_apart (fun p _ => p) (fun _ => pod_ip) W port w.
Proof.
  intros [((_ & _ & Hp) & Hip & _) Ho]. cbn [HostPort] in Hp. split; [lia|].
  intros p' w' Hl Hne. destruct (Ho p' w' Hl Hne) as [((_ & _ & Hp') & Hip' & _) (Ha & _)].
  cbn [HostPort] in Hp'. repeat split; (congruence || lia).
Qed.

Lemma veth_keys_apart W port w :
  others_apart W port w -> keys_apart (fun _ => host_idx) (fun _ => pod_idx) W port w.
Proof.
  intros [(_ & _ & Hidx) Ho]. split; [done|]. intros p' w' Hl Hne.
  by destruct (Ho p' w' Hl Hne) as [_ (_ & ?)].
Qed.

Lemma lost_keys_apart R port w :
  fresh_in R port w -> keys_apart (fun _ => host_idx) (fun _ => pod_idx) (lost R) (host_idx w) w.
Proof. intros (_ & (_ & _ & Hidx) & _ & Hl). split; [done|]. intros i' w' Hi _. by eapply Hl. Qed.

Lemma lost_none R port w : fleet_wf R -> fresh_in R port w -> lost R !! host_idx w = None.
Proof.
  intros Hwf (_ & _ & _ & Hl). apply eq_None_ne_Some_2. intros w' Hi.
  pose proof (fleet_lost _ Hwf _ _ Hi). by destruct (Hl _ _ Hi).
Qed.

(** Only the three maps of the registry matter. *)
Lemma represents_ext R m m' :
  ptp_dnat_targets m' = ptp_dnat_targets m -> net_data_map m' = net_data_map m ->
  veth_pair_map m' = veth_pair_map m -> represents R m -> represents R m'.
Proof. intros E1 E2 E3 [R1 R2 R3]. split; [congruence|congruence|by rewrite E3]. Qed.

Lemma represents_empty : represents no_fleet no_maps.
Proof.
  split; [done|apply two_keys_empty|]. exists ∅, ∅.
  repeat (split; [done || apply map_disjoint_empty_l|]); split; apply two_keys_empty.
Qed.

Lemma fleet_wf_empty : fleet_wf no_fleet.
Proof.
  split; cbn; [apply registry_wf_empty|intros *; by rewrite lookup_empty..| |done|].
  { apply map_disjoint_empty_l. }
  by apply Nat.leb_le.
Qed.

Lemma fleet_wf_add n R port w :
  fleet_wf R -> fresh_in R port w -> fleet_wf (spec_add n port w R).
Proof.
  intros Hwf Hf. pose proof (lost_none _ _ _ Hwf Hf) as Hln. pose proof Hf as (Hn & Hok & Hap & _).
  destruct Hwf as [Hreg Hl Hd Hdis Ht Hc]. unfold spec_add.
  destruct (Nat.ltb_spec (size (registered R) + size (lost R)) capacity) as [Hs|Hs]; [|by split].
  assert (forall i w', <[host_idx w := w]> (lost R) !! i = Some w' -> i = host_idx w') as Hl'
    by (intros i w' [[<- <-]|[_ Hi]]%lookup_insert_Some; eauto).
  assert (size (<[host_idx w := w]> (lost R)) = S (size (lost R))) as Es
    by (by apply map_size_insert_None).
  destruct n as [|[|[|n]]]; [by split|..]; split; cbn [registered lost dangling];
    try assumption; rewrite ?Es; try lia.
  - intros p w' [[<- <-]|[_ Hi]]%lookup_insert_Some; eauto.
  - by apply map_disjoint_insert_r_2.
  - rewrite map_size_insert. destruct (dangling R !! port); cbn; lia.
  - by apply registry_wf_insert.
  - intros p w' [_ Hi]%lookup_delete_Some. eauto.
  - apply map_disjoint_insert_l_2; [apply lookup_delete_eq|by apply map_disjoint_delete_r].
  - rewrite map_size_delete. destruct (dangling R !! port); cbn; lia.
  - rewrite map_size_insert_None by done. lia.
Qed.

Lemma fleet_wf_del R port : fleet_wf R -> fleet_wf (spec_del port R).
Proof.
  intros [Hreg Hl Hd Hdis Ht Hc]. split; cbn [spec_del registered lost dangling]; try done.
  - by apply registry_wf_delete.
  - by apply map_disjoint_delete_l.
  - rewrite map_size_delete. destruct (registered R !! port); cbn; lia.
Qed.

Section refine.
Context {K : KMaps} {KL : KMapLaws K}.

Lemma veth_size R m :
  represents R m ->
  size (veth_pair_map m) = (2 * (size (registered R) + size (lost R)))%nat.
Proof using Type.
  intros [_ _ (mr & ml & -> & Hdis & [_ Hr] & [_ Hl])].
  rewrite map_size_disj_union by done. lia.
Qed.

(** As long as one more veth pair fits, everything else fits too. *)
Lemma represents_room R m :
  represents R m -> fleet_wf R -> (size (registered R) + size (lost R) < capacity)%nat -> room m.
Proof using Type.
  intros Hr Hwf Hs. pose proof (veth_size R m Hr) as Hv. pose proof (rep_net _ _ Hr) as [_ Hn].
  pose proof (fleet_targets _ Hwf) as Ht. unfold room.
  rewrite Hv, Hn, (rep_dnat _ _ Hr), map_size_fmap,
    map_size_disj_union by apply (fleet_disjoint _ Hwf).
  unfold capacity in Hs. lia.
Qed.

(** The interfaces of a new workload have no entries. *)
Lemma veth_fresh R port w mr ml :
  fleet_wf R -> fresh_in R port w -> veth_keys (registered R) mr -> veth_keys (lost R) ml ->
  (mr !! host_idx w = None /\ mr !! pod_idx w = None) /\
  (ml !! host_idx w = None /\ ml !! pod_idx w = None).
Proof using Type.
  intros Hwf Hf Hmr Hml.
  pose proof (others_apart_fresh _ _ _ (fleet_registered _ Hwf) Hf) as Ho. split.
  - eapply (two_keys_none _ _ _ _ _ _ _ Hmr); [apply Hf|by apply veth_keys_apart].
  - eapply (two_keys_none _ _ _ _ _ _ _ Hml); [by eapply lost_none|by eapply lost_keys_apart].
Qed.

(** A new veth pair, registered or left behind. *)
Lemma veth_registered R port w m :
  fleet_wf R -> fresh_in R port w -> represents R m ->
  exists mr ml,
    <[pod_idx w := vp_value w]> (<[host_idx w := vp_value w]> (veth_pair_map m)) = mr ∪ ml /\
    mr ##ₘ ml /\ veth_keys (<[port := w]> (registered R)) mr /\ veth_keys (lost R) ml.
Proof using Type.
  intros Hwf Hf [_ _ (mr & ml & -> & Hdis & Hmr & Hml)].
  destruct (veth_fresh _ _ _ _ _ Hwf Hf Hmr Hml) as [_ [Hh Hp]].
  exists (<[pod_idx w := vp_value w]> (<[host_idx w := vp_value w]> mr)), ml.
  rewrite !insert_union_l. split; [done|]. split; [by repeat apply map_disjoint_insert_l_2|].
  split; [|done]. apply (two_keys_insert (fun _ => vp_value) (fun _ => host_idx) (fun _ => pod_idx));
    [done|apply Hf|]. eapply veth_keys_apart, others_apart_fresh; [apply Hwf|done].
Qed.

Lemma veth_lost R port w m :
  fleet_wf R -> fresh_in R port w -> represents R m ->
  exists mr ml,
    <[pod_idx w := vp_value w]> (<[host_idx w := vp_value w]> (veth_pair_map m)) = mr ∪ ml /\
    mr ##ₘ ml /\ veth_keys (registered R) mr /\ veth_keys (<[host_idx w := w]> (lost R)) ml.
Proof using Type.
  intros Hwf Hf [_ _ (mr & ml & -> & Hdis & Hmr & Hml)].
  destruct (veth_fresh _ _ _ _ _ Hwf Hf Hmr Hml) as [[Hh Hp] _].
  exists mr, (<[pod_idx w := vp_value w]> (<[host_idx w := vp_value w]> ml)).
  rewrite !insert_union_r by done. split; [done|].
  split; [by repeat apply map_disjoint_insert_r_2|]. split; [done|].
  apply (two_keys_insert (fun _ => vp_value) (fun _ => host_idx) (fun _ => pod_idx) _ (host_idx w));
    [done|by eapply lost_none|by eapply lost_keys_apart].
Qed.

(** A target that is overwritten is no longer left over. *)
Lemma insert_union_l_delete (W D : registry) port w :
  <[port := w]> (W ∪ D) = <[port := w]> W ∪ delete port D.
Proof using Type.
  apply map_eq. intros k. destruct (decide (k = port)) as [-> |Hne].
  - rewrite lookup_insert_eq. symmetry. apply lookup_union_Some_l, lookup_insert_eq.
  - rewrite lookup_insert_ne, !lookup_union, lookup_insert_ne, lookup_delete_ne by done. done.
Qed.

(** Without room the first write of ADD fails. *)
Lemma cniAdd_no_room n R port w m :
  represents R m -> fleet_wf R -> fresh_in R port w ->
  (capacity <= size (registered R) + size (lost R))%nat ->
  exists msg, cniAdd_upto (S n) w port m = (Err msg, m).
Proof using KL.
  intros Hr Hwf Hf Hs. exists "host".
  assert (AddVethPairEntry w m = (Err "host", m)) as E.
  { pose proof (veth_size R m Hr) as Hv.
    destruct (rep_veth _ _ Hr) as (mr & ml & Em & _ & Hmr & Hml).
    destruct (veth_fresh _ _ _ _ _ Hwf Hf Hmr Hml) as [[Hh _] [Hh' _]].
    destruct Hf as (_ & (((Ha & _ & Hi) & (_ & _ & Hp) & _) & _) & _). cbn [Veth] in *.
    unfold AddVethPairEntry, must. rewrite ipToInt_4 by done. unfold mbind, GoM_bind. cbv zeta.
    unfold cast_u32. rewrite !wrap_small by done. rewrite Put_full; [done| |].
    - rewrite Em, lookup_union_None. done.
    - rewrite Hv. unfold capacity in Hs. cbn [md_max_entries veth_pair_map_def]. lia. }
  destruct n as [|[|n]]; cbn [cniAdd_upto]; unfold cniAdd; [exact E|..];
    unfold mbind, GoM_bind; by rewrite E.
Qed.

(** ADD, complete or not, does what the registry says. *)
Lemma cniAdd_refines n R port w m :
  represents R m -> fleet_wf R -> fresh_in R port w ->
  if (size (registered R) + size (lost R) <? capacity)%nat || (n =? 0)%nat
  then exists m', cniAdd_upto n w port m = (Ok tt, m') /\ represents (spec_add n port w R) m'
  else exists msg, cniAdd_upto n w port m = (Err msg, m).
Proof using KL.
  intros Hr Hwf Hf. destruct n as [|n].
  { rewrite orb_true_r. exists m. split; [done|]. unfold spec_add. by case_match. }
  rewrite orb_false_r. unfold spec_add. destruct (Nat.ltb_spec (size (registered R) + size (lost R)) capacity) as [Hs|Hs];
    [|by eapply cniAdd_no_room].
  pose proof (represents_room R m Hr Hwf Hs) as Hroom.
  pose proof (veth_lost _ _ _ _ Hwf Hf Hr) as Hvl. pose proof (veth_registered _ _ _ _ Hwf Hf Hr) as Hvr.
  assert (data_wf {| Veth := w; HostPort := port |}) as Hd by apply Hf.
  destruct n as [|[|n]].
  - cbn [cniAdd_upto]. rewrite (AddVethPairEntry_ok w port) by (done || apply Hroom).
    eexists. split; [reflexivity|]. split; [apply Hr|apply Hr|exact Hvl].
  - rewrite cniAdd_2_ok by done. eexists. split; [reflexivity|].
    split; [|apply Hr|exact Hvl]. cbn [upd_dnat upd_veth ptp_dnat_targets registered dangling].
    change (target_value w port) with (target_of w). rewrite (rep_dnat _ _ Hr), <-fmap_insert. f_equal. apply insert_union_r, Hf.
  - cbn [cniAdd_upto]. destruct (cniAdd_ok w port Hd m Hroom) as (m' & E & _ & _ & Ev & Et & En).
    exists m'. split; [exact E|]. split.
    + cbn [registered dangling]. rewrite Et, (rep_dnat _ _ Hr). cbn [registered dangling].
      rewrite <-insert_union_l_delete. by rewrite fmap_insert.
    + rewrite En. apply (two_keys_insert net_value (fun p _ => p) (fun _ => pod_ip));
        [apply Hr|apply Hf|]. eapply net_keys_apart, others_apart_fresh; [apply Hwf|done].
    + rewrite Ev. exact Hvr.
Qed.

Lemma cniDel_refines R port m :
  represents R m -> fleet_wf R -> u16 port ->
  match registered R !! port with
  | Some w => exists m', cniDel port m = (Ok tt, m') /\ represents (spec_del port R) m'
  | None => exists msg, cniDel port m = (Err msg, m)
  end.
Proof using KL.
  intros [Rd Rn Rv] Hwf Hp. pose proof (fleet_registered _ Hwf) as Hreg.
  destruct (registered R !! port) as [w|] eqn:Hw.
  - pose proof (others_apart_member _ _ _ Hreg Hw) as Ho.
    pose proof (net_keys_apart _ _ _ Ho) as Hkn. pose proof (veth_keys_apart _ _ _ Ho) as Hkv.
    destruct Ho as [(Hd & _ & _) _], Rv as (mr & ml & Em & Hdis & Hmr & Hml).
    assert (net_data_map m !! port = Some (net_value port w)) as Hn by (apply Rn; exists port, w; auto).
    assert (mr !! host_idx w = Some (vp_value w)) as Hvh by (apply Hmr; exists port, w; auto).
    assert (mr !! pod_idx w = Some (vp_value w)) as Hvp by (apply Hmr; exists port, w; auto).
    unfold cniDel. erewrite GoM_bind_ok by (by eapply (GetVethPair_ok w port Hd)).
    rewrite (DelMapEntries_short w port Hd), (DelMapEntries_del w port Hd).
    + eexists. split; [reflexivity|]. split.
      * cbn [upd_veth upd_dnat ptp_dnat_targets spec_del registered dangling].
        rewrite Rd, <-fmap_delete, delete_union. f_equal. f_equal. apply delete_id.
        by eapply map_disjoint_Some_l; [apply (fleet_disjoint _ Hwf)|].
      * apply (two_keys_delete net_value (fun p _ => p) (fun _ => pod_ip)); done.
      * exists (delete (pod_idx w) (delete (host_idx w) mr)), ml. cbn [upd_veth veth_pair_map].
        split; [|split; [by repeat apply map_disjoint_delete_l|split; [|exact Hml]]].
        -- rewrite Em, !delete_union. f_equal. rewrite !delete_id; [done|..];
             try rewrite delete_id; by eapply map_disjoint_Some_l.
        -- by apply (two_keys_delete (fun _ => vp_value) (fun _ => host_idx) (fun _ => pod_idx)).
    + eauto.
    + exists (net_value port w). apply Rn. exists port, w. auto.
    + apply Hkn.
    + rewrite Rd, lookup_fmap, (lookup_union_Some_l _ _ _ _ Hw). eauto.
    + exists (vp_value w). rewrite Em. by apply lookup_union_Some_l.
    + exists (vp_value w). rewrite Em. by apply lookup_union_Some_l.
    + apply Hkv.
  - exists "get by port". unfold cniDel, GetVethPair, GetNetData, mbind, GoM_bind.
    destruct (net_data_map m !! port) as [v|] eqn:E; [|done].
    apply Rn in E as (p & w & Hl & _ & [-> | ->]); [congruence|].
    destruct (proj1 Hreg p w Hl) as (_ & Hip & _). unfold u16 in Hp. lia.
Qed.

Lemma AddSNATTarget_frame key ip idx m :
  exists f, (AddSNATTarget key ip idx m).2 = upd_snat f m.
Proof using Type.
  unfold AddSNATTarget, must, mbind, GoM_bind, Put.
  destruct (ipToInt ip); [|exists (ptp_snat_config m); by destruct m].
  destruct (k_put _ _ _ _); [eauto|]. exists (ptp_snat_config m). by destruct m.
Qed.
End refine.

(** ** The running system

    The registry beside the maps is the abstract state; it moves by the
    specification, the maps by the code.  ADD makes its first [n] map writes:
    all three when it succeeds or fails afterwards, fewer when a call between
    them fails. *)

Section system.
Context (e : endianness) (K : KMaps).

Inductive sys_step : fleet * bpf_maps -> fleet * bpf_maps -> Prop :=
| sys_add n R m port w :
    fresh_in R port w -> sys_step (R, m) (spec_add n port w R, (cniAdd_upto n w port m).2)
| sys_del R m port :
    u16 port -> sys_step (R, m) (spec_del port R, (cniDel port m).2)
| sys_snat R m ip idx :
    u8 idx -> sys_step (R, m) (R, (AddSNATTarget 0 ip idx m).2)
| sys_packet R m (H : BpfHelpers) (L : BpfHelperLaws e H) p skb v s' :
    code p (start_state skb m) = Some (v, s') -> sys_step (R, m) (R, st_maps s').

Definition sys_inv (Rm : fleet * bpf_maps) : Prop :=
  represents Rm.1 Rm.2 /\ fleet_wf Rm.1 /\ maps_typed Rm.2.

Definition sys_reachable (R : fleet) (m : bpf_maps) : Prop :=
  rtc sys_step (no_fleet, no_maps) (R, m).

Context {KL : KMapLaws K}.

Lemma cniAdd_typed n w port : u16 port -> GoM_inv maps_typed (fun _ => True) (cniAdd_upto n w port).
Proof using KL.
  intros Hp. assert (GoM_inv maps_typed (fun _ => True) (cniAddDNATTarget w port)) as Hd
    by (apply AddDNATTarget_typed; [done|apply cast_u8_u8]).
  destruct n as [|[|[|n]]]; cbn [cniAdd_upto]; [by intros m Hm|apply AddVethPairEntry_typed|..];
    (apply GoM_inv_seq; [apply AddVethPairEntry_typed|intros _]); [done|].
  apply GoM_inv_seq; [done|intros _]. by apply AddNetData_typed.
Qed.

Lemma cniDel_typed port : GoM_inv maps_typed (fun _ => True) (cniDel port).
Proof using KL.
  apply GoM_inv_seq.
  { apply GoM_inv_seq; [|by intros a m Hm]. intros m Hm. unfold GetNetData.
    by destruct (net_data_map m !! port). }
  intros w. apply GoM_inv_seq; [apply DelNetData_typed|intros _].
  apply GoM_inv_seq; [apply DelDNATTarget_typed|intros _]. apply DelVethPairEntry_typed.
Qed.

Lemma sys_step_inv a b : sys_step a b -> sys_inv a -> sys_inv b.
Proof using KL.
  intros Hstep (Hr & Hwf & Ht).
  destruct Hstep as [n R m port w Hf|R m port Hp|R m ip idx Hi|R m H L p skb v s' E];
    unfold sys_inv; cbn [fst snd] in *.
  - pose proof (cniAdd_refines n R port w m Hr Hwf Hf) as Hadd.
    pose proof (fleet_wf_add n R port w Hwf Hf) as Hwf'.
    assert (maps_typed (cniAdd_upto n w port m).2) as Ht'
      by (apply cniAdd_typed; [apply Hf|exact Ht]).
    split; [|by split]. destruct (_ || _) eqn:Eb.
    + by destruct Hadd as (m' & E & Hr'); rewrite E in *.
    + apply orb_false_elim in Eb as [Eb _]. destruct Hadd as (msg & E). rewrite E.
      unfold spec_add. by rewrite Eb.
  - pose proof (cniDel_refines R port m Hr Hwf Hp) as Hdel.
    pose proof (fleet_wf_del R port Hwf) as Hwf'.
    pose proof (proj1 (cniDel_typed port m Ht)) as Ht'. split; [|by split].
    destruct (registered R !! port) as [w|] eqn:Hw.
    + by destruct Hdel as (m' & E & Hr'); rewrite E in *.
    + destruct Hdel as (msg & E). rewrite E. unfold spec_del. rewrite delete_id by done.
      by destruct R.
  - assert (maps_typed (AddSNATTarget 0 ip idx m).2) as Ht'
      by (apply AddSNATTarget_typed; [unfold u8; lia|done..]).
    destruct (AddSNATTarget_frame 0 ip idx m) as [f E]. rewrite E in *.
    split; [by eapply represents_ext; [..|exact Hr]|done].
  - pose proof (code_maps p (start_state skb m) (maps_typed_wf m Ht)) as Hw.
    apply wp_elim in Hw as (v1 & s1 & E1 & Hc). simplify_eq.
    pose proof (dst_changed_typed _ _ Ht Hc) as Ht'. destruct Hc as (od & Eod & _).
    split; [|done]. rewrite Eod. by eapply represents_ext; [..|exact Hr].
Qed.

Lemma sys_reachable_inv R m : sys_reachable R m -> sys_inv (R, m).
Proof using KL.
  intros Hr. apply (rtc_preserves sys_step sys_inv sys_step_inv _ _ Hr).
  split; [apply represents_empty|]. split; [apply fleet_wf_empty|]. apply no_maps_typed.
Qed.
End system.

Arguments sys_step e {K} _ _.
Arguments sys_reachable e {K} R m.


(** The packet of [s] went, in [s'], to the workload [w]: redirected to its host
    interface, with its MAC and IP address and the server port.  Only the low
    eight bits of the interface index are kept. *)
Definition delivered_to (w : VethPair) (s' : state) : Prop :=
  head (st_calls s') = Some (CallRedirectPeer (host_idx w mod 256) 0) /\
  (host_idx w < 256 -> head (st_calls s') = Some (CallRedirectPeer (host_idx w) 0)) /\
  eth_dst (pkt s') = HardwareAddr (Iface (PodPeer w)) /\
  slice 30 4 (pkt s') = ip4 (Addr (PodPeer w)) /\
  l4_dport (pkt s') = MC_SERVER_PORT.

Section deliver.
Context {e : endianness} {H : BpfHelpers} {L : BpfHelperLaws e H} {S : BpfHelpersSucceed H}.

Lemma dnat_delivered_to port w s :
  workload_ok port w -> ptp_dnat_targets (st_maps s) !! l4_dport (pkt s) = Some (target_of w) ->
  is_ip s -> 52 <= skb_len (st_skb s) -> 34 <= skb_headlen (st_skb s) ->
  exists v s', dnat s = Some (v, s') /\ delivered_to w s'.
Proof using L S.
  intros (((_ & _ & Hi) & (Ha & Hm & _) & _) & _) Hw Hip Hl Hh. cbn [Veth] in *.
  unfold skb_len in Hl. fold (pkt s) in Hl. assert (52 <= length (pkt s))%nat as Hl' by lia.
  apply wp_elim. assert (target_wf (target_of w)) as Htw by (split; [by apply addr_val_range|done]).
  apply (wp_dnat s (target_of w)); [done|done|lia|exact Hw|done|].
  intros s1 _ Hrw. split; [done|]. split.
  { intros Hlt. cbn. rewrite Z.mod_small; [done|]. split; [apply Hi|exact Hlt]. }
  destruct (dnat_rewritten_fields _ _ _ _ Htw Hl' Hrw) as (Hlen & Hd & Hi' & Hp & _).
  split; [exact Hd|]. rewrite pkt_log_call. split; [|exact Hp].
  apply addr_val_slice; [done|lia|exact Hi'].
Qed.
End deliver.

(** C6: workloads are isolated: in every state of the running system, a packet
    for a host port is given the MAC and IP address of the workload registered
    under that port and redirected to its host interface, if the index of that
    interface is below 256, and otherwise to the interface with the low eight
    bits of it; a port that is not registered goes to the workload whose ADD
    left a target under it, and passes unchanged when there is none.  A reply
    of a server is given the host port under which the workload with its source
    address is registered, and a packet with any other source address (outside
    0.0.0.0/16) is not translated. *)
Theorem workload_isolation (e : endianness) (K : KMaps) (KL : KMapLaws K)
    (H : BpfHelpers) (L : BpfHelperLaws e H) (S : BpfHelpersSucceed H)
    (R : fleet) (s : state) :
  sys_reachable e R (st_maps s) -> is_ip s -> 52 <= skb_len (st_skb s) ->
  34 <= skb_headlen (st_skb s) ->
  (exists v s', dnat s = Some (v, s') /\
     match registered R !! l4_dport (pkt s), dangling R !! l4_dport (pkt s) with
     | Some w, _ | None, Some w => delivered_to w s'
     | None, None => v = TC_ACT_OK /\ pkt s' = pkt s
     end) /\
  (forall entry, from_mc_server (pkt s) -> ptp_snat_config (st_maps s) !! 0 = Some entry ->
   exists v s', snat s = Some (v, s') /\
     (forall p w, registered R !! p = Some w -> slice 26 4 (pkt s) = ip4 (Addr (PodPeer w)) ->
        ip_src (pkt s') = snat_ip_addr entry /\ l4_sport (pkt s') = p) /\
     ((forall p w, registered R !! p = Some w -> slice 26 4 (pkt s) <> ip4 (Addr (PodPeer w))) ->
      2 ^ 16 <= ip_src (pkt s) -> pkt s' = pkt s)).
Proof.
  intros (Hr & Hwf & Ht)%sys_reachable_inv Hip Hl Hh; [|done]. cbn [fst snd] in *.
  destruct (fleet_registered _ Hwf) as [Hok Hap]. split.
  - pose proof (rep_dnat _ _ Hr) as Ed.
    destruct (registered R !! l4_dport (pkt s)) as [w|] eqn:Hw.
    { eapply dnat_delivered_to; [by apply (Hok _ _ Hw)| |done..].
      by rewrite Ed, lookup_fmap, (lookup_union_Some_l _ _ _ _ Hw). }
    assert ((registered R ∪ dangling R) !! l4_dport (pkt s) = dangling R !! l4_dport (pkt s)) as El
      by (rewrite lookup_union, Hw; by destruct (dangling R !! l4_dport (pkt s))).
    destruct (dangling R !! l4_dport (pkt s)) as [w|] eqn:Hd.
    + eapply dnat_delivered_to; [by apply (fleet_dangling _ Hwf _ _ Hd)| |done..].
      by rewrite Ed, lookup_fmap, El.
    + rewrite dnat_not_delivered; [by eauto|done|unfold skb_len in *; lia|].
      left. by rewrite Ed, lookup_fmap, El.
  - unfold skb_len in Hl. fold (pkt s) in Hl. assert (52 <= length (pkt s))%nat as Hl' by lia.
    intros entry Hmc He. destruct (net_data_map (st_maps s) !! ip_src (pkt s)) as [nd|] eqn:En.
    + apply (rep_net _ _ Hr) in En as Hnd. destruct Hnd as (p & w & Hw & -> & Hk).
      destruct (Hok _ _ Hw) as (((Hha & _) & (Ha & _) & Hp) & Hlow & _). cbn [Veth HostPort] in *.
      assert (snat_wf entry (net_value p w)) as Hswf.
      { split; [|done]. apply (map_Forall_lookup_1 _ _ _ _ (proj1 (proj1 Ht)) He). }
      apply wp_elim, (wp_snat s entry (net_value p w)); [done..|]. intros s1 _ Hrw.
      destruct (snat_rewritten_fields _ _ _ _ _ Hswf Hl' Hrw) as (_ & Hi & Hsp & _). split.
      * intros p' w' Hw' Hsrc. split; [exact Hi|]. rewrite pkt_log_call, Hsp. cbn.
        assert (ip_src (pkt s) = pod_ip w') as Hs' by (unfold ip_src, pod_ip, addr_val; by rewrite Hsrc).
        destruct (Hok _ _ Hw') as (_ & Hlow' & _). destruct Hk as [Hk|Hk]; [lia|].
        destruct (Z.eq_dec p p') as [|Hne]; [done|].
        destruct (Hap _ _ _ _ Hw Hw' Hne) as [Hipne _]. congruence.
      * intros Hno Hge. destruct Hk as [Hk|Hk]; [lia|]. exfalso. apply (Hno _ _ Hw).
        apply addr_val_slice; [done|lia|exact Hk].
    + destruct (snat_unconfigured s) as (msg & args & E); [done..|by right|].
      exists TC_ACT_OK. eexists. split; [exact E|]. split; [|done].
      intros p w Hw Hsrc. exfalso. unfold ip_src in En. rewrite Hsrc in En.
      assert (net_data_map (st_maps s) !! pod_ip w = Some (net_value p w)) as Hin
        by (apply (rep_net _ _ Hr); exists p, w; auto).
      unfold pod_ip, addr_val in Hin. congruence.
Qed.

(** ** A concrete run *)

Definition demo_pair2 : VethPair :=
  {| HostPeer := {| Iface := {| Index := 9; HardwareAddr := host_peer_mac |};
                    Addr := map byte_of_Z [10; 0; 0; 4] |};
     PodPeer := {| Iface := {| Index := 10; HardwareAddr := map byte_of_Z [2; 2; 2; 2; 2; 2] |};
                   Addr := map byte_of_Z [10; 0; 0; 5] |} |}.

(** A pair whose workload has no port yet when ADD fails. *)
Definition demo_pair3 : VethPair :=
  {| HostPeer := {| Iface := {| Index := 11; HardwareAddr := host_peer_mac |};
                    Addr := map byte_of_Z [10; 0; 0; 6] |};
     PodPeer := {| Iface := {| Index := 12; HardwareAddr := map byte_of_Z [2; 2; 2; 2; 2; 3] |};
                   Addr := map byte_of_Z [10; 0; 0; 7] |} |}.

Definition demo_fleet1 : fleet := mk_fleet {[30001 := demo_pair]} ∅ ∅.
Definition demo_fleet2 : fleet := mk_fleet (<[30002 := demo_pair2]> {[30001 := demo_pair]}) ∅ ∅.
Definition demo_fleet : fleet :=
  mk_fleet (<[30002 := demo_pair2]> {[30001 := demo_pair]}) {[11 := demo_pair3]} ∅.

(** The platform's address is configured, two workloads are registered, and the
    ADD of a third fails after it made its veth pair. *)
Definition demo_run : bpf_maps :=
  (cniAdd_upto 1 demo_pair3 30003
    (cniAdd_upto 3 demo_pair2 30002
      (cniAdd_upto 3 demo_pair 30001 (AddSNATTarget 0 host_ip 2 no_maps).2).2).2).2.

Ltac demo_ok := repeat split; vm_compute; (discriminate || reflexivity).

Lemma demo_fresh1 : fresh_in no_fleet 30001 demo_pair.
Proof.
  split; [done|]. split; [demo_ok|]. split; intros p' w'; cbn; by rewrite lookup_empty.
Qed.

Lemma demo_fresh2 : fresh_in demo_fleet1 30002 demo_pair2.
Proof.
  split; [done|]. split; [demo_ok|]. split; intros p' w'; cbn; [|by rewrite lookup_empty].
  intros [_ <-]%lookup_singleton_Some. demo_ok.
Qed.

Lemma demo_fresh3 : fresh_in demo_fleet2 30003 demo_pair3.
Proof.
  split; [done|]. split; [demo_ok|]. split; intros p' w'; cbn; [|by rewrite lookup_empty].
  intros [[_ <-]|[_ [_ <-]%lookup_singleton_Some]]%lookup_insert_Some; demo_ok.
Qed.

Lemma demo_reachable : sys_reachable LE demo_fleet demo_run.
Proof.
  eapply rtc_l; [apply (sys_snat LE ref_kmaps no_fleet no_maps host_ip 2); unfold u8; lia|].
  eapply rtc_l; [apply (sys_add LE ref_kmaps 3 _ _ _ _ demo_fresh1)|].
  eapply rtc_l; [apply (sys_add LE ref_kmaps 3 demo_fleet1 _ _ _ demo_fresh2)|].
  eapply rtc_l; [apply (sys_add LE ref_kmaps 1 demo_fleet2 _ _ _ demo_fresh3)|]. apply rtc_refl.
Qed.


Lemma workload_isolation_witness :
  exists v s', dnat (e := LE) (H := ref_helpers LE) (arriving LE ETH_P_IP demo_run frame_client)
    = Some (v, s') /\ delivered_to demo_pair s'.
Proof.
  destruct (workload_isolation LE ref_kmaps ref_kmaps_laws (ref_helpers LE) (ref_laws LE)
    (ref_succeed LE) demo_fleet (arriving LE ETH_P_IP demo_run frame_client))
    as [(v & s' & E & Hd) _].
  - exact demo_reachable.
  - reflexivity.
  - vm_compute. discriminate.
  - vm_compute. discriminate.
  - exists v, s'. split; [exact E|].
    change (l4_dport (pkt (arriving LE ETH_P_IP demo_run frame_client))) with 30001 in Hd.
    exact Hd.
Defined.
