(* ===== verification/PortAlloc.v ===== *)
(** * The host port allocator

    [platformd/workload/port_allocator.go]: host ports are drawn at random from
    a configured range, at most five times per allocation.  Every operation
    holds the allocator's mutex, so it is one step for everybody else. *)

From S2P Require Import Prelude Go Endian.

(** [math/rand/v2]: the [k]-th call of [IntN] in the process, with bound [n]. *)
Class RandSource := { rand_IntN : nat -> Z -> Z }.

(** "IntN returns a pseudo-random number in the half-open interval [0,n)"; it
    panics if n <= 0. *)
Class RandLaws (R : RandSource) : Prop := {
  rand_range k n : 0 < n -> 0 <= rand_IntN k n < n;
}.

(** The fields of the struct; [allocated] is used as a set of ports.  [draws]
    counts the calls of the shared random source. *)
Record PortAllocator := {
  portMin : Z;
  portMax : Z;
  allocated : gmap Z bool;
  draws : nat;
}.

Definition NewPortAllocator (portMin portMax : Z) : PortAllocator :=
  {| portMin := portMin; portMax := portMax; allocated := ∅; draws := 0 |}.

Definition maxTries : nat := 5.

Definition ErrMaxPortTriesReached : string := "maximum number of retries reached".

Definition set_allocated (m : gmap Z bool) (a : PortAllocator) : PortAllocator :=
  {| portMin := portMin a; portMax := portMax a; allocated := m; draws := draws a |}.

Section ops.
Context {R : RandSource}.

(** [rand.IntN(n)] *)
Definition IntN (n : Z) : GoM PortAllocator Z := fun a =>
  if n <=? 0 then (Panic, a)
  else (Ok (rand_IntN (draws a) n),
        {| portMin := portMin a; portMax := portMax a; allocated := allocated a;
           draws := S (draws a) |}).

(** The loop, with [left = maxTries - try]. *)
Fixpoint allocate_loop (left : nat) : GoM PortAllocator Z :=
  match left with
  | O => fail ErrMaxPortTriesReached
  | S left' =>
      a ← get;
      r ← IntN (portMax a + 1 - portMin a);
      let port := r + portMin a in
      a ← get;
      match allocated a !! port with
      | Some _ => allocate_loop left'
      | None => put (set_allocated (<[port := true]> (allocated a)) a);; mret (cast_u16 port)
      end
  end.

Definition Allocate : GoM PortAllocator Z := allocate_loop maxTries.

Definition Free (port : Z) (a : PortAllocator) : PortAllocator :=
  set_allocated (delete port (allocated a)) a.
End ops.

(** ** Specification *)

(** The port is taken. *)
Definition taken (a : PortAllocator) (port : Z) : Prop := is_Some (allocated a !! port).

#[global] Instance taken_dec a port : Decision (taken a port).
Proof. unfold taken. apply _. Defined.

(** The range is one of port numbers, and only ports of it are taken. *)
Definition alloc_wf (a : PortAllocator) : Prop :=
  0 <= portMin a <= portMax a /\ portMax a < 2 ^ 16 /\
  forall p, taken a p -> portMin a <= p <= portMax a.

(** Everything but the number of draws. *)
Definition same_ports (a a' : PortAllocator) : Prop :=
  portMin a' = portMin a /\ portMax a' = portMax a /\ allocated a' = allocated a.

(** What an allocation with [n] tries may do: take a free port of the range, or
    give up after [n] draws of ports that are all taken. *)
Definition allocates {R : RandSource} (n : nat) (a : PortAllocator) (r : outcome Z)
    (a' : PortAllocator) : Prop :=
  match r with
  | Ok p => portMin a <= p <= portMax a /\ ~ taken a p /\
            allocated a' = <[p := true]> (allocated a) /\
            portMin a' = portMin a /\ portMax a' = portMax a /\
            (draws a < draws a' <= draws a + n)%nat
  | Err msg => msg = ErrMaxPortTriesReached /\ same_ports a a' /\
            draws a' = (draws a + n)%nat /\
            forall k, (k < n)%nat ->
              taken a (rand_IntN (draws a + k) (portMax a + 1 - portMin a) + portMin a)
  | Panic => False
  end.

Section spec.
Context {R : RandSource} {RL : RandLaws R}.

Lemma allocate_loop_spec n a : alloc_wf a ->
  allocates n a (allocate_loop n a).1 (allocate_loop n a).2.
Proof using RL.
  revert a. induction n as [|n IH]; intros a Hwf.
  { split; [done|]. split; [done|]. split; [cbn; lia|]. lia. }
  destruct Hwf as (Hr & Hm & Ht).
  cbn [allocate_loop]. unfold mbind, GoM_bind, get, IntN.
  rewrite (proj2 (Z.leb_gt _ _)) by lia. cbn [allocated].
  pose proof (rand_range (draws a) (portMax a + 1 - portMin a) ltac:(lia)) as Hrand.
  set (port := rand_IntN (draws a) (portMax a + 1 - portMin a) + portMin a) in *.
  set (a1 := {| portMin := portMin a; portMax := portMax a; allocated := allocated a;
                draws := S (draws a) |}).
  destruct (allocated a !! port) as [b|] eqn:E.
  - assert (alloc_wf a1) as Hwf1 by done. specialize (IH a1 Hwf1).
    destruct (allocate_loop n a1) as [[p|msg|] a2]; cbn [fst snd allocates] in *.
    + destruct IH as (? & ? & ? & ? & ? & ?). repeat (split; [done|]). cbn in *. lia.
    + destruct IH as (? & ? & ? & ?). repeat (split; [done|]). split; [cbn in *; lia|].
      intros [|k] Hk; [rewrite Nat.add_0_r; by exists b|].
      match goal with Hall : forall k, (k < n)%nat -> _ |- _ => specialize (Hall k ltac:(lia)) end.
      rewrite Nat.add_succ_r. done.
    + done.
  - unfold cast_u16. rewrite wrap_small by (unfold port; lia). cbn. split; [unfold port; lia|].
    split; [unfold taken; rewrite E; by intros [? ?]|]. repeat (split; [done|]). lia.
Qed.

Lemma Allocate_wf a : alloc_wf a -> alloc_wf (Allocate a).2.
Proof using RL.
  intros Hwf. pose proof (allocate_loop_spec maxTries a Hwf) as Hs. unfold Allocate.
  destruct (allocate_loop maxTries a) as [[p|msg|] a']; cbn [fst snd allocates] in *; [| |done].
  - destruct Hwf as (Hr & Hm & Ht), Hs as (Hp & _ & Ea & E1 & E2 & _).
    unfold alloc_wf, taken. rewrite Ea, E1, E2. split; [done|]. split; [done|].
    intros q [<-|[_ Hq]]%lookup_insert_is_Some; [done|by apply Ht].
  - destruct Hs as (_ & (E1 & E2 & E3) & _). unfold alloc_wf, taken. by rewrite E1, E2, E3.
Qed.

(** The range is never changed. *)
Lemma allocate_loop_range n a :
  portMin (allocate_loop n a).2 = portMin a /\ portMax (allocate_loop n a).2 = portMax a.
Proof using Type.
  revert a. induction n as [|n IH]; intros a; [done|].
  cbn [allocate_loop]. unfold mbind, GoM_bind, get, IntN.
  destruct (portMax a + 1 - portMin a <=? 0); [done|]. cbn [allocated].
  destruct (allocated a !! _); [|done].
  match goal with |- context [allocate_loop n ?a1] => exact (IH a1) end.
Qed.

Lemma Free_wf port a : alloc_wf a -> alloc_wf (Free port a).
Proof using Type.
  intros (Hr & Hm & Ht). split; [done|]. split; [done|]. intros p Hp. apply Ht. revert Hp.
  unfold taken, Free. cbn. intros [_ Hp]%lookup_delete_is_Some. done.
Qed.
End spec.

(** C29: an allocation ends after at most five draws, whatever the random source
    does: it takes a port of the range that was free, or reports that the tries
    are used up, having drawn five taken ports and changed nothing; a range in
    which [portMax + 1 <= portMin] panics.  The number returned is the port that
    was entered in the table, untruncated. *)
Theorem allocate_terminates (R : RandSource) (RL : RandLaws R) (a : PortAllocator) :
  (alloc_wf a ->
   allocates maxTries a (Allocate a).1 (Allocate a).2 /\ alloc_wf (Allocate a).2) /\
  (portMax a + 1 <= portMin a -> Allocate a = (Panic, a)).
Proof.
  split.
  - intros Hwf. split; [by apply allocate_loop_spec|by apply Allocate_wf].
  - intros Hr. unfold Allocate. cbn [maxTries allocate_loop].
    unfold mbind, GoM_bind, get, IntN. by rewrite (proj2 (Z.leb_le _ _)) by lia.
Qed.

(** A source that always draws the smallest number. *)
#[global] Instance ref_rand : RandSource := {| rand_IntN _ _ := 0 |}.
#[global] Instance ref_rand_laws : RandLaws ref_rand.
Proof. split. cbn. lia. Qed.

Definition demo_allocator : PortAllocator := set_allocated {[30000 := true]} (NewPortAllocator 30000 30100).

Lemma demo_allocator_wf : alloc_wf demo_allocator.
Proof.
  split; [cbn; lia|]. split; [cbn; lia|].
  intros p [b Hb]. change (({[30000 := true]} : gmap Z bool) !! p = Some b) in Hb.
  apply lookup_singleton_Some in Hb as [<- _]. cbn. lia.
Qed.

Lemma allocate_terminates_witness :
  (exists a', Allocate (NewPortAllocator 30000 30100) = (Ok 30000, a')) /\
  (exists a', Allocate demo_allocator = (Err ErrMaxPortTriesReached, a') /\
     allocates maxTries demo_allocator (Err ErrMaxPortTriesReached) a').
Proof.
  split; [exists (Allocate (NewPortAllocator 30000 30100)).2; vm_compute; reflexivity|].
  destruct (proj1 (allocate_terminates ref_rand ref_rand_laws demo_allocator) demo_allocator_wf)
    as [Ha _].
  exists (Allocate demo_allocator).2. split; [vm_compute; reflexivity|exact Ha].
Defined.
