(* ===== verification/StatusStore.v ===== *)
(** * The status store

    [platformd/status]: the in-memory table of workload and checkpoint statuses
    that platformd's components share.  A status holds pointers; [Update]
    changes the pointed-to structs in place, and [Get] and [View] hand out
    copies whose pointers still lead there.  The store is therefore modelled
    with the heap it lives in, and shown to implement a table of values as long
    as callers pass pointers to new structs, which they do. *)

From S2P Require Import Prelude Go.

(** ** status.go *)

Definition WorkloadStateCreating : string := "CREATING".
Definition WorkloadStateRunning : string := "RUNNING".
Definition WorkloadStateDeleted : string := "DELETED".
Definition WorkloadStateCreationFailed : string := "CREATION_FAILED".

Record WorkloadStatus := mk_ws { ws_State : string; ws_Port : Z }.

Definition CheckpointStateRunning : string := "RUNNING".
Definition CheckpointStatePullBaseImageFailed : string := "PULL_BASE_IMAGE_FAILED".
Definition CheckpointStateContainerWaitReadyFailed : string := "CONTAINER_WAIT_READY_FAILED".
Definition CheckpointStateContainerCheckpointFailed : string := "CONTAINER_CHECKPOINT_FAILED".
Definition CheckpointStatePushCheckpointFailed : string := "PUSH_CHECKPOINT_FAILED".
Definition CheckpointStateCompleted : string := "COMPLETED".

(** [CompletedAt] is a pointer to a time that nobody changes. *)
Record CheckpointStatus := mk_cs {
  cs_State : string; cs_Message : string; cs_CompletedAt : option Z; cs_Port : Z }.

(** [struct Status]: two pointers, [None] for nil. *)
Record Status := mk_status { st_checkpoint : option nat; st_workload : option nat }.

(** ** store.go *)

(** The table, and the structs the pointers lead to. *)
Record MemStore := mk_store {
  data : gmap string Status;
  ws_cells : gmap nat WorkloadStatus;
  cs_cells : gmap nat CheckpointStatus;
}.

Definition NewMemStore : MemStore := mk_store ∅ ∅ ∅.

Abbreviation StoreM := (GoM MemStore).

Definition set_data (d : gmap string Status) (s : MemStore) : MemStore :=
  mk_store d (ws_cells s) (cs_cells s).

(** [&WorkloadStatus{...}] and [&CheckpointStatus{...}] *)
Definition new_ws (w : WorkloadStatus) : StoreM nat := fun s =>
  let l := fresh (dom (ws_cells s)) in
  (Ok l, mk_store (data s) (<[l := w]> (ws_cells s)) (cs_cells s)).
Definition new_cs (c : CheckpointStatus) : StoreM nat := fun s =>
  let l := fresh (dom (cs_cells s)) in
  (Ok l, mk_store (data s) (ws_cells s) (<[l := c]> (cs_cells s))).

(** Reading and writing through a pointer; nil and dangling pointers panic. *)
Definition load_ws (p : option nat) : StoreM WorkloadStatus := fun s =>
  must (p ≫= fun l => ws_cells s !! l) s.
Definition load_cs (p : option nat) : StoreM CheckpointStatus := fun s =>
  must (p ≫= fun l => cs_cells s !! l) s.

Definition modify_ws (l : nat) (f : WorkloadStatus -> WorkloadStatus) : StoreM unit :=
  w ← load_ws (Some l);
  s ← get; put (mk_store (data s) (<[l := f w]> (ws_cells s)) (cs_cells s)).
Definition modify_cs (l : nat) (f : CheckpointStatus -> CheckpointStatus) : StoreM unit :=
  c ← load_cs (Some l);
  s ← get; put (mk_store (data s) (ws_cells s) (<[l := f c]> (cs_cells s))).

Definition when (b : bool) (m : StoreM unit) : StoreM unit := if b then m else mret tt.

Definition nonempty (x : string) : bool := negb (String.eqb x "").

Definition set_entry (id : string) (st : Status) : StoreM unit :=
  s ← get; put (set_data (<[id := st]> (data s)) s).

Definition update_workload (id : string) (curr new : Status) (l : nat) : StoreM unit :=
  nw ← load_ws (st_workload new);
  when (nonempty (ws_State nw)) (modify_ws l (fun w => mk_ws (ws_State nw) (ws_Port w)));;
  nw ← load_ws (st_workload new);
  when (negb (ws_Port nw =? 0)) (modify_ws l (fun w => mk_ws (ws_State w) (ws_Port nw)));;
  set_entry id curr.

Definition update_checkpoint (id : string) (curr new : Status) (l : nat) : StoreM unit :=
  nc ← load_cs (st_checkpoint new);
  when (nonempty (cs_State nc))
    (modify_cs l (fun c => mk_cs (cs_State nc) (cs_Message c) (cs_CompletedAt c) (cs_Port c)));;
  nc ← load_cs (st_checkpoint new);
  when (negb (cs_Port nc =? 0))
    (modify_cs l (fun c => mk_cs (cs_State c) (cs_Message c) (cs_CompletedAt c) (cs_Port nc)));;
  nc ← load_cs (st_checkpoint new);
  when (bool_decide (is_Some (cs_CompletedAt nc)))
    (modify_cs l (fun c => mk_cs (cs_State c) (cs_Message c) (cs_CompletedAt nc) (cs_Port c)));;
  nc ← load_cs (st_checkpoint new);
  when (nonempty (cs_Message nc))
    (modify_cs l (fun c => mk_cs (cs_State c) (cs_Message nc) (cs_CompletedAt c) (cs_Port c)));;
  set_entry id curr.

Definition Update (id : string) (new : Status) : StoreM unit :=
  s ← get;
  match data s !! id with
  | None => set_entry id new
  | Some curr =>
      match st_workload curr with
      | Some l => update_workload id curr new l
      | None => mret tt
      end;;
      match st_checkpoint curr with
      | Some l => update_checkpoint id curr new l
      | None => mret tt
      end
  end.

(** A copy of the entry: its pointers are those of the store. *)
Definition Get (id : string) (s : MemStore) : option Status := data s !! id.

Definition Del (id : string) (s : MemStore) : MemStore := set_data (delete id (data s)) s.

(** [maps.Copy]: a shallow copy. *)
Definition View (s : MemStore) : gmap string Status := data s.

(** ** The table of values *)

Record StatusV := mk_sv { sv_checkpoint : option CheckpointStatus; sv_workload : option WorkloadStatus }.

(** What a status shows when its pointers are followed now. *)
Definition resolve (s : MemStore) (st : Status) : StatusV :=
  mk_sv (st_checkpoint st ≫= fun l => cs_cells s !! l) (st_workload st ≫= fun l => ws_cells s !! l).

Definition contents (s : MemStore) : gmap string StatusV := resolve s <$> data s.

Definition merge_workload (w nw : WorkloadStatus) : WorkloadStatus :=
  mk_ws (if nonempty (ws_State nw) then ws_State nw else ws_State w)
        (if ws_Port nw =? 0 then ws_Port w else ws_Port nw).

Definition merge_checkpoint (c nc : CheckpointStatus) : CheckpointStatus :=
  mk_cs (if nonempty (cs_State nc) then cs_State nc else cs_State c)
        (if nonempty (cs_Message nc) then cs_Message nc else cs_Message c)
        (match cs_CompletedAt nc with Some t => Some t | None => cs_CompletedAt c end)
        (if cs_Port nc =? 0 then cs_Port c else cs_Port nc).

(** A part that is there is merged, and must be given; a part that is not there
    is ignored. *)
Definition merge_part {A} (f : A -> A -> A) (curr new : option A) : option (option A) :=
  match curr, new with
  | None, _ => Some None
  | Some _, None => None
  | Some c, Some n => Some (Some (f c n))
  end.

(** [None]: a nil pointer is dereferenced. *)
Definition merge_status (curr new : StatusV) : option StatusV :=
  w ← merge_part merge_workload (sv_workload curr) (sv_workload new);
  c ← merge_part merge_checkpoint (sv_checkpoint curr) (sv_checkpoint new);
  Some (mk_sv c w).

Definition spec_update (id : string) (new : StatusV) (t : gmap string StatusV)
    : option (gmap string StatusV) :=
  match t !! id with
  | None => Some (<[id := new]> t)
  | Some curr => (fun v => <[id := v]> t) <$> merge_status curr new
  end.

(** ** Refinement *)

(** [l] is the pointer [sel] of an entry of the table. *)
Definition used (sel : Status -> option nat) (s : MemStore) (l : nat) : Prop :=
  exists id st, data s !! id = Some st /\ sel st = Some l.

(** Pointers of entries lead somewhere, and entries share none. *)
Definition entries_ok {C} (sel : Status -> option nat) (cells : gmap nat C) (s : MemStore) : Prop :=
  (forall l, used sel s l -> is_Some (cells !! l)) /\
  (forall id id' st st' l, data s !! id = Some st -> data s !! id' = Some st' -> id <> id' ->
     sel st = Some l -> sel st' <> Some l).

Definition store_wf (s : MemStore) : Prop :=
  entries_ok st_workload (ws_cells s) s /\ entries_ok st_checkpoint (cs_cells s) s.

(** A status whose structs only the caller knows. *)
Definition unshared (s : MemStore) (new : Status) : Prop :=
  (forall l, st_workload new = Some l -> is_Some (ws_cells s !! l) /\ ~ used st_workload s l) /\
  (forall l, st_checkpoint new = Some l -> is_Some (cs_cells s !! l) /\ ~ used st_checkpoint s l).

Lemma modify_ws_ok l f s w :
  ws_cells s !! l = Some w ->
  modify_ws l f s = (Ok tt, mk_store (data s) (<[l := f w]> (ws_cells s)) (cs_cells s)).
Proof. intros E. unfold modify_ws, load_ws, must, mbind, GoM_bind, get, put. cbn. by rewrite E. Qed.

Lemma modify_cs_ok l f s c :
  cs_cells s !! l = Some c ->
  modify_cs l f s = (Ok tt, mk_store (data s) (ws_cells s) (<[l := f c]> (cs_cells s))).
Proof. intros E. unfold modify_cs, load_cs, must, mbind, GoM_bind, get, put. cbn. by rewrite E. Qed.

Lemma load_ws_ok l s w : ws_cells s !! l = Some w -> load_ws (Some l) s = (Ok w, s).
Proof. intros E. unfold load_ws, must. cbn. by rewrite E. Qed.

Lemma load_cs_ok l s c : cs_cells s !! l = Some c -> load_cs (Some l) s = (Ok c, s).
Proof. intros E. unfold load_cs, must. cbn. by rewrite E. Qed.

Lemma set_entry_id id st s : data s !! id = Some st -> set_entry id st s = (Ok tt, s).
Proof.
  intros E. unfold set_entry, mbind, GoM_bind, get, put, set_data. rewrite insert_id by done.
  by destruct s.
Qed.

(** A conditional change of the struct at [l]. *)
Lemma when_modify_ws b l f s w :
  ws_cells s !! l = Some w ->
  when b (modify_ws l f) s
  = (Ok tt, mk_store (data s) (<[l := if b then f w else w]> (ws_cells s)) (cs_cells s)).
Proof.
  intros E. destruct b; [by apply modify_ws_ok|]. rewrite insert_id by done. by destruct s.
Qed.

Lemma when_modify_cs b l f s c :
  cs_cells s !! l = Some c ->
  when b (modify_cs l f) s
  = (Ok tt, mk_store (data s) (ws_cells s) (<[l := if b then f c else c]> (cs_cells s))).
Proof.
  intros E. destruct b; [by apply modify_cs_ok|]. rewrite insert_id by done. by destruct s.
Qed.

Ltac cells :=
  cbn [ws_cells cs_cells data];
  rewrite ?lookup_insert_eq, ?lookup_insert_ne by congruence; done.

Lemma update_workload_ok id curr new l q s w nw :
  data s !! id = Some curr -> st_workload new = Some q -> q <> l ->
  ws_cells s !! l = Some w -> ws_cells s !! q = Some nw ->
  update_workload id curr new l s
  = (Ok tt, mk_store (data s) (<[l := merge_workload w nw]> (ws_cells s)) (cs_cells s)).
Proof.
  intros Hd Hn Hql Hw Hq. unfold update_workload. rewrite Hn.
  rewrite (GoM_bind_ok _ _ _ _ _ (load_ws_ok q s nw Hq)).
  rewrite (GoM_bind_ok _ _ _ _ _ (when_modify_ws _ l _ s w Hw)).
  erewrite GoM_bind_ok by (apply load_ws_ok; cells).
  erewrite GoM_bind_ok by (eapply when_modify_ws; cells).
  rewrite set_entry_id by done. cbn [data ws_cells cs_cells]. rewrite insert_insert_eq.
  unfold merge_workload. do 3 f_equal.
  destruct (nonempty (ws_State nw)), (ws_Port nw =? 0); by destruct w.
Qed.

Lemma update_checkpoint_ok id curr new l q s c nc :
  data s !! id = Some curr -> st_checkpoint new = Some q -> q <> l ->
  cs_cells s !! l = Some c -> cs_cells s !! q = Some nc ->
  update_checkpoint id curr new l s
  = (Ok tt, mk_store (data s) (ws_cells s) (<[l := merge_checkpoint c nc]> (cs_cells s))).
Proof.
  intros Hd Hn Hql Hc Hq. unfold update_checkpoint. rewrite Hn.
  rewrite (GoM_bind_ok _ _ _ _ _ (load_cs_ok q s nc Hq)).
  rewrite (GoM_bind_ok _ _ _ _ _ (when_modify_cs _ l _ s c Hc)).
  do 3 (erewrite GoM_bind_ok by (apply load_cs_ok; cells);
        erewrite GoM_bind_ok by (eapply when_modify_cs; cells)).
  rewrite set_entry_id by done. cbn [data ws_cells cs_cells]. rewrite !insert_insert_eq.
  unfold merge_checkpoint. do 3 f_equal.
  destruct (nonempty (cs_State nc)), (cs_Port nc =? 0), (nonempty (cs_Message nc)),
    (cs_CompletedAt nc); by destruct c.
Qed.

(** Only the struct at [p] differs. *)
Definition only_cell {C} (p : option nat) (cells cells' : gmap nat C) : Prop :=
  (forall l, p <> Some l -> cells' !! l = cells !! l) /\
  (forall l, is_Some (cells !! l) -> is_Some (cells' !! l)).

Lemma only_cell_refl {C} p (cells : gmap nat C) : only_cell p cells cells.
Proof. by split. Qed.

Lemma only_cell_insert {C} l (cells : gmap nat C) v : only_cell (Some l) cells (<[l := v]> cells).
Proof.
  split.
  - intros l' Hl. by rewrite lookup_insert_ne by congruence.
  - intros l' Hl. apply lookup_insert_is_Some'. by right.
Qed.

Lemma workload_part id curr new s :
  data s !! id = Some curr -> store_wf s -> unshared s new ->
  let op := match st_workload curr with
            | Some l => update_workload id curr new l
            | None => mret tt
            end in
  match merge_part merge_workload (sv_workload (resolve s curr)) (sv_workload (resolve s new)) with
  | None => op s = (Panic, s)
  | Some w' => exists ws', op s = (Ok tt, mk_store (data s) ws' (cs_cells s)) /\
      (st_workload curr ≫= fun l => ws' !! l) = w' /\
      only_cell (st_workload curr) (ws_cells s) ws'
  end.
Proof.
  intros Hd [[Hlive _] _] [Hu _] op. unfold op, resolve. cbn [sv_workload].
  destruct (st_workload curr) as [l|] eqn:El; cbn [mbind option_bind].
  2: { exists (ws_cells s). split; [by destruct s|]. split; [done|apply only_cell_refl]. }
  destruct (Hlive l) as [w Hw]; [by exists id, curr|]. rewrite Hw.
  destruct (st_workload new) as [q|] eqn:Eq; cbn [mbind option_bind].
  2: { cbn [merge_part]. unfold update_workload. by rewrite Eq. }
  destruct (Hu q eq_refl) as [[nw Hq] Hnot]. rewrite Hq. cbn [merge_part].
  assert (q <> l) as Hql by (intros ->; apply Hnot; by exists id, curr).
  eexists. split; [by apply (update_workload_ok id curr new l q s w nw)|].
  split; [by rewrite lookup_insert_eq|apply only_cell_insert].
Qed.

Lemma checkpoint_part id curr new s :
  data s !! id = Some curr -> store_wf s -> unshared s new ->
  let op := match st_checkpoint curr with
            | Some l => update_checkpoint id curr new l
            | None => mret tt
            end in
  match merge_part merge_checkpoint (sv_checkpoint (resolve s curr)) (sv_checkpoint (resolve s new)) with
  | None => op s = (Panic, s)
  | Some c' => exists cs', op s = (Ok tt, mk_store (data s) (ws_cells s) cs') /\
      (st_checkpoint curr ≫= fun l => cs' !! l) = c' /\
      only_cell (st_checkpoint curr) (cs_cells s) cs'
  end.
Proof.
  intros Hd [_ [Hlive _]] [_ Hu] op. unfold op, resolve. cbn [sv_checkpoint].
  destruct (st_checkpoint curr) as [l|] eqn:El; cbn [mbind option_bind].
  2: { exists (cs_cells s). split; [by destruct s|]. split; [done|apply only_cell_refl]. }
  destruct (Hlive l) as [c Hc]; [by exists id, curr|]. rewrite Hc.
  destruct (st_checkpoint new) as [q|] eqn:Eq; cbn [mbind option_bind].
  2: { cbn [merge_part]. unfold update_checkpoint. by rewrite Eq. }
  destruct (Hu q eq_refl) as [[nc Hq] Hnot]. rewrite Hq. cbn [merge_part].
  assert (q <> l) as Hql by (intros ->; apply Hnot; by exists id, curr).
  eexists. split; [by apply (update_checkpoint_ok id curr new l q s c nc)|].
  split; [by rewrite lookup_insert_eq|apply only_cell_insert].
Qed.

(** Changing the structs of one entry changes nothing else in the table. *)
Lemma entry_changed id curr s ws' cs' :
  data s !! id = Some curr -> store_wf s ->
  only_cell (st_workload curr) (ws_cells s) ws' ->
  only_cell (st_checkpoint curr) (cs_cells s) cs' ->
  let s' := mk_store (data s) ws' cs' in
  contents s' = <[id := resolve s' curr]> (contents s) /\ store_wf s'.
Proof.
  intros Hd [[Hlw Hsw] [Hlc Hsc]] [Hw Hw'] [Hc Hc'] s'. split.
  - apply map_eq. intros id'. unfold contents. cbn [data s'].
    destruct (decide (id' = id)) as [-> |Hne].
    { by rewrite lookup_insert_eq, lookup_fmap, Hd. }
    rewrite lookup_insert_ne, !lookup_fmap by done.
    destruct (data s !! id') as [st|] eqn:E; [|done]. cbn. f_equal. unfold resolve. f_equal.
    + destruct (st_checkpoint st) as [l|] eqn:El; [|done]. cbn. apply Hc. intros Hl.
      by eapply (Hsc id id').
    + destruct (st_workload st) as [l|] eqn:El; [|done]. cbn. apply Hw. intros Hl.
      by eapply (Hsw id id').
  - split; (split; [|done]); intros l Hl; [apply Hw', Hlw|apply Hc', Hlc]; exact Hl.
Qed.

Lemma unshared_insert s id new :
  data s !! id = None -> store_wf s -> unshared s new ->
  store_wf (set_data (<[id := new]> (data s)) s).
Proof.
  intros Hn [[Hlw Hsw] [Hlc Hsc]] [Hw Hc].
  assert (forall C (sel : Status -> option nat) (cells : gmap nat C),
    (forall l, used sel s l -> is_Some (cells !! l)) ->
    (forall id id' st st' l, data s !! id = Some st -> data s !! id' = Some st' -> id <> id' ->
       sel st = Some l -> sel st' <> Some l) ->
    (forall l, sel new = Some l -> is_Some (cells !! l) /\ ~ used sel s l) ->
    entries_ok sel cells (set_data (<[id := new]> (data s)) s)) as Hgen.
  { intros C sel cells Hl Hs Hnew. unfold entries_ok, used. cbn [data set_data]. split.
    - intros l (i & st & [[_ <-]|[_ Hi]]%lookup_insert_Some & Hsel); [by apply Hnew|].
      apply Hl. by exists i, st.
    - intros i i' st st' l [[<- <-]|[Hne Hi]]%lookup_insert_Some
        [[<- <-]|[Hne' Hi']]%lookup_insert_Some Hii Hsel Hsel'; [done| | |by eapply (Hs i i')].
      + apply (proj2 (Hnew l Hsel)). by exists i', st'.
      + apply (proj2 (Hnew l Hsel')). by exists i, st. }
  split; by apply Hgen.
Qed.

Lemma resolve_set_data d s st : resolve (set_data d s) st = resolve s st.
Proof. done. Qed.

(** The structs of two statuses are different ones. *)
Definition apart_from (h new : Status) : Prop :=
  (forall l, st_workload h = Some l -> st_workload new <> Some l) /\
  (forall l, st_checkpoint h = Some l -> st_checkpoint new <> Some l).

(** What was outside of the table before is outside of it after, unchanged. *)
Definition keeps_outside (s s' : MemStore) (h : Status) : Prop :=
  unshared s' h /\ resolve s' h = resolve s h.

Lemma insert_keeps_outside id new s h :
  unshared s h -> apart_from h new -> keeps_outside s (set_data (<[id := new]> (data s)) s) h.
Proof.
  intros [Hw Hc] [Aw Ac]. split; [|done].
  split; intros l Hl; [destruct (Hw l Hl) as [Hs Hn]|destruct (Hc l Hl) as [Hs Hn]];
    (split; [exact Hs|]); unfold used; cbn [data set_data];
    intros (i & st & [[_ <-]|[_ Hi]]%lookup_insert_Some & Hsel);
    [by apply (Aw l)|apply Hn; by exists i, st|by apply (Ac l)|apply Hn; by exists i, st].
Qed.

Lemma entry_keeps_outside id curr s ws' cs' h :
  data s !! id = Some curr -> unshared s h ->
  only_cell (st_workload curr) (ws_cells s) ws' ->
  only_cell (st_checkpoint curr) (cs_cells s) cs' ->
  keeps_outside s (mk_store (data s) ws' cs') h.
Proof.
  intros Hd [Hw Hc] [Ow Ow'] [Oc Oc']. split.
  - split; intros l Hl; cbn [ws_cells cs_cells]; split;
      [by apply Ow', Hw|by apply (Hw l)|by apply Oc', Hc|by apply (Hc l)].
  - unfold resolve. cbn [ws_cells cs_cells]. f_equal.
    + destruct (st_checkpoint h) as [l|] eqn:El; [|done]. cbn. apply Oc. intros Hcu.
      apply (proj2 (Hc l eq_refl)). by exists id, curr.
    + destruct (st_workload h) as [l|] eqn:El; [|done]. cbn. apply Ow. intros Hcu.
      apply (proj2 (Hw l eq_refl)). by exists id, curr.
Qed.

(** [Update] implements the table's update. *)
Lemma Update_refines id new s :
  store_wf s -> unshared s new ->
  match spec_update id (resolve s new) (contents s) with
  | Some t => exists s', Update id new s = (Ok tt, s') /\ contents s' = t /\ store_wf s' /\
                (forall id' st, data s !! id' = Some st -> data s' !! id' = Some st) /\
                (forall h, unshared s h -> apart_from h new -> keeps_outside s s' h)
  | None => exists s', Update id new s = (Panic, s')
  end.
Proof.
  intros Hwf Hu. unfold spec_update, contents at 1. rewrite lookup_fmap.
  unfold Update. rewrite (GoM_bind_ok get _ s s s) by done.
  destruct (data s !! id) as [curr|] eqn:Hd; cbn [fmap option_fmap option_map].
  2: { eexists. split; [reflexivity|]. split; [|split; [by apply unshared_insert|split]].
       - unfold contents. cbn [data set_data]. by rewrite fmap_insert.
       - intros id' st Hl. cbn [data set_data]. by rewrite lookup_insert_ne by congruence.
       - intros h Hh Ha. by apply insert_keeps_outside. }
  pose proof (workload_part id curr new s Hd Hwf Hu) as Hwl. cbv zeta in Hwl.
  unfold merge_status.
  destruct (merge_part merge_workload _ _) as [w'|]; cbn [mbind option_bind].
  2: { exists s. unfold mbind, GoM_bind. by rewrite Hwl. }
  destruct Hwl as (ws' & E & Ew & Hcell). rewrite (GoM_bind_ok _ _ _ _ _ E).
  pose proof (entry_changed id curr s ws' (cs_cells s) Hd Hwf Hcell (only_cell_refl _ _)) as [Ec1 Hwf1].
  set (s1 := mk_store (data s) ws' (cs_cells s)) in *.
  assert (unshared s1 new) as Hu1.
  { destruct Hu as [Hu1 Hu2]. split; [|exact Hu2]. intros l Hl. destruct (Hu1 l Hl) as [Hs Hnot].
    split; [by apply Hcell|exact Hnot]. }
  pose proof (checkpoint_part id curr new s1 Hd Hwf1 Hu1) as Hcp. cbv zeta in Hcp.
  change (sv_checkpoint (resolve s1 curr)) with (sv_checkpoint (resolve s curr)) in Hcp.
  change (sv_checkpoint (resolve s1 new)) with (sv_checkpoint (resolve s new)) in Hcp.
  destruct (merge_part merge_checkpoint _ _) as [c'|];
    cbn [mbind option_bind fmap option_fmap option_map].
  2: { exists s1. exact Hcp. }
  destruct Hcp as (cs' & E' & Ec & Hcell').
  pose proof (entry_changed id curr s ws' cs' Hd Hwf Hcell Hcell') as [Ec2 Hwf2].
  eexists. split; [exact E'|].
  split; [|split; [exact Hwf2|split; [done|intros h Hh _; exact (entry_keeps_outside id curr s ws' cs' h Hd Hh Hcell Hcell')]]].
  cbn [fmap option_fmap option_map].
  change (data s1) with (data s). change (ws_cells s1) with ws'. rewrite Ec2. f_equal.
  unfold resolve. cbn [cs_cells ws_cells]. by rewrite Ew, Ec.
Qed.

(** ** Callers pass literals *)

(** [status.Status{CheckpointStatus: &..., WorkloadStatus: &...}] *)
Definition literal (v : StatusV) : StoreM Status :=
  c ← match sv_checkpoint v with Some c => l ← new_cs c; mret (Some l) | None => mret None end;
  w ← match sv_workload v with Some w => l ← new_ws w; mret (Some l) | None => mret None end;
  mret (mk_status c w).

(** [store.Update(id, status.Status{...})] *)
Definition UpdateLit (id : string) (v : StatusV) : StoreM unit := st ← literal v; Update id st.

Lemma used_not_fresh {C} sel (cells : gmap nat C) s :
  (forall l, used sel s l -> is_Some (cells !! l)) -> ~ used sel s (fresh (dom cells)).
Proof.
  intros Hl Hu. apply (is_fresh (dom cells)). apply elem_of_dom. by apply Hl.
Qed.

Lemma fresh_lookup {C} (cells : gmap nat C) : cells !! fresh (dom cells) = None.
Proof. apply not_elem_of_dom. apply is_fresh. Qed.

(** Making a struct changes no entry. *)
Lemma grown_cells s ws' cs' :
  store_wf s ->
  (forall l, is_Some (ws_cells s !! l) -> ws' !! l = ws_cells s !! l) ->
  (forall l, is_Some (cs_cells s !! l) -> cs' !! l = cs_cells s !! l) ->
  contents (mk_store (data s) ws' cs') = contents s /\ store_wf (mk_store (data s) ws' cs').
Proof.
  intros [[Hlw Hsw] [Hlc Hsc]] Hw Hc. split.
  - apply map_eq. intros id. unfold contents. cbn [data]. rewrite !lookup_fmap.
    destruct (data s !! id) as [st|] eqn:E; [|done]. cbn. f_equal. unfold resolve. f_equal.
    + destruct (st_checkpoint st) as [l|] eqn:El; [|done]. cbn. apply Hc, Hlc. by exists id, st.
    + destruct (st_workload st) as [l|] eqn:El; [|done]. cbn. apply Hw, Hlw. by exists id, st.
  - split; (split; [|done]); intros l Hl; cbn [ws_cells cs_cells].
    + rewrite Hw; by apply Hlw.
    + rewrite Hc; by apply Hlc.
Qed.

Lemma grown_outside s ws' cs' h :
  (forall l, is_Some (ws_cells s !! l) -> ws' !! l = ws_cells s !! l) ->
  (forall l, is_Some (cs_cells s !! l) -> cs' !! l = cs_cells s !! l) ->
  unshared s h -> keeps_outside s (mk_store (data s) ws' cs') h.
Proof.
  intros Gw Gc [Hw Hc]. split.
  - split; intros l Hl; cbn [ws_cells cs_cells]; (split; [|by apply Hw || by apply Hc]).
    + rewrite Gw; by apply Hw.
    + rewrite Gc; by apply Hc.
  - unfold resolve. cbn [ws_cells cs_cells]. f_equal.
    + destruct (st_checkpoint h) as [l|] eqn:El; [|done]. cbn. by apply Gc, Hc.
    + destruct (st_workload h) as [l|] eqn:El; [|done]. cbn. by apply Gw, Hw.
Qed.

Lemma insert_fresh {C} (cells : gmap nat C) v l :
  is_Some (cells !! l) -> <[fresh (dom cells) := v]> cells !! l = cells !! l.
Proof.
  intros [c Hc]. apply lookup_insert_ne. intros <-. by rewrite fresh_lookup in Hc.
Qed.

Lemma literal_ok v s :
  store_wf s ->
  exists st s', literal v s = (Ok st, s') /\ unshared s' st /\ resolve s' st = v /\
    contents s' = contents s /\ data s' = data s /\ store_wf s' /\
    (forall h, unshared s h -> apart_from h st /\ keeps_outside s s' h).
Proof.
  intros Hwf. destruct v as [c w]. unfold literal. cbn [sv_checkpoint sv_workload].
  pose proof Hwf as [[Hlw _] [Hlc _]].
  set (cs' := match c with Some c => <[fresh (dom (cs_cells s)) := c]> (cs_cells s)
                      | None => cs_cells s end).
  set (ws' := match w with Some w => <[fresh (dom (ws_cells s)) := w]> (ws_cells s)
                      | None => ws_cells s end).
  exists (mk_status ((fun _ => fresh (dom (cs_cells s))) <$> c)
                  ((fun _ => fresh (dom (ws_cells s))) <$> w)),
    (mk_store (data s) ws' cs').
  split; [by destruct c, w, s|]. split; [split|split].
  - intros l Hl. unfold ws'. destruct w; simplify_eq/=. split; [rewrite lookup_insert_eq; eauto|].
    by apply used_not_fresh.
  - intros l Hl. unfold cs'. destruct c; simplify_eq/=. split; [rewrite lookup_insert_eq; eauto|].
    by apply used_not_fresh.
  - unfold resolve, cs', ws'. destruct c, w; cbn; by rewrite ?lookup_insert_eq.
  - assert (forall l, is_Some (ws_cells s !! l) -> ws' !! l = ws_cells s !! l) as Gw
      by (intros l Hl; unfold ws'; destruct w; [by apply insert_fresh|done]).
    assert (forall l, is_Some (cs_cells s !! l) -> cs' !! l = cs_cells s !! l) as Gc
      by (intros l Hl; unfold cs'; destruct c; [by apply insert_fresh|done]).
    destruct (grown_cells s ws' cs' Hwf Gw Gc) as [? ?]. do 3 (split; [done|]).
    intros h Hh. split; [|by apply (grown_outside s ws' cs')].
    destruct Hh as [Hw Hc]. split; intros l Hl.
    + destruct (Hw l Hl) as [[x Hx] _]. cbn. destruct w; [|done]. intros [= <-].
      by rewrite fresh_lookup in Hx.
    + destruct (Hc l Hl) as [[x Hx] _]. cbn. destruct c; [|done]. intros [= <-].
      by rewrite fresh_lookup in Hx.
Qed.

Lemma UpdateLit_refines id v s :
  store_wf s ->
  match spec_update id v (contents s) with
  | Some t => exists s', UpdateLit id v s = (Ok tt, s') /\ contents s' = t /\ store_wf s' /\
                (forall id' st, data s !! id' = Some st -> data s' !! id' = Some st) /\
                (forall h, unshared s h -> keeps_outside s s' h)
  | None => exists s', UpdateLit id v s = (Panic, s')
  end.
Proof.
  intros Hwf. destruct (literal_ok v s Hwf) as (st & s1 & E & Hu & <- & Ec & <- & Hwf1 & Hout).
  rewrite <-Ec. pose proof (Update_refines id st s1 Hwf1 Hu) as Hr.
  unfold UpdateLit. rewrite (GoM_bind_ok _ _ _ _ _ E).
  destruct (spec_update id (resolve s1 st) (contents s1)); [|exact Hr].
  destruct Hr as (s' & E' & Hc & Hw & Hd & Hh). exists s'. do 4 (split; [done|]).
  intros h Hs. destruct (Hout h Hs) as [Ha [Hu1 Er]].
  destruct (Hh h Hu1 Ha) as [Hu2 Er2]. split; [done|by rewrite Er2].
Qed.

Lemma Del_outside id s st :
  store_wf s -> data s !! id = Some st -> unshared (Del id s) st.
Proof.
  intros [[Hlw Hsw] [Hlc Hsc]] Hd.
  split; intros l Hl; (split; [first [apply Hlw|apply Hlc]; by exists id, st|]);
    unfold used; cbn [data Del set_data]; intros (i & st' & [Hne Hi]%lookup_delete_Some & Hsel);
    [by apply (Hsw id i st st' l)|by apply (Hsc id i st st' l)].
Qed.

Lemma Del_refines id s :
  store_wf s -> contents (Del id s) = delete id (contents s) /\ store_wf (Del id s).
Proof.
  intros [[Hlw Hsw] [Hlc Hsc]]. split; [unfold contents; cbn; by rewrite fmap_delete|].
  assert (forall i st, data (Del id s) !! i = Some st -> data s !! i = Some st) as Hsub
    by (cbn; intros i st [_ Hi]%lookup_delete_Some; exact Hi).
  split; (split; [intros l (i & st & Hi%Hsub & Hsel)|intros i i' st st' l Hi%Hsub Hi'%Hsub; eauto]).
  - apply Hlw. by exists i, st.
  - apply Hlc. by exists i, st.
Qed.

(** ** The interface

    [status.Store]: what its users rely on is the table of values. *)

Class StatusStore (S : Type) := {
  store_update : string -> StatusV -> S -> option S;
  store_get : string -> S -> option StatusV;
  store_del : string -> S -> S;
  store_view : S -> gmap string Status;
  store_load : S -> Status -> StatusV;
  store_table : S -> gmap string StatusV;
  store_ok : S -> Prop;
  store_outside : S -> Status -> Prop;
}.

Class StatusStoreLaws (S : Type) {I : StatusStore S} : Prop := {
  store_update_law id v (s : S) :
    store_ok s ->
    match spec_update id v (store_table s) with
    | Some t => exists s', store_update id v s = Some s' /\ store_table s' = t /\ store_ok s'
    | None => store_update id v s = None
    end;
  store_get_law id (s : S) : store_get id s = store_table s !! id;
  store_del_law id (s : S) :
    store_ok s -> store_table (store_del id s) = delete id (store_table s) /\
                  store_ok (store_del id s);
  (** an entry of a view shows what is in the table now, *)
  store_view_law (s : S) : store_table s = store_load s <$> store_view s;
  store_part_law (s : S) id h :
    store_ok s -> store_view s !! id = Some h ->
    (is_Some (sv_checkpoint (store_load s h)) <-> is_Some (st_checkpoint h));
  store_view_update id v (s s' : S) id' h :
    store_ok s -> store_update id v s = Some s' ->
    store_view s !! id' = Some h -> store_view s' !! id' = Some h;
  store_view_del id (s : S) : store_view (store_del id s) = delete id (store_view s);
  (** and what was in it last once it is dropped. *)
  store_load_del id (s : S) h : store_load (store_del id s) h = store_load s h;
  store_outside_del id (s : S) h :
    store_ok s -> store_view s !! id = Some h -> store_outside (store_del id s) h;
  store_outside_keep id (s : S) h : store_outside s h -> store_outside (store_del id s) h;
  store_outside_update id v (s s' : S) h :
    store_ok s -> store_outside s h -> store_update id v s = Some s' ->
    store_outside s' h /\ store_load s' h = store_load s h;
}.

#[global] Instance MemStore_store : StatusStore MemStore := {|
  store_update id v s :=
    match UpdateLit id v s with (Ok _, s') => Some s' | _ => None end;
  store_get id s := resolve s <$> Get id s;
  store_del := Del;
  store_view := View;
  store_load := resolve;
  store_table := contents;
  store_ok := store_wf;
  store_outside := unshared;
|}.

#[global] Instance MemStore_laws : StatusStoreLaws MemStore.
Proof.
  split.
  - intros id v s Hwf. cbn. pose proof (UpdateLit_refines id v s Hwf) as Hr.
    destruct (spec_update id v (contents s)).
    + destruct Hr as (s' & -> & ? & ? & _). eauto.
    + by destruct Hr as (s' & ->).
  - intros id s. cbn. unfold contents, Get. by rewrite lookup_fmap.
  - intros id s Hwf. by apply Del_refines.
  - done.
  - intros s id h [_ [Hlc _]] Hv. cbn. destruct (st_checkpoint h) as [l|] eqn:El; cbn.
    + split; [done|]. intros _. apply Hlc. by exists id, h.
    + by split; intros [? ?].
  - intros id v s s' id' h Hwf E Hv. cbn in *. pose proof (UpdateLit_refines id v s Hwf) as Hr.
    destruct (spec_update id v (contents s)); [|by destruct Hr as (s2 & E2); rewrite E2 in E].
    destruct Hr as (s2 & E2 & _ & _ & Hd & _). rewrite E2 in E. injection E as <-. by apply Hd.
  - done.
  - done.
  - intros id s h Hwf Hv. by apply Del_outside.
  - intros id s h [Hw Hc]. split; intros l Hl;
      [destruct (Hw l Hl) as [? Hn]|destruct (Hc l Hl) as [? Hn]]; (split; [done|]);
      unfold used; cbn; intros (i & st & [_ Hi]%lookup_delete_Some & Hsel); apply Hn; by exists i, st.
  - intros id v s s' h Hwf Ho E. cbn in *. pose proof (UpdateLit_refines id v s Hwf) as Hr.
    destruct (spec_update id v (contents s)); [|by destruct Hr as (s2 & E2); rewrite E2 in E].
    destruct Hr as (s2 & E2 & _ & _ & _ & Hh). rewrite E2 in E. injection E as <-. by apply Hh.
Qed.

Lemma NewMemStore_wf : store_wf NewMemStore.
Proof.
  split; (split; [intros l (i & st & Hi & _)|intros i i' st st' l Hi]);
    cbn in Hi; by rewrite lookup_empty in Hi.
Qed.

(** ** The store as a whole *)

(** C16: the store implements a table of values although it shares and mutates
    structs: an update merges the non-zero fields of the new status into the
    entry with that id and leaves all others alone, however many pointers to
    the structs are about, and panics exactly when the entry has a part that the
    new status lacks; an entry of [View] or [Get] keeps showing the table as it
    is now, not as it was. *)
Theorem status_store_refines (id : string) (v : StatusV) (s : MemStore) :
  store_wf s ->
  match spec_update id v (contents s) with
  | Some t => exists s', UpdateLit id v s = (Ok tt, s') /\ contents s' = t /\ store_wf s' /\
      forall id' st, View s !! id' = Some st -> contents s' !! id' = Some (resolve s' st)
  | None => exists s', UpdateLit id v s = (Panic, s')
  end /\
  contents (Del id s) = delete id (contents s) /\ store_wf (Del id s).
Proof.
  intros Hwf. split; [|by apply Del_refines]. pose proof (UpdateLit_refines id v s Hwf) as Hr.
  destruct (spec_update id v (contents s)) as [t|]; [|done].
  destruct Hr as (s' & E & Ec & Hwf' & Hk & _). exists s'. repeat (split; [done|]).
  intros id' st Hv. unfold contents. rewrite lookup_fmap. by rewrite (Hk id' st Hv).
Qed.

Definition demo_store : MemStore :=
  (UpdateLit "x" (mk_sv None (Some (mk_ws WorkloadStateCreating 0))) NewMemStore).2.

Lemma demo_store_wf : store_wf demo_store.
Proof.
  destruct (UpdateLit_refines "x" (mk_sv None (Some (mk_ws WorkloadStateCreating 0))) NewMemStore
    NewMemStore_wf) as (s' & E & _ & Hwf & _).
  unfold demo_store. by rewrite E.
Qed.

Lemma status_store_refines_witness :
  exists s', UpdateLit "x" (mk_sv None (Some (mk_ws "" 30000))) demo_store = (Ok tt, s') /\
    contents s' !! "x" = Some (mk_sv None (Some (mk_ws WorkloadStateCreating 30000))).
Proof.
  destruct (proj1 (status_store_refines "x" (mk_sv None (Some (mk_ws "" 30000))) demo_store
    demo_store_wf)) as (s' & E & Ec & _).
  exists s'. split; [exact E|]. rewrite Ec. vm_compute. reflexivity.
Defined.
