(* ===== verification/Node.v ===== *)
(** * What platformd's components share

    The services of platformd run in goroutines that share the status store, the
    port allocator and a table of attempts, and call the container runtime and
    other interfaces.  A goroutine is modelled by the sequence of operations it
    performs, as a tree over their results ([gor]); the operations on shared
    state are atomic, since they hold a mutex or touch one word.  [node] is the
    shared state and [do_op] an operation on it. *)

From S2P Require Import Prelude Go Endian PortAlloc StatusStore.

#[local] Open Scope Z_scope.

(** ** Data *)

(** [instancev1alpha1.InstanceState] *)
Inductive InstanceState :=
| InstanceState_PENDING | InstanceState_CREATING | InstanceState_RUNNING
| InstanceState_DELETING | InstanceState_DELETED | InstanceState_CREATION_FAILED.

(** The fields of an instance that are read. *)
Record Instance := {
  ins_Id : string;
  ins_State : InstanceState;
  ins_FlavorVersionId : string;
  ins_ChunkId : string;
  ins_ChunkName : string;
  ins_OrderedBy : string;
  ins_ChunkCreatedAt : Z;
  ins_ChunkUpdatedAt : Z;
  ins_FlavorName : string;
  ins_Version : string;
  ins_OwnerId : string;
}.

Definition LabelWorkloadID : string := "explorer.chunks.cloud/workload-id".
Definition LabelWorkloadType : string := "explorer.chunks.cloud/workload-type".
Definition LabelWorkloadPort : string := "explorer.chunks.cloud/workload-port".
Definition LabelChunkID : string := "explorer.chunks.cloud/chunk-id".
Definition LabelChunkName : string := "explorer.chunks.cloud/chunk-name".
Definition LabelFlavorVersionID : string := "explorer.chunks.cloud/flavor-version-id".
Definition LabelInstanceOrderedBy : string := "explorer.chunks.cloud/ordered-by".

Definition PodLogDir : string := "/var/log/platformd/pods".

Record Workload := {
  wl_ID : string;
  wl_Name : string;
  wl_BaseImage : string;
  wl_CheckpointImage : string;
  wl_Instance : Instance;
  wl_Namespace : string;
  wl_Hostname : string;
  wl_Labels : gmap string string;
  wl_CPUPeriod : Z;
  wl_CPUQuota : Z;
  wl_MemoryLimitBytes : Z;
}.

(** ** The environment

    The interfaces that the services call, in the order of their use: the
    container runtime, the image service, the kernel through the socket handler,
    the file system, the clock.  An error is its text. *)

Record LinuxResources := { res_CpuPeriod : Z; res_CpuQuota : Z; res_MemoryLimitInBytes : Z }.

(** [runtimev1.PodSandboxConfig] *)
Record PodSandboxConfig := {
  pod_Name : string;
  pod_Uid : string;
  pod_Namespace : string;
  pod_Attempt : Z;
  pod_Hostname : string;
  pod_LogDirectory : string;
  pod_DnsServers : list string;
  pod_DnsOptions : list string;
  pod_DnsSearches : list string;
  pod_Labels : gmap string string;
  pod_Annotations : gmap string string;
  pod_Resources : LinuxResources;
  pod_Sysctls : gmap string string;
}.

(** [runtimev1.ContainerConfig] *)
Record ContainerConfig := {
  ctr_Name : string;
  ctr_Image : string;
  ctr_Labels : gmap string string;
  ctr_LogPath : string;
  ctr_Mounts : list (string * string);
  ctr_RunAs : option (Z * Z);
  ctr_Envs : list (string * string);
}.

(** [cri.ContainerInfo] *)
Record Namespace := { ns_Type : string; ns_Path : string }.
Record ContainerInfo := {
  info_Pid : Z;
  info_CgroupsPath : string;
  info_Namespaces : list Namespace;
}.

(** [runtimev1.PodSandbox]: the id the runtime gave it and the uid it was
    created with. *)
Record PodSandbox := { sb_Id : string; sb_Uid : string }.

(** [os.Remove]: done, [os.ErrNotExist], another error. *)
Inductive rm_file := FileRemoved | FileMissing | FileErr (err : string).

Inductive env_call : Type -> Type :=
| EnsureImage (url user pass : string) : env_call (string + bool)
| RunPodSandbox (cfg : PodSandboxConfig) : env_call (string + string)
| RunContainer (pod : string) (cfg : ContainerConfig) : env_call (string + string)
| Attach (ctr : string) : env_call (string + string)
| NewRemoteCMDExecutor (url : string) : env_call (option string)
| WaitForRegex (url : string) (timeout : Z) : env_call (option string)
| GetContainerInfo (ctr : string) : env_call (string + ContainerInfo)
| AttachConnect4 (cgroup : string) : env_call (option string)
| AttachConnect6 (cgroup : string) : env_call (option string)
| EnterNetNS (path : string) : env_call (option string)
| IterDestroyTcp : env_call (option string)
| IterDestroyUdp : env_call (option string)
| CheckpointContainer (ctr location : string) (timeout : Z) : env_call (option string)
| ImageFromCheckpoint (location : string) (timestamp : Z) : env_call (option string)
| PushImage (ref : string) : env_call (option string)
| Now : env_call Z
| ReadDir (dir : string) : env_call (string + list (string * bool))
| RemoveFile (path : string) : env_call rm_file
| RemoveAll (path : string) : env_call (option string)
| ListPodSandbox (label value : string) : env_call (string + list PodSandbox)
| StopPodSandbox (pod : string) : env_call (option string)
| RemovePodSandbox (pod : string) : env_call (option string).

(** A call that was made. *)
Inductive env_event := Ev (X : Type) (c : env_call X).
Arguments Ev {X} c.

(** The answers may depend on everything that was asked before, most recent
    first. *)
Class Env := { answer : forall X : Type, list env_event -> env_call X -> X }.
Arguments answer {Env X} _ _.

(** ** Operations of a goroutine *)

(** The result of [RemoveWorkload]: nil, an error for which [isNotFound] holds,
    another error. *)
Inductive remove_result := RmOk | RmNotFound | RmErr.

(** The result of [GetWorkloadHealth]. *)
Inductive health_result := Healthy | Unhealthy | HealthErr.

(** One access to shared state, or one call of an interface.  [PLoad] reads
    the checkpoint status through the pointer in a status that [PView] handed
    out; [PPanic] dereferences nil. *)
Inductive pop : Type -> Type :=
| PAttempts (id : string) : pop Z
| PSetAttempts (id : string) (n : Z) : pop unit
| PUpdate (id : string) (st : StatusV) : pop unit
| PGet (id : string) : pop (option StatusV)
| PAllocate : pop (option Z)
| PFree (port : Z) : pop unit
| PRunWorkload (w : Workload) (attempt : Z) : pop bool
| PRemoveWorkload (id : string) : pop remove_result
| PGetWorkloadHealth (id : string) : pop health_result
| PDel (id : string) : pop unit
| PView : pop (gmap string Status)
| PLoad (h : Status) : pop CheckpointStatus
| PPanic : pop Empty_set
| PEnv (X : Type) (c : env_call X) : pop X.
Arguments PEnv {X} c.

Inductive gor (A : Type) : Type :=
| GRet (a : A)
| GDo (X : Type) (o : pop X) (k : X -> gor A).
Arguments GRet {A} a.
Arguments GDo {A X} o k.

#[global] Instance gor_ret : MRet gor := fun A a => GRet a.
#[global] Instance gor_bind : MBind gor := fun A B f =>
  fix go (g : gor A) : gor B :=
    match g with
    | GRet a => f a
    | GDo o k => GDo o (fun x => go (k x))
    end.

Definition call {X} (o : pop X) : gor X := GDo o (fun x => GRet x).

Definition workload_state (state : string) : StatusV := mk_sv None (Some (mk_ws state 0)).
Definition workload_port (port : Z) : StatusV := mk_sv None (Some (mk_ws "" port)).

(** ** The node *)

(** Calls of [workload.Service], most recent first. *)
Inductive wl_call :=
| CallRun (w : Workload) (attempt : Z)
| CallRemove (id : string)
| CallHealth (id : string).

(** [workload.Service] is an interface: its answers may depend on everything
    that was asked of it before. *)
Class WorkloadService := {
  svc_run : list wl_call -> Workload -> Z -> bool;
  svc_remove : list wl_call -> string -> remove_result;
  svc_health : list wl_call -> string -> health_result;
}.

(** What the goroutines share. *)
Record node (S : Type) := mk_node {
  n_store : S;
  n_attempts : gmap string Z;
  n_alloc : PortAllocator;
  n_calls : list wl_call;
  n_env : list env_event;
}.
Arguments mk_node {S} _ _ _ _ _.
Arguments n_store {S} _.
Arguments n_attempts {S} _.
Arguments n_alloc {S} _.
Arguments n_calls {S} _.
Arguments n_env {S} _.

Section exec.
Context {S : Type} {I : StatusStore S} {R : RandSource} {W : WorkloadService} {En : Env}.

Definition with_store (s : S) (n : node S) : node S :=
  mk_node s (n_attempts n) (n_alloc n) (n_calls n) (n_env n).
Definition with_alloc (a : PortAllocator) (n : node S) : node S :=
  mk_node (n_store n) (n_attempts n) a (n_calls n) (n_env n).
Definition set_attempts (m : gmap string Z) (n : node S) : node S :=
  mk_node (n_store n) m (n_alloc n) (n_calls n) (n_env n).
Definition log_wl (c : wl_call) (n : node S) : node S :=
  mk_node (n_store n) (n_attempts n) (n_alloc n) (c :: n_calls n) (n_env n).
Definition log_env (c : env_event) (n : node S) : node S :=
  mk_node (n_store n) (n_attempts n) (n_alloc n) (n_calls n) (c :: n_env n).

(** A missing key of a Go map reads as zero.  [None]: the process panics. *)
Definition do_op {X} (o : pop X) (n : node S) : option (X * node S) :=
  match o in pop X return option (X * node S) with
  | PAttempts id => Some (default 0 (n_attempts n !! id), n)
  | PSetAttempts id k => Some (tt, set_attempts (<[id := k]> (n_attempts n)) n)
  | PUpdate id v => (fun s => (tt, with_store s n)) <$> store_update id v (n_store n)
  | PGet id => Some (store_get id (n_store n), n)
  | PAllocate =>
      match Allocate (n_alloc n) with
      | (Ok p, a) => Some (Some p, with_alloc a n)
      | (Err _, a) => Some (None, with_alloc a n)
      | (Panic, _) => None
      end
  | PFree p => Some (tt, with_alloc (Free p (n_alloc n)) n)
  | PRunWorkload w attempt => Some (svc_run (n_calls n) w attempt, log_wl (CallRun w attempt) n)
  | PRemoveWorkload id => Some (svc_remove (n_calls n) id, log_wl (CallRemove id) n)
  | PGetWorkloadHealth id => Some (svc_health (n_calls n) id, log_wl (CallHealth id) n)
  | PDel id => Some (tt, with_store (store_del id (n_store n)) n)
  | PView => Some (store_view (n_store n), n)
  | PLoad h => (fun c => (c, n)) <$> sv_checkpoint (store_load (n_store n) h)
  | PPanic => None
  | PEnv c => Some (answer (n_env n) c, log_env (Ev c) n)
  end.

(** A goroutine that runs alone. *)
Fixpoint run {A} (g : gor A) (n : node S) : option (A * node S) :=
  match g with
  | GRet a => Some (a, n)
  | GDo o k => match do_op o n with Some (x, n') => run (k x) n' | None => None end
  end.

Lemma run_bind {A B} (g : gor A) (f : A -> gor B) n :
  run (g ≫= f) n = match run g n with Some (a, n') => run (f a) n' | None => None end.
Proof using Type.
  revert n. induction g as [a|X o k IH]; intros n; [done|]. cbn.
  destruct (do_op o n) as [[x n']|]; [apply IH|done].
Qed.
End exec.

(** ** The table that the store holds *)

Section table.
Context {S : Type} {I : StatusStore S}.

Definition table (n : node S) : gmap string StatusV := store_table (n_store n).

(** What is recorded of a workload, of a checkpoint. *)
Definition recorded (T : gmap string StatusV) (id : string) : option WorkloadStatus :=
  T !! id ≫= sv_workload.
Definition checkpointed (T : gmap string StatusV) (id : string) : option CheckpointStatus :=
  T !! id ≫= sv_checkpoint.

(** The workload is recorded as running, on port [p]. *)
Definition running_on (T : gmap string StatusV) (id : string) (p : Z) : Prop :=
  recorded T id = Some (mk_ws WorkloadStateRunning p).

(** The entry after an update with a workload status, a checkpoint status. *)
Definition updated (T : gmap string StatusV) (id : string) (nw : WorkloadStatus) : WorkloadStatus :=
  match recorded T id with Some w => merge_workload w nw | None => nw end.
Definition updated_ck (T : gmap string StatusV) (id : string) (nc : CheckpointStatus)
    : CheckpointStatus :=
  match checkpointed T id with Some c => merge_checkpoint c nc | None => nc end.

(** Instances and checkpoints have different ids; [is_cp] tells them apart.  An
    entry has the part of its kind and only that. *)
Context (is_cp : string -> bool).

Definition entry_ok (id : string) (v : StatusV) : Prop :=
  if is_cp id then sv_workload v = None /\ is_Some (sv_checkpoint v)
  else sv_checkpoint v = None /\ is_Some (sv_workload v).

(** The store and the allocator are in order, so that no operation of a
    goroutine panics. *)
Record node_ok (n : node S) : Prop := {
  no_store : store_ok (n_store n);
  no_alloc : alloc_wf (n_alloc n);
  no_table : forall id v, table n !! id = Some v -> entry_ok id v;
}.

Lemma recorded_insert_eq T id c w : recorded (<[id := mk_sv c w]> T) id = w.
Proof using Type. unfold recorded. by rewrite lookup_insert_eq. Qed.

Lemma recorded_insert_ne T id id' v : id <> id' -> recorded (<[id := v]> T) id' = recorded T id'.
Proof using Type. intros. unfold recorded. by rewrite lookup_insert_ne. Qed.

Lemma checkpointed_insert_eq T id c w : checkpointed (<[id := mk_sv c w]> T) id = c.
Proof using Type. unfold checkpointed. by rewrite lookup_insert_eq. Qed.

Lemma checkpointed_insert_ne T id id' v :
  id <> id' -> checkpointed (<[id := v]> T) id' = checkpointed T id'.
Proof using Type. intros. unfold checkpointed. by rewrite lookup_insert_ne. Qed.

Lemma updated_state T id st :
  st <> "" -> ws_State (updated T id (mk_ws st 0)) = st /\
  forall w, recorded T id = Some w -> ws_Port (updated T id (mk_ws st 0)) = ws_Port w.
Proof using Type.
  intros Hst. unfold updated, merge_workload, nonempty. cbn [ws_State ws_Port].
  apply String.eqb_neq in Hst. rewrite Hst. cbn [negb].
  destruct (recorded T id) as [w|]; (split; [done|]); by intros w' [= ->].
Qed.

Context {IL : StatusStoreLaws S} {R : RandSource} {RL : RandLaws R} {W : WorkloadService} {En : Env}.

Lemma node_ok_insert n s' id v :
  node_ok n -> store_ok s' -> store_table s' = <[id := v]> (table n) -> entry_ok id v ->
  node_ok (with_store s' n).
Proof using Type.
  intros [H1 H2 H3] Hs' ET Hv. split; [done|done|]. intros i v'. unfold table.
  cbn [n_store with_store]. rewrite ET. intros [[<- <-]|[_ Hl]]%lookup_insert_Some; eauto.
Qed.

(** The update of an entry, or of no entry yet, with a status of its kind. *)
Lemma update_total n id nw :
  node_ok n -> is_cp id = false ->
  exists s', do_op (PUpdate id (mk_sv None (Some nw))) n = Some (tt, with_store s' n) /\
    node_ok (with_store s' n) /\
    store_table s' = <[id := mk_sv None (Some (updated (table n) id nw))]> (table n).
Proof using IL.
  intros Hok Hi. pose proof Hok as [H1 _ Htab].
  pose proof (store_update_law id (mk_sv None (Some nw)) (n_store n) H1) as Hlaw.
  unfold spec_update in Hlaw. fold (table n) in Hlaw. cbn [do_op].
  assert (exists s', store_update id (mk_sv None (Some nw)) (n_store n) = Some s' /\
    store_table s' = <[id := mk_sv None (Some (updated (table n) id nw))]> (table n) /\
    store_ok s') as (s' & Es & Et & Ho).
  { unfold updated, recorded. destruct (table n !! id) as [[c w]|] eqn:El; [|exact Hlaw].
    pose proof (Htab _ _ El) as He. unfold entry_ok in He. rewrite Hi in He.
    destruct He as [Hc [w0 Hw]]. cbn in Hc, Hw. subst c w. exact Hlaw. }
  exists s'. rewrite Es. split; [done|]. split; [|done]. eapply node_ok_insert; [done..|].
  unfold entry_ok. rewrite Hi. by split.
Qed.

Lemma update_ck_total n id nc :
  node_ok n -> is_cp id = true ->
  exists s', do_op (PUpdate id (mk_sv (Some nc) None)) n = Some (tt, with_store s' n) /\
    node_ok (with_store s' n) /\
    store_table s' = <[id := mk_sv (Some (updated_ck (table n) id nc)) None]> (table n).
Proof using IL.
  intros Hok Hi. pose proof Hok as [H1 _ Htab].
  pose proof (store_update_law id (mk_sv (Some nc) None) (n_store n) H1) as Hlaw.
  unfold spec_update in Hlaw. fold (table n) in Hlaw. cbn [do_op].
  assert (exists s', store_update id (mk_sv (Some nc) None) (n_store n) = Some s' /\
    store_table s' = <[id := mk_sv (Some (updated_ck (table n) id nc)) None]> (table n) /\
    store_ok s') as (s' & Es & Et & Ho).
  { unfold updated_ck, checkpointed. destruct (table n !! id) as [[c w]|] eqn:El; [|exact Hlaw].
    pose proof (Htab _ _ El) as He. unfold entry_ok in He. rewrite Hi in He.
    destruct He as [Hc [w0 Hw]]. cbn in Hc, Hw. subst c w. exact Hlaw. }
  exists s'. rewrite Es. split; [done|]. split; [|done]. eapply node_ok_insert; [done..|].
  unfold entry_ok. rewrite Hi. by split.
Qed.

(** [Update] dereferences the part that the entry has: a status of the wrong kind
    makes it panic.  [StopWorkload] does that when it is given the id of a
    checkpoint. *)
Lemma wrong_kind_panics n id nw :
  node_ok n -> is_cp id = true -> is_Some (table n !! id) ->
  do_op (PUpdate id (mk_sv None (Some nw))) n = None.
Proof using IL.
  intros [H1 _ Htab] Hi [v Hv]. cbn [do_op].
  pose proof (store_update_law id (mk_sv None (Some nw)) (n_store n) H1) as Hlaw.
  unfold spec_update in Hlaw. fold (table n) in Hlaw. rewrite Hv in Hlaw.
  pose proof (Htab _ _ Hv) as He. unfold entry_ok in He. rewrite Hi in He.
  destruct v as [c w], He as [Hw [c0 Hc]]. cbn in Hw, Hc. subst c w. cbn in Hlaw. by rewrite Hlaw.
Qed.

Lemma node_ok_allocate n :
  node_ok n -> exists r a, do_op PAllocate n = Some (r, with_alloc a n) /\
    node_ok (with_alloc a n) /\
    match r with
    | Some p => portMin (n_alloc n) <= p <= portMax (n_alloc n) /\ ~ taken (n_alloc n) p /\
                allocated a = <[p := true]> (allocated (n_alloc n))
    | None => allocated a = allocated (n_alloc n)
    end.
Proof using RL.
  intros [H1 H2 H3]. cbn [do_op]. pose proof (allocate_loop_spec maxTries _ H2) as Hs.
  pose proof (Allocate_wf _ H2) as Hwf. fold Allocate in Hs.
  destruct (Allocate (n_alloc n)) as [[p|msg|] a]; cbn [fst snd allocates] in *; [..|done];
    (eexists _, _; split; [reflexivity|]; split; [by split|]).
  - by destruct Hs as (? & ? & ? & _).
  - by destruct Hs as (_ & (_ & _ & ?) & _).
Qed.

Lemma node_ok_free n p : node_ok n -> node_ok (with_alloc (Free p (n_alloc n)) n).
Proof using Type. intros [H1 H2 H3]. split; [done|by apply Free_wf|done]. Qed.

Lemma run_call {X A} (o : pop X) (f : X -> gor A) n :
  run (call o ≫= f) n = match do_op o n with Some (x, n') => run (f x) n' | None => None end.
Proof using Type. done. Qed.
End table.

(** A node at its start. *)
Definition fresh_node (lo hi : Z) : node MemStore :=
  mk_node NewMemStore ∅ (NewPortAllocator lo hi) [] [].

Lemma fresh_node_table lo hi : table (fresh_node lo hi) = ∅.
Proof. apply fmap_empty. Qed.

Lemma fresh_node_ok is_cp lo hi : 0 < lo <= hi -> hi < 2 ^ 16 -> node_ok is_cp (fresh_node lo hi).
Proof.
  intros Hlo Hhi. split.
  - apply NewMemStore_wf.
  - split; [cbn; lia|]. split; [done|]. intros p [b Hb]. cbn in Hb. by rewrite lookup_empty in Hb.
  - intros id v. rewrite fresh_node_table. by rewrite lookup_empty.
Qed.

(** An environment in which nothing fails and nothing is found. *)
#[global] Instance idle_env : Env := {|
  answer X _ c :=
    match c in env_call X return X with
    | EnsureImage _ _ _ => inr false
    | RunPodSandbox cfg => inr (pod_Uid cfg)
    | RunContainer pod _ => inr pod
    | Attach ctr => inr ctr
    | NewRemoteCMDExecutor _ | WaitForRegex _ _ => None
    | GetContainerInfo ctr => inr {| info_Pid := 1; info_CgroupsPath := "a:b:c";
        info_Namespaces := [{| ns_Type := "network"; ns_Path := "/ns" |}] |}
    | AttachConnect4 _ | AttachConnect6 _ | EnterNetNS _ | IterDestroyTcp | IterDestroyUdp => None
    | CheckpointContainer _ _ _ | ImageFromCheckpoint _ _ | PushImage _ => None
    | Now => 0
    | ReadDir _ => inr []
    | RemoveFile _ => FileRemoved
    | RemoveAll _ => None
    | ListPodSandbox _ _ => inr []
    | StopPodSandbox _ | RemovePodSandbox _ => None
    end |}.

Definition no_checkpoints (_ : string) : bool := false.

(** The workload of instance x cannot be started, all others can. *)
#[global] Instance demo_service : WorkloadService := {|
  svc_run _ w _ := negb (String.eqb (wl_ID w) "x");
  svc_remove _ _ := RmOk;
  svc_health _ _ := Healthy;
|}.
