(* ===== verification/Reconciler.v ===== *)
(** * The reconciler

    [platformd/reconciler.go] brings what the control plane wants in line with
    what runs on the node: it allocates a host port for a new instance, starts
    the workload, retries, gives up, and removes workloads.  Each instance is
    handled by a goroutine of its own.  This file has the handlers, an outline
    that every such goroutine follows, and what becomes of instances that are
    handled one after the other; [Ports] has the interleavings. *)

From stdpp Require Import pretty.
From S2P Require Import Prelude Go Endian PortAlloc StatusStore Node.

#[local] Open Scope Z_scope.

(** ** Data *)

Record reconcilerConfig := {
  MaxAttempts : Z;
  WorkloadNamespace : string;
  WorkloadCPUPeriod : Z;
  WorkloadCPUQuota : Z;
  WorkloadMemoryLimit : Z;
  RegistryEndpoint : string;
}.

Definition InstanceLabels (ins : Instance) : gmap string string :=
  list_to_map [(LabelWorkloadID, ins_Id ins); (LabelWorkloadType, "instance");
    (LabelChunkID, ins_ChunkId ins); (LabelChunkName, ins_ChunkName ins);
    (LabelFlavorVersionID, ins_FlavorVersionId ins);
    (LabelInstanceOrderedBy, ins_OrderedBy ins)].

Definition workload_of (cfg : reconcilerConfig) (ins : Instance) (port : Z) : Workload :=
  let baseURL := (RegistryEndpoint cfg +:+ "/" +:+ ins_FlavorVersionId ins) in
  {| wl_ID := ins_Id ins;
     wl_Name := ins_FlavorVersionId ins;
     wl_BaseImage := baseURL +:+ ":base";
     wl_CheckpointImage := baseURL +:+ ":checkpoint";
     wl_Instance := ins;
     wl_Namespace := WorkloadNamespace cfg;
     wl_Hostname := ins_Id ins;
     wl_Labels := InstanceLabels ins ∪ {[LabelWorkloadPort := pretty port]};
     wl_CPUPeriod := WorkloadCPUPeriod cfg;
     wl_CPUQuota := WorkloadCPUQuota cfg;
     wl_MemoryLimitBytes := WorkloadMemoryLimit cfg |}.

Inductive create_error := errMaxAttemptsReached | errOther (msg : string).

(** ** reconciler.go *)

(** [nil] is [None]. *)
Definition handleInstanceCreation (cfg : reconcilerConfig) (ins : Instance)
    : gor (option create_error) :=
  let id := ins_Id ins in
  attempt ← call (PAttempts id);
  if 5 <=? attempt then
    call (PUpdate id (workload_state WorkloadStateCreationFailed));;
    mret (Some errMaxAttemptsReached)
  else
  st ← call (PGet id);
  let skip :=
    match st with
    | Some v =>
        match sv_workload v with
        | Some w => negb (String.eqb (ws_State w) WorkloadStateCreating)
        | None => false
        end
    | None => false
    end in
  if skip then mret None else
  let attempt := attempt + 1 in
  call (PUpdate id (workload_state WorkloadStateCreating));;
  r ← call PAllocate;
  match r with
  | None => mret (Some (errOther "failed to allocate port"))
  | Some port =>
      call (PUpdate id (workload_port port));;
      ok ← call (PRunWorkload (workload_of cfg ins port) attempt);
      if ok : bool then
        call (PUpdate id (workload_state WorkloadStateRunning));;
        mret None
      else
        call (PFree port);;
        call (PRemoveWorkload id);;
        mret (Some (errOther "run workload"))
  end.

(** The error is only logged. *)
Definition handleInstanceDeleting (ins : Instance) : gor bool :=
  r ← call (PRemoveWorkload (ins_Id ins));
  match r with
  | RmErr => mret false
  | RmNotFound | RmOk =>
      call (PUpdate (ins_Id ins) (workload_state WorkloadStateDeleted));; mret true
  end.

Definition handleInstanceRunning (ins : Instance) : gor bool :=
  h ← call (PGetWorkloadHealth (ins_Id ins));
  match h with
  | HealthErr => mret false
  | Healthy => mret true
  | Unhealthy =>
      r ← call (PRemoveWorkload (ins_Id ins));
      match r with
      | RmErr => mret false
      | RmNotFound | RmOk =>
          call (PUpdate (ins_Id ins) (workload_state WorkloadStateDeleted));; mret true
      end
  end.

Definition reconcile (cfg : reconcilerConfig) (ins : Instance) : gor unit :=
  let id := ins_Id ins in
  match ins_State ins with
  | InstanceState_PENDING | InstanceState_CREATING =>
      err ← handleInstanceCreation cfg ins;
      match err with
      | None => mret tt
      | Some errMaxAttemptsReached => call (PAttempts id);; mret tt
      | Some (errOther _) =>
          n ← call (PAttempts id);
          call (PSetAttempts id (n + 1));;
          call (PAttempts id);; mret tt
      end
  | InstanceState_DELETING => handleInstanceDeleting ins;; mret tt
  | InstanceState_RUNNING => handleInstanceRunning ins;; mret tt
  | InstanceState_CREATION_FAILED =>
      r ← call (PRemoveWorkload id);
      match r with
      | RmOk => call (PUpdate id (workload_state WorkloadStateDeleted));; mret tt
      | RmNotFound | RmErr => mret tt
      end
  | InstanceState_DELETED => mret tt
  end.

(** ** Proof outline of a goroutine

    The part a goroutine plays for its instance [id] is followed by a phase: it
    has not begun to create the workload, it has (and the instance is not
    recorded as running), or it holds a port, which may be recorded. *)

Inductive phase := Idle | Started | Holds (port : Z) (recorded : bool).

Definition resting (ph : phase) : Prop :=
  match ph with Holds _ _ => False | _ => True end.

(** The workload carries its id as a label. *)
Definition labelled (w : Workload) : Prop := wl_Labels w !! LabelWorkloadID = Some (wl_ID w).

Lemma workload_labelled cfg ins port : labelled (workload_of cfg ins port).
Proof.
  unfold labelled. cbn [wl_Labels wl_ID workload_of]. apply lookup_union_Some_l. unfold InstanceLabels.
  cbn [list_to_map foldr]. apply lookup_insert_eq.
Qed.

(** The goroutine touches only its own entry, takes a port only after it
    recorded the creation, gives back only the port it holds, records that port
    and no other, records a running workload only with it, and does not end
    while it holds one. *)
Fixpoint follows {A} (id : string) (ph : phase) (g : gor A) : Prop :=
  match g with
  | GRet _ => resting ph
  | GDo o k =>
      match o in pop X return (X -> gor A) -> Prop with
      | PAttempts _ => fun k => forall x, follows id ph (k x)
      | PSetAttempts id' _ => fun k => id' = id /\ follows id ph (k tt)
      | PGet _ => fun k => forall x, follows id ph (k x)
      | PUpdate id' v => fun k => id' = id /\
          ((v = workload_state WorkloadStateCreating /\ resting ph /\ follows id Started (k tt)) \/
           ((v = workload_state WorkloadStateDeleted \/
             v = workload_state WorkloadStateCreationFailed) /\ resting ph /\ follows id ph (k tt)) \/
           (exists p b, ph = Holds p b /\ v = workload_port p /\ follows id (Holds p true) (k tt)) \/
           (exists p, ph = Holds p true /\ v = workload_state WorkloadStateRunning /\
              follows id Idle (k tt)))
      | PAllocate => fun k => ph = Started /\ follows id Started (k None) /\
          forall p, follows id (Holds p false) (k (Some p))
      | PFree p => fun k => (exists b, ph = Holds p b) /\ follows id Started (k tt)
      | PRunWorkload w _ => fun k => wl_ID w = id /\ labelled w /\ forall x, follows id ph (k x)
      | PRemoveWorkload id' => fun k => id' = id /\ forall x, follows id ph (k x)
      | PGetWorkloadHealth id' => fun k => id' = id /\ forall x, follows id ph (k x)
      | PDel _ | PView | PLoad _ | PPanic | PEnv _ => fun _ => False
      end k
  end.

(** Walks through a goroutine. *)
Ltac outline1 :=
  lazymatch goal with
  | |- forall _, _ => intros ?
  | |- follows _ _ (if ?b then _ else _) => destruct b
  | |- follows _ _ (match ?x with _ => _ end) => destruct x
  | |- follows _ _ (mbind _ (if ?b then _ else _)) => destruct b; cbn
  | |- follows _ _ (mbind _ (match ?x with _ => _ end)) => destruct x; cbn
  | |- follows _ _ _ => progress cbn
  | |- resting _ => exact Logic.I
  | |- True => exact Logic.I
  | |- labelled _ => apply workload_labelled
  | |- _ = _ => reflexivity
  | |- exists _, Holds _ _ = _ => eexists
  | |- _ /\ _ => split
  | |- _ \/ _ =>
      first [ left; split; [reflexivity|]
            | right; left; split; [solve [auto]|]
            | right; right; left; do 2 eexists; split; [reflexivity|]; split; [reflexivity|]
            | right; right; right; eexists; split; [reflexivity|]; split; [reflexivity|] ]
  end.

Lemma reconcile_follows cfg ins : follows (ins_Id ins) Idle (reconcile cfg ins).
Proof.
  unfold reconcile, handleInstanceCreation, handleInstanceDeleting, handleInstanceRunning.
  destruct (ins_State ins); cbn; repeat outline1.
Qed.

(** ** Giving up *)

(** The workload that a call is about. *)
Definition call_id (c : wl_call) : string :=
  match c with CallRun w _ => wl_ID w | CallRemove id | CallHealth id => id end.

Definition call_ok (c : wl_call) : Prop :=
  match c with CallRun w _ => labelled w | CallRemove _ | CallHealth _ => True end.

(** The number of times that the workload of [id] was started. *)
Fixpoint runs_of (id : string) (cs : list wl_call) : nat :=
  match cs with
  | [] => 0
  | CallRun w _ :: cs => (if String.eqb (wl_ID w) id then 1 else 0) + runs_of id cs
  | _ :: cs => runs_of id cs
  end.

(** Attempts of an instance; a missing entry counts as zero. *)
Definition attempts_of {S} (n : node S) (id : string) : Z := default 0 (n_attempts n !! id).

Section alone.
Context {S : Type} {I : StatusStore S} {IL : StatusStoreLaws S} {R : RandSource} {RL : RandLaws R}.
Context {W : WorkloadService} {En : Env} (is_cp : string -> bool) (cfg : reconcilerConfig).

(** Instances handled one after the other. *)
Fixpoint reconcile_all (l : list Instance) (n : node S) : option (node S) :=
  match l with
  | [] => Some n
  | ins :: l =>
      match run (reconcile cfg ins) n with Some (_, n') => reconcile_all l n' | None => None end
  end.

(** Nothing about the instance [i] changed. *)
Definition untouched (i : string) (n n' : node S) : Prop :=
  recorded (table n') i = recorded (table n) i /\ attempts_of n' i = attempts_of n i /\
  exists cs, n_calls n' = cs ++ n_calls n /\ Forall (fun c => call_id c <> i /\ call_ok c) cs.

Lemma untouched_same i n n' :
  recorded (table n') i = recorded (table n) i -> attempts_of n' i = attempts_of n i ->
  n_calls n' = n_calls n -> untouched i n n'.
Proof using Type. intros H1 H2 H3. split; [done|]. split; [done|]. exists []. by rewrite H3. Qed.

Lemma untouched_call i c n : call_id c <> i -> call_ok c -> untouched i n (log_wl c n).
Proof using Type. intros Hc Hok. split; [done|]. split; [done|]. exists [c]. split; [done|]. by repeat constructor. Qed.

Lemma runs_of_app i cs cs' : runs_of i (cs ++ cs') = (runs_of i cs + runs_of i cs')%nat.
Proof using Type. induction cs as [|[w a|j|j] cs IH]; [done|..]; cbn; rewrite IH; lia. Qed.

Lemma untouched_runs i n n' : untouched i n n' -> runs_of i (n_calls n') = runs_of i (n_calls n).
Proof using Type.
  intros (_ & _ & cs & -> & Hcs). rewrite runs_of_app.
  enough (runs_of i cs = 0%nat) as -> by done.
  induction Hcs as [|[w a|j|j] cs [Hc _] _ IH]; [done|..]; cbn; rewrite IH; [|done..].
  cbn in Hc. apply String.eqb_neq in Hc. by rewrite Hc.
Qed.

Lemma untouched_trans i n1 n2 n3 : untouched i n1 n2 -> untouched i n2 n3 -> untouched i n1 n3.
Proof using Type.
  intros (A1 & A2 & cs & A3 & A4) (B1 & B2 & cs' & B3 & B4).
  split; [by etransitivity|]. split; [by etransitivity|]. exists (cs' ++ cs).
  rewrite B3, A3, app_assoc. split; [done|]. by apply list.Forall_app.
Qed.

Lemma node_ok_update n id nw :
  node_ok is_cp n -> is_cp id = false ->
  exists n', do_op (PUpdate id (mk_sv None (Some nw))) n = Some (tt, n') /\ node_ok is_cp n' /\
    recorded (table n') id = Some (updated (table n) id nw) /\
    n_attempts n' = n_attempts n /\ n_calls n' = n_calls n /\
    forall i, i <> id -> untouched i n n'.
Proof using IL.
  intros Hok Hi. destruct (update_total is_cp n id nw Hok Hi) as (s' & Es & Hs' & ET).
  exists (with_store s' n). split; [exact Es|]. split; [exact Hs'|].
  unfold table. cbn [n_store with_store]. rewrite ET, recorded_insert_eq.
  repeat (split; [done|]). intros i Hne. apply untouched_same; [|done..]. unfold table. cbn [n_store with_store].
  by rewrite ET, recorded_insert_ne by done.
Qed.

(** The update of [v] that an outline allows has this form. *)
Lemma outline_value (id : string) (v : StatusV) ph {A} (k : unit -> gor A) :
  follows id ph (GDo (PUpdate id v) k) ->
  exists nw ph', v = mk_sv None (Some nw) /\ follows id ph' (k tt).
Proof using Type.
  intros [_ [(-> & _ & Hf)|[([-> | ->] & _ & Hf)|[(p & b & _ & -> & Hf)|(p & _ & -> & Hf)]]]];
    eexists _, _; (split; [reflexivity|exact Hf]).
Qed.

(** An operation of a goroutine ends, and leaves the other instances alone. *)
Lemma op_frame {X A} id (o : pop X) (k : X -> gor A) ph n :
  follows id ph (GDo o k) -> is_cp id = false -> node_ok is_cp n ->
  exists x n1 ph', do_op o n = Some (x, n1) /\ node_ok is_cp n1 /\
    (forall i, i <> id -> untouched i n n1) /\ follows id ph' (k x).
Proof using IL RL.
  intros Hf Hi Hok. pose proof Hok as [H1 H2 H3].
  destruct o as [id'|id' m|id' v|id'| |port|w attempt|id'|id'|id'| |h| |X c]; try done.
  - do 3 eexists. split; [reflexivity|]. split; [done|]. split; [intros; by apply untouched_same|apply Hf].
  - destruct Hf as [-> Hf]. do 3 eexists. split; [reflexivity|]. split; [by split|]. split; [|exact Hf].
    intros i Hne. apply untouched_same; [done| |done]. unfold attempts_of. cbn [n_attempts set_attempts].
    by rewrite lookup_insert_ne.
  - assert (id' = id) as -> by apply Hf.
    destruct (outline_value _ _ _ _ Hf) as (nw & ph' & -> & Hf').
    destruct (node_ok_update n id nw Hok Hi) as (n1 & E & Hok1 & _ & _ & _ & Hu). by exists tt, n1, ph'.
  - do 3 eexists. split; [reflexivity|]. split; [done|]. split; [intros; by apply untouched_same|apply Hf].
  - destruct Hf as (_ & Hf0 & Hf1).
    destruct (node_ok_allocate is_cp n Hok) as (r & a & E & Hok1 & _).
    destruct r as [p|]; do 3 eexists; (split; [exact E|]); (split; [done|]);
      (split; [intros; by apply untouched_same|done]).
  - destruct Hf as [_ Hf]. do 3 eexists. split; [reflexivity|]. split; [by apply node_ok_free|].
    split; [intros; by apply untouched_same|done].
  - destruct Hf as (Hid & Hl & Hf). do 3 eexists. split; [reflexivity|]. split; [by split|].
    split; [intros; apply untouched_call; [cbn; congruence|done]|apply Hf].
  - destruct Hf as [Hid Hf]. do 3 eexists. split; [reflexivity|]. split; [by split|].
    split; [intros; apply untouched_call; [cbn; congruence|done]|apply Hf].
  - destruct Hf as [Hid Hf]. do 3 eexists. split; [reflexivity|]. split; [by split|].
    split; [intros; apply untouched_call; [cbn; congruence|done]|apply Hf].
Qed.

(** A goroutine ends, and leaves the other instances alone. *)
Lemma run_frame {A} id (g : gor A) : forall ph n,
  follows id ph g -> is_cp id = false -> node_ok is_cp n ->
  exists a n', run g n = Some (a, n') /\ node_ok is_cp n' /\ forall i, i <> id -> untouched i n n'.
Proof using IL RL.
  induction g as [a|X o k IH]; intros ph n Hf Hi Hok.
  { exists a, n. split; [done|]. split; [done|]. intros. by apply untouched_same. }
  cbn [run]. destruct (op_frame id o k ph n Hf Hi Hok) as (x & n1 & ph' & -> & Hok1 & Hu & Hf').
  destruct (IH x ph' n1 Hf' Hi Hok1) as (a & n' & Er & Hok' & Hu'). exists a, n'.
  split; [exact Er|]. split; [exact Hok'|]. intros i Hne. eapply untouched_trans; eauto.
Qed.

Context (ins : Instance) (Hins : is_cp (ins_Id ins) = false).
Let id : string := ins_Id ins.

(** What is recorded of the instance is at most that it is being created. *)
Definition creating (n : node S) : Prop :=
  forall w, recorded (table n) id = Some w -> ws_State w = WorkloadStateCreating.

Lemma creating_not_skipped n :
  creating n ->
  match store_get id (n_store n) with
  | Some v => match sv_workload v with
              | Some w => negb (String.eqb (ws_State w) WorkloadStateCreating)
              | None => false
              end
  | None => false
  end = false.
Proof using IL.
  intros Hc. unfold creating, recorded, table in Hc. rewrite store_get_law.
  destruct (store_table (n_store n) !! id) as [v|]; [|done]. cbn in Hc.
  destruct (sv_workload v) as [w|]; [|done]. by rewrite (Hc w eq_refl).
Qed.

Lemma updated_creating T i w : ws_State (updated T i (mk_ws WorkloadStateCreating w)) = WorkloadStateCreating.
Proof using Type. unfold updated. by destruct (recorded T i). Qed.

Lemma updated_port T i w p :
  recorded T i = Some w -> ws_State (updated T i (mk_ws "" p)) = ws_State w.
Proof using Type. intros E. unfold updated. by rewrite E. Qed.

(** An attempt ends with an error or with the workload running on a new port. *)
Lemma creation_attempt n :
  node_ok is_cp n -> attempts_of n id < 5 -> creating n ->
  exists err n', run (handleInstanceCreation cfg ins) n = Some (err, n') /\
    node_ok is_cp n' /\ n_attempts n' = n_attempts n /\
    (runs_of id (n_calls n') <= 1 + runs_of id (n_calls n))%nat /\
    match err with
    | Some err => (exists msg, err = errOther msg) /\ creating n'
    | None => (exists h w a, wl_ID w = id /\ svc_run h w a = true) /\
        exists p, portMin (n_alloc n) <= p <= portMax (n_alloc n) /\
          (p <> 0 -> running_on (table n') id p)
    end.
Proof using IL RL Hins.
  intros Hok Ha Hc. unfold handleInstanceCreation. fold id. rewrite run_call. cbn [do_op].
  fold (attempts_of n id). rewrite (proj2 (Z.leb_gt _ _)) by done.
  rewrite run_call. cbn [do_op]. cbv zeta. rewrite creating_not_skipped by done.
  destruct (node_ok_update n id (mk_ws WorkloadStateCreating 0) Hok Hins)
    as (n1 & E1 & Hok1 & Er1 & Ea1 & Ec1 & _).
  rewrite run_call. unfold workload_state. rewrite E1. cbv iota beta.
  assert (n_alloc n1 = n_alloc n) as El1.
  { cbn [do_op] in E1. destruct (store_update _ _ (n_store n)); [|done]. cbn in E1. by injection E1 as <-. }
  destruct (node_ok_allocate is_cp n1 Hok1) as (r & a & E2 & Hok2 & Hr).
  rewrite run_call, E2. cbv iota beta. set (n2 := with_alloc a n1) in *.
  assert (recorded (table n2) id = recorded (table n1) id) as Er2 by done.
  destruct r as [p|].
  2: { eexists _, n2. split; [reflexivity|]. split; [done|].
       split; [exact Ea1|]. split; [cbn; rewrite Ec1; lia|]. split; [by eexists|].
       intros w. rewrite Er2, Er1. intros [= <-]. apply updated_creating. }
  destruct (node_ok_update n2 id (mk_ws "" p) Hok2 Hins) as (n3 & E3 & Hok3 & Er3 & Ea3 & Ec3 & _).
  rewrite run_call. unfold workload_port. rewrite E3. cbv iota beta.
  rewrite run_call. cbn [do_op]. destruct (svc_run _ _ _) eqn:Erun.
  - destruct Hok3 as [A1 A2 A3].
    destruct (node_ok_update (log_wl (CallRun (workload_of cfg ins p) (attempts_of n id + 1)) n3) id
      (mk_ws WorkloadStateRunning 0)) as (n4 & E4 & Hok4 & Er4 & Ea4 & Ec4 & _); [by split|exact Hins|].
    rewrite run_call, E4. eexists None, n4. split; [reflexivity|]. split; [done|].
    split; [by rewrite Ea4; cbn; rewrite Ea3|]. split.
    { rewrite Ec4. cbn. destruct (ins_Id ins =? id)%string; rewrite Ec3; cbn; rewrite Ec1; lia. }
    split; [by eexists _, (workload_of cfg ins p), _; split; [|exact Erun]|].
    exists p. rewrite <-El1. destruct Hr as (Hp & _). split; [done|]. intros Hp0.
    unfold running_on. rewrite Er4. f_equal. unfold updated.
    change (recorded (table (log_wl _ n3)) id) with (recorded (table n3) id). rewrite Er3. cbn.
    unfold updated. rewrite Er2, Er1. cbn.
    unfold merge_workload. cbn. by replace (p =? 0) with false by lia.
  - rewrite !run_call. cbn [do_op].
    eexists _, _. split; [reflexivity|]. pose proof (node_ok_free is_cp n3 p Hok3) as [A1 A2 A3].
    split; [by split|]. split; [cbn; rewrite Ea3; exact Ea1|]. split.
    { cbn. destruct (ins_Id ins =? id)%string; rewrite Ec3; cbn; rewrite Ec1; lia. }
    split; [by eexists|]. intros w. unfold table. cbn [n_store log_wl with_alloc].
    change (store_table (n_store n3)) with (table n3). rewrite Er3. intros [= <-].
    erewrite updated_port by (rewrite Er2; exact Er1). apply updated_creating.
Qed.

Context (Hfail : forall h w a, wl_ID w = ins_Id ins -> svc_run h w a = false).

Lemma creation_fails n :
  node_ok is_cp n -> attempts_of n id < 5 -> creating n ->
  exists msg n', run (handleInstanceCreation cfg ins) n = Some (Some (errOther msg), n') /\
    node_ok is_cp n' /\ n_attempts n' = n_attempts n /\ creating n' /\
    (runs_of id (n_calls n') <= 1 + runs_of id (n_calls n))%nat.
Proof using IL RL Hfail Hins.
  intros Hok Ha Hc. destruct (creation_attempt n Hok Ha Hc) as (err & n' & E & Hok' & Ea & Hr & Hm).
  destruct err as [err|].
  - destruct Hm as [[msg ->] Hc']. by exists msg, n'.
  - destruct Hm as [(h & w & a & Hw & Hrun) _]. by rewrite Hfail in Hrun.
Qed.

Context (Hnew : ins_State ins = InstanceState_PENDING \/ ins_State ins = InstanceState_CREATING).

(** A failed attempt is counted. *)
Lemma attempt_fails n :
  node_ok is_cp n -> attempts_of n id < 5 -> creating n ->
  exists n', run (reconcile cfg ins) n = Some (tt, n') /\ node_ok is_cp n' /\
    attempts_of n' id = attempts_of n id + 1 /\ creating n' /\
    (runs_of id (n_calls n') <= 1 + runs_of id (n_calls n))%nat.
Proof using IL RL Hfail Hnew Hins.
  intros Hok Ha Hc. destruct (creation_fails n Hok Ha Hc) as (msg & n1 & E & Hok1 & Ea & Hc1 & Hr).
  assert (run (reconcile cfg ins) n = Some (tt, set_attempts
    (<[id := attempts_of n id + 1]> (n_attempts n1)) n1)) as Er.
  { unfold reconcile. fold id. rewrite Ea. unfold attempts_of.
    destruct Hnew as [-> | ->]; rewrite run_bind, E, run_call; cbn [do_op];
      rewrite Ea, run_call; cbn [do_op]; by rewrite Ea. }
  eexists. split; [exact Er|]. destruct Hok1 as [A1 A2 A3].
  split; [by split|]. split; [|by split].
  unfold attempts_of. cbn [n_attempts set_attempts]. by rewrite lookup_insert_eq.
Qed.

Lemma attempt_given_up n :
  node_ok is_cp n -> 5 <= attempts_of n id ->
  exists n' w, run (reconcile cfg ins) n = Some (tt, n') /\ node_ok is_cp n' /\
    attempts_of n' id = attempts_of n id /\ n_calls n' = n_calls n /\
    recorded (table n') id = Some w /\ ws_State w = WorkloadStateCreationFailed.
Proof using IL Hnew Hins.
  intros Hok Ha.
  destruct (node_ok_update n id (mk_ws WorkloadStateCreationFailed 0) Hok Hins)
    as (n1 & E1 & Hok1 & Er1 & Ea1 & Ec1 & _).
  exists n1, (updated (table n) id (mk_ws WorkloadStateCreationFailed 0)).
  assert (run (reconcile cfg ins) n = Some (tt, n1)) as Er.
  { unfold reconcile, handleInstanceCreation. fold id.
    destruct Hnew as [-> | ->]; rewrite run_bind, run_call; cbn [do_op]; fold (attempts_of n id);
      rewrite (proj2 (Z.leb_le _ _)) by done; rewrite run_call; unfold workload_state;
      rewrite E1; reflexivity. }
  split; [exact Er|]. split; [done|]. split; [unfold attempts_of; congruence|]. split; [done|].
  split; [done|]. by apply updated_state.
Qed.
End alone.

(** A workload that is removed keeps its port: no path but that of a failed
    start gives one back. *)
Lemma removal_keeps_port {S : Type} {I : StatusStore S} {R : RandSource} {W : WorkloadService} {En : Env}
    (cfg : reconcilerConfig) (ins : Instance) (n : node S) u n' :
  ins_State ins <> InstanceState_PENDING -> ins_State ins <> InstanceState_CREATING ->
  run (reconcile cfg ins) n = Some (u, n') -> n_alloc n' = n_alloc n.
Proof.
  intros H1 H2. unfold reconcile, handleInstanceDeleting, handleInstanceRunning.
  destruct (ins_State ins); try done; cbn;
    repeat match goal with
    | |- context [svc_remove ?h ?i] => destruct (svc_remove h i); cbn
    | |- context [svc_health ?h ?i] => destruct (svc_health h i); cbn
    | |- context [store_update ?i ?v ?s] => destruct (store_update i v s); cbn
    end; by intros [= <- <-].
Qed.

(** How often an instance is in the list. *)
Definition times (id : string) (l : list Instance) : nat :=
  length (filter (fun ins => ins_Id ins = id) l).

Section giving_up.
Context {S : Type} {I : StatusStore S} {IL : StatusStoreLaws S} {R : RandSource} {RL : RandLaws R}.
Context {W : WorkloadService} {En : Env} (is_cp : string -> bool) (cfg : reconcilerConfig) (id : string).
Context (Hfail : forall h w a, wl_ID w = id -> svc_run h w a = false).

(** [k] reconciliations of the instance have been made. *)
Definition progress (r0 k : nat) (n : node S) : Prop :=
  node_ok is_cp n /\ attempts_of n id = Z.of_nat (min k 5) /\
  (runs_of id (n_calls n) <= r0 + min k 5)%nat /\
  (if (k <=? 5)%nat
   then forall w, recorded (table n) id = Some w -> ws_State w = WorkloadStateCreating
   else exists w, recorded (table n) id = Some w /\ ws_State w = WorkloadStateCreationFailed).

Lemma progress_other r0 k n ins :
  progress r0 k n -> is_cp (ins_Id ins) = false -> ins_Id ins <> id ->
  exists u n', run (reconcile cfg ins) n = Some (u, n') /\ progress r0 k n'.
Proof using IL RL.
  intros (Hok & Ha & Hr & Hs) Hi Hne.
  destruct (run_frame is_cp (ins_Id ins) (reconcile cfg ins) Idle n (reconcile_follows cfg ins) Hi Hok)
    as (u & n' & E & Hok' & Hu).
  specialize (Hu id (not_eq_sym Hne)). pose proof (untouched_runs _ _ _ Hu) as E3.
  destruct Hu as (E1 & E2 & _). exists u, n'. split; [exact E|].
  unfold progress. by rewrite E1, E2, E3.
Qed.

Lemma progress_own r0 k n ins :
  progress r0 k n -> is_cp (ins_Id ins) = false -> ins_Id ins = id ->
  ins_State ins = InstanceState_PENDING \/ ins_State ins = InstanceState_CREATING ->
  exists u n', run (reconcile cfg ins) n = Some (u, n') /\ progress r0 (k + 1) n'.
Proof using IL RL Hfail.
  intros (Hok & Ha & Hr & Hs) Hi Heq Hnew.
  assert (forall h w a, wl_ID w = ins_Id ins -> svc_run h w a = false) as Hfail'
    by (intros h w a Hw; apply Hfail; congruence).
  destruct (Nat.lt_ge_cases k 5) as [Hk|Hk].
  - rewrite (proj2 (Nat.leb_le _ _)) in Hs by lia.
    destruct (attempt_fails is_cp cfg ins Hi Hfail' Hnew n Hok) as (n' & E & Hok' & Ea & Hc & Hr');
      [rewrite Heq; lia|unfold creating; by rewrite Heq|].
    unfold creating in Hc. rewrite Heq in *.
    exists tt, n'. split; [exact E|]. split; [done|]. split; [lia|]. split; [lia|].
    rewrite (proj2 (Nat.leb_le _ _)) by lia. exact Hc.
  - destruct (attempt_given_up is_cp cfg ins Hi Hnew n Hok) as (n' & w & E & Hok' & Ea & Ec & Ew & Hst);
      [rewrite Heq; lia|]. rewrite Heq in *.
    exists tt, n'. split; [exact E|]. split; [done|]. split; [lia|]. split; [rewrite Ec; lia|].
    rewrite (proj2 (Nat.leb_gt _ _)) by lia. eauto.
Qed.

Lemma reconcile_all_progress l : forall r0 k n,
  progress r0 k n -> (forall ins, ins ∈ l -> is_cp (ins_Id ins) = false) ->
  (forall ins, ins ∈ l -> ins_Id ins = id ->
     ins_State ins = InstanceState_PENDING \/ ins_State ins = InstanceState_CREATING) ->
  exists n', reconcile_all cfg l n = Some n' /\ progress r0 (k + times id l) n'.
Proof using IL RL Hfail.
  induction l as [|ins l IH]; intros r0 k n Hp Hcp Hst.
  { exists n. unfold times. cbn. by rewrite Nat.add_0_r. }
  assert (forall i, i ∈ l -> ins_Id i = id ->
     ins_State i = InstanceState_PENDING \/ ins_State i = InstanceState_CREATING) as Hst'
    by (intros i Hi; apply Hst; by right).
  assert (forall i, i ∈ l -> is_cp (ins_Id i) = false) as Hcp' by (intros i Hi; apply Hcp; by right).
  pose proof (Hcp ins ltac:(left)) as Hi.
  cbn [reconcile_all]. unfold times. rewrite filter_cons.
  destruct (decide (ins_Id ins = id)) as [Heq|Hne].
  - destruct (progress_own r0 k n ins Hp Hi Heq (Hst ins ltac:(left) Heq)) as (u & n1 & -> & Hp1).
    destruct (IH r0 (k + 1)%nat n1 Hp1 Hcp' Hst') as (n' & E & Hp'). exists n'. split; [exact E|].
    cbn [length]. unfold times in Hp'. by rewrite <-Nat.add_assoc in Hp'.
  - destruct (progress_other r0 k n ins Hp Hi Hne) as (u & n1 & -> & Hp1). by apply IH.
Qed.
End giving_up.

(** C13: an instance whose workload cannot be started is given up: however the
    reconciliations of other instances are mixed in and whatever becomes of
    them, after six reconciliations of the instance it is recorded as
    [CREATION_FAILED], having been started at most five times; no goroutine
    panics on the way. *)
Theorem creation_given_up (S : Type) (I : StatusStore S) (IL : StatusStoreLaws S)
    (R : RandSource) (RL : RandLaws R) (W : WorkloadService) (En : Env)
    (is_cp : string -> bool) (cfg : reconcilerConfig) (id : string) (l : list Instance) (n : node S) :
  node_ok is_cp n -> (forall ins, ins ∈ l -> is_cp (ins_Id ins) = false) ->
  n_attempts n !! id = None -> recorded (table n) id = None ->
  (forall h w a, wl_ID w = id -> svc_run h w a = false) ->
  (forall ins, ins ∈ l -> ins_Id ins = id ->
     ins_State ins = InstanceState_PENDING \/ ins_State ins = InstanceState_CREATING) ->
  (6 <= times id l)%nat ->
  exists n' w, reconcile_all cfg l n = Some n' /\ recorded (table n') id = Some w /\
    ws_State w = WorkloadStateCreationFailed /\
    (runs_of id (n_calls n') <= runs_of id (n_calls n) + 5)%nat.
Proof.
  intros Hok Hcp Ha Hr Hfail Hst Hl.
  assert (progress is_cp id (runs_of id (n_calls n)) 0 n) as Hp.
  { split; [done|]. split; [unfold attempts_of; by rewrite Ha|]. split; [lia|]. cbn.
    by rewrite Hr. }
  destruct (reconcile_all_progress is_cp cfg id Hfail l _ _ n Hp Hcp Hst) as (n' & E & _ & _ & Hc & Hs).
  rewrite (proj2 (Nat.leb_gt _ _)) in Hs by lia. destruct Hs as (w & Hw & Hws).
  exists n', w. split; [exact E|]. split; [done|]. split; [done|lia].
Qed.

(** ** Concrete runs *)

Definition demo_cfg : reconcilerConfig :=
  {| MaxAttempts := 5; WorkloadNamespace := "ns"; WorkloadCPUPeriod := 100000;
     WorkloadCPUQuota := 200000; WorkloadMemoryLimit := 2097152; RegistryEndpoint := "registry" |}.

Definition demo_instance (id : string) : Instance :=
  {| ins_Id := id; ins_State := InstanceState_PENDING; ins_FlavorVersionId := "fv";
     ins_ChunkId := "c"; ins_ChunkName := "chunk"; ins_OrderedBy := "u";
     ins_ChunkCreatedAt := 0; ins_ChunkUpdatedAt := 1; ins_FlavorName := "flavor"; ins_Version := "1"; ins_OwnerId := "o" |}.

(** Instance x fails while y comes and goes. *)
Lemma creation_given_up_witness :
  exists n w, reconcile_all demo_cfg
      (concat (replicate 6 [demo_instance "x"; demo_instance "y"])) (fresh_node 30000 30100) = Some n /\
    recorded (table n) "x" = Some w /\ ws_State w = WorkloadStateCreationFailed /\
    (runs_of "x" (n_calls n) <= 5)%nat.
Proof.
  apply (creation_given_up MemStore MemStore_store MemStore_laws ref_rand ref_rand_laws demo_service
    idle_env no_checkpoints demo_cfg "x"
    (concat (replicate 6 [demo_instance "x"; demo_instance "y"])) (fresh_node 30000 30100)).
  - apply fresh_node_ok; lia.
  - done.
  - reflexivity.
  - reflexivity.
  - intros h w a Hw. cbn. by rewrite Hw.
  - intros ins Hins _. left. cbn in Hins. rewrite !elem_of_cons in Hins.
    repeat destruct Hins as [-> |Hins]; try reflexivity. by apply elem_of_nil in Hins.
  - vm_compute. lia.
Defined.
