(* ===== verification/Checkpoint.v ===== *)
(** * The checkpoint service

    [platformd/checkpoint/service.go]: a checkpoint of a base image is made by
    running it in a pod of its own, waiting until the server is ready, cutting
    its connections ([internal/datapath/sock_handler.go]) and having the runtime
    write the container to a file that becomes an image.  The job runs in a
    goroutine; its status is in the store that the reconciler uses, its port
    comes from the same allocator.  The garbage collector drops old statuses,
    gives their ports back and removes files and pods. *)

From Stdlib Require Import Ascii.
From S2P Require Import Prelude Go GoStrings Endian PortAlloc StatusStore Node.

#[local] Open Scope Z_scope.

(** ** Data *)

Record Config := {
  CPUPeriod : Z;
  CPUQuota : Z;
  MemoryLimitBytes : Z;
  CheckpointFileDir : string;
  CheckpointTimeoutSeconds : Z;
  RegistryUser : string;
  RegistryPass : string;
  ListenAddr : string;
  StatusRetentionPeriod : Z;
  ContainerReadyTimeout : Z;
}.

(** [name.Reference]: its text, and that of the tag "checkpoint" in its
    repository. *)
Record Reference := { ref_String : string; ref_CheckpointTag : string }.

Definition podConfig (cfg : Config) (id : string) : PodSandboxConfig :=
  {| pod_Name := id;
     pod_Uid := id;
     pod_Namespace := "checkpoint";
     pod_Attempt := 0;
     pod_Hostname := id;
     pod_LogDirectory := PodLogDir +:+ "/checkpoints/" +:+ id;
     pod_DnsServers := ["10.0.0.53"];
     pod_DnsOptions := ["edns0"; "trust-ad"];
     pod_DnsSearches := ["."];
     pod_Labels := <[LabelWorkloadID := id]> {[LabelWorkloadType := "checkpoint"]};
     pod_Annotations := ∅;
     pod_Resources := {| res_CpuPeriod := CPUPeriod cfg; res_CpuQuota := CPUQuota cfg;
                         res_MemoryLimitInBytes := MemoryLimitBytes cfg |};
     pod_Sysctls := ∅ |}.

Definition ctrConfig (checkID baseImgURL : string) : ContainerConfig :=
  {| ctr_Name := "payload_" +:+ checkID;
     ctr_Image := baseImgURL;
     ctr_Labels := <[LabelWorkloadID := checkID]> {[LabelWorkloadType := "checkpoint"]};
     ctr_LogPath := "checkpoint.log";
     ctr_Mounts := [];
     ctr_RunAs := None;
     ctr_Envs := [] |}.

(** ** Calls that may fail *)

Definition env {X} (c : env_call X) : gor X := call (PEnv c).

(** [x, err := g; if err != nil { ... }] *)
Definition or_else {A B} (g : gor (string + A)) (h : string -> B) (k : A -> gor B) : gor B :=
  r ← g; match r with inl err => mret (h err) | inr a => k a end.
Definition check {B} (g : gor (option string)) (h : string -> B) (k : gor B) : gor B :=
  r ← g; match r with Some err => mret (h err) | None => k end.

(** [fmt.Errorf("...: %w", err)] *)
Definition wrap_err {A} (prefix err : string) : string + A := inl (prefix +:+ err).

(** ** sock_handler.go and container_info.go *)

Definition cgroupData (cgroupsPath : string) : string + string :=
  match split_on ":" cgroupsPath with
  | p0 :: p1 :: p2 :: _ => inr ("/sys/fs/cgroup/" +:+ p0 +:+ "/" +:+ p1 +:+ "-" +:+ p2 +:+ ".scope/container")
  | _ => inl ("invalid cgroups path: " +:+ cgroupsPath)
  end.

Definition BlockNewConnections (criCgroupsPath : string) : gor (option string) :=
  match cgroupData criCgroupsPath with
  | inl err => mret (Some ("cgroup data: " +:+ err))
  | inr path =>
      check (env (AttachConnect4 path)) (fun err => Some ("block ip4: attach: " +:+ err))
      (check (env (AttachConnect6 path)) (fun err => Some ("block ip6: attach: " +:+ err))
      (mret None))
  end.

(** The iterator programs run in the network namespace of the container. *)
Definition DestroySocks (netnsPath : string) : gor (option string) :=
  check (env (EnterNetNS netnsPath)) (fun err => Some ("in netns: " +:+ err))
  (check (env IterDestroyTcp) (fun err => Some ("in netns: destroy tcp socks: " +:+ err))
  (check (env IterDestroyUdp) (fun err => Some ("in netns: destroy tcp socks: " +:+ err))
  (mret None))).

Definition NamespaceTypeNet : string := "network".

(** The loop keeps the path of the last namespace of the type. *)
Fixpoint last_path (nsType : string) (namespaces : list Namespace) (path : string) : string :=
  match namespaces with
  | [] => path
  | n :: ns => last_path nsType ns (if String.eqb (ns_Type n) nsType then ns_Path n else path)
  end.

Definition FindNsPath (nsType : string) (namespaces : list Namespace) : string + string :=
  let path := last_path nsType namespaces "" in
  if String.eqb path "" then inl "no network namespace found" else inr path.

(** ** service.go *)

Definition checkpoint_status (c : CheckpointStatus) : StatusV := mk_sv (Some c) None.

Definition runAndAttachContainer (cfg : Config) (id baseImgURL : string)
    : gor (string + string * string) :=
  let podCfg := podConfig cfg id in
  r ← call PAllocate;
  match r with
  | None => mret (wrap_err "allocate port: " ErrMaxPortTriesReached)
  | Some port =>
      call (PUpdate id (checkpoint_status (mk_cs CheckpointStateRunning "" None port)));;
      or_else (env (RunPodSandbox podCfg)) (wrap_err "create pod: ") (fun pod =>
      or_else (env (RunContainer pod (ctrConfig id baseImgURL))) (wrap_err "run container: ") (fun ctrID =>
      or_else (env (Attach ctrID)) (wrap_err "attach container: ") (fun url =>
      mret (inr (ctrID, url)))))
  end.

Definition waitContainerReady (cfg : Config) (id baseImgURL : string) : gor (string + string) :=
  or_else (runAndAttachContainer cfg id baseImgURL) (wrap_err "run and attach container: ") (fun r =>
  check (env (NewRemoteCMDExecutor r.2)) (wrap_err "spdy executor: ")
  (check (env (WaitForRegex r.2 (ContainerReadyTimeout cfg))) (wrap_err "reading logs: ")
  (mret (inr r.1)))).

(** What is left to do once the container is ready: the values of [state] and of
    the returned error. *)
Definition capture (cfg : Config) (id : string) (baseRef : Reference) (ctrID : string)
    : gor (string * option string) :=
  let state := CheckpointStateCompleted in
  let location := CheckpointFileDir cfg +:+ "/" +:+ id in
  or_else (env (GetContainerInfo ctrID)) (fun err => (state, Some ("container info: " +:+ err))) (fun info =>
  check (BlockNewConnections (info_CgroupsPath info)) (fun err => (state, Some ("block: " +:+ err)))
  (or_else (mret (FindNsPath NamespaceTypeNet (info_Namespaces info)))
    (fun err => (state, Some ("find netns: " +:+ err))) (fun netnsPath =>
  check (DestroySocks netnsPath) (fun err => (state, Some ("kill sockets: " +:+ err)))
  (check (env (CheckpointContainer ctrID location (CheckpointTimeoutSeconds cfg)))
    (fun err => (CheckpointStateContainerCheckpointFailed, Some ("checkpoint container: " +:+ err)))
  (now ← env Now;
  check (env (ImageFromCheckpoint location now))
    (fun err => (CheckpointStatePushCheckpointFailed, Some ("create image: " +:+ err)))
  (check (env (PushImage (ref_CheckpointTag baseRef)))
    (fun err => (CheckpointStatePushCheckpointFailed, Some ("push image: " +:+ err)))
  (mret (state, None)))))))).

Definition checkpoint_body (cfg : Config) (id : string) (baseRef : Reference)
    : gor (string * option string) :=
  or_else (env (EnsureImage (ref_String baseRef) (RegistryUser cfg) (RegistryPass cfg)))
    (fun err => (CheckpointStatePullBaseImageFailed, Some ("pull base image: " +:+ err))) (fun _ =>
  or_else (waitContainerReady cfg id (ref_String baseRef))
    (fun err => (CheckpointStateContainerWaitReadyFailed, Some ("wait ctr ready: " +:+ err)))
    (capture cfg id baseRef)).

(** The deferred function. *)
Definition checkpoint_deferred (id state : string) (ret : option string) : gor unit :=
  now ← env Now;
  call (PUpdate id (checkpoint_status (mk_cs state (default "" ret) (Some now) 0))).

Definition checkpoint (cfg : Config) (id : string) (baseRef : Reference) : gor (option string) :=
  call (PUpdate id (checkpoint_status (mk_cs CheckpointStateRunning "" None 0)));;
  r ← checkpoint_body cfg id baseRef;
  checkpoint_deferred id r.1 r.2;;
  mret r.2.

(** The first loop, over the entries of a view; [keep] has the ids of jobs that
    are running. *)
Fixpoint gc_statuses (cfg : Config) (view : list (string * Status)) (keep : gset string)
    : gor (gset string) :=
  match view with
  | [] => mret keep
  | (id, st) :: view =>
      match st_checkpoint st with
      | None => gc_statuses cfg view keep
      | Some _ =>
          c ← call (PLoad st);
          let keep := if String.eqb (cs_State c) CheckpointStateRunning then {[id]} ∪ keep else keep in
          c ← call (PLoad st);
          match cs_CompletedAt c with
          | None => gc_statuses cfg view keep
          | Some _ =>
              now ← env Now;
              c ← call (PLoad st);
              match cs_CompletedAt c with
              | Some t =>
                  if t + StatusRetentionPeriod cfg <? now then
                    call (PDel id);;
                    c ← call (PLoad st);
                    call (PFree (cs_Port c));;
                    gc_statuses cfg view keep
                  else gc_statuses cfg view keep
              | None => e ← call PPanic; match (e : Empty_set) with end
              end
          end
      end
  end.

Fixpoint gc_files (cfg : Config) (keep : gset string) (files : list (string * bool))
    : gor (option string) :=
  match files with
  | [] => mret None
  | (name, isDir) :: files =>
      if isDir : bool then gc_files cfg keep files
      else if bool_decide (name ∈ keep) then gc_files cfg keep files
      else
        r ← env (RemoveFile (CheckpointFileDir cfg +:+ "/" +:+ name));
        match r with
        | FileErr err => mret (Some ("remove file: " +:+ err))
        | FileMissing | FileRemoved => gc_files cfg keep files
        end
  end.

Fixpoint gc_pods (keep : gset string) (pods : list PodSandbox) : gor (option string) :=
  match pods with
  | [] => mret None
  | pod :: pods =>
      if bool_decide (sb_Uid pod ∈ keep) then gc_pods keep pods
      else
        check (env (StopPodSandbox (sb_Id pod))) (fun err => Some ("stop pod: " +:+ err))
        (check (env (RemovePodSandbox (sb_Id pod))) (fun err => Some ("remove pod: " +:+ err))
        (check (env (RemoveAll (PodLogDir +:+ "/checkpoints/" +:+ sb_Uid pod)))
          (fun err => Some ("remove checkpoint logs: " +:+ err))
        (gc_pods keep pods)))
  end.

(** Go ranges over a map in any order: [order] is the one of this run. *)
Definition CollectGarbage (cfg : Config) (order : gmap string Status -> list (string * Status))
    : gor (option string) :=
  view ← call PView;
  keep ← gc_statuses cfg (order view) ∅;
  or_else (env (ReadDir (CheckpointFileDir cfg))) (fun err => Some ("read dir: " +:+ err)) (fun files =>
  check (gc_files cfg keep files) Some
  (or_else (env (ListPodSandbox LabelWorkloadType "checkpoint")) (fun err => Some ("list pods: " +:+ err))
  (gc_pods keep))).

(** ** What is asked of the environment *)

(** The error that a call was answered with. *)
Definition err_of {E : Env} (h : list env_event) (ev : env_event) : option string :=
  match ev with
  | Ev c =>
      match c in env_call X return X -> option string with
      | EnsureImage _ _ _ | RunPodSandbox _ | RunContainer _ _ | Attach _ | GetContainerInfo _
      | ReadDir _ | ListPodSandbox _ _ => fun r => match r with inl e => Some e | inr _ => None end
      | NewRemoteCMDExecutor _ | WaitForRegex _ _ | AttachConnect4 _ | AttachConnect6 _
      | EnterNetNS _ | IterDestroyTcp | IterDestroyUdp | CheckpointContainer _ _ _
      | ImageFromCheckpoint _ _ | PushImage _ | RemoveAll _ | StopPodSandbox _
      | RemovePodSandbox _ => fun r => r
      | RemoveFile _ => fun r => match r with FileErr e => Some e | _ => None end
      | Now => fun _ => None
      end (answer h c)
  end.

(** All the calls [evs], made after [h], succeeded. *)
Fixpoint all_ok {E : Env} (h evs : list env_event) : Prop :=
  match evs with
  | [] => True
  | ev :: pre => err_of (pre ++ h) ev = None /\ all_ok h pre
  end.

(** The connections of the container were cut: the last of the calls [pre], made
    after [h], blocked new connections in the cgroup of the container for both
    families and then destroyed the TCP and the UDP sockets of its network
    namespace, as the runtime told them. *)
Definition cut {E : Env} (ctr : string) (h pre : list env_event) : Prop :=
  exists info cgroup netns rest,
    pre = Ev IterDestroyUdp :: Ev IterDestroyTcp :: Ev (EnterNetNS netns) ::
          Ev (AttachConnect6 cgroup) :: Ev (AttachConnect4 cgroup) ::
          Ev (GetContainerInfo ctr) :: rest /\
    answer (rest ++ h) (GetContainerInfo ctr) = inr info /\
    cgroupData (info_CgroupsPath info) = inr cgroup /\
    FindNsPath NamespaceTypeNet (info_Namespaces info) = inr netns.

#[local] Arguments cgroupData : simpl never.
#[local] Arguments FindNsPath : simpl never.

(** A container is written to a file only after its connections were cut. *)
Fixpoint quiesced {E : Env} (h evs : list env_event) : Prop :=
  match evs with
  | [] => True
  | ev :: pre =>
      match ev with
      | Ev (CheckpointContainer ctr _ _) => cut ctr h pre /\ all_ok h pre
      | _ => True
      end /\ quiesced h pre
  end.

(** ** The status of a job that has ended *)

(** The state and the error that belong together. *)
Definition reported (state : string) (ret : option string) : Prop :=
  match ret with
  | None => state = CheckpointStateCompleted
  | Some msg =>
      state = CheckpointStatePullBaseImageFailed /\ String.prefix "pull base image: " msg = true \/
      state = CheckpointStateContainerWaitReadyFailed /\ String.prefix "wait ctr ready: " msg = true \/
      state = CheckpointStateContainerCheckpointFailed /\
        String.prefix "checkpoint container: " msg = true \/
      state = CheckpointStatePushCheckpointFailed /\
        (String.prefix "create image: " msg = true \/ String.prefix "push image: " msg = true) \/
      state = CheckpointStateCompleted /\
        (String.prefix "container info: " msg = true \/ String.prefix "block: " msg = true \/
         String.prefix "find netns: " msg = true \/ String.prefix "kill sockets: " msg = true)
  end.

(** The calls that lead from one node to another. *)
Ltac events_of m :=
  lazymatch m with
  | log_env ?e ?m' => let r := events_of m' in constr:(e :: r)
  | _ => constr:(@nil env_event)
  end.

Section job.
Context {S : Type} {I : StatusStore S} {IL : StatusStoreLaws S} {R : RandSource} {RL : RandLaws R}.
Context {W : WorkloadService} {En : Env} (is_cp : string -> bool) (cfg : Config).

(** Only calls were made. *)
Definition only_env (n n' : node S) (evs : list env_event) : Prop :=
  n' = mk_node (n_store n) (n_attempts n) (n_alloc n) (n_calls n) (evs ++ n_env n).

Lemma prefix_app a b : String.prefix a (a +:+ b) = true.
Proof using Type.
  induction a as [|c a IH]; [by destruct b|].
  change (String c a +:+ b) with (String c (a +:+ b)). cbn [String.prefix].
  destruct (Ascii.ascii_dec c c); [exact IH|done].
Qed.

(** Runs a program along the answers of the environment. *)
Ltac answers :=
  repeat match goal with
  | |- context [match ?x with inl _ => _ | inr _ => _ end] => destruct x eqn:?; cbn
  | |- context [match ?x with Some _ => _ | None => _ end] => destruct x eqn:?; cbn
  end.

Ltac finish_answers :=
  lazymatch goal with
  | |- exists st ret n' evs, Some (_, ?m) = _ /\ _ =>
      let evs := events_of m in
      eexists _, _, _, evs; split; [reflexivity|]; split; [reflexivity|]
  end.

Ltac reported_tac :=
  cbn [reported];
  repeat first [ reflexivity | apply prefix_app
               | (left; split; [reflexivity|]; solve [repeat first [apply prefix_app|left; apply prefix_app|right]])
               | right ];
  solve [split; [reflexivity|]; repeat first [apply prefix_app|left; apply prefix_app|right]].

Lemma capture_run id baseRef ctrID n :
  exists st ret n' evs, run (capture cfg id baseRef ctrID) n = Some ((st, ret), n') /\
    only_env n n' evs /\ reported st ret /\ quiesced (n_env n) evs /\
    (ret = None -> all_ok (n_env n) evs /\ Ev (PushImage (ref_CheckpointTag baseRef)) ∈ evs).
Proof using Type.
  unfold capture, or_else, check, BlockNewConnections, DestroySocks, check, env. cbn.
  answers; finish_answers; (split; [reported_tac|]; split; [|done || intros _]);
    cbn [quiesced all_ok err_of app].
  all: try (split; [done|]).
  all: repeat split; try done; try (rewrite ?Heqs; done); first [by left|by eexists _, _, _, []].
Qed.

Lemma all_ok_app h a b : all_ok h (a ++ b) <-> all_ok (b ++ h) a /\ all_ok h b.
Proof using Type.
  induction a as [|ev a IH]; cbn; [tauto|]. rewrite IH, app_assoc. tauto.
Qed.

Lemma quiesced_app h a b :
  all_ok h b -> quiesced h b -> quiesced (b ++ h) a -> quiesced h (a ++ b).
Proof using Type.
  intros Hb Hq. induction a as [|[X c] a IH]; cbn; [done|]. intros [Hc Ha].
  split; [|by apply IH]. destruct c; try done. destruct Hc as [(info & cg & ns & rest & -> & Hi & Hcg & Hns) Hok].
  split; [exists info, cg, ns, (rest ++ b); by rewrite <-app_assoc|]. by apply all_ok_app.
Qed.

(** A port was taken, or none ([p = 0]). *)
Definition port_taken (p : Z) (n n' : node S) : Prop :=
  p = 0 /\ allocated (n_alloc n') = allocated (n_alloc n) \/
  portMin (n_alloc n) <= p <= portMax (n_alloc n) /\ ~ taken (n_alloc n) p /\
    allocated (n_alloc n') = <[p := true]> (allocated (n_alloc n)).

(** The job has begun. *)
Definition begun (p : Z) : StatusV := checkpoint_status (mk_cs CheckpointStateRunning "" None p).

Lemma wait_run id url n :
  node_ok is_cp n -> is_cp id = true -> 0 < portMin (n_alloc n) ->
  table n !! id = Some (begun 0) ->
  exists r n' evs p, run (waitContainerReady cfg id url) n = Some (r, n') /\
    node_ok is_cp n' /\ table n' = <[id := begun p]> (table n) /\ port_taken p n n' /\
    n_env n' = evs ++ n_env n /\ quiesced (n_env n) evs /\
    (forall ctr, r = inr ctr -> all_ok (n_env n) evs).
Proof using IL RL.
  intros Hok Hi Hmin Hb. unfold waitContainerReady, or_else, runAndAttachContainer.
  destruct (node_ok_allocate is_cp n Hok) as (r & a & Ea & Hok1 & Hr).
  rewrite run_bind, run_call, Ea. destruct r as [p|].
  2: { cbn. eexists _, _, [], 0. split; [reflexivity|]. split; [exact Hok1|].
       split; [symmetry; by apply insert_id|]. split; [left; done|]. done. }
  destruct Hr as (Hp & Hfree & Ea').
  destruct (update_ck_total is_cp _ id (mk_cs CheckpointStateRunning "" None p) Hok1 Hi)
    as (s' & Es & Hok2 & ET).
  rewrite run_call. unfold checkpoint_status. rewrite Es. cbv iota beta.
  assert (updated_ck (table (with_alloc a n)) id (mk_cs CheckpointStateRunning "" None p)
    = mk_cs CheckpointStateRunning "" None p) as Eu.
  { unfold updated_ck, checkpointed. change (table (with_alloc a n)) with (table n). rewrite Hb. cbn.
    unfold merge_checkpoint. cbn. by destruct (p =? 0) eqn:E0; [apply Z.eqb_eq in E0; lia|]. }
  rewrite Eu in ET. clear Es Eu. set (n1 := with_store s' (with_alloc a n)) in *.
  assert (port_taken p n n1) as Ht by (right; auto).
  unfold or_else, check, env. cbn. answers; (eexists _, _; 
    match goal with |- context [Some (_, ?m)] => let evs := events_of m in exists evs end;
    exists p; split; [reflexivity|]; split; [by destruct Hok2; split|]; split; [exact ET|];
    split; [exact Ht|]; split; [reflexivity|]; split; [by repeat split|]; try done;
    intros ctr _; cbn [all_ok err_of app]; repeat split;
    match goal with He : answer ?h ?c = _ |- context [answer ?h ?c] => by rewrite He end).
Qed.

Lemma deferred_run id st ret p n :
  node_ok is_cp n -> is_cp id = true -> st <> "" -> table n !! id = Some (begun p) ->
  exists n' t, run (checkpoint_deferred id st ret) n = Some (tt, n') /\ node_ok is_cp n' /\
    table n' = <[id := checkpoint_status (mk_cs st (default "" ret) (Some t) p)]> (table n) /\
    n_alloc n' = n_alloc n /\ n_env n' = Ev Now :: n_env n.
Proof using IL.
  intros Hok Hi Hst Hb. unfold checkpoint_deferred, env. rewrite run_call. cbn [do_op]. cbv iota beta.
  set (t := answer (n_env n) Now). set (n1 := log_env (Ev Now) n).
  assert (node_ok is_cp n1) as Hok1 by (by destruct Hok; split).
  destruct (update_ck_total is_cp n1 id (mk_cs st (default "" ret) (Some t) 0) Hok1 Hi)
    as (s' & Es & Hok2 & ET).
  cbn [run call]. unfold checkpoint_status. rewrite Es. exists (with_store s' n1), t.
  split; [reflexivity|]. split; [exact Hok2|]. split; [|done].
  unfold table at 1. cbn [n_store with_store]. rewrite ET. unfold updated_ck, checkpointed.
  change (table n1) with (table n). rewrite Hb. cbn. unfold merge_checkpoint, nonempty. cbn.
  rewrite (proj2 (String.eqb_neq _ _) Hst). cbn.
  destruct ret as [m|]; cbn; [|done]. by destruct m.
Qed.

(** What a finished job leaves behind. *)
Definition job_done (id : string) (baseRef : Reference) (n n' : node S) (ret : option string)
    (c : CheckpointStatus) (evs : list env_event) : Prop :=
  table n' = <[id := checkpoint_status c]> (table n) /\
  is_Some (cs_CompletedAt c) /\ cs_Message c = default "" ret /\ reported (cs_State c) ret /\
  port_taken (cs_Port c) n n' /\
  n_env n' = evs ++ n_env n /\ quiesced (n_env n) evs /\
  (ret = None -> all_ok (n_env n) evs /\ Ev (PushImage (ref_CheckpointTag baseRef)) ∈ evs).

Lemma reported_nonempty st ret : reported st ret -> st <> "".
Proof using Type.
  destruct ret as [m|]; cbn; [|by intros ->].
  by intros [[-> _]|[[-> _]|[[-> _]|[[-> _]|[-> _]]]]].
Qed.

(** The part between the first and the last update. *)
Lemma body_run id baseRef n :
  node_ok is_cp n -> is_cp id = true -> 0 < portMin (n_alloc n) ->
  table n !! id = Some (begun 0) ->
  exists st ret n' evs p, run (checkpoint_body cfg id baseRef) n = Some ((st, ret), n') /\
    node_ok is_cp n' /\ table n' = <[id := begun p]> (table n) /\ reported st ret /\
    port_taken p n n' /\ n_env n' = evs ++ n_env n /\ quiesced (n_env n) evs /\
    (ret = None -> all_ok (n_env n) evs /\ Ev (PushImage (ref_CheckpointTag baseRef)) ∈ evs).
Proof using IL RL.
  intros Hok Hi Hmin Hb. unfold checkpoint_body, or_else, env. rewrite run_call. cbn [do_op].
  cbv iota beta. set (e0 := Ev (EnsureImage _ _ _)). set (n1 := log_env e0 n).
  assert (node_ok is_cp n1) as Hok1 by (by destruct Hok; split).
  destruct (answer (n_env n) (EnsureImage _ _ _)) as [err|pulled] eqn:E0.
  { cbn. eexists _, _, _, [e0], 0. split; [reflexivity|]. split; [exact Hok1|].
    split; [symmetry; by apply insert_id|]. split; [reported_tac|]. split; [by left|]. done. }
  destruct (wait_run id (ref_String baseRef) n1 Hok1 Hi Hmin Hb)
    as (r & n2 & evs & p & Er & Hok2 & ET & Ht & Ee & Hq & Hall).
  rewrite run_bind, Er.
  assert (quiesced (n_env n) (evs ++ [e0])) as Hq'.
  { apply quiesced_app; [|done|exact Hq]. split; [|done]. cbn. by rewrite E0. }
  assert (n_env n2 = (evs ++ [e0]) ++ n_env n) as Ee' by (rewrite Ee, <-app_assoc; done).
  destruct r as [err|ctr].
  { eexists _, _, n2, (evs ++ [e0]), p. split; [reflexivity|]. split; [exact Hok2|].
    split; [exact ET|]. split; [reported_tac|]. split; [exact Ht|]. done. }
  assert (all_ok (n_env n) (evs ++ [e0])) as Hall'.
  { apply all_ok_app. split; [by apply (Hall ctr)|]. split; [|done]. cbn. by rewrite E0. }
  destruct (capture_run id baseRef ctr n2) as (st & ret & n3 & evs2 & Ec & -> & Hrep & Hq2 & Hok3).
  rewrite Ec. rewrite Ee' in *. eexists st, ret, _, (evs2 ++ evs ++ [e0]), p.
  split; [reflexivity|]. split; [by destruct Hok2; split|]. split; [exact ET|]. split; [exact Hrep|].
  split; [exact Ht|]. split; [cbn; by rewrite app_assoc|].
  split; [by apply quiesced_app|]. intros ->. destruct (Hok3 eq_refl) as [Ha Hin].
  split; [by apply all_ok_app|]. apply elem_of_app. by left.
Qed.

Lemma checkpoint_run id baseRef n :
  node_ok is_cp n -> is_cp id = true -> 0 < portMin (n_alloc n) -> table n !! id = None ->
  exists ret n' c evs, run (checkpoint cfg id baseRef) n = Some (ret, n') /\ node_ok is_cp n' /\
    job_done id baseRef n n' ret c evs.
Proof using IL RL.
  intros Hok Hi Hmin Hnone. unfold checkpoint.
  destruct (update_ck_total is_cp n id (mk_cs CheckpointStateRunning "" None 0) Hok Hi)
    as (s' & Es & Hok1 & ET).
  rewrite run_call. unfold checkpoint_status at 1. rewrite Es. cbv iota beta.
  assert (updated_ck (table n) id (mk_cs CheckpointStateRunning "" None 0)
    = mk_cs CheckpointStateRunning "" None 0) as Eu
    by (unfold updated_ck, checkpointed; by rewrite Hnone).
  rewrite Eu in ET. set (n1 := with_store s' n) in *.
  change (table n1 = <[id := begun 0]> (table n)) in ET.
  destruct (body_run id baseRef n1 Hok1 Hi Hmin) as
    (st & ret & n2 & evs & p & Er & Hok2 & ET2 & Hrep & Ht & Ee & Hq & Hall);
    [by rewrite ET, lookup_insert_eq|].
  rewrite run_bind, Er. cbn [fst snd].
  destruct (deferred_run id st ret p n2 Hok2 Hi (reported_nonempty _ _ Hrep)) as
    (n3 & t & Ed & Hok3 & ET3 & Ea & Ee3); [by rewrite ET2, lookup_insert_eq|].
  rewrite run_bind, Ed. eexists ret, n3, _, (Ev Now :: evs). split; [reflexivity|].
  split; [exact Hok3|]. unfold job_done.
  rewrite ET3, ET2, ET, !insert_insert_eq. split; [reflexivity|]. cbn [cs_CompletedAt cs_Message cs_State cs_Port].
  split; [by eexists|]. split; [done|]. split; [done|].
  split; [unfold port_taken in *; by rewrite Ea|]. split; [rewrite Ee3, Ee; done|].
  split; [by split|]. intros ->. destruct (Hall eq_refl) as [Ho Hin].
  split; [by split|]. by right.
Qed.
End job.

(** ** The garbage collector on its own *)

(** The status is old enough to be dropped. *)
Definition expired (cfg : Config) (now : Z) (v : StatusV) : bool :=
  match sv_checkpoint v with
  | Some c => match cs_CompletedAt c with
              | Some t => t + StatusRetentionPeriod cfg <? now
              | None => false
              end
  | None => false
  end.

Definition job_running (v : StatusV) : Prop :=
  exists c, sv_checkpoint v = Some c /\ cs_State c = CheckpointStateRunning.

Section gc.
Context {S : Type} {I : StatusStore S} {IL : StatusStoreLaws S} {R : RandSource}.
Context {W : WorkloadService} {En : Env} (is_cp : string -> bool) (cfg : Config) (now : Z).
Context (Hnow : forall h, answer h Now = now).

(** Port [p] belongs to a status among [ids] that is dropped. *)
Definition released (T : gmap string StatusV) (ids : list string) (p : Z) : Prop :=
  exists id v c, id ∈ ids /\ T !! id = Some v /\ expired cfg now v = true /\
    sv_checkpoint v = Some c /\ cs_Port c = p.

Definition dropped (T : gmap string StatusV) (ids : list string) (id : string) : bool :=
  bool_decide (id ∈ ids) && match T !! id with Some v => expired cfg now v | None => false end.

(** What the first loop does to the entries [ids]. *)
Record swept (ids : list string) (keep keep' : gset string) (n n' : node S) : Prop := {
  sw_ok : node_ok is_cp n';
  sw_table : forall id, table n' !! id = if dropped (table n) ids id then None else table n !! id;
  sw_taken : forall p, taken (n_alloc n') p <-> taken (n_alloc n) p /\ ~ released (table n) ids p;
  sw_keep : forall id, id ∈ keep' <-> id ∈ keep \/
    id ∈ ids /\ exists v, table n !! id = Some v /\ job_running v;
  sw_env : exists evs, n_env n' = evs ++ n_env n /\ Forall (eq (Ev Now)) evs;
}.

Lemma swept_nil keep n : node_ok is_cp n -> swept [] keep keep n n.
Proof using Type.
  intros Hok. split; [done|done| | |by exists []].
  - intros p. split; [|by intros [? _]]. intros Hp. split; [done|].
    intros (id & v & c & Hin & _). by apply not_elem_of_nil in Hin.
  - intros id. split; [by left|]. intros [?|[Hin _]]; [done|]. by apply not_elem_of_nil in Hin.
Qed.

(** An entry that is kept, followed by the rest of the loop. *)
Lemma swept_skip id v ids keep keep1 keep' n n1 n' :
  id ∉ ids -> table n !! id = Some v -> expired cfg now v = false ->
  n_store n1 = n_store n -> n_alloc n1 = n_alloc n ->
  (exists evs, n_env n1 = evs ++ n_env n /\ Forall (eq (Ev Now)) evs) ->
  (forall i, i ∈ keep1 <-> i ∈ keep \/ i = id /\ job_running v) ->
  swept ids keep1 keep' n1 n' -> swept (id :: ids) keep keep' n n'.
Proof using Type.
  intros Hid Hv Hx Es Ea (evs & Ee & Hevs) Hk [H1 H2 H3 H4 (evs' & Ee' & Hevs')].
  assert (table n1 = table n) as ET by (unfold table; by rewrite Es). rewrite ET, ?Ea in *.
  split; [done| | | |].
  - intros i. rewrite H2. unfold dropped. destruct (decide (i = id)) as [-> |Hne].
    + rewrite (bool_decide_eq_false_2 (id ∈ ids)) by done. cbn. by rewrite Hv, Hx, andb_false_r.
    + rewrite (bool_decide_ext (i ∈ id :: ids) (i ∈ ids)); [done|].
      rewrite elem_of_cons. split; [by intros [?|?]|by right].
  - intros p. rewrite H3. split; intros [Ht Hn]; (split; [done|]); intros (i & w & c & Hin & Hw & Hr).
    + apply elem_of_cons in Hin as [-> |Hin]; [|apply Hn; by exists i, w, c].
      rewrite Hv in Hw. injection Hw as <-. destruct Hr as [Hr _]. congruence.
    + apply Hn. exists i, w, c. split; [by right|done].
  - intros i. rewrite H4, Hk, elem_of_cons. split.
    + intros [[Hi|[-> Hr]]|[Hi Hr]]; [by left|right|right]; split; eauto.
    + intros [Hi|[[-> |Hi] (w & Hw & Hr)]]; [by left; left| |by right; eauto].
      left. right. split; [done|]. congruence.
  - exists (evs' ++ evs). rewrite Ee', Ee, app_assoc. split; [done|]. by apply Forall_app.
Qed.

Lemma run_load {A} (f : CheckpointStatus -> gor A) id st c n :
  store_view (n_store n) !! id = Some st -> checkpointed (table n) id = Some c ->
  run (call (PLoad st) ≫= f) n = run (f c) n.
Proof using IL.
  intros Hv Hc. rewrite run_call. cbn [do_op]. unfold checkpointed, table in Hc.
  rewrite store_view_law, lookup_fmap, Hv in Hc. cbn in Hc. by rewrite Hc.
Qed.
(** An entry that is dropped, followed by the rest of the loop. *)
Lemma swept_drop id v c ids keep keep1 keep' n n1 n' :
  id ∉ ids -> table n !! id = Some v -> expired cfg now v = true -> sv_checkpoint v = Some c ->
  table n1 = delete id (table n) -> n_alloc n1 = Free (cs_Port c) (n_alloc n) ->
  (exists evs, n_env n1 = evs ++ n_env n /\ Forall (eq (Ev Now)) evs) ->
  (forall i, i ∈ keep1 <-> i ∈ keep \/ i = id /\ job_running v) ->
  swept ids keep1 keep' n1 n' -> swept (id :: ids) keep keep' n n'.
Proof using Type.
  intros Hid Hv Hx Hc ET Ea (evs & Ee & Hevs) Hk [H1 H2 H3 H4 (evs' & Ee' & Hevs')].
  assert (forall i, i ∈ ids -> table n1 !! i = table n !! i) as Hother
    by (intros i Hi; rewrite ET; apply lookup_delete_ne; by intros ->).
  split; [done| | | |].
  - intros i. rewrite H2. unfold dropped. destruct (decide (i = id)) as [-> |Hne].
    + rewrite (bool_decide_eq_false_2 (id ∈ ids)) by done. cbn.
      rewrite (bool_decide_eq_true_2 (id ∈ id :: ids)) by left. by rewrite Hv, Hx, ET, lookup_delete_eq.
    + rewrite (bool_decide_ext (i ∈ id :: ids) (i ∈ ids))
        by (rewrite elem_of_cons; split; [by intros [?|?]|by right]).
      by rewrite ET, lookup_delete_ne.
  - intros p. rewrite H3, Ea.
    assert (taken (Free (cs_Port c) (n_alloc n)) p <-> p <> cs_Port c /\ taken (n_alloc n) p) as ->.
    { unfold taken, Free. cbn. rewrite lookup_delete_is_Some. split; intros [? ?]; by split. }
    split.
    + intros [[Hne Ht] Hn]. split; [done|]. intros (i & w & c' & Hin & Hw & Hr & Hc' & <-).
      apply elem_of_cons in Hin as [-> |Hin]; [congruence|].
      apply Hn. exists i, w, c'. by rewrite Hother.
    + intros [Ht Hn]. split; [split; [|done]|].
      * intros ->. apply Hn. exists id, v, c. split; [by left|done].
      * intros (i & w & c' & Hin & Hw & Hr). apply Hn. exists i, w, c'.
        rewrite Hother in Hw by done. split; [by right|done].
  - intros i. rewrite H4, Hk, elem_of_cons. split.
    + intros [[Hi|[-> Hr]]|[Hi (w & Hw & Hr)]]; [by left|right; eauto|right].
      rewrite Hother in Hw by done. eauto.
    + intros [Hi|[[-> |Hi] (w & Hw & Hr)]]; [by left; left| |].
      * left. right. split; [done|]. congruence.
      * right. split; [done|]. rewrite Hother by done. eauto.
  - exists (evs' ++ evs). rewrite Ee', Ee, app_assoc. split; [done|]. by apply Forall_app.
Qed.

Lemma keep_cases id c v (keep : gset string) :
  sv_checkpoint v = Some c ->
  forall i, i ∈ (if String.eqb (cs_State c) CheckpointStateRunning then {[id]} ∪ keep else keep) <->
    i ∈ keep \/ i = id /\ job_running v.
Proof using Type.
  intros Hc i. destruct (String.eqb_spec (cs_State c) CheckpointStateRunning) as [Es|Es].
  - rewrite elem_of_union, elem_of_singleton. split.
    + intros [-> |?]; [right|by left]. split; [done|by exists c].
    + intros [?|[-> _]]; [by right|by left].
  - split; [by left|]. intros [?|[_ (c' & Hc' & Hs)]]; [done|]. congruence.
Qed.

Lemma sweep_run view : forall keep n,
  node_ok is_cp n -> NoDup view.*1 ->
  (forall id st, (id, st) ∈ view -> store_view (n_store n) !! id = Some st) ->
  exists keep' n', run (gc_statuses cfg view keep) n = Some (keep', n') /\
    swept view.*1 keep keep' n n'.
Proof using IL Hnow.
  induction view as [|[id st] view IH]; intros keep n Hok Hnd Hview.
  { exists keep, n. split; [done|by apply swept_nil]. }
  cbn [fmap list_fmap fst] in Hnd |- *. apply list.NoDup_cons in Hnd as [Hid Hnd].
  pose proof (Hview id st ltac:(left)) as Hst.
  assert (forall i s, (i, s) ∈ view -> store_view (n_store n) !! i = Some s) as Hview'
    by (intros i s Hin; apply Hview; by right).
  pose proof (store_part_law (n_store n) id st (no_store _ _ Hok) Hst) as Hpart.
  assert (table n !! id = Some (store_load (n_store n) st)) as Hv
    by (unfold table; by rewrite store_view_law, lookup_fmap, Hst).
  set (v := store_load (n_store n) st) in *. cbn [gc_statuses].
  destruct (st_checkpoint st) as [l|].
  2: { destruct (sv_checkpoint v) as [c|] eqn:Hc; [by destruct (proj1 Hpart ltac:(eauto))|].
       destruct (IH keep n Hok Hnd Hview') as (keep' & n' & E & Hsw).
       exists keep', n'. split; [exact E|].
       apply (swept_skip id v view.*1 keep keep keep' n n n'); [done|done|..|done].
       - unfold expired. by rewrite Hc.
       - done.
       - done.
       - by exists [].
       - intros i. split; [by left|]. intros [?|[_ (c & Hc' & _)]]; [done|]. congruence. }
  destruct (proj2 Hpart ltac:(eauto)) as [c Hc].
  assert (checkpointed (table n) id = Some c) as Hck by (unfold checkpointed; by rewrite Hv).
  rewrite (run_load _ id st c n Hst Hck). cbv zeta.
  rewrite (run_load _ id st c n Hst Hck).
  pose proof (keep_cases id c v keep Hc) as Hk.
  set (keep1 := if String.eqb _ _ then _ else _) in *.
  destruct (cs_CompletedAt c) as [t|] eqn:Et.
  2: { destruct (IH keep1 n Hok Hnd Hview') as (keep' & n' & E & Hsw).
       exists keep', n'. split; [exact E|].
       apply (swept_skip id v view.*1 keep keep1 keep' n n n'); [done|done|..|done]; [|done|done| |done].
       - unfold expired. by rewrite Hc, Et.
       - by exists []. }
  unfold env. rewrite run_call. cbn [do_op]. rewrite Hnow. cbv iota beta.
  set (n1 := log_env (Ev Now) n).
  assert (node_ok is_cp n1) as Hok1 by (by destruct Hok; split).
  rewrite (run_load _ id st c n1 Hst Hck). rewrite Et.
  assert (expired cfg now v = (t + StatusRetentionPeriod cfg <? now)) as Hx
    by (unfold expired; by rewrite Hc, Et).
  destruct (t + StatusRetentionPeriod cfg <? now).
  2: { destruct (IH keep1 n1 Hok1 Hnd Hview') as (keep' & n' & E & Hsw).
       exists keep', n'. split; [exact E|].
       apply (swept_skip id v view.*1 keep keep1 keep' n n1 n'); [done|done|done|done|done| |done|done].
       exists [Ev Now]. split; [done|by repeat constructor]. }
  rewrite run_call. cbn [do_op]. cbv iota beta. set (n2 := with_store _ n1).
  rewrite run_call. cbn [do_op n2 n_store with_store]. rewrite store_load_del. cbn [n1 log_env n_store]. fold v. rewrite Hc.
  cbn [fmap option_fmap option_map]. rewrite run_call. cbn [do_op]. cbv iota beta.
  destruct (store_del_law id (n_store n) (no_store _ _ Hok)) as [ETd Hokd].
  set (n3 := with_alloc _ _).
  assert (node_ok is_cp n2) as Hok2.
  { destruct Hok1 as [A1 A2 A3]. split; [done|done|]. intros i w. unfold table. cbn. rewrite ETd.
    intros [_ Hl]%lookup_delete_Some. by apply A3. }
  assert (node_ok is_cp n3) as Hok3 by (by apply node_ok_free).
  destruct (IH keep1 n3 Hok3 Hnd) as (keep' & n' & E & Hsw).
  { intros i s Hin. cbn. rewrite store_view_del, lookup_delete_ne; [by apply Hview'|].
    intros ->. apply Hid. apply list_elem_of_fmap. by exists (i, s). }
  exists keep', n'. split; [exact E|].
  apply (swept_drop id v c view.*1 keep keep1 keep' n n3 n'); [done|done|done|done| |done| |done|done].
  - exact ETd.
  - exists [Ev Now]. split; [done|by repeat constructor].
Qed.
Ltac finish_calls :=
  match goal with
  | |- exists err n' evs, Some (_, ?m) = _ /\ _ =>
      let evs := events_of m in
      eexists _, _, evs; split; [reflexivity|]; split; [reflexivity|]
  end.

(** Every pod that is stopped satisfies [P]. *)
Definition stops_only (P : string -> Prop) (evs : list env_event) : Prop :=
  Forall (fun ev => match ev with Ev (StopPodSandbox pod) => P pod | _ => True end) evs.

Lemma stops_only_impl (P Q : string -> Prop) evs :
  (forall p, P p -> Q p) -> stops_only P evs -> stops_only Q evs.
Proof using Type.
  intros HPQ HP. unfold stops_only in *. rewrite !Forall_forall in *. intros [X c] Hin.
  specialize (HP _ Hin). destruct c; auto.
Qed.

Lemma only_env_refl (n : node S) : only_env n n [].
Proof using Type. by destruct n. Qed.

Lemma only_env_cons (n n' : node S) e evs : only_env (log_env e n) n' evs -> only_env n n' (evs ++ [e]).
Proof using Type. unfold only_env. intros ->. cbn. by rewrite <-app_assoc. Qed.

Lemma gc_files_run keep files : forall n : node S,
  exists err n' evs, run (gc_files cfg keep files) n = Some (err, n') /\ only_env n n' evs /\
    stops_only (fun _ => False) evs.
Proof using Type.
  induction files as [|[name isDir] files IH]; intros n; cbn [gc_files].
  { eexists _, n, []. split; [reflexivity|]. split; [apply only_env_refl|constructor]. }
  destruct isDir; [apply IH|]. destruct (bool_decide (name ∈ keep)); [apply IH|].
  unfold env. rewrite run_call. cbn [do_op]. set (e := Ev (RemoveFile _)).
  assert (exists err n' evs, run (gc_files cfg keep files) (log_env e n) = Some (err, n') /\
    only_env n n' evs /\ stops_only (fun _ => False) evs) as Hgo.
  { destruct (IH (log_env e n)) as (err & n' & evs & E & Ho & Hs). exists err, n', (evs ++ [e]).
    split; [exact E|]. split; [by apply only_env_cons|]. apply Forall_app. by repeat constructor. }
  destruct (answer (n_env n) _) as [| |err]; [exact Hgo|exact Hgo|].
  eexists _, _, [e]. split; [reflexivity|]. split; [done|]. by repeat constructor.
Qed.

Lemma gc_pods_run keep pods : forall n : node S,
  exists err n' evs, run (gc_pods keep pods) n = Some (err, n') /\ only_env n n' evs /\
    stops_only (fun p => exists uid, {| sb_Id := p; sb_Uid := uid |} ∈ pods /\ uid ∉ keep) evs.
Proof using Type.
  induction pods as [|[p uid] pods IH]; intros n; cbn [gc_pods sb_Uid sb_Id].
  { eexists _, n, []. split; [reflexivity|]. split; [apply only_env_refl|constructor]. }
  set (P := fun q : string => exists u, {| sb_Id := q; sb_Uid := u |} ∈ _ /\ u ∉ keep).
  assert (forall m : node S, exists err n' evs, run (gc_pods keep pods) m = Some (err, n') /\
    only_env m n' evs /\ stops_only P evs) as Hgo.
  { intros m. destruct (IH m) as (err & n' & evs & E & Ho & Hs). exists err, n', evs.
    split; [exact E|]. split; [exact Ho|]. eapply stops_only_impl; [|exact Hs].
    intros q (u & Hu & Hk). exists u. split; [by right|done]. }
  destruct (bool_decide_reflect (uid ∈ keep)) as [Hk|Hk]; [apply Hgo|].
  assert (P p) as Hp by (exists uid; split; [by left|done]).
  unfold check, env. cbn.
  repeat match goal with
  | |- context [match answer ?h ?c with Some _ => _ | None => _ end] => destruct (answer h c); cbn
  end.
  4: { match goal with |- context [run _ ?m] => destruct (Hgo m) as (err & n' & evs & -> & Ho & Hs) end.
       eexists _, _, _. split; [reflexivity|].
       split; [by do 3 apply only_env_cons|]. rewrite <-!app_assoc. apply Forall_app.
       split; [exact Hs|]. by repeat constructor. }
  all: finish_calls; by repeat constructor.
Qed.

Context (order : gmap string Status -> list (string * Status)).
Context (Horder : forall m, order m ≡ₚ map_to_list m).

(** The listed pod belongs to no running job. *)
Definition idle_pod (T : gmap string StatusV) (p : string) : Prop :=
  exists h pods uid, answer h (ListPodSandbox LabelWorkloadType "checkpoint") = inr pods /\
    {| sb_Id := p; sb_Uid := uid |} ∈ pods /\ ~ exists v, T !! uid = Some v /\ job_running v.

(** The second part: files and pods. *)
Lemma gc_rest_run keep (n : node S) :
  exists err n' evs,
    run (or_else (env (ReadDir (CheckpointFileDir cfg))) (fun err => Some ("read dir: " +:+ err)) (fun files =>
      check (gc_files cfg keep files) Some
      (or_else (env (ListPodSandbox LabelWorkloadType "checkpoint"))
        (fun err => Some ("list pods: " +:+ err)) (gc_pods keep)))) n = Some (err, n') /\
    only_env n n' evs /\
    stops_only (fun p => exists h pods uid,
      answer h (ListPodSandbox LabelWorkloadType "checkpoint") = inr pods /\
      {| sb_Id := p; sb_Uid := uid |} ∈ pods /\ uid ∉ keep) evs.
Proof using Type.
  set (P := fun p => exists h pods uid, _).
  unfold or_else, check, env. rewrite run_call. cbn [do_op]. set (e := Ev (ReadDir _)).
  destruct (answer (n_env n) (ReadDir _)) as [err|files].
  { eexists _, _, [e]. split; [reflexivity|]. split; [done|by repeat constructor]. }
  rewrite run_bind.
  destruct (gc_files_run keep files (log_env e n)) as (err & n1 & evs & -> & Ho & Hs).
  apply only_env_cons in Ho.
  assert (stops_only P (evs ++ [e])) as Hs1.
  { apply Forall_app. split; [|by repeat constructor]. eapply stops_only_impl; [|exact Hs]. done. }
  destruct err as [err|]; [by eexists _, _, _; split; [reflexivity|]; split; [exact Ho|exact Hs1]|].
  rewrite run_call. cbn [do_op]. set (e2 := Ev (ListPodSandbox _ _)).
  assert (only_env n (log_env e2 n1) (e2 :: evs ++ [e])) as Ho2
    by (unfold only_env in *; by rewrite Ho).
  destruct (answer (n_env n1) (ListPodSandbox _ _)) as [err|pods] eqn:Ep.
  { eexists _, _, _. split; [reflexivity|]. split; [exact Ho2|]. by constructor. }
  destruct (gc_pods_run keep pods (log_env e2 n1)) as (err & n2 & evs2 & -> & Ho3 & Hs3).
  eexists _, _, (evs2 ++ e2 :: evs ++ [e]). split; [reflexivity|].
  split; [unfold only_env in *; rewrite Ho3, Ho2; cbn; by rewrite <-!app_assoc; cbn; rewrite <-?app_assoc|].
  apply Forall_app. split; [|by constructor]. eapply stops_only_impl; [|exact Hs3].
  intros p (uid & Hin & Hk). by exists (n_env n1), pods, uid.
Qed.

(** What a run of the collector does to a node. *)
Definition collected (n n' : node S) : Prop :=
  (forall id, table n' !! id =
     match table n !! id with
     | Some v => if expired cfg now v then None else Some v
     | None => None
     end) /\
  (forall p, taken (n_alloc n') p <-> taken (n_alloc n) p /\
     ~ exists id v c, table n !! id = Some v /\ expired cfg now v = true /\
         sv_checkpoint v = Some c /\ cs_Port c = p) /\
  (exists evs, n_env n' = evs ++ n_env n /\ stops_only (idle_pod (table n)) evs).

Lemma collect_run n :
  node_ok is_cp n ->
  exists err n', run (CollectGarbage cfg order) n = Some (err, n') /\ node_ok is_cp n' /\
    collected n n'.
Proof using IL Hnow Horder.
  intros Hok. unfold CollectGarbage. rewrite run_call. cbn [do_op].
  set (view := order (store_view (n_store n))).
  assert (forall id st, (id, st) ∈ view <-> store_view (n_store n) !! id = Some st) as Hview
    by (intros id st; unfold view; rewrite (Horder _); apply elem_of_map_to_list).
  assert (NoDup view.*1) as Hnd
    by (unfold view; rewrite (Horder _); apply NoDup_fst_map_to_list).
  destruct (sweep_run view ∅ n Hok Hnd) as (keep & n1 & E1 & [H1 H2 H3 H4 (evs1 & Ee1 & Hn1)]);
    [by intros id st; rewrite Hview|].
  assert (forall id v, table n !! id = Some v -> id ∈ view.*1) as Hin.
  { intros id v Hv. unfold table in Hv. rewrite store_view_law, lookup_fmap in Hv.
    apply fmap_Some in Hv as (st & Hst & _). apply list_elem_of_fmap. exists (id, st).
    split; [done|by apply Hview]. }
  rewrite run_bind, E1.
  destruct (gc_rest_run keep n1) as (err & n' & evs & -> & -> & Hs). exists err.
  eexists. split; [reflexivity|]. split; [by destruct H1; split|]. split; [|split].
  - intros id. change (table n1 !! id = match table n !! id with
      | Some v => if expired cfg now v then None else Some v | None => None end).
    rewrite H2. unfold dropped. destruct (table n !! id) as [v|] eqn:Ev; [|by destruct (_ && _)].
    by rewrite (bool_decide_eq_true_2 _ (Hin id v Ev)).
  - intros p. cbn [n_alloc]. rewrite H3. split; intros [Ht Hn]; (split; [done|]).
    + intros (id & v & c & Hv & Hr). apply Hn. exists id, v, c. split; [by eapply Hin|done].
    + intros (id & v & c & _ & Hr). apply Hn. by exists id, v, c.
  - exists (evs ++ evs1). cbn [n_env]. rewrite Ee1, app_assoc. split; [done|].
    apply Forall_app. split.
    + eapply stops_only_impl; [|exact Hs]. intros p (h & pods & uid & Ep & Hp & Hk).
      exists h, pods, uid. split; [done|]. split; [done|]. intros (v & Hv & Hr).
      apply Hk, H4. right. split; [by eapply Hin|by eauto].
    + eapply Forall_impl; [|exact Hn1]. by intros ? <-.
Qed.
End gc.

(** ** The service as a whole *)

(** C14: a job always ends, whatever the environment answers, and leaves one
    completed status: the message is the error, the state tells at which step it
    occurred, except that errors between the start of the container and its
    checkpoint are recorded as [COMPLETED]; the port in the status is the one
    that was taken.  The container is written to a file only after new
    connections were blocked and the existing ones destroyed, and a job that
    reports no error has pushed the image after every call succeeded. *)
Theorem checkpoint_outcome (S : Type) (I : StatusStore S) (IL : StatusStoreLaws S)
    (R : RandSource) (RL : RandLaws R) (W : WorkloadService) (En : Env) (is_cp : string -> bool)
    (cfg : Config) (id : string) (baseRef : Reference) (n : node S) :
  node_ok is_cp n -> is_cp id = true -> 0 < portMin (n_alloc n) -> table n !! id = None ->
  exists ret n' c evs, run (checkpoint cfg id baseRef) n = Some (ret, n') /\ node_ok is_cp n' /\
    job_done id baseRef n n' ret c evs.
Proof. apply checkpoint_run. Qed.

Section failed.
Context {S : Type} {I : StatusStore S} {IL : StatusStoreLaws S} {R : RandSource} {RL : RandLaws R}.
Context {W : WorkloadService} {En : Env} (is_cp : string -> bool) (cfg : Config).

(** The server comes up, but the runtime cannot tell about its container. *)
Record no_info (err : string) : Prop := {
  ni_image h url user pass : exists b, answer h (EnsureImage url user pass) = inr b;
  ni_pod h pc : exists p, answer h (RunPodSandbox pc) = inr p;
  ni_ctr h p cc : exists c, answer h (RunContainer p cc) = inr c;
  ni_attach h c : exists u, answer h (Attach c) = inr u;
  ni_exec h u : answer h (NewRemoteCMDExecutor u) = None;
  ni_wait h u t : answer h (WaitForRegex u t) = None;
  ni_info h c : answer h (GetContainerInfo c) = inl err;
}.

Definition is_capture (ev : env_event) : bool :=
  match ev with Ev (CheckpointContainer _ _ _) => true | _ => false end.

Lemma no_info_body err id baseRef n p a :
  no_info err -> node_ok is_cp n -> is_cp id = true -> Allocate (n_alloc n) = (Ok p, a) ->
  exists n' evs, run (checkpoint_body cfg id baseRef) n
      = Some ((CheckpointStateCompleted, Some ("container info: " +:+ err)), n') /\
    n_env n' = evs ++ n_env n /\ existsb is_capture evs = false.
Proof using IL RL.
  intros [H1 H2 H3 H4 H5 H6 H7] Hok Hi Ea. unfold checkpoint_body, or_else, env.
  rewrite run_call. cbn [do_op]. destruct (H1 (n_env n) (ref_String baseRef) (RegistryUser cfg)
    (RegistryPass cfg)) as [b ->].
  set (e0 := Ev _). set (n1 := log_env e0 n).
  assert (node_ok is_cp n1) as Hok1 by (by destruct Hok; split).
  unfold waitContainerReady, or_else, runAndAttachContainer. rewrite run_bind, run_bind, run_call. cbn [do_op].
  change (n_alloc n1) with (n_alloc n). rewrite Ea. cbv iota beta.
  assert (node_ok is_cp (with_alloc a n1)) as Hok2.
  { destruct Hok1 as [A1 A2 A3]. split; [done| |done].
    pose proof (Allocate_wf _ A2) as Hwf. change (n_alloc n1) with (n_alloc n) in Hwf.
    by rewrite Ea in Hwf. }
  destruct (update_ck_total is_cp _ id (mk_cs CheckpointStateRunning "" None p) Hok2 Hi)
    as (s' & Es & _).
  rewrite run_call. unfold checkpoint_status. rewrite Es. cbv iota beta.
  unfold or_else, env. rewrite run_call. cbn [do_op].
  match goal with |- context [answer ?h (RunPodSandbox ?c)] => destruct (H2 h c) as [pod ->] end.
  rewrite run_call. cbn [do_op].
  match goal with |- context [answer ?h (RunContainer ?q ?c)] => destruct (H3 h q c) as [ctr ->] end.
  rewrite run_call. cbn [do_op].
  match goal with |- context [answer ?h (Attach ?c)] => destruct (H4 h c) as [url ->] end.
  cbn [run mret gor_ret]. unfold check. cbn. rewrite H5. cbn. rewrite H6. cbn. rewrite H7. cbn.
  eexists. match goal with |- context [Some (_, ?m)] => let evs := events_of m in exists (evs ++ [e0]) end.
  split; [reflexivity|]. split; [cbn; by rewrite <-?app_assoc|reflexivity].
Qed.
End failed.

(** A failed job can look like a completed one: whenever the server comes
    up but the runtime gives no information about its container, the status says
    [COMPLETED], although the container was not checkpointed. *)
Theorem failed_checkpoint_completed (S : Type) (I : StatusStore S) (IL : StatusStoreLaws S)
    (R : RandSource) (RL : RandLaws R) (W : WorkloadService) (En : Env) (is_cp : string -> bool)
    (cfg : Config) (id err : string) (baseRef : Reference) (n : node S) p a :
  node_ok is_cp n -> is_cp id = true -> 0 < portMin (n_alloc n) -> table n !! id = None ->
  Allocate (n_alloc n) = (Ok p, a) -> no_info err ->
  exists n' c evs, run (checkpoint cfg id baseRef) n = Some (Some ("container info: " +:+ err), n') /\
    checkpointed (table n') id = Some c /\ cs_State c = CheckpointStateCompleted /\
    n_env n' = evs ++ n_env n /\ existsb is_capture evs = false.
Proof.
  intros Hok Hi Hmin Hnone Ha Hno. unfold checkpoint.
  destruct (update_ck_total is_cp n id (mk_cs CheckpointStateRunning "" None 0) Hok Hi)
    as (s' & Es & Hok1 & ET).
  rewrite run_call. unfold checkpoint_status at 1. rewrite Es. cbv iota beta.
  unfold updated_ck, checkpointed in ET. rewrite Hnone in ET. cbn [mbind option_bind] in ET.
  set (n1 := with_store s' n) in *.
  assert (table n1 !! id = Some (begun 0)) as Hb
    by (unfold table; cbn [n1 n_store with_store]; by rewrite ET, lookup_insert_eq).
  destruct (no_info_body is_cp cfg err id baseRef n1 p a Hno Hok1 Hi Ha) as (n2 & evs & Er & Ee & Hc).
  destruct (body_run is_cp cfg id baseRef n1 Hok1 Hi Hmin Hb)
    as (st & ret & n2' & evs' & q & Er' & Hok2 & ET2 & _).
  rewrite Er in Er'. injection Er' as <- <- <-. rewrite run_bind, Er. cbn [fst snd].
  destruct (deferred_run is_cp id CheckpointStateCompleted (Some ("container info: " +:+ err)) q n2
    Hok2 Hi ltac:(done)) as (n3 & t & Ed & _ & ET3 & _ & Ee3); [by rewrite ET2, lookup_insert_eq|].
  rewrite run_bind, Ed. eexists n3, _, (Ev Now :: evs). split; [reflexivity|].
  rewrite ET3. unfold checkpoint_status. rewrite checkpointed_insert_eq. split; [reflexivity|].
  split; [reflexivity|]. split; [by rewrite Ee3, Ee|exact Hc].
Qed.

(** C15: the port of a checkpoint comes back: when the collector runs after the
    retention period, with no other status due, the table and the set of taken
    ports are what they were before the job started. *)
Theorem checkpoint_port_returned (S : Type) (I : StatusStore S) (IL : StatusStoreLaws S)
    (R : RandSource) (RL : RandLaws R) (W : WorkloadService) (E1 E2 : Env) (is_cp : string -> bool)
    (cfg : Config) (order : gmap string Status -> list (string * Status)) (now : Z)
    (id : string) (baseRef : Reference) (n : node S) :
  node_ok is_cp n -> is_cp id = true -> 0 < portMin (n_alloc n) -> table n !! id = None ->
  (forall h, answer (Env := E2) h Now = now) -> (forall m, order m ≡ₚ map_to_list m) ->
  (forall i v, table n !! i = Some v -> expired cfg now v = false) ->
  exists ret n1 t, run (En := E1) (checkpoint cfg id baseRef) n = Some (ret, n1) /\
    checkpointed (table n1) id ≫= cs_CompletedAt = Some t /\
    (t + StatusRetentionPeriod cfg < now ->
     exists err n2, run (En := E2) (CollectGarbage cfg order) n1 = Some (err, n2) /\
       table n2 = table n /\ forall p, taken (n_alloc n2) p <-> taken (n_alloc n) p).
Proof.
  intros Hok Hi Hmin Hnone Hnow Hord Hold.
  destruct (checkpoint_run (En := E1) is_cp cfg id baseRef n Hok Hi Hmin Hnone)
    as (ret & n1 & c & evs & Er & Hok1 & ET & [t Ht] & _ & _ & Hport & _).
  exists ret, n1, t. split; [exact Er|].
  split; [rewrite ET; unfold checkpoint_status; by rewrite checkpointed_insert_eq|].
  intros Hlt. destruct (collect_run (En := E2) is_cp cfg now Hnow order Hord n1 Hok1)
    as (err & n2 & E & _ & HT & Htk & _). exists err, n2. split; [exact E|].
  assert (expired cfg now (checkpoint_status c) = true) as Hx
    by (unfold expired; cbn; rewrite Ht; by apply Z.ltb_lt).
  split.
  - apply map_eq. intros i. rewrite HT, ET. destruct (decide (i = id)) as [-> |Hne].
    + by rewrite lookup_insert_eq, Hx, Hnone.
    + rewrite lookup_insert_ne by done. destruct (table n !! i) as [v|] eqn:Ev; [|done].
      by rewrite (Hold i v Ev).
  - intros p. rewrite Htk, ET.
    assert ((exists i v c', <[id := checkpoint_status c]> (table n) !! i = Some v /\
      expired cfg now v = true /\ sv_checkpoint v = Some c' /\ cs_Port c' = p) <-> cs_Port c = p) as ->.
    { split.
      - intros (i & v & c' & [[_ <-]|[_ Hv]]%lookup_insert_Some & Hxv & Hc' & Hp).
        + injection Hc' as <-. exact Hp.
        + by rewrite (Hold i v Hv) in Hxv.
      - intros Hp. exists id, (checkpoint_status c), c. by rewrite lookup_insert_eq. }
    destruct (no_alloc _ _ Hok) as (_ & _ & Hrange). destruct Hport as [[H0 Ha]|(Hr & Hfree & Ha)].
    + unfold taken at 1. rewrite Ha. split; [by intros [? _]|]. intros Hp. split; [exact Hp|].
      pose proof (Hrange p Hp). lia.
    + unfold taken at 1. rewrite Ha, lookup_insert_is_Some. split.
      * intros [[->|[_ Hp]] Hne]; [done|exact Hp].
      * intros Hp. assert (cs_Port c <> p) as Hne by (by intros <-). auto.
Qed.

(** ** Concrete runs *)

Definition demo_ck_cfg : Config :=
  {| CPUPeriod := 100000; CPUQuota := 200000; MemoryLimitBytes := 2097152;
     CheckpointFileDir := "/tmp/checkpoints"; CheckpointTimeoutSeconds := 60;
     RegistryUser := "user"; RegistryPass := "pass"; ListenAddr := ":9012"; StatusRetentionPeriod := 10;
     ContainerReadyTimeout := 60 |}.
Definition demo_ref : Reference := {| ref_String := "registry/fv:base"; ref_CheckpointTag := "registry/fv:checkpoint" |}.

(** Only c is a checkpoint. *)
Definition demo_is_cp (id : string) : bool := String.eqb id "c".

(** Everything succeeds, at time [now]. *)
Definition env_at (now : Z) : Env := {|
  answer X h call :=
    match call in env_call X return X with
    | Now => now
    | c => answer (Env := idle_env) h c
    end |}.

(** The runtime has no information about containers. *)
Definition env_no_info : Env := {|
  answer X h call :=
    match call in env_call X return X with
    | GetContainerInfo _ => inl "info key missing"
    | c => answer (Env := idle_env) h c
    end |}.

Lemma checkpoint_outcome_witness :
  exists ret n' c evs, run (En := idle_env) (checkpoint demo_ck_cfg "c" demo_ref) (fresh_node 30000 30100)
      = Some (ret, n') /\
    job_done (En := idle_env) "c" demo_ref (fresh_node 30000 30100) n' ret c evs.
Proof.
  destruct (checkpoint_outcome MemStore MemStore_store MemStore_laws ref_rand ref_rand_laws
    demo_service idle_env demo_is_cp demo_ck_cfg "c" demo_ref (fresh_node 30000 30100))
    as (ret & n' & c & evs & E & _ & Hd).
  - apply fresh_node_ok; lia.
  - reflexivity.
  - reflexivity.
  - by rewrite fresh_node_table.
  - exists ret, n', c, evs. split; [exact E|exact Hd].
Defined.

Lemma failed_checkpoint_completed_witness :
  exists n' c evs, run (En := env_no_info) (checkpoint demo_ck_cfg "c" demo_ref) (fresh_node 30000 30100)
      = Some (Some "container info: info key missing", n') /\
    checkpointed (table n') "c" = Some c /\ cs_State c = CheckpointStateCompleted /\
    n_env n' = evs ++ [] /\ existsb is_capture evs = false.
Proof.
  apply (failed_checkpoint_completed MemStore MemStore_store MemStore_laws ref_rand ref_rand_laws
    demo_service env_no_info demo_is_cp demo_ck_cfg "c" "info key missing" demo_ref
    (fresh_node 30000 30100) 30000 (Allocate (NewPortAllocator 30000 30100)).2).
  - apply fresh_node_ok; lia.
  - reflexivity.
  - reflexivity.
  - by rewrite fresh_node_table.
  - vm_compute. reflexivity.
  - split; intros; cbn; eauto.
Defined.

Lemma checkpoint_port_returned_witness :
  exists ret n1 t, run (En := env_at 0) (checkpoint demo_ck_cfg "c" demo_ref) (fresh_node 30000 30100)
      = Some (ret, n1) /\
    checkpointed (table n1) "c" ≫= cs_CompletedAt = Some t /\
    (t + 10 < 100 ->
     exists err n2, run (En := env_at 100) (CollectGarbage demo_ck_cfg map_to_list) n1 = Some (err, n2) /\
       table n2 = table (fresh_node 30000 30100) /\
       forall p, taken (n_alloc n2) p <-> taken (NewPortAllocator 30000 30100) p).
Proof.
  apply (checkpoint_port_returned MemStore MemStore_store MemStore_laws ref_rand ref_rand_laws
    demo_service (env_at 0) (env_at 100) demo_is_cp demo_ck_cfg map_to_list 100 "c" demo_ref
    (fresh_node 30000 30100)).
  - apply fresh_node_ok; lia.
  - reflexivity.
  - reflexivity.
  - by rewrite fresh_node_table.
  - reflexivity.
  - reflexivity.
  - intros i v. by rewrite fresh_node_table.
Defined.

Example demo_port_returned :
  (fun r => (elements (dom (allocated (n_alloc r.2)))))
    <$> (r ← run (En := env_at 0) (checkpoint demo_ck_cfg "c" demo_ref) (fresh_node 30000 30100);
         run (En := env_at 100) (CollectGarbage demo_ck_cfg map_to_list) r.2) = Some [].
Proof. vm_compute. reflexivity. Qed.
