(* ===== verification/Ports.v ===== *)
(** * Host ports on a node

    The reconciler's goroutines, the checkpoint jobs, the garbage collector and
    the API share the status store and one port allocator.  This file puts them
    together as one transition system with all interleavings of their operations
    and shows that no two workloads or jobs ever have the same host port. *)

From stdpp Require Import functions.
From S2P Require Import Prelude Go Endian PortAlloc StatusStore Node Reconciler Checkpoint.

#[local] Open Scope Z_scope.

(** ** Proof outlines

    That of a reconciler goroutine is [follows].  A checkpoint job begins with
    an update, may take a port, which it records next, and ends with an update
    that has the time of completion. *)

Inductive ck_phase := CkFresh | CkBegun | CkHolds (port : Z) | CkPorted (port : Z) | CkEnded.

(** [Q] relates the result and the phase at the end. *)
Fixpoint ck_follows {A} (id : string) (ph : ck_phase) (g : gor A) (Q : A -> ck_phase -> Prop) : Prop :=
  match g with
  | GRet a => Q a ph
  | GDo o k =>
      match o in pop X return (X -> gor A) -> Prop with
      | PUpdate id' v => fun k => id' = id /\
          ((ph = CkFresh /\ v = begun 0 /\ ck_follows id CkBegun (k tt) Q) \/
           (exists p, ph = CkHolds p /\ v = begun p /\ ck_follows id (CkPorted p) (k tt) Q) \/
           ((ph = CkBegun \/ exists p, ph = CkPorted p) /\
              (exists st msg t, v = checkpoint_status (mk_cs st msg (Some t) 0)) /\
              ck_follows id CkEnded (k tt) Q))
      | PAllocate => fun k => ph = CkBegun /\ ck_follows id CkBegun (k None) Q /\
          forall p, ck_follows id (CkHolds p) (k (Some p)) Q
      | PEnv _ => fun k => forall x, ck_follows id ph (k x) Q
      | _ => fun _ => False
      end k
  end.

(** The collector looks at entries of its view through their pointers; [due] is
    one that it has seen completed.  It drops only that one and then frees the
    port that it reads from it. *)
Inductive gc_phase :=
| GcStart
| GcScan (due : option (string * Status)) (K : gmap string Status)
| GcDropped (h : Status) (K : gmap string Status)
| GcFrees (port : Z) (K : gmap string Status).

Fixpoint gc_follows {A} (ph : gc_phase) (g : gor A) (Q : A -> gc_phase -> Prop) : Prop :=
  match g with
  | GRet a => Q a ph
  | GDo o k =>
      match o in pop X return (X -> gor A) -> Prop with
      | PView => fun k => ph = GcStart /\ forall m, gc_follows (GcScan None m) (k m) Q
      | PLoad h => fun k =>
          match ph with
          | GcScan due K =>
              (exists id, due = Some (id, h) /\
                 forall c, is_Some (cs_CompletedAt c) -> gc_follows ph (k c) Q) \/
              (exists id, K !! id = Some h /\ is_Some (st_checkpoint h) /\
                 forall c, match cs_CompletedAt c with
                           | Some _ => gc_follows (GcScan (Some (id, h)) K) (k c) Q
                           | None => gc_follows (GcScan None K) (k c) Q
                           end)
          | GcDropped h' K => h' = h /\ forall c, gc_follows (GcFrees (cs_Port c) K) (k c) Q
          | _ => False
          end
      | PDel id => fun k => exists h K, ph = GcScan (Some (id, h)) K /\
          gc_follows (GcDropped h (delete id K)) (k tt) Q
      | PFree p => fun k => exists K, ph = GcFrees p K /\ gc_follows (GcScan None K) (k tt) Q
      | PEnv _ => fun k => forall x, gc_follows ph (k x) Q
      | _ => fun _ => False
      end k
  end.

Lemma ck_follows_bind {A B} id (g : gor A) (f : A -> gor B) (Q : A -> ck_phase -> Prop)
    (Q' : B -> ck_phase -> Prop) : forall ph,
  ck_follows id ph g Q -> (forall a ph', Q a ph' -> ck_follows id ph' (f a) Q') ->
  ck_follows id ph (g ≫= f) Q'.
Proof.
  intros ph Hg Hf. revert ph Hg. induction g as [a|X o k IH]; intros ph Hg; [by apply Hf|].
  cbn [mbind gor_bind]. destruct o; cbn [ck_follows] in *; try done.
  - destruct Hg as [-> [(H1 & H2 & Hk)|[(p & H1 & H2 & Hk)|(H1 & H2 & Hk)]]]; (split; [done|]).
    + left. split; [done|]. split; [done|by apply IH].
    + right. left. exists p. split; [done|]. split; [done|by apply IH].
    + right. right. split; [done|]. split; [done|by apply IH].
  - destruct Hg as (H1 & H2 & H3). split; [done|]. split; [by apply IH|]. intros p. by apply IH.
  - intros x. by apply IH.
Qed.

(** A job outside of [PUpdate] and [PAllocate] stays in its phase. *)
Ltac ck_calls :=
  repeat first
    [ progress cbn
    | match goal with
      | |- forall _, _ => intros ?
      | |- context [match ?x with inl _ => _ | inr _ => _ end] => destruct x
      | |- context [match ?x with Some _ => _ | None => _ end] => destruct x
      end
    | solve [eauto] ].

(** The job has begun, and has a recorded port or none. *)
Definition under_way (ph : ck_phase) : Prop := ph = CkBegun \/ exists p, ph = CkPorted p.

Definition going {A} (_ : A) (ph : ck_phase) : Prop := under_way ph.
Definition finished {A} (_ : A) (ph : ck_phase) : Prop := ph = CkEnded.

Lemma capture_follows cfg id baseRef ctr ph :
  under_way ph -> ck_follows id ph (capture cfg id baseRef ctr) going.
Proof.
  intros Hu. unfold capture, BlockNewConnections, DestroySocks, or_else, check, env. ck_calls.
Qed.

Lemma wait_follows cfg id url : ck_follows id CkBegun (waitContainerReady cfg id url) going.
Proof.
  unfold waitContainerReady, runAndAttachContainer, or_else, check, env. cbn.
  split; [done|]. split; [by left|]. intros p. split; [done|]. right. left. exists p.
  split; [done|]. split; [done|]. assert (under_way (CkPorted p)) as Hu by (right; eauto). ck_calls.
Qed.

Lemma checkpoint_follows cfg id baseRef :
  ck_follows id CkFresh (checkpoint cfg id baseRef) finished.
Proof.
  unfold checkpoint. cbn [ck_follows mbind gor_bind call]. split; [done|]. left.
  split; [done|]. split; [done|].
  apply (ck_follows_bind id (checkpoint_body cfg id baseRef) _ going).
  - unfold checkpoint_body, or_else. apply (ck_follows_bind _ _ _ (fun _ ph => ph = CkBegun)).
    { by intros x. }
    intros [err|b] ph ->; [by left|]. apply (ck_follows_bind _ _ _ going); [apply wait_follows|].
    intros [err|ctr] ph Hu; [exact Hu|by apply capture_follows].
  - intros [st ret] ph Hu. cbn. intros t. split; [done|]. right. right. split; [exact Hu|].
    split; [by do 3 eexists|done].
Qed.

Lemma gc_follows_bind {A B} (g : gor A) (f : A -> gor B) (Q : A -> gc_phase -> Prop)
    (Q' : B -> gc_phase -> Prop) : forall ph,
  gc_follows ph g Q -> (forall a ph', Q a ph' -> gc_follows ph' (f a) Q') ->
  gc_follows ph (g ≫= f) Q'.
Proof.
  intros ph Hg Hf. revert ph Hg. induction g as [a|X o k IH]; intros ph Hg; [by apply Hf|].
  cbn [mbind gor_bind]. destruct o; cbn [gc_follows] in *; try done.
  - destruct Hg as (K & -> & Hk). exists K. split; [done|by apply IH].
  - destruct Hg as (h & K & -> & Hk). exists h, K. split; [done|by apply IH].
  - destruct Hg as [-> Hk]. split; [done|]. intros m. by apply IH.
  - destruct ph as [|due K|h' K|p K]; [done| | |done].
    + destruct Hg as [(id & -> & Hk)|(id & Hid & Hc & Hk)]; [left|right]; exists id.
      * split; [done|]. intros c Hcc. by apply IH, Hk.
      * split; [done|]. split; [done|]. intros c. specialize (Hk c).
        destruct (cs_CompletedAt c); by apply IH.
    + destruct Hg as [-> Hk]. split; [done|]. intros c. by apply IH.
  - intros x. by apply IH.
Qed.

(** The collector is between two entries. *)
Definition scanning {A} (_ : A) (ph : gc_phase) : Prop := exists due K, ph = GcScan due K.

Lemma gc_statuses_follows cfg view : forall keep due K,
  NoDup view.*1 -> (forall id st, (id, st) ∈ view -> K !! id = Some st) ->
  gc_follows (GcScan due K) (gc_statuses cfg view keep) scanning.
Proof.
  induction view as [|[id st] view IH]; intros keep due K Hnd HK; [by exists due, K|].
  cbn [fmap list_fmap fst] in Hnd. apply list.NoDup_cons in Hnd as [Hid Hnd].
  assert (forall i s, (i, s) ∈ view -> K !! i = Some s) as HK'
    by (intros i s Hin; apply HK; by right).
  pose proof (HK id st ltac:(left)) as Hst. cbn [gc_statuses].
  destruct (st_checkpoint st) as [l|] eqn:El; [|by apply IH].
  assert (is_Some (st_checkpoint st)) as Hs by (rewrite El; eauto).
  assert (forall k1, gc_follows (GcScan (Some (id, st)) K)
    (now ← env Now; c ← call (PLoad st);
     match cs_CompletedAt c with
     | Some t =>
         if t + StatusRetentionPeriod cfg <? now then
           call (PDel id);; c ← call (PLoad st); call (PFree (cs_Port c));; gc_statuses cfg view k1
         else gc_statuses cfg view k1
     | None => e ← call PPanic; match (e : Empty_set) with end
     end) scanning) as Htail.
  { intros k1. cbn. intros now. left. exists id. split; [done|]. intros c [t ->].
    destruct (t + StatusRetentionPeriod cfg <? now); [|by apply IH]. cbn.
    exists st, K. split; [done|]. split; [done|]. intros c'. eexists. split; [reflexivity|].
    apply IH; [done|]. intros i s Hin. rewrite lookup_delete_ne; [by apply HK'|].
    intros ->. apply Hid, list_elem_of_fmap. by exists (i, s). }
  cbn [gc_follows mbind gor_bind call]. right. exists id. split; [done|]. split; [done|]. intros c.
  destruct (cs_CompletedAt c) as [t0|].
  - left. exists id. split; [done|]. intros c1 [t1 ->]. apply Htail.
  - right. exists id. split; [done|]. split; [done|]. intros c1.
    destruct (cs_CompletedAt c1) as [t1|]; [apply Htail|by apply IH].
Qed.

(** Programs that only call the environment stay in their phase. *)
Fixpoint env_only {A} (g : gor A) : Prop :=
  match g with
  | GRet _ => True
  | GDo o k =>
      match o in pop X return (X -> gor A) -> Prop with
      | PEnv _ => fun k => forall x, env_only (k x)
      | _ => fun _ => False
      end k
  end.

Lemma env_only_bind {A B} (g : gor A) (f : A -> gor B) :
  env_only g -> (forall a, env_only (f a)) -> env_only (g ≫= f).
Proof.
  intros Hg Hf. induction g as [a|X o k IH]; [apply Hf|]. cbn [mbind gor_bind].
  destruct o; cbn in *; try done. intros x. by apply IH.
Qed.

Lemma env_only_gc {A} (g : gor A) ph (Q : A -> gc_phase -> Prop) :
  env_only g -> (forall a, Q a ph) -> gc_follows ph g Q.
Proof.
  intros Hg HQ. induction g as [a|X o k IH]; [apply HQ|]. destruct o; cbn in *; try done.
  intros x. by apply IH.
Qed.

Lemma gc_files_env cfg keep files : env_only (gc_files cfg keep files).
Proof.
  induction files as [|[name isDir] files IH]; [done|]. cbn [gc_files].
  destruct isDir; [done|]. destruct (bool_decide _); [done|]. cbn. by intros [| |err].
Qed.

Lemma gc_pods_env keep pods : env_only (gc_pods keep pods).
Proof.
  induction pods as [|pod pods IH]; [done|]. cbn [gc_pods]. destruct (bool_decide _); [done|].
  unfold check, env. cbn. intros [e|]; [done|]. cbn. intros [e|]; [done|]. cbn. by intros [e|].
Qed.

Lemma collect_follows cfg order :
  (forall m, order m ≡ₚ map_to_list m) -> gc_follows GcStart (CollectGarbage cfg order) scanning.
Proof.
  intros Hord. unfold CollectGarbage. cbn [gc_follows mbind gor_bind call]. split; [done|]. intros m.
  apply (gc_follows_bind (gc_statuses cfg (order m) ∅) _ scanning).
  - apply gc_statuses_follows.
    + rewrite (Hord m). apply NoDup_fst_map_to_list.
    + intros id st Hin. rewrite (Hord m) in Hin. by apply elem_of_map_to_list.
  - intros keep ph Hph. apply env_only_gc; [|done]. unfold or_else, check, env.
    apply env_only_bind; [done|]. intros [err|files]; [done|].
    apply env_only_bind; [apply gc_files_env|]. intros [err|]; [done|].
    apply env_only_bind; [done|]. intros [err|pods]; [done|apply gc_pods_env].
Qed.

(** ** The node with everything that runs on it *)

Record plat (S : Type) := mk_plat {
  pl_node : node S;
  pl_ins : gmap string (gor unit);
  pl_cks : gmap string (gor (option string));
  pl_gc : option (gor (option string));
}.
Arguments mk_plat {S} _ _ _ _.
Arguments pl_node {S} _.
Arguments pl_ins {S} _.
Arguments pl_cks {S} _.
Arguments pl_gc {S} _.

(** The workload is recorded as gone. *)
Definition gone_status (w : WorkloadStatus) : Prop :=
  ws_State w = WorkloadStateDeleted \/ ws_State w = WorkloadStateCreationFailed.

Section system.
Context {S : Type} {I : StatusStore S} {R : RandSource} {W : WorkloadService} {En : Env}.
Context (is_cp : string -> bool) (cfg : reconcilerConfig) (ccfg : Config).

(** [tick] starts a goroutine per discovered instance, waits for all of them,
    and then drops the statuses of workloads that are gone.  [StopWorkload] of
    the API, having removed a workload, records its deletion at any time.  A
    checkpoint gets a new id.  The collector runs every second, one at a time. *)
Inductive plat_step : plat S -> plat S -> Prop :=
| ps_spawn n G C gc ins :
    is_cp (ins_Id ins) = false -> G !! ins_Id ins = None ->
    plat_step (mk_plat n G C gc) (mk_plat n (<[ins_Id ins := reconcile cfg ins]> G) C gc)
| ps_op n G C gc id X (o : pop X) k x n' :
    G !! id = Some (GDo o k) -> do_op o n = Some (x, n') ->
    plat_step (mk_plat n G C gc) (mk_plat n' (<[id := k x]> G) C gc)
| ps_done n G C gc id :
    G !! id = Some (GRet tt) -> plat_step (mk_plat n G C gc) (mk_plat n (delete id G) C gc)
| ps_cleanup n C gc id w :
    recorded (table n) id = Some w -> gone_status w ->
    plat_step (mk_plat n ∅ C gc) (mk_plat (with_store (store_del id (n_store n)) n) ∅ C gc)
| ps_stop n G C gc id u n' :
    is_cp id = false ->
    do_op (PUpdate id (workload_state WorkloadStateDeleted)) n = Some (u, n') ->
    plat_step (mk_plat n G C gc) (mk_plat n' G C gc)
| ps_checkpoint n G C gc id baseRef :
    is_cp id = true -> C !! id = None -> table n !! id = None ->
    plat_step (mk_plat n G C gc) (mk_plat n G (<[id := checkpoint ccfg id baseRef]> C) gc)
| ps_ck_op n G C gc id X (o : pop X) k x n' :
    C !! id = Some (GDo o k) -> do_op o n = Some (x, n') ->
    plat_step (mk_plat n G C gc) (mk_plat n' G (<[id := k x]> C) gc)
| ps_ck_done n G C gc id ret :
    C !! id = Some (GRet ret) -> plat_step (mk_plat n G C gc) (mk_plat n G (delete id C) gc)
| ps_collect n G C order :
    (forall m, order m ≡ₚ map_to_list m) ->
    plat_step (mk_plat n G C None) (mk_plat n G C (Some (CollectGarbage ccfg order)))
| ps_gc_op n G C X (o : pop X) k x n' :
    do_op o n = Some (x, n') ->
    plat_step (mk_plat n G C (Some (GDo o k))) (mk_plat n' G C (Some (k x)))
| ps_gc_done n G C ret :
    plat_step (mk_plat n G C (Some (GRet ret))) (mk_plat n G C None).

(** ** What an id stands for *)

(** The entry of an id and the phases of its goroutine or job. *)
Record local := mk_local { l_entry : option StatusV; l_ins : phase; l_ck : ck_phase }.

(** It has port [p]: it is running on it, has it recorded, or is holding it. *)
Definition owns_local (l : local) (p : Z) : Prop :=
  l_entry l ≫= sv_workload = Some (mk_ws WorkloadStateRunning p) \/
  (exists b, l_ins l = Holds p b) \/
  (exists c, l_entry l ≫= sv_checkpoint = Some c /\ cs_Port c = p /\ p <> 0) \/
  l_ck l = CkHolds p.

Definition ins_ok (v : option StatusV) (ph : phase) : Prop :=
  match ph with
  | Idle => v = None \/ exists w, v = Some (mk_sv None (Some w))
  | Started => exists w, v = Some (mk_sv None (Some w)) /\ ws_State w <> WorkloadStateRunning
  | Holds p b => exists w, v = Some (mk_sv None (Some w)) /\ ws_State w <> WorkloadStateRunning /\
                   (b = true -> ws_Port w = p)
  end.

Definition ck_ok (v : option StatusV) (ph : ck_phase) : Prop :=
  match ph with
  | CkFresh => v = None
  | CkBegun | CkHolds _ => v = Some (begun 0)
  | CkPorted p => v = Some (begun p)
  | CkEnded => v = None \/ exists c, v = Some (mk_sv (Some c) None) /\ is_Some (cs_CompletedAt c)
  end.

Definition local_ok (id : string) (l : local) : Prop :=
  if is_cp id then l_ins l = Idle /\ ck_ok (l_entry l) (l_ck l)
  else l_ck l = CkEnded /\ ins_ok (l_entry l) (l_ins l).

Lemma local_entry_ok id l v : local_ok id l -> l_entry l = Some v -> entry_ok is_cp id v.
Proof using Type.
  unfold local_ok, entry_ok. intros Hl Hv. destruct (is_cp id).
  - destruct Hl as [_ Hl]. rewrite Hv in Hl.
    destruct (l_ck l); cbn in Hl; try (by simplify_eq; split; eauto).
    destruct Hl as [|(c & [= ->] & _)]; [done|]. split; eauto.
  - destruct Hl as [_ Hl]. rewrite Hv in Hl.
    destruct (l_ins l); cbn in Hl.
    + destruct Hl as [|(w & [= ->])]; [done|]. split; eauto.
    + destruct Hl as (w & [= ->] & _). split; eauto.
    + destruct Hl as (w & [= ->] & _). split; eauto.
Qed.

(** Who has a port: an id, or ([None]) the collector between dropping a status
    and freeing its port. *)
Record ghost := mk_ghost { g_ins : string -> phase; g_ck : string -> ck_phase; g_gc : gc_phase }.

Definition loc (n : node S) (g : ghost) (id : string) : local :=
  mk_local (table n !! id) (g_ins g id) (g_ck g id).

Definition gc_owns (n : node S) (ph : gc_phase) (p : Z) : Prop :=
  match ph with
  | GcDropped h _ => p <> 0 /\ exists c, sv_checkpoint (store_load (n_store n) h) = Some c /\ cs_Port c = p
  | GcFrees q _ => p <> 0 /\ q = p
  | _ => False
  end.

Definition owns (n : node S) (g : ghost) (o : option string) (p : Z) : Prop :=
  match o with
  | Some id => owns_local (loc n g id) p
  | None => gc_owns n (g_gc g) p
  end.

(** Every port that somebody has is taken, and nobody else has it. *)
Record ports_ok (own : option string -> Z -> Prop) (a : PortAllocator) : Prop := {
  po_wf : alloc_wf a;
  po_min : 0 < portMin a;
  po_taken o p : own o p -> taken a p;
  po_unique o o' p : own o p -> own o' p -> o = o';
}.

Lemma ports_ok_mono own own' a :
  ports_ok own a -> (forall o p, own' o p -> own o p) -> ports_ok own' a.
Proof using Type. intros [H1 H2 H3 H4] Hs. split; eauto. Qed.

Lemma ports_ok_alloc own own' a a' o p :
  ports_ok own a -> alloc_wf a' -> portMin a' = portMin a -> ~ taken a p ->
  allocated a' = <[p := true]> (allocated a) ->
  (forall o' q, own' o' q -> own o' q \/ o' = o /\ q = p) -> ports_ok own' a'.
Proof using Type.
  intros [H1 H2 H3 H4] Hwf Em Hfree Ea Hs. split; [done|lia| |].
  - intros o' q [Ho|[-> ->]]%Hs; unfold taken; rewrite Ea; [|rewrite lookup_insert_eq; eauto].
    apply lookup_insert_is_Some'. right. by apply (H3 o').
  - intros o1 o2 q [Ho1|[-> ->]]%Hs [Ho2|[-> E]]%Hs; [by eapply H4| | |done].
    + subst. by apply H3 in Ho1.
    + by apply H3 in Ho2.
Qed.

Lemma ports_ok_same own own' a a' :
  ports_ok own a -> alloc_wf a' -> portMin a' = portMin a -> allocated a' = allocated a ->
  (forall o p, own' o p -> own o p) -> ports_ok own' a'.
Proof using Type.
  intros [H1 H2 H3 H4] Hwf Em Ea Hs. split; [done|lia| |by eauto].
  intros o p Ho. unfold taken. rewrite Ea. by apply (H3 o), Hs.
Qed.

(** The owner of [p] gives it back, or [p] is no port at all. *)
Lemma ports_ok_free own own' a o p :
  ports_ok own a -> own o p \/ p = 0 -> (forall o' q, own' o' q -> own o' q) ->
  (p <> 0 -> ~ own' o p) -> ports_ok own' (Free p a).
Proof using Type.
  intros [H1 H2 H3 H4] Hp Hs Hno. split; [by apply Free_wf|done| |by eauto].
  intros o' q Ho'. pose proof (H3 _ _ (Hs _ _ Ho')) as Ht. unfold taken, Free. cbn.
  rewrite lookup_delete_ne; [exact Ht|]. intros <-.
  destruct H1 as (_ & _ & Hr). pose proof (Hr p Ht).
  destruct Hp as [Ho|Hp]; [|lia]. apply (Hno ltac:(lia)).
  by rewrite (H4 o o' p Ho (Hs _ _ Ho')).
Qed.

(** A port changes hands. *)
Lemma ports_ok_rename own own' a (f : option string -> option string) :
  ports_ok own a -> (forall o p, own' o p -> own (f o) p) ->
  (forall o o' p, own' o p -> own' o' p -> f o = f o' -> o = o') -> ports_ok own' a.
Proof using Type.
  intros [H1 H2 H3 H4] Hs Hinj. split; [done|done|eauto|].
  intros o o' p Ho Ho'. apply (Hinj o o' p Ho Ho'). by eapply H4; apply Hs.
Qed.
(** ** The invariant *)

Definition completed_entry (n : node S) (id : string) : Prop :=
  exists c, checkpointed (table n) id = Some c /\ is_Some (cs_CompletedAt c).

(** The handles that the collector still has are those of the table. *)
Definition known (n : node S) (K : gmap string Status) : Prop :=
  forall id h, K !! id = Some h -> is_Some (st_checkpoint h) -> store_view (n_store n) !! id = Some h.

Definition gc_ok (n : node S) (ph : gc_phase) : Prop :=
  match ph with
  | GcStart => True
  | GcScan due K => known n K /\
      forall id h, due = Some (id, h) -> store_view (n_store n) !! id = Some h /\ completed_entry n id
  | GcDropped h K => known n K /\ store_outside (n_store n) h
  | GcFrees _ K => known n K
  end.

Record core (n : node S) (g : ghost) : Prop := {
  co_store : store_ok (n_store n);
  co_local id : local_ok id (loc n g id);
  co_ports : ports_ok (owns n g) (n_alloc n);
  co_gc : gc_ok n (g_gc g);
}.

Definition set_id (id : string) (ph : phase) (ck : ck_phase) (g : ghost) : ghost :=
  mk_ghost (<[id := ph]> (g_ins g)) (<[id := ck]> (g_ck g)) (g_gc g).

Lemma loc_set_eq n g s' v id ph ck :
  store_table s' = <[id := v]> (table n) ->
  loc (with_store s' n) (set_id id ph ck g) id = mk_local (Some v) ph ck.
Proof using Type.
  intros ET. unfold loc, table, set_id. cbn [g_ins g_ck n_store with_store].
  by rewrite ET, lookup_insert_eq, !fn_lookup_insert.
Qed.

Lemma loc_set_ne n g s' v id ph ck i :
  store_table s' = <[id := v]> (table n) -> i <> id ->
  loc (with_store s' n) (set_id id ph ck g) i = loc n g i.
Proof using Type.
  intros ET Hne. unfold loc, table, set_id. cbn [g_ins g_ck n_store with_store].
  by rewrite ET, lookup_insert_ne, !fn_lookup_insert_ne by done.
Qed.

Context {IL : StatusStoreLaws S} {RL : RandLaws R}.

Lemma core_node_ok n g : core n g -> node_ok is_cp n.
Proof using Type.
  intros [H1 H2 H3 H4]. split; [done|apply H3|]. intros id v Hv. by eapply local_entry_ok.
Qed.

(** The collector is not disturbed by an update of an entry that is not yet
    completed. *)
Lemma gc_update id v s' n g v' :
  core n g -> store_update id v (n_store n) = Some s' ->
  store_table s' = <[id := v']> (table n) -> ~ completed_entry n id ->
  gc_ok (with_store s' n) (g_gc g) /\
  forall p, gc_owns (with_store s' n) (g_gc g) p -> gc_owns n (g_gc g) p.
Proof using IL.
  intros [H1 H2 H3 H4] Eu ET Hnc.
  assert (forall K, known n K -> known (with_store s' n) K) as Hk.
  { intros K HK i h Hi Hs. cbn. eapply store_view_update; eauto. }
  destruct (g_gc g) as [|due K|h K|p K]; cbn [gc_ok gc_owns] in *; [done| | |by eauto].
  - destruct H4 as [HK Hdue]. split; [|done]. split; [by apply Hk|]. intros i h Hd.
    destruct (Hdue i h Hd) as [Hv Hc]. split; [cbn; eapply store_view_update; eauto|].
    destruct Hc as (c & Hc & Hcc). exists c. split; [|done].
    unfold checkpointed, table. cbn [n_store with_store]. rewrite ET, lookup_insert_ne; [exact Hc|].
    intros ->. apply Hnc. by exists c.
  - destruct H4 as [HK Ho].
    destruct (store_outside_update id v (n_store n) s' h H1 Ho Eu) as [Ho' El].
    split; [by split; [apply Hk|]|]. cbn [n_store with_store]. by rewrite El.
Qed.

Lemma core_entry id v s' n g v' ph ck :
  core n g -> store_update id v (n_store n) = Some s' -> store_ok s' ->
  store_table s' = <[id := v']> (table n) -> ~ completed_entry n id ->
  local_ok id (mk_local (Some v') ph ck) ->
  (forall p, owns_local (mk_local (Some v') ph ck) p -> owns_local (loc n g id) p) ->
  core (with_store s' n) (set_id id ph ck g).
Proof using IL.
  intros Hc Eu Hs' ET Hnc Hl Hown. destruct (gc_update id v s' n g v' Hc Eu ET Hnc) as [Hgc Hgo].
  destruct Hc as [H1 H2 H3 H4]. split; [done| | |done].
  - intros i. destruct (decide (i = id)) as [-> |Hne].
    + by rewrite (loc_set_eq n g s' v').
    + rewrite (loc_set_ne n g s' v') by done. apply H2.
  - apply (ports_ok_mono (owns n g)); [exact H3|]. intros [i|] p; [|apply Hgo].
    cbn [owns]. destruct (decide (i = id)) as [-> |Hne].
    + rewrite (loc_set_eq n g s' v') by done. apply Hown.
    + by rewrite (loc_set_ne n g s' v').
Qed.

(** A change of phases, and of the allocator. *)
Lemma core_phase id n g a' ph ck :
  core n g -> local_ok id (mk_local (table n !! id) ph ck) ->
  ports_ok (owns n (set_id id ph ck g)) a' ->
  core (with_alloc a' n) (set_id id ph ck g).
Proof using Type.
  intros [H1 H2 H3 H4] Hl Hp. split; [done| |done|done].
  intros i. destruct (decide (i = id)) as [-> |Hne].
  - unfold loc. cbn [set_id g_ins g_ck]. rewrite !fn_lookup_insert. exact Hl.
  - specialize (H2 i). unfold loc in *. cbn [set_id g_ins g_ck].
    rewrite !fn_lookup_insert_ne by done. exact H2.
Qed.

Lemma owns_set_phase n g id ph ck o p :
  owns n (set_id id ph ck g) o p ->
  owns n g o p \/ o = Some id /\ owns_local (mk_local (table n !! id) ph ck) p.
Proof using Type.
  destruct o as [i|]; [|by left]. cbn [owns]. unfold loc. cbn [set_id g_ins g_ck].
  destruct (decide (i = id)) as [-> |Hne].
  - rewrite !fn_lookup_insert. by right.
  - rewrite !fn_lookup_insert_ne by done. by left.
Qed.
(** ** Operations of a reconciler goroutine *)

Lemma owns_ins w ph p :
  owns_local (mk_local (Some (mk_sv None (Some w))) ph CkEnded) p <->
  w = mk_ws WorkloadStateRunning p \/ exists b, ph = Holds p b.
Proof using Type.
  unfold owns_local. cbn. split.
  - intros [[= ->]|[Hb|[(c & [=] & _)|[=]]]]; auto.
  - intros [-> |Hb]; auto.
Qed.

(** What is known of an instance. *)
Lemma core_ins n g id :
  core n g -> is_cp id = false -> g_ck g id = CkEnded /\ ins_ok (table n !! id) (g_ins g id).
Proof using Type. intros Hc Hi. pose proof (co_local _ _ Hc id) as Hl. unfold local_ok in Hl. by rewrite Hi in Hl. Qed.

Lemma ins_recorded v ph : ins_ok v ph -> v ≫= sv_checkpoint = None.
Proof using Type.
  destruct ph; cbn; [intros [-> |(w & ->)]|intros (w & -> & _)|intros (w & -> & _)]; done.
Qed.

Lemma update_ins n g id nw u n' :
  core n g -> is_cp id = false -> do_op (PUpdate id (mk_sv None (Some nw))) n = Some (u, n') ->
  exists s', n' = with_store s' n /\
    forall ph, ins_ok (Some (mk_sv None (Some (updated (table n) id nw)))) ph ->
      (forall p, updated (table n) id nw = mk_ws WorkloadStateRunning p \/ (exists b, ph = Holds p b) ->
         owns_local (loc n g id) p) ->
      core (with_store s' n) (set_id id ph CkEnded g).
Proof using IL.
  intros Hc Hi Eu. destruct (core_ins n g id Hc Hi) as [_ Hins].
  destruct (update_total is_cp n id nw (core_node_ok n g Hc) Hi) as (s' & Es & Hok & ET).
  rewrite Es in Eu. injection Eu as _ <-. exists s'. split; [done|]. intros ph Hph Hown.
  cbn [do_op] in Es. apply fmap_Some in Es as (s1 & Eu & E1). injection E1 as E1.
  assert (s1 = s') as -> by (by rewrite <-E1).
  eapply core_entry; [exact Hc|exact Eu|apply Hok|exact ET| | |].
  - intros (c & Hck & _). unfold checkpointed in Hck. by rewrite (ins_recorded _ _ Hins) in Hck.
  - unfold local_ok. rewrite Hi. by split.
  - intros p Hp%owns_ins. by apply Hown.
Qed.

(** A state other than running is recorded. *)
Lemma record_state n g id st u n' ph :
  core n g -> is_cp id = false -> do_op (PUpdate id (workload_state st)) n = Some (u, n') ->
  st <> "" -> st <> WorkloadStateRunning ->
  ph = g_ins g id \/ ph = Started /\ resting (g_ins g id) ->
  core n' (set_id id ph CkEnded g).
Proof using IL.
  intros Hc Hi Eu Hne Hnr Hph. destruct (update_ins _ _ _ _ _ _ Hc Hi Eu) as (s' & -> & Hgo).
  destruct (core_ins n g id Hc Hi) as [_ Hins].
  destruct (updated_state (table n) id st Hne) as [Hst Hpt]. apply Hgo.
  - destruct Hph as [-> |[-> _]]; [|cbn; eexists; split; [reflexivity|congruence]].
    destruct (g_ins g id) as [| |p b]; cbn; [right; eauto|eexists; split; [reflexivity|congruence]|].
    eexists. split; [reflexivity|]. split; [congruence|]. intros ->.
    destruct Hins as (w & Hw & _ & Hp). rewrite (Hpt w); [by apply Hp|]. unfold recorded. by rewrite Hw.
  - intros p [Er|[b ->]]; [rewrite Er in Hst; cbn in Hst; congruence|].
    destruct Hph as [Hph|[Hph _]]; [|done]. right. left. exists b. exact (eq_sym Hph).
Qed.

Lemma record_port n g id p b u n' :
  core n g -> is_cp id = false -> g_ins g id = Holds p b ->
  do_op (PUpdate id (workload_port p)) n = Some (u, n') ->
  core n' (set_id id (Holds p true) CkEnded g).
Proof using IL.
  intros Hc Hi Hph Eu. destruct (update_ins _ _ _ _ _ _ Hc Hi Eu) as (s' & -> & Hgo).
  destruct (core_ins n g id Hc Hi) as [_ Hins]. rewrite Hph in Hins.
  destruct Hins as (w & Hw & Hnr & _).
  assert (owns n g (Some id) p) as Hown by (right; left; exists b; exact Hph).
  destruct (co_ports _ _ Hc) as [(_ & _ & Hr) Hmin Htk _].
  assert (p <> 0) as Hp0 by (pose proof (Hr p (Htk _ _ Hown)); lia).
  assert (updated (table n) id (mk_ws "" p) = mk_ws (ws_State w) p) as Eq.
  { unfold updated, recorded. rewrite Hw. unfold merge_workload. cbn.
    by rewrite (proj2 (Z.eqb_neq _ _) Hp0). }
  apply Hgo; rewrite Eq.
  - eexists. split; [reflexivity|]. by split.
  - intros q [[= Es _]|[b' [= -> _]]]; [done|exact Hown].
Qed.

Lemma record_running n g id p u n' :
  core n g -> is_cp id = false -> g_ins g id = Holds p true ->
  do_op (PUpdate id (workload_state WorkloadStateRunning)) n = Some (u, n') ->
  core n' (set_id id Idle CkEnded g).
Proof using IL.
  intros Hc Hi Hph Eu. destruct (update_ins _ _ _ _ _ _ Hc Hi Eu) as (s' & -> & Hgo).
  destruct (core_ins n g id Hc Hi) as [_ Hins]. rewrite Hph in Hins.
  destruct Hins as (w & Hw & _ & Hp). apply Hgo.
  - right. eauto.
  - intros q [Er|[b Hb]]; [|discriminate Hb]. right. left. exists true. cbn [loc l_ins]. rewrite Hph.
    destruct (updated_state (table n) id WorkloadStateRunning ltac:(done)) as [_ Hpt].
    rewrite Er in Hpt. cbn in Hpt. rewrite (Hpt w), (Hp eq_refl); [done|].
    unfold recorded. by rewrite Hw.
Qed.
(** Somebody takes a port: it is new, and the only one [id] has then. *)
Lemma core_allocate id n g x n' ph ck :
  core n g -> do_op PAllocate n = Some (x, n') -> local_ok id (mk_local (table n !! id) ph ck) ->
  (forall q, owns_local (mk_local (table n !! id) ph ck) q -> x = Some q) ->
  core n' (set_id id ph ck g).
Proof using RL.
  intros Hc Eo Hl Hq. destruct (co_ports _ _ Hc) as [Hwf Hmin Htk Hun] eqn:Hpo.
  pose proof (allocate_loop_range maxTries (n_alloc n)) as [Hlo _]. fold Allocate in Hlo.
  pose proof (Allocate_wf _ Hwf) as Hwf'. pose proof (allocate_loop_spec maxTries _ Hwf) as Hs.
  fold Allocate in Hs. cbn [do_op] in Eo.
  destruct (Allocate (n_alloc n)) as [[p|msg|] a]; cbn [fst snd allocates] in *; simplify_eq.
  - destruct Hs as (_ & Hfree & Ea & _). apply core_phase; [done|done|].
    eapply (ports_ok_alloc (owns n g)); [apply Hc|done|done|exact Hfree|exact Ea|].
    intros o q [Ho|[-> Ho]]%owns_set_phase; [by left|]. right. by injection (Hq q Ho) as ->.
  - destruct Hs as (_ & (_ & _ & Ea) & _). apply core_phase; [done|done|].
    eapply (ports_ok_same (owns n g)); [apply Hc|done|done|exact Ea|].
    intros o q [Ho|[-> Ho]]%owns_set_phase; [exact Ho|]. by discriminate (Hq q Ho).
Qed.

Lemma started_owns n g id p :
  core n g -> is_cp id = false -> g_ins g id = Started \/ (exists q b, g_ins g id = Holds q b) ->
  ~ owns_local (mk_local (table n !! id) Started CkEnded) p.
Proof using Type.
  intros Hc Hi Hph. destruct (core_ins n g id Hc Hi) as [_ Hins].
  assert (exists w, table n !! id = Some (mk_sv None (Some w)) /\ ws_State w <> WorkloadStateRunning)
    as (w & -> & Hnr).
  { destruct Hph as [Hph|(q & b & Hph)]; rewrite Hph in Hins; cbn in Hins;
      [|destruct Hins as (w & Hw & Hnr & _)]; eauto. }
  intros [-> |[b [=]]]%owns_ins. done.
Qed.

Lemma take_ins n g id x n' :
  core n g -> is_cp id = false -> g_ins g id = Started -> do_op PAllocate n = Some (x, n') ->
  core n' (set_id id (match x with Some p => Holds p false | None => Started end) CkEnded g).
Proof using RL.
  intros Hc Hi Hph Eo. destruct (core_ins n g id Hc Hi) as [_ Hins]. rewrite Hph in Hins.
  destruct Hins as (w & Hw & Hnr). eapply core_allocate; [done|exact Eo| |].
  - unfold local_ok. rewrite Hi, Hw. split; [done|]. cbn [l_entry l_ins].
    destruct x as [p|]; exists w; split; [done|by split|done|done].
  - intros q. rewrite Hw. intros [-> |[b Hb]]%owns_ins; [done|]. destruct x; [|done]. congruence.
Qed.

Lemma free_ins n g id p b u n' :
  core n g -> is_cp id = false -> g_ins g id = Holds p b -> do_op (PFree p) n = Some (u, n') ->
  core n' (set_id id Started CkEnded g).
Proof using Type.
  intros Hc Hi Hph Eo. cbn in Eo. injection Eo as _ <-.
  destruct (core_ins n g id Hc Hi) as [_ Hins]. rewrite Hph in Hins.
  destruct Hins as (w & Hw & Hnr & _).
  pose proof (started_owns n g id) as Hno.
  apply core_phase; [done| |].
  - unfold local_ok. rewrite Hi, Hw. split; [done|]. cbn. eauto.
  - apply (ports_ok_free (owns n g) _ _ (Some id)); [apply Hc| | |].
    + left. right. left. by exists b.
    + intros o q [Ho|[-> Ho]]%owns_set_phase; [exact Ho|]. exfalso. eapply Hno; eauto.
    + intros _ Ho. cbn [owns] in Ho. unfold loc in Ho. cbn [set_id g_ins g_ck] in Ho.
      rewrite !fn_lookup_insert in Ho. eapply Hno; eauto.
Qed.

(** The goroutine ends, or an operation does not concern ports. *)
Lemma rest_ins n g id :
  core n g -> is_cp id = false -> resting (g_ins g id) -> core n (set_id id Idle CkEnded g).
Proof using Type.
  intros Hc Hi Hr. destruct (core_ins n g id Hc Hi) as [Hck Hins].
  replace n with (with_alloc (n_alloc n) n) at 1 by (by destruct n).
  assert (ins_ok (table n !! id) Idle) as Hidle.
  { destruct (g_ins g id); [done| |done]. destruct Hins as (w & -> & _). right. eauto. }
  apply core_phase; [done| |].
  - unfold local_ok. by rewrite Hi.
  - apply (ports_ok_mono (owns n g)); [apply Hc|].
    intros o q [Ho|[-> Ho]]%owns_set_phase; [exact Ho|]. cbn [owns]. unfold loc. rewrite Hck.
    destruct Hidle as [E|[w E]]; rewrite E in *.
    + destruct Ho as [[=]|[[b [=]]|[(c & [=] & _)|[=]]]].
    + apply owns_ins in Ho as [-> |[b [=]]]. apply owns_ins. by left.
Qed.
(** ** Operations of a checkpoint job *)

Lemma owns_ck c ck p :
  owns_local (mk_local (Some (checkpoint_status c)) Idle ck) p <->
  cs_Port c = p /\ p <> 0 \/ ck = CkHolds p.
Proof using Type.
  unfold owns_local. cbn. split.
  - intros [[=]|[[b [=]]|[(c' & [= <-] & Hp)|Hp]]]; auto.
  - intros [Hp|Hp]; right; right; [left; eauto|by right].
Qed.

Lemma core_ck n g id :
  core n g -> is_cp id = true -> g_ins g id = Idle /\ ck_ok (table n !! id) (g_ck g id).
Proof using Type. intros Hc Hi. pose proof (co_local _ _ Hc id) as Hl. unfold local_ok in Hl. by rewrite Hi in Hl. Qed.

Lemma update_ck n g id nc u n' :
  core n g -> is_cp id = true -> g_ck g id <> CkEnded ->
  do_op (PUpdate id (checkpoint_status nc)) n = Some (u, n') ->
  exists s', n' = with_store s' n /\
    forall ck, ck_ok (Some (checkpoint_status (updated_ck (table n) id nc))) ck ->
      (forall p, cs_Port (updated_ck (table n) id nc) = p /\ p <> 0 \/ ck = CkHolds p ->
         owns_local (loc n g id) p) ->
      core (with_store s' n) (set_id id Idle ck g).
Proof using IL.
  intros Hc Hi Hne Eu. destruct (core_ck n g id Hc Hi) as [_ Hck].
  destruct (update_ck_total is_cp n id nc (core_node_ok n g Hc) Hi) as (s' & Es & Hok & ET).
  unfold checkpoint_status in Eu. rewrite Es in Eu. injection Eu as _ <-. exists s'.
  split; [done|]. intros ck Hph Hown.
  cbn [do_op] in Es. apply fmap_Some in Es as (s1 & Eu & E1). injection E1 as E1.
  assert (s1 = s') as -> by (by rewrite <-E1).
  eapply core_entry; [exact Hc|exact Eu|apply Hok|exact ET| | |].
  - intros (c & Hcc & Hs). unfold checkpointed in Hcc.
    destruct (g_ck g id); cbn in Hck; try (rewrite Hck in Hcc; cbn in Hcc; simplify_eq; by destruct Hs).
    done.
  - unfold local_ok. rewrite Hi. by split.
  - intros p Hp%owns_ck. by apply Hown.
Qed.

Lemma begin_ck n g id u n' :
  core n g -> is_cp id = true -> g_ck g id = CkFresh -> do_op (PUpdate id (begun 0)) n = Some (u, n') ->
  core n' (set_id id Idle CkBegun g).
Proof using IL.
  intros Hc Hi Hph Eu. destruct (core_ck n g id Hc Hi) as [_ Hck]. rewrite Hph in Hck. cbn in Hck.
  destruct (update_ck n g id _ u n' Hc Hi ltac:(by rewrite Hph) Eu) as (s' & -> & Hgo).
  unfold updated_ck, checkpointed in Hgo. rewrite Hck in Hgo. cbn in Hgo. apply Hgo; [done|].
  intros p [[<- Hp]|[=]]. done.
Qed.

Lemma port_ck n g id p u n' :
  core n g -> is_cp id = true -> g_ck g id = CkHolds p -> do_op (PUpdate id (begun p)) n = Some (u, n') ->
  core n' (set_id id Idle (CkPorted p) g).
Proof using IL.
  intros Hc Hi Hph Eu. destruct (core_ck n g id Hc Hi) as [_ Hck]. rewrite Hph in Hck. cbn in Hck.
  destruct (update_ck n g id _ u n' Hc Hi ltac:(by rewrite Hph) Eu) as (s' & -> & Hgo).
  assert (owns n g (Some id) p) as Hown by (right; right; right; exact Hph).
  destruct (co_ports _ _ Hc) as [(_ & _ & Hr) Hmin Htk _].
  assert (p <> 0) as Hp0 by (pose proof (Hr p (Htk _ _ Hown)); lia).
  unfold updated_ck, checkpointed in Hgo. rewrite Hck in Hgo. cbn in Hgo.
  unfold merge_checkpoint in Hgo. cbn in Hgo. rewrite (proj2 (Z.eqb_neq _ _) Hp0) in Hgo.
  apply Hgo; [done|]. intros q [[<- _]|[=]]. exact Hown.
Qed.

Lemma end_ck n g id st msg t u n' :
  core n g -> is_cp id = true -> under_way (g_ck g id) ->
  do_op (PUpdate id (checkpoint_status (mk_cs st msg (Some t) 0))) n = Some (u, n') ->
  core n' (set_id id Idle CkEnded g).
Proof using IL.
  intros Hc Hi Hph Eu. destruct (core_ck n g id Hc Hi) as [_ Hck].
  destruct (update_ck n g id _ u n' Hc Hi ltac:(by destruct Hph as [-> |[p ->]]) Eu) as (s' & -> & Hgo).
  assert (exists q, table n !! id = Some (begun q)) as [q Hq].
  { destruct Hph as [E|[p E]]; rewrite E in Hck; cbn in Hck; eauto. }
  unfold updated_ck, checkpointed in Hgo. rewrite Hq in Hgo. cbn in Hgo.
  apply Hgo; [right; eexists; split; [reflexivity|]; by eexists|].
  intros p [[<- Hp]|[=]]. right. right. left. cbn [loc l_entry]. rewrite Hq. cbn. eauto.
Qed.

Lemma take_ck n g id x n' :
  core n g -> is_cp id = true -> g_ck g id = CkBegun -> do_op PAllocate n = Some (x, n') ->
  core n' (set_id id Idle (match x with Some p => CkHolds p | None => CkBegun end) g).
Proof using RL.
  intros Hc Hi Hph Eo. destruct (core_ck n g id Hc Hi) as [_ Hck]. rewrite Hph in Hck. cbn in Hck.
  eapply core_allocate; [done|exact Eo| |].
  - unfold local_ok. rewrite Hi, Hck. split; [done|]. by destruct x.
  - intros q. rewrite Hck. intros [[<- Hq]|Hq]%owns_ck; [done|]. destruct x; [|done]. congruence.
Qed.

Lemma spawn_ck n g id :
  core n g -> is_cp id = true -> table n !! id = None -> core n (set_id id Idle CkFresh g).
Proof using Type.
  intros Hc Hi Hnone. replace n with (with_alloc (n_alloc n) n) at 1 by (by destruct n).
  apply core_phase; [done| |].
  - unfold local_ok. rewrite Hi, Hnone. by split.
  - apply (ports_ok_mono (owns n g)); [apply Hc|].
    intros o q [Ho|[-> Ho]]%owns_set_phase; [exact Ho|]. rewrite Hnone in Ho.
    destruct Ho as [[=]|[[b [=]]|[(c & [=] & _)|[=]]]].
Qed.

(** ** Operations of the collector *)

Definition set_gc (ph : gc_phase) (g : ghost) : ghost := mk_ghost (g_ins g) (g_ck g) ph.

(** The collector goes on without a port. *)
Lemma core_set_gc n g ph :
  core n g -> gc_ok n ph -> (forall p, gc_owns n ph p -> gc_owns n (g_gc g) p) ->
  core n (set_gc ph g).
Proof using Type.
  intros [H1 H2 H3 H4] Hg Ho. split; [done|exact H2| |exact Hg].
  apply (ports_ok_mono (owns n g)); [done|]. intros [i|] p; [done|apply Ho].
Qed.

(** What the collector reads through a handle that is in the table. *)
Lemma load_entry n id h c :
  store_view (n_store n) !! id = Some h -> sv_checkpoint (store_load (n_store n) h) = Some c ->
  checkpointed (table n) id = Some c.
Proof using IL.
  intros Hv Hc. unfold checkpointed, table. by rewrite store_view_law, lookup_fmap, Hv.
Qed.

(** A completed status belongs to a job that has ended. *)
Lemma completed_ended n g id :
  core n g -> completed_entry n id -> is_cp id = true /\ g_ck g id = CkEnded.
Proof using Type.
  intros Hc (c & Hck & Hs). pose proof (co_local _ _ Hc id) as Hl. unfold local_ok in Hl.
  unfold checkpointed in Hck. destruct (is_cp id).
  - split; [done|]. destruct Hl as [_ Hl]. cbn [loc l_entry l_ck] in Hl.
    destruct (g_ck g id); cbn in Hl; try (rewrite Hl in Hck; cbn in Hck; simplify_eq; by destruct Hs).
    done.
  - destruct Hl as [_ Hl%ins_recorded]. cbn [loc l_entry] in Hl. congruence.
Qed.

Lemma table_del n id :
  store_ok (n_store n) -> table (with_store (store_del id (n_store n)) n) = delete id (table n).
Proof using IL. intros Hok. by apply store_del_law. Qed.

Lemma loc_del_ne n g id i :
  store_ok (n_store n) -> i <> id ->
  loc (with_store (store_del id (n_store n)) n) g i = loc n g i.
Proof using IL. intros Hok Hne. unfold loc. by rewrite table_del, lookup_delete_ne. Qed.

Lemma loc_del_eq n g id :
  store_ok (n_store n) ->
  loc (with_store (store_del id (n_store n)) n) g id = mk_local None (g_ins g id) (g_ck g id).
Proof using IL. intros Hok. unfold loc. by rewrite table_del, lookup_delete_eq. Qed.

Lemma owns_nothing ck p : ck <> CkHolds p -> ~ owns_local (mk_local None Idle ck) p.
Proof using Type. intros Hne [[=]|[[b [=]]|[(c & [=] & _)|Hc]]]. done. Qed.

Lemma drop_gc n g id h K u n' :
  core n g -> g_gc g = GcScan (Some (id, h)) K -> do_op (PDel id) n = Some (u, n') ->
  core n' (set_gc (GcDropped h (delete id K)) g).
Proof using IL.
  intros Hc Hph Eo. cbn in Eo. injection Eo as _ <-.
  pose proof (co_gc _ _ Hc) as Hg. rewrite Hph in Hg. destruct Hg as [HK Hdue].
  destruct (Hdue id h eq_refl) as [Hv Hce].
  destruct (completed_ended n g id Hc Hce) as [Hi Hend].
  destruct (core_ck n g id Hc Hi) as [Hidle _]. destruct Hc as [H1 H2 H3 H4].
  set (n' := with_store _ n).
  assert (forall p, ~ owns n' (set_gc (GcDropped h (delete id K)) g) (Some id) p) as Hnone.
  { intros p. cbn [owns]. unfold n'. rewrite loc_del_eq by done. cbn [set_gc g_ins g_ck].
    rewrite Hidle, Hend. by apply owns_nothing. }
  split.
  - by apply store_del_law.
  - intros i. destruct (decide (i = id)) as [-> |Hne].
    + unfold n'. rewrite loc_del_eq by done. unfold local_ok. rewrite Hi. cbn. rewrite Hend.
      split; [done|by left].
    + unfold n'. rewrite loc_del_ne by done. apply H2.
  - apply (ports_ok_rename (owns n g) _ _ (fun o => match o with None => Some id | _ => o end));
      [exact H3| |].
    + intros [i|] p Ho.
      * destruct (decide (i = id)) as [-> |Hne]; [by apply Hnone in Ho|].
        cbn [owns] in *. unfold n' in Ho. by rewrite loc_del_ne in Ho.
      * destruct Ho as (Hp & c & Hc & Hcp). cbn [n' n_store with_store] in Hc.
        rewrite store_load_del in Hc. pose proof (load_entry n id h c Hv Hc) as Hck.
        right. right. left. exists c. split; [exact Hck|by split].
    + intros [i|] [j|] p Ho Ho' E; [exact E| | |done].
      * injection E as ->. by apply Hnone in Ho.
      * injection E as <-. by apply Hnone in Ho'.
  - cbn [set_gc g_gc gc_ok n_store with_store]. split.
    + intros i h' [Hne Hi']%lookup_delete_Some Hs. cbn.
      rewrite store_view_del, lookup_delete_ne by done. by apply HK.
    + by apply (store_outside_del id).
Qed.
Lemma free_gc n g p K u n' :
  core n g -> g_gc g = GcFrees p K -> do_op (PFree p) n = Some (u, n') ->
  core n' (set_gc (GcScan None K) g).
Proof using Type.
  intros Hc Hph Eo. cbn in Eo. injection Eo as _ <-.
  pose proof (co_gc _ _ Hc) as Hg. rewrite Hph in Hg. destruct Hc as [H1 H2 H3 H4].
  split; [done|exact H2| |by split].
  apply (ports_ok_free (owns n g) _ _ None); [done| |by intros [i|] q|by intros _ []].
  cbn [owns]. rewrite Hph. destruct (Z.eq_dec p 0); [by right|by left].
Qed.

(** Only the store and the allocator matter. *)
Lemma core_ext n n' g :
  n_store n' = n_store n -> n_alloc n' = n_alloc n -> core n g -> core n' g.
Proof using Type.
  intros Es Ea [H1 H2 H3 H4]. destruct n as [s m a c e], n' as [s' m' a' c' e']. cbn in Es, Ea.
  subst s' a'. by split.
Qed.

(** The status of a workload that is gone is dropped. *)
Lemma cleanup_core n g id w :
  core n g -> recorded (table n) id = Some w -> gone_status w -> g_ins g id = Idle ->
  core (with_store (store_del id (n_store n)) n) g.
Proof using IL.
  intros Hc Hw Hgone Hidle. pose proof Hc as [H1 H2 H3 H4].
  assert (is_cp id = false) as Hi.
  { pose proof (H2 id) as Hl. unfold local_ok in Hl. destruct (is_cp id); [|done].
    destruct Hl as [_ Hl]. unfold recorded in Hw. cbn [loc l_entry l_ck] in Hl.
    destruct (g_ck g id); cbn in Hl; try by rewrite Hl in Hw.
    destruct Hl as [Hl|(c & Hl & _)]; by rewrite Hl in Hw. }
  destruct (core_ins n g id Hc Hi) as [Hck Hins].
  assert (forall i h, store_view (n_store n) !! i = Some h -> is_Some (st_checkpoint h) -> i <> id) as Hne.
  { intros i h Hv Hs ->. apply (store_part_law (n_store n) id h H1 Hv) in Hs as [c Hc'].
    apply (load_entry n id h c Hv) in Hc'. unfold checkpointed in Hc'.
    by rewrite (ins_recorded _ _ Hins) in Hc'. }
  assert (forall K, known n K -> known (with_store (store_del id (n_store n)) n) K) as Hkn.
  { intros K HK i h Hi' Hs. cbn. rewrite store_view_del. pose proof (HK i h Hi' Hs) as Hv.
    rewrite lookup_delete_ne; [done|]. intros <-. by apply (Hne id h). }
  split.
  - by apply store_del_law.
  - intros i. destruct (decide (i = id)) as [-> |Hd].
    + rewrite loc_del_eq by done. unfold local_ok. rewrite Hi. cbn. rewrite Hidle. split; [done|by left].
    + rewrite loc_del_ne by done. apply H2.
  - apply (ports_ok_mono (owns n g)); [done|]. intros [i|] p.
    + cbn [owns]. destruct (decide (i = id)) as [-> |Hd]; [|by rewrite loc_del_ne].
      rewrite loc_del_eq by done. rewrite Hidle, Hck. by intros Ho%owns_nothing.
    + cbn [owns]. destruct (g_gc g); cbn [gc_owns n_store with_store]; try done.
      by rewrite store_load_del.
  - destruct (g_gc g) as [|due K|h K|p K]; cbn [gc_ok] in *; [done| | |by apply Hkn].
    + destruct H4 as [HK Hdue]. split; [by apply Hkn|]. intros i h Hd.
      destruct (Hdue i h Hd) as [Hv (c & Hc' & Hcc)].
      assert (i <> id) as Hd'.
      { intros ->. unfold checkpointed in Hc'. by rewrite (ins_recorded _ _ Hins) in Hc'. }
      cbn. rewrite store_view_del, lookup_delete_ne by done. split; [done|]. exists c.
      unfold checkpointed. rewrite table_del, lookup_delete_ne by done. by split.
    + destruct H4 as [HK Ho]. split; [by apply Hkn|]. by apply store_outside_keep.
Qed.

(** ** All steps *)

Definition ins_pool (G : gmap string (gor unit)) (g : ghost) : Prop :=
  forall id, match G !! id with
             | Some p => is_cp id = false /\ follows id (g_ins g id) p
             | None => g_ins g id = Idle
             end.
Definition ck_pool (C : gmap string (gor (option string))) (g : ghost) : Prop :=
  forall id, match C !! id with
             | Some p => is_cp id = true /\ ck_follows id (g_ck g id) p finished
             | None => g_ck g id = CkEnded
             end.
Definition gc_run (gc : option (gor (option string))) (g : ghost) : Prop :=
  match gc with
  | Some p => gc_follows (g_gc g) p scanning
  | None => g_gc g = GcStart
  end.

Record plat_inv (s : plat S) (g : ghost) : Prop := {
  pv_core : core (pl_node s) g;
  pv_ins : ins_pool (pl_ins s) g;
  pv_ck : ck_pool (pl_cks s) g;
  pv_gc : gc_run (pl_gc s) g;
}.

(** A goroutine of the reconciler is in a new phase, and has a new
    continuation. *)
Lemma ins_moves n G C gc g id p ph :
  plat_inv (mk_plat n G C gc) g -> is_cp id = false ->
  forall n', core n' (set_id id ph CkEnded g) -> follows id ph p ->
  plat_inv (mk_plat n' (<[id := p]> G) C gc) (set_id id ph CkEnded g).
Proof using Type.
  intros [H1 H2 H3 H4] Hi n' Hc Hf. split; [done| | |done]; cbn [pl_ins pl_cks].
  - intros i. cbn [set_id g_ins]. destruct (decide (i = id)) as [-> |Hne].
    + by rewrite lookup_insert_eq, fn_lookup_insert.
    + rewrite lookup_insert_ne, fn_lookup_insert_ne by done. apply H2.
  - intros i. cbn [set_id g_ck]. destruct (decide (i = id)) as [-> |Hne].
    + rewrite fn_lookup_insert. specialize (H3 id). cbn [pl_cks] in H3.
      destruct (C !! id); [by destruct H3; congruence|done].
    + rewrite fn_lookup_insert_ne by done. apply H3.
Qed.

Lemma ck_moves n G C gc g id p ph :
  plat_inv (mk_plat n G C gc) g -> is_cp id = true ->
  forall n', core n' (set_id id Idle ph g) -> ck_follows id ph p finished ->
  plat_inv (mk_plat n' G (<[id := p]> C) gc) (set_id id Idle ph g).
Proof using Type.
  intros [H1 H2 H3 H4] Hi n' Hc Hf. split; [done| | |done]; cbn [pl_ins pl_cks].
  - intros i. cbn [set_id g_ins]. destruct (decide (i = id)) as [-> |Hne].
    + rewrite fn_lookup_insert. specialize (H2 id). cbn [pl_ins] in H2.
      destruct (G !! id); [by destruct H2; congruence|done].
    + rewrite fn_lookup_insert_ne by done. apply H2.
  - intros i. cbn [set_id g_ck]. destruct (decide (i = id)) as [-> |Hne].
    + by rewrite lookup_insert_eq, fn_lookup_insert.
    + rewrite lookup_insert_ne, fn_lookup_insert_ne by done. apply H3.
Qed.

(** Phases as they are. *)
Lemma set_id_same n g id :
  core n g -> core n (set_id id (g_ins g id) (g_ck g id) g).
Proof using Type.
  intros Hc. replace n with (with_alloc (n_alloc n) n) at 1 by (by destruct n).
  apply core_phase; [done|apply Hc|]. apply (ports_ok_mono (owns n g)); [apply Hc|].
  intros o q [Ho|[-> Ho]]%owns_set_phase; exact Ho.
Qed.

Lemma ins_stays n n' G C gc g id p :
  plat_inv (mk_plat n G C gc) g -> is_cp id = false ->
  n_store n' = n_store n -> n_alloc n' = n_alloc n -> follows id (g_ins g id) p ->
  exists g', plat_inv (mk_plat n' (<[id := p]> G) C gc) g'.
Proof using Type.
  intros Hinv Hi Es Ea Hf. exists (set_id id (g_ins g id) CkEnded g). eapply ins_moves; [done|done| |done].
  pose proof (pv_core _ _ Hinv) as Hc. eapply core_ext; [exact Es|exact Ea|].
  destruct (core_ins _ _ id Hc Hi) as [<- _]. by apply set_id_same.
Qed.

Lemma ck_stays n n' G C gc g id p :
  plat_inv (mk_plat n G C gc) g -> is_cp id = true ->
  n_store n' = n_store n -> n_alloc n' = n_alloc n -> ck_follows id (g_ck g id) p finished ->
  exists g', plat_inv (mk_plat n' G (<[id := p]> C) gc) g'.
Proof using Type.
  intros Hinv Hi Es Ea Hf. exists (set_id id Idle (g_ck g id) g). eapply ck_moves; [done|done| |done].
  pose proof (pv_core _ _ Hinv) as Hc. eapply core_ext; [exact Es|exact Ea|].
  destruct (core_ck _ _ id Hc Hi) as [<- _]. by apply set_id_same.
Qed.
Definition plat_ok (s : plat S) : Prop := exists g, plat_inv s g.

Lemma ins_op_inv n G C gc id X (o : pop X) k x n' :
  plat_ok (mk_plat n G C gc) -> G !! id = Some (GDo o k) -> do_op o n = Some (x, n') ->
  plat_ok (mk_plat n' (<[id := k x]> G) C gc).
Proof using IL RL.
  intros [g Hinv] Hid Eo. pose proof (pv_ins _ _ Hinv id) as Hf. cbn [pl_ins] in Hf.
  rewrite Hid in Hf. destruct Hf as [Hi Hf]. pose proof (pv_core _ _ Hinv) as Hc. cbn [pl_node] in Hc.
  destruct o as [id'|id' m|id' v|id'| |port|w attempt|id'|id'|id'| |h| |X c]; cbn [follows] in Hf;
    try done.
  - cbn in Eo. simplify_eq. by eapply ins_stays.
  - cbn in Eo. simplify_eq. destruct Hf as [-> Hf]. by eapply ins_stays.
  - destruct x, Hf as [-> [(-> & Hr & Hf)|[(Hv & Hr & Hf)|[(p & b & Hp & -> & Hf)|(p & Hp & -> & Hf)]]]].
    + eexists. eapply ins_moves; [done|done| |exact Hf]. eapply record_state; eauto; done.
    + eexists. eapply ins_moves; [done|done| |exact Hf].
      destruct Hv as [-> | ->]; eapply record_state; eauto; done.
    + eexists. eapply ins_moves; [done|done| |exact Hf]. by eapply record_port.
    + eexists. eapply ins_moves; [done|done| |exact Hf]. by eapply record_running.
  - cbn in Eo. simplify_eq. by eapply ins_stays.
  - destruct Hf as (Hph & H0 & H1). eexists. eapply ins_moves; [done|done|by eapply take_ins|].
    destruct x; auto.
  - destruct x, Hf as [[b Hph] Hf]. eexists. eapply ins_moves; [done|done| |exact Hf].
    by eapply free_ins.
  - cbn in Eo. simplify_eq. destruct Hf as (_ & _ & Hf). by eapply ins_stays.
  - cbn in Eo. simplify_eq. destruct Hf as [_ Hf]. by eapply ins_stays.
  - cbn in Eo. simplify_eq. destruct Hf as [_ Hf]. by eapply ins_stays.
Qed.

Lemma ck_op_inv n G C gc id X (o : pop X) k x n' :
  plat_ok (mk_plat n G C gc) -> C !! id = Some (GDo o k) -> do_op o n = Some (x, n') ->
  plat_ok (mk_plat n' G (<[id := k x]> C) gc).
Proof using IL RL.
  intros [g Hinv] Hid Eo. pose proof (pv_ck _ _ Hinv id) as Hf. cbn [pl_cks] in Hf.
  rewrite Hid in Hf. destruct Hf as [Hi Hf]. pose proof (pv_core _ _ Hinv) as Hc. cbn [pl_node] in Hc.
  destruct o; cbn [ck_follows] in Hf; try done.
  - destruct x, Hf as [-> [(Hp & -> & Hf)|[(p & Hp & -> & Hf)|(Hp & (st' & msg & t & ->) & Hf)]]].
    + eexists. eapply ck_moves; [done|done| |exact Hf]. by eapply begin_ck.
    + eexists. eapply ck_moves; [done|done| |exact Hf]. by eapply port_ck.
    + eexists. eapply ck_moves; [done|done| |exact Hf]. by eapply end_ck.
  - destruct Hf as (Hph & H0 & H1). eexists. eapply ck_moves; [done|done|by eapply take_ck|].
    destruct x; auto.
  - cbn in Eo. simplify_eq. by eapply ck_stays.
Qed.

(** The collector is in a new phase. *)
Lemma gc_moves n G C gc g n' ph p :
  plat_inv (mk_plat n G C gc) g -> core n' (set_gc ph g) -> gc_follows ph p scanning ->
  plat_ok (mk_plat n' G C (Some p)).
Proof using Type. intros [H1 H2 H3 H4] Hc Hf. exists (set_gc ph g). by split. Qed.

Lemma gc_op_inv n G C X (o : pop X) k x n' :
  plat_ok (mk_plat n G C (Some (GDo o k))) -> do_op o n = Some (x, n') ->
  plat_ok (mk_plat n' G C (Some (k x))).
Proof using IL.
  intros [g Hinv] Eo. pose proof (pv_gc _ _ Hinv) as Hf. cbn [pl_gc gc_run] in Hf.
  pose proof (pv_core _ _ Hinv) as Hc. cbn [pl_node] in Hc. pose proof (co_gc _ _ Hc) as Hg.
  destruct o as [id'|id' m|id' v|id'| |port|w attempt|id'|id'|id'| |h| |X c]; cbn [gc_follows] in Hf;
    try done.
  - destruct x, Hf as (K & Hph & Hf). eapply gc_moves; [done| |exact Hf]. by eapply free_gc.
  - destruct x, Hf as (h & K & Hph & Hf). eapply gc_moves; [done| |exact Hf]. by eapply drop_gc.
  - cbn in Eo. simplify_eq. destruct Hf as [Hph Hf]. eapply gc_moves; [done| |apply Hf].
    apply core_set_gc; [done| |done]. split; [|done]. intros id h Hv _. exact Hv.
  - cbn [do_op] in Eo. destruct (sv_checkpoint (store_load (n_store n) h)) as [c|] eqn:El; [|done].
    cbn in Eo. injection Eo as <- <-. destruct (g_gc g) as [|due K|h' K|p K] eqn:Hph; [done| | |done].
    + destruct Hg as [HK Hdue]. destruct Hf as [(id & -> & Hf)|(id & Hid & Hs & Hf)].
      * destruct (Hdue id h eq_refl) as [Hv (c' & Hc' & Hcc)].
        pose proof (load_entry n id h c Hv El) as Hc2. assert (c' = c) as -> by congruence.
        eapply gc_moves; [done| |by apply Hf]. apply core_set_gc; [done|by split|done].
      * pose proof (HK id h Hid Hs) as Hv. pose proof (load_entry n id h c Hv El) as Hck.
        specialize (Hf c). destruct (cs_CompletedAt c) as [t|] eqn:Et.
        -- eapply gc_moves; [done| |exact Hf]. apply core_set_gc; [done| |done].
           split; [done|]. intros i h2 [= <- <-]. split; [done|]. exists c. rewrite Et. eauto.
        -- eapply gc_moves; [done| |exact Hf]. apply core_set_gc; [done|by split|done].
    + destruct Hg as [HK _], Hf as [-> Hf]. eapply gc_moves; [done| |apply Hf].
      apply core_set_gc; [done|exact HK|]. rewrite Hph. intros q [Hq <-]. split; [done|]. eauto.
  - cbn in Eo. simplify_eq. eapply gc_moves; [done| |apply Hf]. apply (core_ext n); [done|done|].
    destruct g. exact Hc.
Qed.

Lemma plat_step_inv a b : plat_step a b -> plat_ok a -> plat_ok b.
Proof using IL RL.
  intros Hstep Hok. destruct Hstep as [n G C gc ins Hi Hn|n G C gc id X o k x n' Hid Eo|n G C gc id Hid
    |n C gc id w Hw Hg|n G C gc id u n' Hi Eo|n G C gc id baseRef Hi Hn Ht|n G C gc id X o k x n' Hid Eo
    |n G C gc id ret Hid|n G C order Hord|n G C X o k x n' Eo|n G C ret].
  - destruct Hok as [g Hinv]. pose proof (pv_ins _ _ Hinv (ins_Id ins)) as Hf. cbn [pl_ins] in Hf.
    rewrite Hn in Hf. eapply ins_stays; [done|done|done|done|]. rewrite Hf. apply reconcile_follows.
  - by eapply ins_op_inv.
  - destruct Hok as [g Hinv]. pose proof (pv_ins _ _ Hinv id) as Hf. cbn [pl_ins] in Hf.
    rewrite Hid in Hf. destruct Hf as [Hi Hf]. cbn in Hf. pose proof (pv_core _ _ Hinv) as Hc.
    pose proof (ins_moves n G C gc g id (GRet tt) Idle Hinv Hi n (rest_ins n g id Hc Hi Hf) Logic.I)
      as [H1 H2 H3 H4].
    exists (set_id id Idle CkEnded g). split; [done| |done|done]. intros i. specialize (H2 i).
    cbn [pl_ins] in *. destruct (decide (i = id)) as [-> |Hne].
    + rewrite lookup_delete_eq. cbn [set_id g_ins]. by rewrite fn_lookup_insert.
    + rewrite lookup_delete_ne by done. by rewrite lookup_insert_ne in H2.
  - destruct Hok as [g [H1 H2 H3 H4]]. exists g. split; [|done|done|done]. cbn [pl_node pl_ins] in *.
    eapply cleanup_core; [done|done|done|]. specialize (H2 id). by rewrite lookup_empty in H2.
  - destruct Hok as [g Hinv]. pose proof (pv_core _ _ Hinv) as Hc. cbn [pl_node] in Hc.
    exists (set_id id (g_ins g id) CkEnded g).
    assert (core n' (set_id id (g_ins g id) CkEnded g)) as Hc'
      by (eapply record_state; [done|done|exact Eo|done|done|by left]).
    destruct Hinv as [H1 H2 H3 H4]. split; [done| | |done]; cbn [pl_ins pl_cks] in *.
    + intros i. specialize (H2 i). cbn [set_id g_ins]. destruct (decide (i = id)) as [-> |Hne].
      * by rewrite fn_lookup_insert.
      * by rewrite fn_lookup_insert_ne.
    + intros i. specialize (H3 i). cbn [set_id g_ck]. destruct (decide (i = id)) as [-> |Hne].
      * rewrite fn_lookup_insert. destruct (C !! id); [by destruct H3; congruence|done].
      * by rewrite fn_lookup_insert_ne.
  - destruct Hok as [g Hinv]. pose proof (pv_core _ _ Hinv) as Hc. eexists.
    eapply ck_moves; [done|done|by apply spawn_ck|apply checkpoint_follows].
  - by eapply ck_op_inv.
  - destruct Hok as [g [H1 H2 H3 H4]]. exists g. split; [done|done| |done]. intros i. specialize (H3 i).
    cbn [pl_cks] in *. destruct (decide (i = id)) as [-> |Hne].
    + rewrite Hid in H3. destruct H3 as [_ H3]. by rewrite lookup_delete_eq.
    + by rewrite lookup_delete_ne.
  - destruct Hok as [g [H1 H2 H3 H4]]. exists g. split; [done..|]. cbn [pl_gc gc_run] in *. rewrite H4.
    by apply collect_follows.
  - by eapply gc_op_inv.
  - destruct Hok as [g [H1 H2 H3 H4]]. cbn [pl_gc gc_run gc_follows] in H4.
    destruct H4 as (due & K & Hph). exists (set_gc GcStart g).
    split; [|exact H2|exact H3|done]. by apply core_set_gc.
Qed.

(** The configured range of ports stays. *)
Definition in_range (lo hi : Z) (s : plat S) : Prop :=
  portMin (n_alloc (pl_node s)) = lo /\ portMax (n_alloc (pl_node s)) = hi.

Lemma do_op_range {X} (o : pop X) n x n' :
  do_op o n = Some (x, n') ->
  portMin (n_alloc n') = portMin (n_alloc n) /\ portMax (n_alloc n') = portMax (n_alloc n).
Proof using Type.
  intros E. destruct o; cbn [do_op] in E; simplify_eq; try done.
  - destruct (store_update id st (n_store n)); by simplify_eq/=.
  - pose proof (allocate_loop_range maxTries (n_alloc n)) as Hr. fold Allocate in Hr.
    destruct (Allocate (n_alloc n)) as [[p|msg|] a]; by simplify_eq.
  - destruct (sv_checkpoint _); by simplify_eq/=.
Qed.

Lemma plat_step_range lo hi a b : plat_step a b -> in_range lo hi a -> in_range lo hi b.
Proof using Type.
  unfold in_range. intros Hs Hr. destruct Hs; cbn [pl_node] in *; try done;
    match goal with E : do_op _ _ = Some _ |- _ => by destruct (do_op_range _ _ _ _ E) as [-> ->] end.
Qed.
End system.

Arguments plat_step {S I R W En} is_cp cfg ccfg _ _.
Arguments plat_ok {S I} is_cp _.

(** A node at its start. *)
Definition fresh_plat (lo hi : Z) : plat MemStore := mk_plat (fresh_node lo hi) ∅ ∅ None.

Lemma fresh_plat_ok is_cp lo hi : 0 < lo <= hi -> hi < 2 ^ 16 -> plat_ok is_cp (fresh_plat lo hi).
Proof.
  intros Hlo Hhi. pose proof (fresh_node_ok is_cp lo hi Hlo Hhi) as [H1 H2 H3].
  exists (mk_ghost (fun _ => Idle) (fun _ => CkEnded) GcStart).
  split; [split| | |done]; cbn [pl_node fresh_plat].
  - exact H1.
  - intros id. unfold local_ok, loc. rewrite fresh_node_table, lookup_empty.
    destruct (is_cp id); by split; [|left].
  - assert (forall o p, ~ owns (fresh_node lo hi) (mk_ghost (fun _ => Idle) (fun _ => CkEnded) GcStart) o p)
      as Hno.
    { intros [id|] p; [|by intros []]. cbn [owns]. unfold loc. rewrite fresh_node_table, lookup_empty.
      by apply owns_nothing. }
    split; [done|cbn; lia| |]; intros o; [intros p Ho|intros o' p Ho]; by apply Hno in Ho.
  - done.
  - intros id. cbn [pl_ins fresh_plat]. by rewrite lookup_empty.
  - intros id. cbn [pl_cks fresh_plat]. by rewrite lookup_empty.
Qed.

(** The id has a host port according to the store: as a running workload, or as
    a checkpoint job whose status has not been dropped. *)
Definition has_port (T : gmap string StatusV) (id : string) (p : Z) : Prop :=
  running_on T id p \/ exists c, checkpointed T id = Some c /\ cs_Port c = p /\ p <> 0.

(** C8: no two users of the node's host ports ever share one: in every state
    that the reconciler's goroutines, the checkpoint jobs, the garbage collector
    and the API can reach, in any interleaving, whatever the runtime answers and
    the random source draws, workloads recorded as running and checkpoint jobs
    are on different ports, each in the configured range and marked as taken. *)
Theorem host_ports_exclusive (R : RandSource) (RL : RandLaws R) (W : WorkloadService) (En : Env)
    (is_cp : string -> bool) (cfg : reconcilerConfig) (ccfg : Config) (lo hi : Z) (s : plat MemStore) :
  0 < lo <= hi -> hi < 2 ^ 16 -> rtc (plat_step is_cp cfg ccfg) (fresh_plat lo hi) s ->
  (forall id id' p, has_port (table (pl_node s)) id p -> has_port (table (pl_node s)) id' p -> id = id') /\
  (forall id p, has_port (table (pl_node s)) id p ->
     taken (n_alloc (pl_node s)) p /\ lo <= p <= hi).
Proof.
  intros Hlo Hhi Hr.
  destruct (rtc_preserves (plat_step is_cp cfg ccfg) (plat_ok is_cp) (plat_step_inv is_cp cfg ccfg) _ _ Hr
    (fresh_plat_ok is_cp lo hi Hlo Hhi)) as (g & Hinv).
  destruct (rtc_preserves (plat_step is_cp cfg ccfg) (in_range lo hi) (plat_step_range is_cp cfg ccfg lo hi)
    _ _ Hr (conj eq_refl eq_refl)) as [<- <-].
  destruct (co_ports _ _ _ (pv_core _ _ _ Hinv)) as [Hwf _ Htk Hun].
  assert (forall id p, has_port (table (pl_node s)) id p -> owns (pl_node s) g (Some id) p) as Hown.
  { intros id p [Hp|Hp]; [by left|by right; right; left]. }
  split.
  - intros id id' p H1 H2. by injection (Hun _ _ _ (Hown _ _ H1) (Hown _ _ H2)) as ->.
  - intros id p Hp. pose proof (Htk _ _ (Hown _ _ Hp)) as Ht. split; [done|]. by apply Hwf.
Qed.

(** ** Schedules *)

(** A choice of the scheduler: start something, or let it perform its next
    operation. *)
Inductive choice :=
| Spawn (ins : Instance) | Step (id : string)
| SpawnCk (id : string) (baseRef : Reference) | StepCk (id : string)
| SpawnGc | StepGc.

Section schedule.
Context {S : Type} {I : StatusStore S} {R : RandSource} {W : WorkloadService} {En : Env}.
Context (is_cp : string -> bool) (cfg : reconcilerConfig) (ccfg : Config).

Definition sched1 (c : choice) (s : plat S) : option (plat S) :=
  let '(mk_plat n G C gc) := s in
  match c with
  | Spawn ins =>
      match G !! ins_Id ins, is_cp (ins_Id ins) with
      | None, false => Some (mk_plat n (<[ins_Id ins := reconcile cfg ins]> G) C gc)
      | _, _ => None
      end
  | Step id =>
      match G !! id with
      | Some (GDo o k) =>
          match do_op o n with Some (x, n') => Some (mk_plat n' (<[id := k x]> G) C gc) | None => None end
      | Some (GRet _) => Some (mk_plat n (delete id G) C gc)
      | None => None
      end
  | SpawnCk id baseRef =>
      match C !! id, table n !! id, is_cp id with
      | None, None, true => Some (mk_plat n G (<[id := checkpoint ccfg id baseRef]> C) gc)
      | _, _, _ => None
      end
  | StepCk id =>
      match C !! id with
      | Some (GDo o k) =>
          match do_op o n with Some (x, n') => Some (mk_plat n' G (<[id := k x]> C) gc) | None => None end
      | Some (GRet _) => Some (mk_plat n G (delete id C) gc)
      | None => None
      end
  | SpawnGc =>
      match gc with
      | None => Some (mk_plat n G C (Some (CollectGarbage ccfg map_to_list)))
      | Some _ => None
      end
  | StepGc =>
      match gc with
      | Some (GDo o k) =>
          match do_op o n with Some (x, n') => Some (mk_plat n' G C (Some (k x))) | None => None end
      | Some (GRet _) => Some (mk_plat n G C None)
      | None => None
      end
  end.

Fixpoint sched (cs : list choice) (s : plat S) : option (plat S) :=
  match cs with
  | [] => Some s
  | c :: cs => match sched1 c s with Some s' => sched cs s' | None => None end
  end.

Lemma sched1_step c a b : sched1 c a = Some b -> plat_step is_cp cfg ccfg a b.
Proof using Type.
  destruct a as [n G C gc], c as [ins|id|id baseRef|id| |]; cbn.
  - destruct (G !! ins_Id ins) eqn:E, (is_cp (ins_Id ins)) eqn:Ei; intros; simplify_eq. by apply ps_spawn.
  - destruct (G !! id) as [[[]|X o k]|] eqn:E; intros; simplify_eq; [by apply ps_done|].
    destruct (do_op o n) as [[x n']|] eqn:Eo; simplify_eq. by eapply ps_op.
  - destruct (C !! id) eqn:E, (table n !! id) eqn:Et, (is_cp id) eqn:Ei; intros; simplify_eq.
    by apply ps_checkpoint.
  - destruct (C !! id) as [[ret|X o k]|] eqn:E; intros; simplify_eq; [by eapply ps_ck_done|].
    destruct (do_op o n) as [[x n']|] eqn:Eo; simplify_eq. by eapply ps_ck_op.
  - destruct gc; intros; simplify_eq. by apply ps_collect.
  - destruct gc as [[ret|X o k]|]; intros; simplify_eq; [by apply ps_gc_done|].
    destruct (do_op o n) as [[x n']|] eqn:Eo; simplify_eq. by apply ps_gc_op.
Qed.

Lemma sched_steps cs a b : sched cs a = Some b -> rtc (plat_step is_cp cfg ccfg) a b.
Proof using Type.
  revert a. induction cs as [|c cs IH]; intros a; cbn; [intros [= ->]; apply rtc_refl|].
  destruct (sched1 c a) as [a'|] eqn:E; [|done]. intros Hs. eapply rtc_l; [by eapply sched1_step|].
  by apply IH.
Qed.
End schedule.

(** ** Concrete runs *)

(** The goroutine of x runs until it has freed its port; that of y then gets
    the same port and starts its workload. *)
Definition race : list choice :=
  [Spawn (demo_instance "x"); Spawn (demo_instance "y")] ++
  replicate 7 (Step "x") ++ replicate 8 (Step "y").

(** The instance that the next operation of a goroutine removes. *)
Definition removes_next (g : gor unit) : option string :=
  match g with
  | GDo (PRemoveWorkload id) _ => Some id
  | _ => None
  end.

Lemma race_end :
  exists s, rtc (plat_step demo_is_cp demo_cfg demo_ck_cfg) (fresh_plat 30000 30100) s /\
    running_on (table (pl_node s)) "y" 30000 /\
    recorded (table (pl_node s)) "x" = Some (mk_ws WorkloadStateCreating 30000) /\
    pl_ins s !! "x" ≫= removes_next = Some "x".
Proof.
  assert ((fun s => (recorded (table (pl_node s)) "y", recorded (table (pl_node s)) "x",
                      pl_ins s !! "x" ≫= removes_next))
          <$> sched demo_is_cp demo_cfg demo_ck_cfg race (fresh_plat 30000 30100)
          = Some (Some (mk_ws WorkloadStateRunning 30000), Some (mk_ws WorkloadStateCreating 30000),
                  Some "x")) as E by (vm_compute; reflexivity).
  destruct (sched demo_is_cp demo_cfg demo_ck_cfg race (fresh_plat 30000 30100)) as [s|] eqn:Es; [|done].
  cbn [fmap option_fmap option_map fst snd] in E. injection E as Ey Ex Er.
  exists s. split; [exact (sched_steps _ _ _ race _ _ Es)|].
  split; [exact Ey|]. split; [exact Ex|exact Er].
Qed.

Lemma host_ports_exclusive_witness :
  exists s, rtc (plat_step demo_is_cp demo_cfg demo_ck_cfg) (fresh_plat 30000 30100) s /\
    running_on (table (pl_node s)) "y" 30000 /\ taken (n_alloc (pl_node s)) 30000.
Proof.
  destruct race_end as (s & Hr & Hy & _). exists s. split; [exact Hr|]. split; [exact Hy|].
  apply (proj2 (host_ports_exclusive ref_rand ref_rand_laws demo_service idle_env demo_is_cp demo_cfg
    demo_ck_cfg 30000 30100 s ltac:(lia) ltac:(lia) Hr) "y" 30000 (or_introl Hy)).
Defined.

(** A runtime that lists the pods it runs: those created and not yet removed,
    each with its uid as its id. *)
Fixpoint pods_of (h : list env_event) : list PodSandbox :=
  match h with
  | [] => []
  | ev :: h =>
      match ev with
      | Ev (RunPodSandbox pc) => {| sb_Id := pod_Uid pc; sb_Uid := pod_Uid pc |} :: pods_of h
      | Ev (RemovePodSandbox p) => filter (fun pod => sb_Id pod <> p) (pods_of h)
      | _ => pods_of h
      end
  end.

Definition env_pods : Env := {|
  answer X h call :=
    match call in env_call X return X with
    | ListPodSandbox _ _ => inr (pods_of h)
    | c => answer (Env := idle_env) h c
    end |}.

(** The collector has taken its view when the job starts; the job runs its pod,
    then the collector lists the pods. *)
Definition gc_race : list choice :=
  [SpawnGc; StepGc; StepGc; SpawnCk "c" demo_ref] ++ replicate 5 (StepCk "c") ++ replicate 2 StepGc.

(** The last call stops the pod that runs the job. *)
Definition stops_pod_of (h : list env_event) (id : string) : bool :=
  match h with
  | Ev (StopPodSandbox p) :: h' =>
      existsb (fun pod => String.eqb (sb_Id pod) p && String.eqb (sb_Uid pod) id) (pods_of h')
  | _ => false
  end.

(** The collector can take the pod of a job that is running: its view of
    the statuses is older than its list of pods, so that a job that started in
    between is not among those to keep.  There is a run at whose end the job is
    recorded as running, on its port, and the collector has just stopped its
    pod. *)
Theorem gc_stops_running_job :
  exists s c, rtc (plat_step (En := env_pods) demo_is_cp demo_cfg demo_ck_cfg) (fresh_plat 30000 30100) s /\
    checkpointed (table (pl_node s)) "c" = Some c /\
    cs_State c = CheckpointStateRunning /\ cs_Port c = 30000 /\ is_Some (pl_cks s !! "c") /\
    stops_pod_of (n_env (pl_node s)) "c" = true.
Proof.
  assert ((fun s => (checkpointed (table (pl_node s)) "c", bool_decide (is_Some (pl_cks s !! "c")),
                     stops_pod_of (n_env (pl_node s)) "c"))
          <$> sched (En := env_pods) demo_is_cp demo_cfg demo_ck_cfg gc_race (fresh_plat 30000 30100)
          = Some (Some (mk_cs CheckpointStateRunning "" None 30000), true, true)) as E
    by (vm_compute; reflexivity).
  destruct (sched (En := env_pods) demo_is_cp demo_cfg demo_ck_cfg gc_race (fresh_plat 30000 30100))
    as [s|] eqn:Es; [|done].
  cbn [fmap option_fmap option_map fst snd] in E. injection E as Ec Ep Er.
  exists s, (mk_cs CheckpointStateRunning "" None 30000).
  split; [exact (sched_steps (En := env_pods) _ _ _ gc_race _ _ Es)|].
  split; [exact Ec|]. split; [reflexivity|]. split; [reflexivity|].
  split; [exact (bool_decide_eq_true_1 _ Ep)|exact Er].
Qed.
