(* ===== verification/Cni.v ===== *)
(** * The CNI plugin

    [cni/cni.go] and the handler behind it ([cni/handler.go]): ADD sets up the
    network of a container, DEL takes it down.  The map operations are those of
    [Control]; everything else the plugin asks the host, the IPAM plugin and
    platformd for is an interface whose answers may depend on all calls made
    before. *)

From stdpp Require Import pretty.
From Stdlib Require Import Ascii.
From S2P Require Import Prelude Go GoStrings Endian CLayout Helpers RefHelpers Samples MapDefs Control Datapath Registry.

#[local] Open Scope Z_scope.
#[local] Arguments Ascii.eqb _ _ : simpl never.
#[local] Arguments String.append !_ _ : simpl nomatch.

(** ** CNI_ARGS *)

Fixpoint parse_pairs (pairs : list string) (ret : gmap string string)
    : outcome (gmap string string) :=
  match pairs with
  | [] => Ok ret
  | arg :: pairs =>
      match split_on "=" arg with
      | [k; v] =>
          if String.eqb k "" || String.eqb v "" then Err "invalid CNI_ARGS pair"
          else parse_pairs pairs (<[k := v]> ret)
      | _ => Err "invalid CNI_ARGS pair"
      end
  end.

Definition parseArgs (args : string) : outcome (gmap string string) :=
  parse_pairs (split_on ";" args) ∅.

(** ** The world of the plugin *)

(** What is asked of the outside. *)
Inductive hcall :=
| CallIpamAdd (plugin : string)
| CallIpamDel (plugin : string)
| CallSetupLinks (netns : string) (hostAddr podAddr : list byte)
| CallAttachHost (veth : VethPair)
| CallAttachCtr (veth : VethPair) (netns : string)
| CallDefaultRoute (veth : VethPair) (netns : string)
| CallAddRoute (veth : VethPair)
| CallDelRoute (veth : VethPair)
| CallDelLink (index : Z)
| CallWorkloadStatus (id : string)
| CallCreateListeners (id : string) (ip : list byte)
| CallDeleteListeners (id : string)
| CallPrint (netns : string).

(** The answers: addresses from IPAM, the two interfaces of a new veth pair,
    the port of a workload, and success or failure for the rest. *)
Class CniHost := {
  ask_ipam : list hcall -> string -> option (list (list byte));
  ask_links : list hcall -> string -> list byte -> list byte -> option (Interface * Interface);
  ask_port : list hcall -> string -> option Z;
  ask : list hcall -> hcall -> bool;
}.

Record cni_state := mk_cni { c_maps : bpf_maps; c_calls : list hcall }.

Abbreviation C := (GoM cni_state).

Record CmdArgs := { arg_Args : string; arg_Netns : string }.

(** [Conf]: the listen socket and the IPAM configuration, a struct with one
    field. *)
Record Conf := { PlatformdListenSock : string; IPAM_Type : string }.

Section plugin.
Context {K : KMaps} {N : CniHost}.

Definition on_maps {A} (g : G A) : C A := fun s =>
  let '(r, m) := g (c_maps s) in (r, mk_cni m (c_calls s)).

Definition logged (c : hcall) (s : cni_state) : cni_state := mk_cni (c_maps s) (c :: c_calls s).

Definition answer_of {A} (c : hcall) (a : list hcall -> option A) (msg : string) : C A := fun s =>
  match a (c_calls s) with
  | Some x => (Ok x, logged c s)
  | None => (Err msg, logged c s)
  end.

Definition do_call (c : hcall) (msg : string) : C unit :=
  answer_of c (fun h => if ask h c then Some tt else None) msg.

(** ** handler.go *)

Definition AllocIPs (plugin : string) : C (list (list byte)) :=
  answer_of (CallIpamAdd plugin) (fun h => ask_ipam h plugin) "alloc ips".

Definition DeallocIPs (plugin : string) : C unit := do_call (CallIpamDel plugin) "deallocate ips".

Definition AllocVethPair (netns : string) (hostAddr podAddr : list byte) : C VethPair :=
  ifaces ← answer_of (CallSetupLinks netns hostAddr podAddr)
    (fun h => ask_links h netns hostAddr podAddr) "setup veth pair";
  let veth := {| HostPeer := {| Iface := ifaces.1; Addr := hostAddr |};
                 PodPeer := {| Iface := ifaces.2; Addr := podAddr |} |} in
  on_maps (AddVethPairEntry veth);;
  mret veth.

Definition DeallocVethPair (veth : VethPair) : C unit :=
  do_call (CallDelLink (Index (Iface (HostPeer veth)))) "get link".

(** ** cni.go *)

Definition ErrInvalidPort : string := "invalid port".
Definition ErrPodUIDMissing : string := "K8S_POD_UID in CNI_ARGS missing".
Definition ErrPlatformdListenSockNotSet : string := "platformd listen socket not set".
Definition ErrIPAMConfigNotSet : string := "ipam config not set".
Definition ErrInsufficientAddresses : string := "ipam: need 2 ip addresses".

Definition getHostPort (id : string) : C Z :=
  port ← answer_of (CallWorkloadStatus id) (fun h => ask_port h id) "get workload status";
  if port =? 0 then fail ErrInvalidPort else mret (cast_u16 port).

(** The body of ADD after the cleanup has been deferred. *)
Definition addNetwork (args : CmdArgs) (wlID ipam : string) : C unit :=
  ips ← AllocIPs ipam;
  match ips with
  | hostAddr :: podAddr :: _ =>
      veth ← AllocVethPair (arg_Netns args) hostAddr podAddr;
      do_call (CallAttachHost veth) "attach host peer";;
      do_call (CallAttachCtr veth (arg_Netns args)) "attach ctr peer";;
      do_call (CallDefaultRoute veth (arg_Netns args)) "add default route";;
      do_call (CallAddRoute veth) "add full match route";;
      port ← getHostPort wlID;
      on_maps (cniAddDNATTarget veth port);;
      on_maps (AddNetData {| Veth := veth; HostPort := port |});;
      do_call (CallCreateListeners wlID (Addr (HostPeer veth))) "create proxy listeners";;
      do_call (CallPrint (arg_Netns args)) "print result"
  | _ => fail ErrInsufficientAddresses
  end.

(** [defer]: the addresses are given back when an error is returned; an error of
    that is only logged.  (A panic is not an error.) *)
Definition on_error {A} (g : C A) (cleanup : C unit) : C A := fun s =>
  match g s with
  | (Err msg, s') => (Err msg, (cleanup s').2)
  | r => r
  end.

Definition ExecAdd (args : CmdArgs) (conf : Conf) : C unit :=
  match parseArgs (arg_Args args) with
  | Panic => fun s => (Panic, s)
  | Err _ => fail "CNI_ARGS parse error"
  | Ok cniArgs =>
      match cniArgs !! "K8S_POD_UID" with
      | None => fail ErrPodUIDMissing
      | Some wlID =>
          if String.eqb (PlatformdListenSock conf) "" then fail ErrPlatformdListenSockNotSet else
          if String.eqb (IPAM_Type conf) "" then fail ErrIPAMConfigNotSet else
          on_error (addNetwork args wlID (IPAM_Type conf)) (DeallocIPs (IPAM_Type conf))
      end
  end.

(** Runs [g] and collects its error. *)
Definition attempt (g : C unit) : C unit := fun s =>
  match g s with
  | (Err _, s') => (Ok tt, s')
  | r => r
  end.

(** An error ends DEL, without being returned. *)
Definition or_return {A} (g : C A) (k : A -> C unit) : C unit := fun s =>
  match g s with
  | (Ok a, s') => k a s'
  | (Err _, s') => (Ok tt, s')
  | (Panic, s') => (Panic, s')
  end.

Definition ExecDel (args : CmdArgs) (conf : Conf) : C unit :=
  match parseArgs (arg_Args args) with
  | Panic => fun s => (Panic, s)
  | Err _ => mret tt
  | Ok cniArgs =>
      match cniArgs !! "K8S_POD_UID" with
      | None => mret tt
      | Some wlID =>
          or_return (getHostPort wlID) (fun port =>
          or_return (on_maps (GetVethPair port)) (fun veth =>
            attempt (do_call (CallDelRoute veth) "delete full match route");;
            attempt (do_call (CallDeleteListeners wlID) "delete listeners");;
            attempt (on_maps (DelMapEntries veth port));;
            attempt (DeallocVethPair veth);;
            attempt (DeallocIPs (IPAM_Type conf))))
      end
  end.
End plugin.

(** ** Parsing *)

(** Keys and values that CNI_ARGS can carry. *)
Definition clean (s : string) : Prop :=
  s <> "" /\ lacks ";" s = true /\ lacks "=" s = true.

Definition clean_pair (kv : string * string) : Prop := clean kv.1 /\ clean kv.2.

Definition render_pair (kv : string * string) : string := kv.1 +:+ String "=" kv.2.

Definition render (l : list (string * string)) : string := join ";" (map render_pair l).

Lemma split_render_pair kv : clean_pair kv -> split_on "=" (render_pair kv) = [kv.1; kv.2].
Proof.
  intros [(_ & _ & Hk) (_ & _ & Hv)]. unfold render_pair. rewrite split_on_app by done.
  by rewrite split_on_lacks.
Qed.

Definition insert_all (l : list (string * string)) (m : gmap string string) : gmap string string :=
  fold_left (fun m kv => <[kv.1 := kv.2]> m) l m.

Lemma parse_pairs_render l m :
  Forall clean_pair l -> parse_pairs (map render_pair l) m = Ok (insert_all l m).
Proof.
  revert m. induction l as [|kv l IH]; intros m Hl; [done|].
  apply Forall_cons_1 in Hl as [Hkv Hl]. cbn. rewrite split_render_pair by done.
  destruct Hkv as [(Hk & _) (Hv & _)]. apply String.eqb_neq in Hk, Hv. rewrite Hk, Hv. cbn.
  by apply IH.
Qed.

Lemma parse_pairs_inv pairs m r :
  Forall (fun x => lacks ";" x = true) pairs -> parse_pairs pairs m = Ok r ->
  exists l, pairs = map render_pair l /\ Forall clean_pair l /\ r = insert_all l m.
Proof.
  revert m. induction pairs as [|arg pairs IH]; intros m Hs E; cbn in E.
  { exists []. simplify_eq. by repeat constructor. }
  apply Forall_cons_1 in Hs as [Harg Hs]. pose proof (join_split "=" arg) as [Ej Hl].
  destruct (split_on "=" arg) as [|k [|v [|]]]; try discriminate E.
  destruct (String.eqb_spec k ""), (String.eqb_spec v ""); try discriminate E. cbn in E.
  destruct (IH _ Hs E) as (l & -> & Hc & ->). cbn [join] in Ej. subst arg.
  apply Forall_cons_1 in Hl as [Hk Hl]. apply Forall_cons_1 in Hl as [Hv _].
  rewrite lacks_app in Harg. apply andb_prop in Harg as [Hk' [_ Hv']%andb_prop].
  exists ((k, v) :: l). split; [done|]. split; [|done]. constructor; [|done].
  split; (split; [done|]); split; [exact Hk'|exact Hk|exact Hv'|exact Hv].
Qed.

(** parsing CNI_ARGS is inverse to writing it: every non-empty list of
    pairs of non-empty strings without separators is read back, later pairs
    overriding earlier ones, and nothing that is not such a list is accepted. *)
Theorem parse_args_roundtrip (args : string) (m : gmap string string) :
  parseArgs args = Ok m <->
  exists l, l <> [] /\ Forall clean_pair l /\ args = render l /\ m = insert_all l ∅.
Proof.
  unfold parseArgs. split.
  - intros E. pose proof (join_split ";" args) as [Ej Hl].
    destruct (parse_pairs_inv _ _ _ Hl E) as (l & El & Hc & ->).
    exists l. split; [|split; [done|]; split; [|done]].
    + intros ->. destruct (split_on_cons ";" args) as (x & xs & Ex). by rewrite Ex in El.
    + unfold render. by rewrite <-El, Ej.
  - intros (l & Hne & Hc & -> & ->). unfold render. rewrite split_join.
    + by apply parse_pairs_render.
    + by destruct l.
    + apply Forall_map. eapply Forall_impl; [|exact Hc].
      intros [k v] [(_ & Hk & _) (_ & Hv & _)]. unfold render_pair. cbn in *.
      rewrite lacks_app, Hk. cbn. by rewrite Hv.
Qed.

(** ** ADD and DEL *)

(** How often addresses were given back. *)
Fixpoint ipam_dels (cs : list hcall) : nat :=
  match cs with
  | [] => 0
  | CallIpamDel _ :: cs => S (ipam_dels cs)
  | _ :: cs => ipam_dels cs
  end.

Section spec.
Context {K : KMaps} {N : CniHost}.

(** *** What ADD asks for and what it makes of the answers *)

(** The arguments name the workload [id]. *)
Definition names (args : CmdArgs) (id : string) : Prop :=
  exists m, parseArgs (arg_Args args) = Ok m /\ m !! "K8S_POD_UID" = Some id.

(** The veth pair made from the first two addresses, for the host and the pod,
    and the two interfaces. *)
Definition new_veth (ifaces : Interface * Interface) (hostAddr podAddr : list byte) : VethPair :=
  {| HostPeer := {| Iface := ifaces.1; Addr := hostAddr |};
     PodPeer := {| Iface := ifaces.2; Addr := podAddr |} |}.

Definition veth_made (args : CmdArgs) (ipam : string) (s : cni_state) (veth : VethPair) : Prop :=
  exists hostAddr podAddr ips ifaces,
    ask_ipam (c_calls s) ipam = Some (hostAddr :: podAddr :: ips) /\
    ask_links (CallIpamAdd ipam :: c_calls s) (arg_Netns args) hostAddr podAddr = Some ifaces /\
    veth = new_veth ifaces hostAddr podAddr.

(** The calls, last first, that set up the network of the container. *)
Definition set_up (args : CmdArgs) (ipam : string) (veth : VethPair) : list hcall :=
  [CallAddRoute veth; CallDefaultRoute veth (arg_Netns args); CallAttachCtr veth (arg_Netns args);
   CallAttachHost veth;
   CallSetupLinks (arg_Netns args) (Addr (HostPeer veth)) (Addr (PodPeer veth)); CallIpamAdd ipam].

(** platformd is then asked for the port, and answers with a valid one. *)
Definition port_told (args : CmdArgs) (wlID ipam : string) (s : cni_state) (veth : VethPair)
    (port : Z) : Prop :=
  exists p, ask_port (set_up args ipam veth ++ c_calls s) wlID = Some p /\ p <> 0 /\
    port = cast_u16 p.

(** The maps when ADD stops early: as they were, or with the entries of the veth
    pair, or with what more of the map writes made. *)
Definition add_stopped (args : CmdArgs) (wlID ipam : string) (s : cni_state) (m : bpf_maps) : Prop :=
  m = c_maps s \/
  exists veth, veth_made args ipam s veth /\
    (m = (cniAdd_upto 1 veth 0 (c_maps s)).2 \/
     exists n port, port_told args wlID ipam s veth port /\
       m = (cniAdd_upto (S (S n)) veth port (c_maps s)).2).

(** Addresses and MACs that the maps can hold. *)
Definition convertible (veth : VethPair) : Prop :=
  is_v4 (Addr (HostPeer veth)) /\ is_v4 (Addr (PodPeer veth)) /\
  (6 <= length (HardwareAddr (Iface (HostPeer veth))))%nat /\
  (6 <= length (HardwareAddr (Iface (PodPeer veth))))%nat.

Definition add_result (args : CmdArgs) (wlID ipam : string) (s : cni_state)
    (r : outcome unit * cni_state) : Prop :=
  match r with
  | (Ok _, s') =>
      exists veth port, veth_made args ipam s veth /\ port_told args wlID ipam s veth port /\
        cniAdd veth port (c_maps s) = (Ok tt, c_maps s') /\
        c_calls s' = CallPrint (arg_Netns args) :: CallCreateListeners wlID (Addr (HostPeer veth)) ::
                     CallWorkloadStatus wlID :: set_up args ipam veth ++ c_calls s
  | (Err _, s') => add_stopped args wlID ipam s (c_maps s')
  | (Panic, s') =>
      add_stopped args wlID ipam s (c_maps s') /\
      exists veth, veth_made args ipam s veth /\ ~ convertible veth
  end.

Lemma do_call_bind {B} c msg (f : unit -> C B) s (P : outcome B * cni_state -> Prop) :
  P (f tt (logged c s)) -> P (Err msg, logged c s) -> P ((do_call c msg ≫= f) s).
Proof using Type.
  unfold do_call, answer_of, mbind, GoM_bind. by destruct (ask (c_calls s) c).
Qed.

Lemma answer_of_bind {A B} c (a : list hcall -> option A) msg (f : A -> C B) s
    (P : outcome B * cni_state -> Prop) :
  (forall x, a (c_calls s) = Some x -> P (f x (logged c s))) -> P (Err msg, logged c s) ->
  P ((answer_of c a msg ≫= f) s).
Proof using Type.
  intros Hok Herr. unfold answer_of, mbind, GoM_bind.
  destruct (a (c_calls s)) as [x|]; [by apply Hok|exact Herr].
Qed.

Lemma on_maps_bind {A B} (g : G A) (f : A -> C B) s (P : outcome B * cni_state -> Prop) :
  (forall x m, g (c_maps s) = (Ok x, m) -> P (f x (mk_cni m (c_calls s)))) ->
  (forall msg m, g (c_maps s) = (Err msg, m) -> P (Err msg, mk_cni m (c_calls s))) ->
  (forall m, g (c_maps s) = (Panic, m) -> P (Panic, mk_cni m (c_calls s))) ->
  P ((on_maps g ≫= f) s).
Proof using Type.
  intros Hok Herr Hp. unfold on_maps, mbind, GoM_bind. destruct (g (c_maps s)) as [[x|msg|] m]; eauto.
Qed.

Lemma parse_pairs_no_panic pairs m : parse_pairs pairs m <> Panic.
Proof using Type.
  revert m. induction pairs as [|arg pairs IH]; intros m; [done|]. cbn.
  destruct (split_on "=" arg) as [|k [|v [|]]]; try done. by destruct (_ || _).
Qed.

(** The map writes of a convertible pair do not panic. *)
Definition no_panic {A} (g : G A) : Prop := forall m, (g m).1 <> Panic.

Lemma no_panic_bind {A B} (g : G A) (f : A -> G B) :
  no_panic g -> (forall a, no_panic (f a)) -> no_panic (g ≫= f).
Proof using Type.
  intros Hg Hf m. unfold mbind, GoM_bind. specialize (Hg m).
  destruct (g m) as [[a|msg|] m']; [apply Hf|done..].
Qed.

Lemma no_panic_must {A} (o : option A) : o <> None -> no_panic (must o).
Proof using Type. intros Ho m. unfold must. by destruct o. Qed.

Lemma no_panic_put {V} sel (upd : gmap Z V -> bpf_maps -> bpf_maps) def k v msg :
  no_panic (Put sel upd def k v msg).
Proof using Type. intros m. unfold Put. by destruct (k_put _ _ _ _). Qed.

Lemma array6_some b : (6 <= length b)%nat -> array6 b <> None.
Proof using Type. intros Hl. unfold array6. by rewrite (proj2 (Nat.leb_le _ _) Hl). Qed.

Lemma peerValue_some p :
  is_v4 (Addr p) -> (6 <= length (HardwareAddr (Iface p)))%nat -> peerValue p <> None.
Proof using Type.
  intros Ha Hm%array6_some. unfold peerValue. rewrite ipToInt_4 by done.
  by destruct (array6 (HardwareAddr (Iface p))).
Qed.

Lemma writes_no_panic veth port :
  convertible veth ->
  no_panic (AddVethPairEntry veth) /\ no_panic (cniAddDNATTarget veth port) /\
  no_panic (AddNetData {| Veth := veth; HostPort := port |}).
Proof using Type.
  intros (Hh & Hp & Hmh & Hmp).
  assert (ipToInt (Addr (HostPeer veth)) <> None) as Eh by (by rewrite ipToInt_4).
  assert (ipToInt (Addr (PodPeer veth)) <> None) as Ep by (by rewrite ipToInt_4).
  split; [|split].
  - apply no_panic_bind; [by apply no_panic_must|intros a].
    apply no_panic_bind; [apply no_panic_put|intros _; apply no_panic_put].
  - apply no_panic_bind; [by apply no_panic_must|intros a].
    apply no_panic_bind; [by apply no_panic_must, array6_some|intros b; apply no_panic_put].
  - apply no_panic_bind; [apply no_panic_must|intros v; apply no_panic_bind;
      [apply no_panic_put|intros _; apply no_panic_put]].
    unfold netDataToMapValue. cbn [Veth].
    pose proof (peerValue_some _ Hp Hmp). pose proof (peerValue_some _ Hh Hmh).
    by destruct (peerValue (PodPeer veth)), (peerValue (HostPeer veth)).
Qed.

Lemma writes_panic veth port :
  (exists m m', AddVethPairEntry veth m = (Panic, m')) \/
  (exists m m', cniAddDNATTarget veth port m = (Panic, m')) \/
  (exists m m', AddNetData {| Veth := veth; HostPort := port |} m = (Panic, m')) ->
  ~ convertible veth.
Proof using Type.
  intros Hp Hc. destruct (writes_no_panic veth port Hc) as (H1 & H2 & H3).
  destruct Hp as [(m & m' & E)|[(m & m' & E)|(m & m' & E)]];
    [specialize (H1 m)|specialize (H2 m)|specialize (H3 m)]; by rewrite E in *.
Qed.

(** ADD, from the allocation of the addresses on. *)
Lemma addNetwork_result args wlID ipam s : add_result args wlID ipam s (addNetwork args wlID ipam s).
Proof using Type.
  unfold addNetwork, AllocIPs. apply answer_of_bind; [intros ips Hips|by left].
  destruct ips as [|ha [|pa ips]]; [by left..|]. unfold AllocVethPair, getHostPort.
  rewrite GoM_bind_assoc. apply answer_of_bind; [intros ifs Hifs|by left].
  cbv zeta. fold (new_veth ifs ha pa). set (veth := new_veth ifs ha pa).
  assert (veth_made args ipam s veth) as Hv by (by exists ha, pa, ips, ifs).
  rewrite GoM_bind_assoc. apply on_maps_bind; cbn [c_maps logged]; intros * E1.
  2: { right. exists veth. split; [done|left]. cbn [cniAdd_upto]. by rewrite E1. }
  2: { split; [|exists veth; split; [done|]; eapply (writes_panic veth 0); eauto].
       right. exists veth. split; [done|left]. cbn [cniAdd_upto]. by rewrite E1. }
  assert (add_stopped args wlID ipam s m) as H1
    by (right; exists veth; split; [done|left]; cbn [cniAdd_upto]; by rewrite E1).
  rewrite GoM_bind_ret. do 4 (apply do_call_bind; [|exact H1]).
  rewrite GoM_bind_assoc. apply answer_of_bind; [intros p Hp|exact H1].
  destruct (Z.eqb_spec p 0) as [-> |Hp0]; [exact H1|]. rewrite GoM_bind_ret.
  set (port := cast_u16 p).
  assert (port_told args wlID ipam s veth port) as Hport by (by exists p).
  assert (forall n m', (cniAdd_upto (S (S n)) veth port (c_maps s)).2 = m' ->
    add_stopped args wlID ipam s m') as Hst
    by (intros n m' <-; right; exists veth; split; [done|right]; eauto).
  apply on_maps_bind; cbn [c_maps logged]; intros * E2.
  2: { apply (Hst 0%nat). cbn [cniAdd_upto]. by rewrite (GoM_bind_ok _ _ _ _ _ E1), E2. }
  2: { split; [|exists veth; split; [done|]; eapply (writes_panic veth port); eauto].
       apply (Hst 0%nat). cbn [cniAdd_upto]. by rewrite (GoM_bind_ok _ _ _ _ _ E1), E2. }
  assert (cniAdd veth port (c_maps s) = AddNetData {| Veth := veth; HostPort := port |} m0) as E
    by (unfold cniAdd; by rewrite (GoM_bind_ok _ _ _ _ _ E1), (GoM_bind_ok _ _ _ _ _ E2)).
  apply on_maps_bind; cbn [c_maps logged]; intros * E3; rewrite E3 in E.
  - destruct x, x0, x1. assert (add_stopped args wlID ipam s m1) as H3
      by (apply (Hst 1%nat); cbn [cniAdd_upto]; by rewrite E).
    apply do_call_bind; [|exact H3]. unfold do_call, answer_of.
    destruct (ask _ _); [|exact H3]. by exists veth, port.
  - apply (Hst 1%nat). cbn [cniAdd_upto]. by rewrite E.
  - split; [|exists veth; split; [done|]; eapply (writes_panic veth port); eauto].
    apply (Hst 1%nat). cbn [cniAdd_upto]. by rewrite E.
Qed.

(** Before the cleanup, no address is given back. *)
Definition keeps_ips {A} (g : C A) : Prop :=
  forall d, GoM_inv (fun s => ipam_dels (c_calls s) = d) (fun _ => True) g.

Lemma keeps_ips_bind {A B} (g : C A) (f : A -> C B) :
  keeps_ips g -> (forall a, keeps_ips (f a)) -> keeps_ips (g ≫= f).
Proof using Type. intros Hg Hf d. apply GoM_inv_seq; [apply Hg|]. intros a. apply Hf. Qed.

Lemma keeps_ips_answer {A} c (a : list hcall -> option A) msg :
  ipam_dels [c] = 0%nat -> keeps_ips (answer_of c a msg).
Proof using Type.
  intros Hc d s Hs. unfold answer_of. split; [|done].
  destruct (a (c_calls s)); destruct c; done.
Qed.

Lemma keeps_ips_on_maps {A} (g : G A) : keeps_ips (on_maps g).
Proof using Type. intros d s Hs. unfold on_maps. by destruct (g (c_maps s)). Qed.

Lemma keeps_ips_ret {A} (a : A) : keeps_ips (mret a).
Proof using Type. by intros d s Hs. Qed.

Lemma keeps_ips_fail {A} msg : keeps_ips (fail (A := A) msg).
Proof using Type. by intros d s Hs. Qed.

Lemma addNetwork_keeps_ips args wlID ipam : keeps_ips (addNetwork args wlID ipam).
Proof using Type.
  unfold addNetwork, AllocIPs, AllocVethPair, getHostPort, do_call.
  repeat lazymatch goal with
  | |- keeps_ips (mbind _ _) => apply keeps_ips_bind; [|intros ?]
  | |- keeps_ips (answer_of _ _ _) => by apply keeps_ips_answer
  | |- keeps_ips (on_maps _) => apply keeps_ips_on_maps
  | |- keeps_ips (mret _) => apply keeps_ips_ret
  | |- keeps_ips (fail _) => apply keeps_ips_fail
  | |- keeps_ips (match ?x with _ => _ end) => destruct x
  end.
Qed.

(** What DEL does to the maps, whatever happens to the rest. *)
Lemma attempt_maps (g : C unit) s : (attempt g s).2 = (g s).2.
Proof using Type. unfold attempt. by destruct (g s) as [[a|msg|] s']. Qed.

Lemma answer_maps {A} c (a : list hcall -> option A) msg s : c_maps (answer_of c a msg s).2 = c_maps s.
Proof using Type. unfold answer_of. by destruct (a (c_calls s)). Qed.

Lemma on_maps_maps {A} (g : G A) s : c_maps (on_maps g s).2 = (g (c_maps s)).2.
Proof using Type. unfold on_maps. by destruct (g (c_maps s)). Qed.

(** A call that only talks to the outside. *)
Lemma attempt_call_bind c msg (k : unit -> C unit) s :
  (attempt (do_call c msg) ≫= k) s = k tt (logged c s).
Proof using Type.
  unfold attempt, do_call, answer_of, mbind, GoM_bind. by destruct (ask (c_calls s) c).
Qed.

Lemma attempt_seq_maps (g : C unit) (k : unit -> C unit) s :
  (forall s1, c_maps (k tt s1).2 = c_maps s1) ->
  c_maps ((attempt g ≫= k) s).2 = c_maps (g s).2.
Proof using Type.
  intros Hk. unfold attempt, mbind, GoM_bind.
  destruct (g s) as [[[]|msg|] s']; [apply Hk..|done].
Qed.
End spec.

Section del.
Context {K : KMaps} {N : CniHost}.

Lemma cniDel_cases port m :
  (cniDel port m).2 = match GetVethPair port m with
                      | (Ok veth, m') => (DelMapEntries veth port m').2
                      | (_, m') => m'
                      end.
Proof using Type.
  unfold cniDel, mbind, GoM_bind. by destruct (GetVethPair port m) as [[veth|msg|] m'].
Qed.

(** DEL removes what is registered under the port that platformd reports. *)
Lemma exec_del_maps args conf id s p :
  names args id -> ask_port (c_calls s) id = Some p -> p <> 0 ->
  c_maps (ExecDel args conf s).2 = (cniDel (cast_u16 p) (c_maps s)).2.
Proof using Type.
  intros (m & Em & Hid) Hp Hp0. unfold ExecDel. rewrite Em, Hid.
  assert (getHostPort id s = (Ok (cast_u16 p), logged (CallWorkloadStatus id) s)) as Eg.
  { unfold getHostPort, answer_of, mbind, GoM_bind. rewrite Hp.
    by rewrite (proj2 (Z.eqb_neq _ _) Hp0). }
  unfold or_return at 1. rewrite Eg. set (s1 := logged (CallWorkloadStatus id) s).
  unfold or_return, on_maps at 1. change (c_maps s1) with (c_maps s).
  rewrite cniDel_cases.
  assert ((GetVethPair (cast_u16 p) (c_maps s)).2 = c_maps s) as Em2.
  { unfold GetVethPair, GetNetData, mbind, GoM_bind. by destruct (net_data_map (c_maps s) !! _). }
  destruct (GetVethPair (cast_u16 p) (c_maps s)) as [[veth|msg|] m2]; cbn [snd] in Em2; subst m2;
    [|done..].
  rewrite !attempt_call_bind. rewrite attempt_seq_maps.
  - by rewrite on_maps_maps.
  - intros s2. rewrite attempt_seq_maps; [apply answer_maps|]. intros s3.
    rewrite attempt_maps. apply answer_maps.
Qed.

Lemma exec_del_no_port args conf id s :
  names args id -> (ask_port (c_calls s) id = None \/ ask_port (c_calls s) id = Some 0) ->
  c_maps (ExecDel args conf s).2 = c_maps s.
Proof using Type.
  intros (m & Em & Hid) Hp. unfold ExecDel. rewrite Em, Hid. unfold or_return at 1.
  unfold getHostPort, answer_of, mbind, GoM_bind. by destruct Hp as [-> | ->].
Qed.
End del.

(** C28: the outcomes of ADD: when it succeeds, IPAM's first two addresses became
    the host's and the pod's, the maps hold the entries of that veth pair under
    the port that platformd reported, as [cniAdd] makes them, and the calls made
    are exactly those of the set-up, in order.  When it returns an error, either
    the arguments or the configuration were unusable and nothing at all was
    done, or the addresses were given back exactly once and as the last thing,
    and the maps have the first of its writes or none.  It panics only when an
    address is not an IPv4 address or a MAC address is shorter than six bytes,
    and then does not give the addresses back. *)
Theorem exec_add_outcome (K : KMaps) (N : CniHost) (args : CmdArgs) (conf : Conf) (s : cni_state) :
  let ipam := IPAM_Type conf in
  match ExecAdd args conf s with
  | (Ok _, s') =>
      exists id veth port, names args id /\ veth_made args ipam s veth /\
        port_told args id ipam s veth port /\
        cniAdd veth port (c_maps s) = (Ok tt, c_maps s') /\
        c_calls s' = CallPrint (arg_Netns args) :: CallCreateListeners id (Addr (HostPeer veth)) ::
                     CallWorkloadStatus id :: set_up args ipam veth ++ c_calls s
  | (Err _, s') =>
      s' = s /\ ((forall id, ~ names args id) \/ PlatformdListenSock conf = "" \/ ipam = "") \/
      (exists id, names args id /\ add_stopped args id ipam s (c_maps s')) /\
      head (c_calls s') = Some (CallIpamDel ipam) /\
      ipam_dels (c_calls s') = S (ipam_dels (c_calls s))
  | (Panic, s') =>
      (exists id veth, names args id /\ add_stopped args id ipam s (c_maps s') /\
         veth_made args ipam s veth /\ ~ convertible veth) /\
      ipam_dels (c_calls s') = ipam_dels (c_calls s)
  end.
Proof.
  cbv zeta. unfold ExecAdd. destruct (parseArgs (arg_Args args)) as [m|msg|] eqn:Ea.
  3: by apply parse_pairs_no_panic in Ea.
  2: { left. split; [done|]. left. intros id (m & E & _). by rewrite Ea in E. }
  destruct (m !! "K8S_POD_UID") as [wlID|] eqn:Em.
  2: { left. split; [done|]. left. intros id (m' & E & Hid). rewrite Ea in E. by simplify_eq. }
  assert (names args wlID) as Hn by (by exists m).
  destruct (String.eqb_spec (PlatformdListenSock conf) ""); [by left; auto|].
  destruct (String.eqb_spec (IPAM_Type conf) ""); [by left; auto|]. unfold on_error.
  pose proof (addNetwork_keeps_ips args wlID (IPAM_Type conf) _ s eq_refl) as [Hd _].
  pose proof (addNetwork_result args wlID (IPAM_Type conf) s) as Hr.
  destruct (addNetwork args wlID (IPAM_Type conf) s) as [[[]|msg|] s'] eqn:E; cbn [snd] in Hd.
  - destruct Hr as (veth & port & Hr). by exists wlID, veth, port.
  - right. unfold DeallocIPs, do_call, answer_of.
    destruct (ask (c_calls s') (CallIpamDel (IPAM_Type conf))); cbn; rewrite Hd; eauto.
  - destruct Hr as (Hst & veth & Hv & Hc). split; [|done]. by exists wlID, veth.
Qed.

Section leak.
Context {K : KMaps} {KL : KMapLaws K} {N : CniHost}.
Context (Hask : forall h c, ask h c = true).

Lemma do_call_succeeds {A} c msg (k : unit -> C A) s : (do_call c msg ≫= k) s = k tt (logged c s).
Proof using Hask. unfold do_call, answer_of, mbind, GoM_bind. by rewrite Hask. Qed.

Lemma addNetwork_no_port args wlID ipam s ha pa ips ifs :
  ask_ipam (c_calls s) ipam = Some (ha :: pa :: ips) ->
  (forall h, ask_links h (arg_Netns args) ha pa = Some ifs) ->
  (forall h, ask_port h wlID = None) ->
  data_wf {| Veth := new_veth ifs ha pa; HostPort := 0 |} ->
  Z.of_nat (size (veth_pair_map (c_maps s))) <= 254 ->
  exists msg s', addNetwork args wlID ipam s = (Err msg, s') /\
    AddVethPairEntry (new_veth ifs ha pa) (c_maps s) = (Ok tt, c_maps s').
Proof using KL Hask.
  intros Hip Hln Hpt Hwf Hs. unfold addNetwork.
  assert (AllocIPs ipam s = (Ok (ha :: pa :: ips), logged (CallIpamAdd ipam) s)) as E1
    by (unfold AllocIPs, answer_of; by rewrite Hip).
  rewrite (GoM_bind_ok _ _ _ _ _ E1). cbv iota. set (s1 := logged (CallIpamAdd ipam) s).
  pose proof (AddVethPairEntry_ok _ 0 Hwf (c_maps s) Hs) as Ev.
  assert (exists s2, AllocVethPair (arg_Netns args) ha pa s1 = (Ok (new_veth ifs ha pa), s2) /\
    AddVethPairEntry (new_veth ifs ha pa) (c_maps s) = (Ok tt, c_maps s2)) as (s2 & E2 & Ev2).
  { destruct (AddVethPairEntry (new_veth ifs ha pa) (c_maps s)) as [r m1] eqn:Ev1.
    injection Ev as -> _.
    exists (mk_cni m1 (CallSetupLinks (arg_Netns args) ha pa :: c_calls s1)).
    split; [|done]. unfold AllocVethPair.
    erewrite GoM_bind_ok by (unfold answer_of; by rewrite Hln).
    fold (new_veth ifs ha pa). erewrite GoM_bind_ok; [reflexivity|].
    unfold on_maps. change (c_maps (logged _ s1)) with (c_maps s). by rewrite Ev1. }
  rewrite (GoM_bind_ok _ _ _ _ _ E2), !do_call_succeeds.
  unfold mbind at 1, GoM_bind at 1, getHostPort, answer_of. unfold mbind, GoM_bind. rewrite Hpt.
  eexists _, _. split; [reflexivity|]. exact Ev2.
Qed.
End leak.

(** A failed ADD is not undone by DEL: when platformd cannot tell the port
    of a workload, ADD returns an error after the interfaces were set up; its
    entries of [veth_pair_map] are still there, and so they are after DEL, which
    looks the workload up in [net_data_map], where it never was registered. *)
Theorem failed_add_leaves_entries (K : KMaps) (KL : KMapLaws K) (N1 N2 : CniHost)
    (args : CmdArgs) (conf : Conf) (id : string) (ha pa : list byte) (ips : list (list byte))
    (ifs : Interface * Interface) (s : cni_state) :
  names args id -> PlatformdListenSock conf <> "" -> IPAM_Type conf <> "" ->
  ask_ipam (CniHost := N1) (c_calls s) (IPAM_Type conf) = Some (ha :: pa :: ips) ->
  (forall h, ask_links (CniHost := N1) h (arg_Netns args) ha pa = Some ifs) ->
  (forall h c, ask (CniHost := N1) h c = true) ->
  (forall h, ask_port (CniHost := N1) h id = None) ->
  data_wf {| Veth := new_veth ifs ha pa; HostPort := 0 |} ->
  Z.of_nat (size (veth_pair_map (c_maps s))) <= 254 ->
  (forall h p, ask_port (CniHost := N2) h id = Some p ->
     net_data_map (c_maps s) !! cast_u16 p = None) ->
  exists msg s1, ExecAdd (N := N1) args conf s = (Err msg, s1) /\
    veth_pair_map (c_maps s1) !! Index ifs.1 <> None /\
    c_maps (ExecDel (N := N2) args conf s1).2 = c_maps s1.
Proof.
  intros Hid Hsock Hipam Hips Hln Hask Hpt Hwf Hs Hdel.
  destruct (addNetwork_no_port Hask args id (IPAM_Type conf) s ha pa ips ifs Hips Hln Hpt Hwf Hs)
    as (msg & s0 & E & Ev).
  pose proof Hid as (m & Em & Hm).
  assert (exists s1, ExecAdd (N := N1) args conf s = (Err msg, s1) /\ c_maps s1 = c_maps s0)
    as (s1 & E1 & Em1).
  { unfold ExecAdd. rewrite Em, Hm. apply String.eqb_neq in Hsock, Hipam. rewrite Hsock, Hipam.
    unfold on_error. rewrite E. eexists. split; [reflexivity|]. apply answer_maps. }
  rewrite (AddVethPairEntry_ok _ 0 Hwf (c_maps s) Hs) in Ev. injection Ev as Ev.
  exists msg, s1. split; [exact E1|]. rewrite Em1, <-Ev. split.
  - cbn [upd_veth veth_pair_map]. destruct (decide (Index ifs.1 = Index ifs.2)) as [Heq|Hne].
    + rewrite Heq. by rewrite lookup_insert_eq.
    + rewrite lookup_insert_ne by done. by rewrite lookup_insert_eq.
  - assert (net_data_map (c_maps s1) = net_data_map (c_maps s)) as En by (by rewrite Em1, <-Ev).
    rewrite Ev, <-Em1.
    destruct (ask_port (CniHost := N2) (c_calls s1) id) as [p|] eqn:Ep.
    2: { by apply (exec_del_no_port args conf id); [|left]. }
    destruct (Z.eq_dec p 0) as [-> |Hp0].
    { by apply (exec_del_no_port args conf id); [|right]. }
    rewrite (exec_del_maps args conf id s1 p) by done. rewrite cniDel_cases.
    unfold GetVethPair, GetNetData, mbind, GoM_bind. by rewrite En, (Hdel _ _ Ep).
Qed.

(** ** Concrete hosts *)

Definition demo_ifaces : Interface * Interface :=
  (Iface (HostPeer demo_pair), Iface (PodPeer demo_pair)).

(** Everything succeeds; workload x has the port [port], if any. *)
Definition demo_host (port : option Z) : CniHost := {|
  ask_ipam _ _ := Some [Addr (HostPeer demo_pair); Addr (PodPeer demo_pair)];
  ask_links _ _ _ _ := Some demo_ifaces;
  ask_port _ _ := port;
  ask _ _ := true;
|}.

Definition demo_args : CmdArgs := {| arg_Args := "IgnoreUnknown=1;K8S_POD_UID=x"; arg_Netns := "/ns" |}.
Definition demo_conf : Conf := {| PlatformdListenSock := "unix:/sock"; IPAM_Type := "host-local" |}.

Lemma demo_names : names demo_args "x".
Proof.
  exists (insert_all [("IgnoreUnknown", "1"); ("K8S_POD_UID", "x")] ∅).
  split; vm_compute; reflexivity.
Qed.

Example demo_add_registers :
  let s' := (ExecAdd (N := demo_host (Some 30001)) demo_args demo_conf (mk_cni no_maps [])).2 in
  dnat_ip_addr <$> ptp_dnat_targets (c_maps s') !! 30001 = Some 167772163.
Proof. vm_compute. reflexivity. Qed.

Lemma failed_add_leaves_entries_witness :
  exists msg s1, ExecAdd (N := demo_host None) demo_args demo_conf (mk_cni no_maps []) = (Err msg, s1) /\
    veth_pair_map (c_maps s1) !! 7 <> None /\
    c_maps (ExecDel (N := demo_host (Some 30001)) demo_args demo_conf s1).2 = c_maps s1.
Proof.
  apply (failed_add_leaves_entries ref_kmaps ref_kmaps_laws (demo_host None) (demo_host (Some 30001))
    demo_args demo_conf "x" (Addr (HostPeer demo_pair)) (Addr (PodPeer demo_pair)) [] demo_ifaces
    (mk_cni no_maps [])).
  - exact demo_names.
  - discriminate.
  - discriminate.
  - reflexivity.
  - reflexivity.
  - reflexivity.
  - reflexivity.
  - repeat split; vm_compute; (discriminate || reflexivity).
  - vm_compute. discriminate.
  - intros h p [= <-]. reflexivity.
Defined.
