(* ===== verification/Tick.v ===== *)
(** * Reporting to the control plane

    The second half of the reconciler's [tick]: the statuses are reported to the
    control plane, and those of workloads that are gone are then dropped.  Both
    loops run over one [View] of the store, whose pointers lead to the structs
    that the rest of platformd goes on changing. *)

From S2P Require Import Prelude Go Endian StatusStore PortAlloc Node Reconciler.

(** [instancev1alpha1.InstanceState_value]; other names read as zero. *)
Definition InstanceState_value (state : string) : Z :=
  if String.eqb state "PENDING" then 0
  else if String.eqb state "CREATING" then 1
  else if String.eqb state "RUNNING" then 2
  else if String.eqb state "DELETING" then 3
  else if String.eqb state "DELETED" then 4
  else if String.eqb state "CREATION_FAILED" then 5
  else 0.

Record InstanceStatusReport := { rep_InstanceId : string; rep_Port : Z; rep_State : Z }.

Definition report (s : MemStore) (kv : string * Status) : option InstanceStatusReport :=
  w ← sv_workload (resolve s kv.2);
  Some {| rep_InstanceId := kv.1; rep_Port := ws_Port w;
          rep_State := InstanceState_value (ws_State w) |}.

(** The reports made from a view, in the order in which it is iterated. *)
Definition tick_reports (view : list (string * Status)) (s : MemStore) : list InstanceStatusReport :=
  omap (report s) view.

(** The workload is gone, as far as the status shows now. *)
Definition is_gone (s : MemStore) (st : Status) : bool :=
  match sv_workload (resolve s st) with
  | Some w => String.eqb (ws_State w) WorkloadStateDeleted ||
              String.eqb (ws_State w) WorkloadStateCreationFailed
  | None => false
  end.

Fixpoint tick_cleanup (view : list (string * Status)) (s : MemStore) : MemStore :=
  match view with
  | [] => s
  | (id, st) :: view => tick_cleanup view (if is_gone s st then Del id s else s)
  end.

(** [StopWorkload] of workload/server.go *)
Definition StopWorkload (id : string) : gor (string + unit) :=
  if String.eqb id "" then mret (inl "workload id required") else
  r ← call (PRemoveWorkload id);
  match r with
  | RmOk => call (PUpdate id (workload_state WorkloadStateDeleted));; mret (inr tt)
  | RmNotFound | RmErr => mret (inl "remove workload")
  end.

(** Its update, once the workload is removed. *)
Definition StopWorkload_record (id : string) : StoreM unit :=
  UpdateLit id (workload_state WorkloadStateDeleted).

(** A view in some iteration order. *)
Definition is_view (s : MemStore) (view : list (string * Status)) : Prop :=
  view ≡ₚ map_to_list (View s).

Lemma view_lookup s view id st : is_view s view -> (id, st) ∈ view <-> data s !! id = Some st.
Proof. intros ->. apply elem_of_map_to_list. Qed.

Lemma is_gone_Del id s st : is_gone (Del id s) st = is_gone s st.
Proof. done. Qed.

(** The order of the iteration does not matter: an entry is dropped if it is in
    the view and gone. *)
Lemma tick_cleanup_data view s id :
  data (tick_cleanup view s) !! id =
  if existsb (fun kv => String.eqb kv.1 id && is_gone s kv.2) view then None else data s !! id.
Proof.
  revert s. induction view as [|[k st] view IH]; intros s; [done|]. cbn [tick_cleanup existsb fst snd].
  rewrite IH. destruct (is_gone s st) eqn:Eg.
  - rewrite andb_true_r. change (fun kv => _) with
      (fun kv : string * Status => String.eqb kv.1 id && is_gone s kv.2).
    cbn [Del set_data data]. destruct (String.eqb_spec k id) as [-> |Hne]; cbn [orb].
    + rewrite lookup_delete_eq. by destruct existsb.
    + by rewrite lookup_delete_ne.
  - by rewrite andb_false_r.
Qed.

(** ** What the update of an entry does to an earlier view *)

Lemma contents_lookup s id v :
  contents s !! id = Some v <-> exists st, data s !! id = Some st /\ resolve s st = v.
Proof. unfold contents. rewrite lookup_fmap, fmap_Some. split; intros (st & Hd & E); exists st; auto. Qed.

Lemma contents_cleanup view s id :
  contents (tick_cleanup view s) !! id = None <-> data (tick_cleanup view s) !! id = None.
Proof. unfold contents. rewrite lookup_fmap. apply fmap_None. Qed.

Lemma gone_dropped s view id st :
  (id, st) ∈ view -> is_gone s st = true -> contents (tick_cleanup view s) !! id = None.
Proof.
  intros Hin Hg. apply contents_cleanup. rewrite tick_cleanup_data.
  rewrite (proj2 (existsb_exists _ _)); [done|]. exists (id, st). cbn.
  rewrite String.eqb_refl, Hg. split; [by apply list_elem_of_In|done].
Qed.

Lemma dropped_gone s view id :
  contents (tick_cleanup view s) !! id = None -> is_Some (contents s !! id) ->
  exists st, (id, st) ∈ view /\ is_gone s st = true.
Proof.
  intros Hn%contents_cleanup [v (st & Hd & _)%contents_lookup]. rewrite tick_cleanup_data in Hn.
  destruct (existsb _ view) eqn:E; [|congruence].
  apply existsb_exists in E as ([k st'] & Hin%list_elem_of_In & Hk). cbn in Hk.
  apply andb_prop in Hk as [Hk%String.eqb_eq Hg]. subst k. eauto.
Qed.

Lemma reported s view id st w :
  (id, st) ∈ view -> sv_workload (resolve s st) = Some w ->
  {| rep_InstanceId := id; rep_Port := ws_Port w; rep_State := InstanceState_value (ws_State w) |}
    ∈ tick_reports view s.
Proof.
  intros Hin Hw. apply list_elem_of_omap. exists (id, st). split; [done|].
  unfold report. cbn [fst snd]. by rewrite Hw.
Qed.

(** A status is dropped only after it was reported, unless it changes in
    between: when nothing else touches the store, every status that [tick] drops
    was reported as [DELETED] or [CREATION_FAILED]; but when [StopWorkload]
    records a deletion between the two loops, the entry is dropped although all
    that was reported of it is that it runs. *)
Theorem tick_drops_reported (s : MemStore) (view : list (string * Status)) (id : string) :
  store_wf s -> is_view s view ->
  (is_Some (contents s !! id) -> contents (tick_cleanup view s) !! id = None ->
   exists r, r ∈ tick_reports view s /\ rep_InstanceId r = id /\
     (rep_State r = InstanceState_value WorkloadStateDeleted \/
      rep_State r = InstanceState_value WorkloadStateCreationFailed)) /\
  (forall p, contents s !! id = Some (mk_sv None (Some (mk_ws WorkloadStateRunning p))) ->
   exists s1, StopWorkload_record id s = (Ok tt, s1) /\
     (forall r, r ∈ tick_reports view s -> rep_InstanceId r = id ->
        rep_State r = InstanceState_value WorkloadStateRunning) /\
     contents (tick_cleanup view s1) !! id = None).
Proof.
  intros Hwf Hview. split.
  - intros Hs Hn. destruct (dropped_gone s view id Hn Hs) as (st & Hin & Hg). unfold is_gone in Hg.
    destruct (sv_workload (resolve s st)) as [w|] eqn:Ew; [|done].
    eexists. split; [by apply (reported s view id st w)|]. split; [done|]. cbn [rep_State].
    apply orb_prop in Hg as [Hg%String.eqb_eq|Hg%String.eqb_eq]; rewrite Hg; auto.
  - intros p Hc. unfold StopWorkload_record.
    pose proof (UpdateLit_refines id (workload_state WorkloadStateDeleted) s Hwf) as Hr.
    unfold spec_update in Hr. rewrite Hc in Hr. cbn in Hr.
    destruct Hr as (s1 & E & Ec & _ & Hk & _). exists s1. split; [exact E|].
    apply contents_lookup in Hc as (st & Hd & Hres). split.
    + intros r (kv & Hin & Hrep)%list_elem_of_omap Hid. destruct kv as [k st'].
      unfold report in Hrep. cbn [fst snd] in Hrep.
      destruct (sv_workload (resolve s st')) as [w|] eqn:Ew; [|discriminate Hrep].
      cbn in Hrep. injection Hrep as <-. cbn in Hid |- *. subst k.
      apply (view_lookup s view) in Hin; [|done]. assert (st' = st) as -> by congruence.
      rewrite Hres in Ew. cbn in Ew. by injection Ew as <-.
    + apply (gone_dropped s1 view id st); [by apply (view_lookup s view)|].
      assert (contents s1 !! id = Some (resolve s1 st)) as Hc1
        by (unfold contents; by rewrite lookup_fmap, (Hk _ _ Hd)).
      rewrite Ec, lookup_insert_eq in Hc1. injection Hc1 as _ Hw1.
      unfold is_gone, resolve. cbn [sv_workload]. by rewrite <-Hw1.
Qed.

Definition demo_running : MemStore :=
  (UpdateLit "x" (mk_sv None (Some (mk_ws WorkloadStateRunning 30000))) NewMemStore).2.

Lemma tick_drops_reported_witness :
  exists s1, StopWorkload_record "x" demo_running = (Ok tt, s1) /\
    contents (tick_cleanup (map_to_list (View demo_running)) s1) !! "x" = None.
Proof.
  assert (store_wf demo_running) as Hwf.
  { destruct (UpdateLit_refines "x" (mk_sv None (Some (mk_ws WorkloadStateRunning 30000))) NewMemStore
      NewMemStore_wf) as (s' & E & _ & Hwf & _). unfold demo_running. by rewrite E. }
  destruct (proj2 (tick_drops_reported demo_running (map_to_list (View demo_running)) "x" Hwf
    (Permutation_refl _)) 30000) as (s1 & E & _ & Hn); [vm_compute; reflexivity|].
  exists s1. split; [exact E|exact Hn].
Defined.
