(* ===== verification/Platform.v ===== *)
(** * The node as a whole: the reconciler and the datapath

    The CNI plugin learns the host port of a workload from platformd's status
    store, and DEL removes whatever is registered under that port.  The
    reconciler, for its part, gives a port back as soon as a workload could not
    be started. *)

From S2P Require Import Prelude Go Endian CLayout Helpers RefHelpers Samples MapDefs PortAlloc StatusStore Node Reconciler Checkpoint Ports Control Datapath Registry Cni.

(** The port in [StatusToTransport]: that of a workload, of a checkpoint, or
    none. *)
Definition StatusToTransport_Port (v : StatusV) : Z :=
  match sv_workload v with
  | Some w => ws_Port w
  | None => match sv_checkpoint v with Some c => cs_Port c | None => 0 end
  end.

(** [Server.WorkloadStatus]: errors for the empty id and for an unknown one. *)
Definition WorkloadStatus_Port (T : gmap string StatusV) (id : string) : option Z :=
  if String.eqb id "" then None else StatusToTransport_Port <$> T !! id.

(** platformd answers [WorkloadStatus] from the table. *)
Definition answers_from (T : gmap string StatusV) (N : CniHost) : Prop :=
  forall h id, ask_port h id = WorkloadStatus_Port T id.

Lemma recorded_port T id w :
  id <> "" -> recorded T id = Some w -> WorkloadStatus_Port T id = Some (ws_Port w).
Proof.
  intros Hid%String.eqb_neq Hw. unfold WorkloadStatus_Port, recorded in *. rewrite Hid.
  apply bind_Some in Hw as (v & -> & Hv). cbn. unfold StatusToTransport_Port. by rewrite Hv.
Qed.

(** The port of a failed workload is reused too early: there is a run of
    the reconciler at whose end workload y is running on a port, the goroutine
    of x is about to remove the failed workload x, and x is still recorded with
    that same port, which it has given back.  The DEL that this removal triggers
    then takes down the registration of y. *)
Theorem stale_port_removes_other :
  exists S, rtc (plat_step demo_is_cp demo_cfg demo_ck_cfg) (fresh_plat 30000 30100) S /\
    let T := table (pl_node S) in
    running_on T "y" 30000 /\ pl_ins S !! "x" ≫= removes_next = Some "x" /\
    forall (e : endianness) (K : KMaps) (KL : KMapLaws K) (N : CniHost) (R : fleet)
        (y : VethPair) (args : CmdArgs) (conf : Conf) (s : cni_state),
      answers_from T N -> names args "x" ->
      sys_reachable e R (c_maps s) -> registered R !! 30000 = Some y ->
      represents (spec_del 30000 R) (c_maps (ExecDel args conf s).2).
Proof.
  destruct race_end as (S & Hr & Hy & Hx & Hg). exists S.
  split; [exact Hr|]. split; [exact Hy|]. split; [exact Hg|].
  intros e K KL N R y args conf s Hans Hnames (Hrep & Hwf & _)%sys_reachable_inv HW; [|done].
  rewrite (exec_del_maps args conf "x" s 30000); [|done|by rewrite (Hans _ "x"), (recorded_port _ "x" _ ltac:(done) Hx)|done].
  change (cast_u16 30000) with 30000.
  pose proof (cniDel_refines R 30000 (c_maps s) Hrep Hwf) as Hd.
  rewrite HW in Hd. destruct Hd as (m' & E & Hrep'); [unfold u16; lia|]. by rewrite E.
Qed.

(** A host whose platformd answers from a given table. *)
Definition demo_platform (T : gmap string StatusV) : CniHost := {|
  ask_ipam := ask_ipam (CniHost := demo_host None);
  ask_links := ask_links (CniHost := demo_host None);
  ask_port _ id := WorkloadStatus_Port T id;
  ask _ _ := true;
|}.

Definition demo_y_maps : bpf_maps := (cniAdd demo_pair 30000 no_maps).2.

Lemma demo_y_reachable : sys_reachable LE (mk_fleet {[30000 := demo_pair]} ∅ ∅) demo_y_maps.
Proof.
  eapply rtc_l; [apply (sys_add LE ref_kmaps 3 no_fleet no_maps 30000 demo_pair)|apply rtc_refl].
  split; [done|]. split; [demo_ok|]. split; intros p' w'; cbn; by rewrite lookup_empty.
Qed.

(** Workload y is registered at 30000; the DEL of x empties the registry. *)
Lemma stale_port_removes_other_witness :
  exists T, running_on T "y" 30000 /\
    is_Some (ptp_dnat_targets demo_y_maps !! 30000) /\
    represents no_fleet (c_maps (ExecDel (N := demo_platform T) demo_args demo_conf
      (mk_cni demo_y_maps [])).2).
Proof.
  destruct stale_port_removes_other as (S & _ & Hy & _ & Hdel).
  exists (table (pl_node S)). split; [exact Hy|]. split; [vm_compute; eexists; reflexivity|].
  specialize (Hdel LE ref_kmaps ref_kmaps_laws (demo_platform (table (pl_node S)))
    (mk_fleet {[30000 := demo_pair]} ∅ ∅)
    demo_pair demo_args demo_conf (mk_cni demo_y_maps [])).
  unfold spec_del in Hdel. cbn [registered lost dangling] in Hdel.
  rewrite (delete_singleton_eq 30000 demo_pair) in Hdel. apply Hdel.
  - intros h id. reflexivity.
  - exact demo_names.
  - exact demo_y_reachable.
  - apply lookup_singleton_eq.
Defined.
