(* ===== verification/CpDb.v ===== *)
(** * The database of the control plane

    [src/controlplane/postgres]: the tables, the queries of [query.sql] and the
    repository functions that the services call.  A statement may fail for
    reasons of its own (the connection, a limit of a column); an environment
    [CpEnv] decides that, the order of rows that no query fixes, new ids and the
    clock, from everything that was sent before.  A repository function is one
    statement, one transaction or a sequence of batches; handlers of requests
    are trees of such calls, between which other requests get their turn. *)

From stdpp Require Import sorting.
From S2P Require Import Prelude Endian.

#[local] Open Scope Z_scope.

(** ** Errors

    [apierrs], [pgx.ErrNoRows], and all others with their text.  Wrapping does
    not hide an error from [errors.Is], so it is left out. *)

Inductive api_error :=
| ErrNotFound | ErrInvalidPageSize | ErrInvalidPageToken | ErrPermissionDenied
| ErrFlavorNameExists | ErrFlavorVersionExists | ErrMinecraftVersionNotSupported
| ErrHashMismatch | ErrInvalidPath (fields : list (nat * string))
| ErrFlavorFilesNotUploaded
| ErrInstanceNotFound | ErrNodeKeyMissing | ErrNoSlotsAvailable
| ErrNoRows
| ErrOther (msg : string).

(** ** Tables *)

Record node_row := {
  nd_ID : string; nd_Name : string; nd_Address : string;
  nd_CheckpointApiEndpoint : string; nd_Slots : Z;
}.

Record user_row := {
  us_ID : string; us_Nickname : string; us_Email : string;
  us_CreatedAt : Z; us_UpdatedAt : Z;
}.

Record chunk_row := {
  ck_ID : string; ck_Name : string; ck_Description : string; ck_Tags : list string;
  ck_CreatedAt : Z; ck_UpdatedAt : Z; ck_OwnerID : string; ck_DeletedAt : option Z;
}.

Record flavor_row := {
  fl_ID : string; fl_ChunkID : string; fl_Name : string;
  fl_CreatedAt : Z; fl_UpdatedAt : Z; fl_DeletedAt : option Z;
}.

Record version_row := {
  fv_ID : string; fv_FlavorID : string; fv_Hash : string; fv_BuildStatus : string;
  fv_Version : string; fv_FilesUploaded : bool; fv_PrevVersionID : option string;
  fv_CreatedAt : Z; fv_PresignedUrlExpiryDate : option Z; fv_PresignedUrl : option string;
  fv_MinecraftVersion : string; fv_MinPlayers : Z; fv_MaxPlayers : Z;
}.

Record file_row := { ff_FlavorVersionID : string; ff_FileHash : string; ff_FilePath : string }.

Record instance_row := {
  in_ID : string; in_FlavorVersionID : string; in_NodeID : string; in_Port : option Z;
  in_State : string; in_CreatedAt : Z; in_UpdatedAt : Z; in_OwnerID : string;
  in_OrderedBy : string;
}.

(** Jobs of the queue: their arguments ([job/jobs.go]), whether they are still to
    be worked on, done, or given up, and how often they were tried. *)
Inductive job_args :=
| CreateImage (FlavorVersionID BaseImage OCIRegistry : string) (span : string * string)
| CreateCheckpoint (FlavorVersionID BaseImageURL : string) (span : string * string).

Inductive job_state := JobLive | JobCompleted | JobDiscarded.

#[global] Instance job_state_eq_dec : EqDecision job_state.
Proof. solve_decision. Defined.

Record job_row := mk_job {
  jb_ID : Z; jb_Args : job_args; jb_State : job_state; jb_Attempt : Z; jb_MaxAttempts : Z;
}.

(** Rows by primary key; the files of versions and the jobs are lists. *)
Record db := mk_db {
  t_nodes : gmap string node_row;
  t_users : gmap string user_row;
  t_chunks : gmap string chunk_row;
  t_flavors : gmap string flavor_row;
  t_versions : gmap string version_row;
  t_files : list file_row;
  t_minecraft : gmap string string;
  t_instances : gmap string instance_row;
  t_jobs : list job_row;
}.

Definition set_instances (t : gmap string instance_row) (d : db) : db :=
  mk_db (t_nodes d) (t_users d) (t_chunks d) (t_flavors d) (t_versions d) (t_files d)
    (t_minecraft d) t (t_jobs d).
Definition set_versions (t : gmap string version_row) (d : db) : db :=
  mk_db (t_nodes d) (t_users d) (t_chunks d) (t_flavors d) t (t_files d) (t_minecraft d)
    (t_instances d) (t_jobs d).
Definition set_flavors (t : gmap string flavor_row) (d : db) : db :=
  mk_db (t_nodes d) (t_users d) (t_chunks d) t (t_versions d) (t_files d) (t_minecraft d)
    (t_instances d) (t_jobs d).
Definition set_files (t : list file_row) (d : db) : db :=
  mk_db (t_nodes d) (t_users d) (t_chunks d) (t_flavors d) (t_versions d) t (t_minecraft d)
    (t_instances d) (t_jobs d).
Definition set_jobs (t : list job_row) (d : db) : db :=
  mk_db (t_nodes d) (t_users d) (t_chunks d) (t_flavors d) (t_versions d) (t_files d) (t_minecraft d)
    (t_instances d) t.

(** ** The environment *)

(** The statements sent so far, most recent first, decide what happens next. *)
Class CpEnv := {
  (** the statement just sent fails *)
  cp_fault : list string -> option string;
  (** the connection breaks when a batch is closed; whether it took effect *)
  cp_broken : list string -> option (string * bool);
  (** the order of rows where a query leaves it open *)
  cp_rows : forall A : Type, list string -> list A -> list A;
  cp_newV7 : list string -> option string;
  cp_now : list string -> Z;
  (** [netip.ParseAddrPort] succeeds *)
  parse_addr_port : string -> bool;
  (** the input function of the type uuid: the id in its standard form *)
  uuid_in : string -> option string;
  (** [uuid.Parse] and [Version] *)
  uuid_version : string -> option Z;
}.
Arguments cp_rows {CpEnv A} _ _.

Class CpLaws (En : CpEnv) : Prop := {
  cp_rows_perm {A} h (l : list A) : cp_rows h l ≡ₚ l;
  uuid_in_standard s u : uuid_in s = Some u -> uuid_in u = Some u;
  cp_newV7_standard h u : cp_newV7 h = Some u -> uuid_in u = Some u /\ uuid_version u = Some 7;
  uuid_version_empty : uuid_version "" = None;
}.

(** ** Calls of the repository *)

Record cp := mk_cp { cp_db : db; cp_log : list string }.

Definition CpM (A : Type) : Type := cp -> (api_error + A) * cp.

#[global] Instance CpM_ret : MRet CpM := fun A a s => (inr a, s).
#[global] Instance CpM_bind : MBind CpM := fun A B f m s =>
  match m s with
  | (inl e, s') => (inl e, s')
  | (inr a, s') => f a s'
  end.

Definition raise {A} (e : api_error) : CpM A := fun s => (inl e, s).

(** The error that a call returned, as a value. *)
Definition catch {A} (m : CpM A) : CpM (api_error + A) := fun s =>
  let (r, s') := m s in (inr r, s').

Definition send (name : string) (s : cp) : cp := mk_cp (cp_db s) (name :: cp_log s).

Section repository.
Context {En : CpEnv}.

(** A statement: [f] is what it does to the database, given the history. *)
Definition sql {A} (name : string) (f : list string -> db -> (api_error + A) * db) : CpM A := fun s =>
  let h := name :: cp_log s in
  match cp_fault h with
  | Some msg => (inl (ErrOther msg), mk_cp (cp_db s) h)
  | None => let (r, d) := f h (cp_db s) in (r, mk_cp d h)
  end.

(** A statement that only reads. *)
Definition select {A} (name : string) (f : list string -> db -> api_error + A) : CpM A :=
  sql name (fun h d => (f h d, d)).

(** The values that the environment hands out. *)
Definition uuid_NewV7 : CpM string := fun s =>
  match cp_newV7 (cp_log s) with
  | Some u => (inr u, send "uuid" s)
  | None => (inl (ErrOther "uuid"), send "uuid" s)
  end.
Definition time_Now : CpM Z := fun s => (inr (cp_now (cp_log s)), send "now" s).

(** [db.do] *)
Definition do_ {A} (fn : CpM A) : CpM A :=
  select "acquire" (fun _ _ => inr tt);; fn.

(** [db.doTX]: an error of [fn] rolls everything back and is returned, whether
    the rollback succeeds or not.  A commit that fails is taken to be rolled back
    too, as when a constraint is violated or the statement does not reach the
    server; a connection that is lost after the server committed is left out. *)
Definition doTX {A} (fn : CpM A) : CpM A :=
  select "acquire" (fun _ _ => inr tt);;
  select "begin" (fun _ _ => inr tt);;
  ((fun s =>
    match fn s with
    | (inl e, s') => (inl e, send "rollback" (mk_cp (cp_db s) (cp_log s')))
    | (inr a, s') =>
        let h := "commit" :: cp_log s' in
        match cp_fault h with
        | Some msg => (inl (ErrOther msg), mk_cp (cp_db s) h)
        | None => (inr a, mk_cp (cp_db s') h)
        end
    end) : CpM A).

(** An argument of type uuid that is given as text. *)
Definition uuid_arg {A} (x : string) (k : string -> api_error + A) : api_error + A :=
  match uuid_in x with
  | Some u => k u
  | None => inl (ErrOther "invalid input syntax for type uuid")
  end.

(** ** Batches

    [SendBatch] runs all statements in one implicit transaction, unless a
    transaction is open already.  Once one fails, reading its result and those
    after it gives the error, and so does closing the batch. *)

Record batch_results := { br_Exec : list (option api_error); br_Close : option api_error }.

Definition batch_stmt : Type := db -> api_error + db.

(** The database after the statements, or the number of those that succeeded
    and the error. *)
Fixpoint exec_batch (h : list string) (name : string) (l : list batch_stmt) (d : db)
    : (nat * api_error + db) * list string :=
  match l with
  | [] => (inr d, h)
  | f :: l =>
      let h := name :: h in
      let r := match cp_fault h with Some msg => inl (ErrOther msg) | None => f d end in
      match r with
      | inl e => (inl (0%nat, e), h)
      | inr d =>
          match exec_batch h name l d with
          | (inl (n, e), h) => (inl (S n, e), h)
          | (inr d, h) => (inr d, h)
          end
      end
  end.

Definition SendBatch (name : string) (l : list batch_stmt) : CpM batch_results := fun s =>
  match exec_batch (cp_log s) name l (cp_db s) with
  | (inl (n, e), h) =>
      (inr {| br_Exec := replicate n None ++ replicate (length l - n) (Some e); br_Close := Some e |},
       mk_cp (cp_db s) h)
  | (inr d, h) =>
      let h := "close" :: h in
      match cp_broken h with
      | Some (msg, done) =>
          (inr {| br_Exec := replicate (length l) None; br_Close := Some (ErrOther msg) |},
           mk_cp (if done : bool then d else cp_db s) h)
      | None => (inr {| br_Exec := replicate (length l) None; br_Close := None |}, mk_cp d h)
      end
  end.

(** The callback overwrites [err]; the error of [Close] comes first. *)
Definition bulkExecAndClose (br : batch_results) : CpM unit :=
  let err := fold_left (fun _ e => e) (br_Exec br) None in
  match br_Close br with
  | Some e => raise e
  | None => match err with Some e => raise e | None => mret tt end
  end.
End repository.

(** ** Handlers

    A handler calls the repository and returns as soon as a call fails. *)

Inductive handler (A : Type) : Type :=
| HRet (r : api_error + A)
| HCall (X : Type) (m : CpM X) (k : X -> handler A).
Arguments HRet {A} r.
Arguments HCall {A X} m k.

#[global] Instance handler_ret : MRet handler := fun A a => HRet (inr a).
#[global] Instance handler_bind : MBind handler := fun A B f =>
  fix go (g : handler A) : handler B :=
    match g with
    | HRet (inl e) => HRet (inl e)
    | HRet (inr a) => f a
    | HCall m k => HCall m (fun x => go (k x))
    end.

Definition repo {X} (m : CpM X) : handler X := HCall m (fun x => HRet (inr x)).
Definition herr {A} (e : api_error) : handler A := HRet (inl e).

(** A request that is handled alone. *)
Fixpoint serve {A} (g : handler A) : CpM A :=
  match g with
  | HRet r => fun s => (r, s)
  | HCall m k => x ← m; serve (k x)
  end.

Lemma serve_bind {A B} (g : handler A) (f : A -> handler B) s :
  serve (g ≫= f) s = (serve g ≫= fun a => serve (f a)) s.
Proof.
  revert s. induction g as [[e|a]|X m k IH]; intros s; [done..|].
  change (serve (HCall m k ≫= f) s) with ((m ≫= fun x => serve (k x ≫= f)) s).
  change (serve (HCall m k)) with (m ≫= fun x => serve (k x)).
  unfold mbind at 1 3 4, CpM_bind. destruct (m s) as [[e|x] s']; [done|]. apply IH.
Qed.

Lemma CpM_bind_inr {A B} (m : CpM A) (f : A -> CpM B) s b s' :
  (m ≫= f) s = (inr b, s') <-> exists a s1, m s = (inr a, s1) /\ f a s1 = (inr b, s').
Proof.
  unfold mbind, CpM_bind. split.
  - destruct (m s) as [[e|a] s1]; [done|]. eauto.
  - by intros (a & s1 & -> & ?).
Qed.

Lemma CpM_bind_ok {A B} (m : CpM A) (f : A -> CpM B) s a s1 :
  m s = (inr a, s1) -> (m ≫= f) s = f a s1.
Proof. unfold mbind, CpM_bind. by intros ->. Qed.

Lemma CpM_bind_err {A B} (m : CpM A) (f : A -> CpM B) s e s1 :
  m s = (inl e, s1) -> (m ≫= f) s = (inl e, s1).
Proof. unfold mbind, CpM_bind. by intros ->. Qed.

Lemma CpM_bind_assoc {A B C} (m : CpM A) (f : A -> CpM B) (g : B -> CpM C) s :
  (m ≫= fun a => f a ≫= g) s = ((m ≫= f) ≫= g) s.
Proof. unfold mbind, CpM_bind. by destruct (m s) as [[e|a] s']. Qed.

Lemma CpM_bind_ext {A B} (m : CpM A) (f g : A -> CpM B) s :
  (forall a s', f a s' = g a s') -> (m ≫= f) s = (m ≫= g) s.
Proof. intros Hfg. unfold mbind, CpM_bind. destruct (m s) as [[e|a] s']; [done|]. apply Hfg. Qed.

(** A transaction takes effect as a whole or not at all. *)
Lemma doTX_spec {En : CpEnv} {A} (fn : CpM A) s r s' :
  doTX fn s = (r, s') ->
  match r with
  | inl _ => cp_db s' = cp_db s
  | inr a => exists s1 s2, cp_db s1 = cp_db s /\ fn s1 = (inr a, s2) /\ cp_db s' = cp_db s2
  end.
Proof.
  unfold doTX, select, sql. unfold mbind, CpM_bind.
  destruct (cp_fault ("acquire" :: _)); [by intros [= <- <-]|]. cbn [cp_log cp_db].
  destruct (cp_fault ("begin" :: _)); [by intros [= <- <-]|]. set (s1 := mk_cp _ _).
  destruct (fn s1) as [[e|a] s2] eqn:E; [by intros [= <- <-]|].
  destruct (cp_fault ("commit" :: _)); [by intros [= <- <-]|]. intros [= <- <-].
  by exists s1, s2.
Qed.

(** ** What a batch does *)

(** All statements, one after the other. *)
Fixpoint run_batch (l : list batch_stmt) (d : db) : api_error + db :=
  match l with
  | [] => inr d
  | f :: l => match f d with inl e => inl e | inr d => run_batch l d end
  end.

Section batches.
Context {En : CpEnv}.

Lemma exec_batch_done name l : forall h d d' h',
  exec_batch h name l d = (inr d', h') -> run_batch l d = inr d'.
Proof using Type.
  induction l as [|f l IH]; intros h d d' h'; cbn; [by intros [= -> _]|].
  destruct (cp_fault (name :: h)); [done|]. destruct (f d) as [e|d1]; [done|].
  destruct (exec_batch (name :: h) name l d1) as [[[n e]|d2] h2] eqn:E; [done|].
  intros [= -> ->]. by eapply IH.
Qed.

(** No error is lost: if the last result is fine, so were those before it. *)
Lemma bulk_spec name l s r s' :
  (br ← SendBatch name l; bulkExecAndClose br) s = (r, s') ->
  match r with
  | inr _ => run_batch l (cp_db s) = inr (cp_db s')
  | inl _ => cp_db s' = cp_db s \/ run_batch l (cp_db s) = inr (cp_db s')
  end.
Proof using Type.
  unfold mbind, CpM_bind, SendBatch.
  destruct (exec_batch (cp_log s) name l (cp_db s)) as [[[n e]|d] h] eqn:E.
  - intros [= <- <-]. by left.
  - apply exec_batch_done in E. destruct (cp_broken ("close" :: h)) as [[msg []]|].
    + intros [= <- <-]. by right.
    + intros [= <- <-]. by left.
    + unfold bulkExecAndClose. cbn [br_Exec br_Close].
      assert (fold_left (fun _ e => e) (replicate (length l) (None : option api_error)) None = None) as ->
        by (induction (length l); done).
      by intros [= <- <-].
Qed.

Lemma exec_batch_ok name l : forall h d d',
  (forall h, cp_fault h = None) -> run_batch l d = inr d' -> exists h', exec_batch h name l d = (inr d', h').
Proof using Type.
  induction l as [|f l IH]; intros h d d' Hf; cbn; [intros [= ->]; by eexists|].
  rewrite Hf. destruct (f d) as [e|d1]; [done|]. intros Hr.
  destruct (IH (name :: h) d1 d' Hf Hr) as [h' ->]. by eexists.
Qed.

(** Without faults everything takes effect. *)
Lemma bulk_ok name l s d :
  (forall h, cp_fault h = None) -> (forall h, cp_broken h = None) -> run_batch l (cp_db s) = inr d ->
  exists h', (br ← SendBatch name l; bulkExecAndClose br) s = (inr tt, mk_cp d h').
Proof using Type.
  intros Hf Hb Hr. destruct (exec_batch_ok name l (cp_log s) (cp_db s) d Hf Hr) as [h' E].
  exists ("close" :: h'). unfold mbind, CpM_bind, SendBatch. rewrite E, Hb.
  unfold bulkExecAndClose. cbn [br_Exec br_Close].
  by replace (fold_left (fun _ e => e) (replicate (length l) (None : option api_error)) None)
    with (None : option api_error) by (induction (length l); done).
Qed.

(** A statement that does not accept its arguments undoes all. *)
Lemma bulk_rejected name l s r s' e :
  (br ← SendBatch name l; bulkExecAndClose br) s = (r, s') -> run_batch l (cp_db s) = inl e ->
  cp_db s' = cp_db s /\ exists e', r = inl e'.
Proof using Type.
  intros E Hr. pose proof (bulk_spec name l s r s' E) as Hs. destruct r as [e'|[]].
  - destruct Hs as [Hs|Hs]; [by eauto|congruence].
  - congruence.
Qed.
End batches.

(** ** Calls that only read *)

Section keeps.
Context {En : CpEnv}.

Definition keeps_db {X} (m : CpM X) : Prop := forall s, cp_db (m s).2 = cp_db s.

Lemma keeps_bind {A B} (m : CpM A) (f : A -> CpM B) :
  keeps_db m -> (forall a, keeps_db (f a)) -> keeps_db (m ≫= f).
Proof using Type.
  intros Hm Hf s. specialize (Hm s). unfold mbind, CpM_bind. destruct (m s) as [[e|a] s']; [done|].
  cbn in Hm. by rewrite Hf.
Qed.

Lemma keeps_select {A} name (f : list string -> db -> api_error + A) : keeps_db (select name f).
Proof using Type. intros s. unfold select, sql. by destruct (cp_fault _). Qed.

Lemma keeps_ret {A} (r : api_error + A) : keeps_db (fun s => (r, s)).
Proof using Type. done. Qed.

Lemma keeps_catch {A} (m : CpM A) : keeps_db m -> keeps_db (catch m).
Proof using Type. intros Hm s. specialize (Hm s). unfold catch. by destruct (m s). Qed.

Lemma keeps_do {A} (m : CpM A) : keeps_db m -> keeps_db (do_ m).
Proof using Type. intros Hm. apply keeps_bind; [apply keeps_select|done]. Qed.

Lemma keeps_doTX {A} (m : CpM A) : keeps_db m -> keeps_db (doTX m).
Proof using Type.
  intros Hm s. destruct (doTX m s) as [r s'] eqn:E. apply doTX_spec in E. cbn [snd].
  destruct r as [e|a]; [done|]. destruct E as (s1 & s2 & <- & E & ->). specialize (Hm s1). by rewrite E in Hm.
Qed.

Lemma keeps_NewV7 : keeps_db uuid_NewV7.
Proof using Type. intros s. unfold uuid_NewV7. by destruct (cp_newV7 _). Qed.

(** A step of a handler that only reads. *)
Lemma serve_reads {X A} (m : CpM X) (f : X -> handler A) s r s' :
  keeps_db m -> serve (repo m ≫= f) s = (r, s') ->
  (exists e, r = inl e /\ cp_db s' = cp_db s) \/
  exists x s1, m s = (inr x, s1) /\ cp_db s1 = cp_db s /\ serve (f x) s1 = (r, s').
Proof using Type.
  intros Hm. rewrite serve_bind. specialize (Hm s). unfold repo. cbn [serve].
  unfold mbind, CpM_bind. destruct (m s) as [[e|x] s1]; cbn in Hm.
  - intros [= <- <-]. left. eauto.
  - intros E. right. exists x, s1. done.
Qed.
End keeps.
