(* ===== verification/CpFlavors.v ===== *)
(** * Flavors and their versions in the database

    [postgres/flavor.go] and [postgres/authz.go]: the repository functions on
    flavors, on their versions and on the owners of chunks, and the types of
    [internal/resource] that they return.  Times count from Go's zero [Time]. *)

From stdpp Require Import sorting.
From S2P Require Import Prelude Endian CpDb.

#[local] Open Scope Z_scope.

(** ** internal/file, internal/resource *)

Record Hash := mk_hash { h_Path : string; h_Hash : string }.

#[global] Instance Hash_eq_dec : EqDecision Hash.
Proof. solve_decision. Defined.

Record FlavorVersion := {
  rv_ID : string; rv_Version : string; rv_MinecraftVersion : string; rv_Hash : string;
  rv_FileHashes : list Hash; rv_FilesUploaded : bool; rv_BuildStatus : string;
  rv_CreatedAt : Z; rv_PresignedURLExpiryDate : option Z; rv_PresignedURL : option string;
  rv_MinPlayers : Z; rv_MaxPlayers : Z;
}.

Record Flavor := {
  rf_ID : string; rf_Name : string; rf_Versions : list FlavorVersion;
  rf_CreatedAt : Z; rf_UpdatedAt : Z; rf_DeletedAt : option Z;
}.

Record User := {
  ru_ID : string; ru_Nickname : string; ru_Email : string; ru_CreatedAt : Z; ru_UpdatedAt : Z;
}.

(** Zero values. *)
Definition no_user : User :=
  {| ru_ID := ""; ru_Nickname := ""; ru_Email := ""; ru_CreatedAt := 0; ru_UpdatedAt := 0 |}.

Definition no_version : FlavorVersion :=
  {| rv_ID := ""; rv_Version := ""; rv_MinecraftVersion := ""; rv_Hash := ""; rv_FileHashes := [];
     rv_FilesUploaded := false; rv_BuildStatus := ""; rv_CreatedAt := 0;
     rv_PresignedURLExpiryDate := None; rv_PresignedURL := None;
     rv_MinPlayers := 0; rv_MaxPlayers := 0 |}.

Definition FlavorVersionBuildStatusPending : string := "PENDING".
Definition FlavorVersionBuildStatusBuildImage : string := "IMAGE_BUILD".
Definition FlavorVersionBuildStatusBuildCheckpoint : string := "CHECKPOINT_BUILD".
Definition FlavorVersionBuildStatusBuildImageFailed : string := "IMAGE_BUILD_FAILED".
Definition FlavorVersionBuildStatusBuildCheckpointFailed : string := "CHECKPOINT_BUILD_FAILED".
Definition FlavorVersionBuildStatusCompleted : string := "COMPLETED".

(** Rows in the order of their paths. *)
Definition by_path (a b : Hash) : Prop := String.le (h_Path a) (h_Path b).
#[global] Instance by_path_dec a b : Decision (by_path a b).
Proof. apply String.le_dec. Defined.
#[global] Instance by_path_trans : Transitive by_path.
Proof. intros a b c. unfold by_path. apply transitivity. Qed.
#[global] Instance by_path_total : Total by_path.
Proof. intros a b. apply String.le_total. Qed.

Definition sortByPath (l : list Hash) : list Hash := merge_sort by_path l.

Definition newer_first (a b : FlavorVersion) : Prop := rv_CreatedAt b <= rv_CreatedAt a.
#[global] Instance newer_first_dec a b : Decision (newer_first a b).
Proof. unfold newer_first. apply _. Defined.

Definition newer_row (a b : version_row) : Prop := fv_CreatedAt b <= fv_CreatedAt a.
#[global] Instance newer_row_dec a b : Decision (newer_row a b).
Proof. unfold newer_row. apply _. Defined.

Section flavors.
Context {En : CpEnv}.

(** The versions of a flavor, in the order in which the table is read. *)
Definition versions_of (h : list string) (d : db) (flavor : string) : list version_row :=
  filter (fun v => fv_FlavorID v = flavor) (cp_rows h (map_to_list (t_versions d)).*2).

(** ** postgres/flavor.go *)

(** One row per version, or one without a version. *)
Definition GetFlavorByID (id : string) : CpM (list (flavor_row * option version_row)) :=
  select "GetFlavorByID" (fun h d => uuid_arg id (fun u =>
    inr match t_flavors d !! u with
        | None => []
        | Some f =>
            match versions_of h d u with
            | [] => [(f, None)]
            | vs => (fun v => (f, Some v)) <$> vs
            end
        end)).

(** The presigned URL is taken from the first row for every version. *)
Definition FlavorByID (id : string) : CpM Flavor :=
  do_ (
    rows ← GetFlavorByID id;
    match rows with
    | [] => raise ErrNotFound
    | (f, first) :: _ =>
        let vers := omap (fun r : flavor_row * option version_row =>
          v ← r.2;
          Some {| rv_ID := fv_ID v; rv_Version := fv_Version v;
                  rv_MinecraftVersion := fv_MinecraftVersion v; rv_Hash := fv_Hash v;
                  rv_FileHashes := []; rv_FilesUploaded := fv_FilesUploaded v;
                  rv_BuildStatus := fv_BuildStatus v; rv_CreatedAt := fv_CreatedAt v;
                  rv_PresignedURLExpiryDate := first ≫= fv_PresignedUrlExpiryDate;
                  rv_PresignedURL := first ≫= fv_PresignedUrl;
                  rv_MinPlayers := cast_u32 (fv_MinPlayers v);
                  rv_MaxPlayers := cast_u32 (fv_MaxPlayers v) |}) rows in
        mret {| rf_ID := fl_ID f; rf_Name := fl_Name f;
                rf_Versions := merge_sort newer_first vers;
                rf_CreatedAt := fl_CreatedAt f; rf_UpdatedAt := fl_UpdatedAt f;
                rf_DeletedAt := fl_DeletedAt f |}
    end).

Definition FlavorIDByFlavorVersionID (id : string) : CpM string :=
  do_ (
    r ← catch (select "FlavorIDByFlavorVersionID" (fun _ d => uuid_arg id (fun u =>
      match t_versions d !! u with Some v => inr (fv_FlavorID v) | None => inl ErrNoRows end)));
    match r with
    | inl ErrNoRows => raise ErrNotFound
    | inl e => raise e
    | inr flavorID => mret flavorID
    end).

Definition FlavorNameExists (chunkID name : string) : CpM bool :=
  do_ (select "FlavorNameExists" (fun _ d => uuid_arg chunkID (fun u =>
    inr (existsb (fun f => String.eqb (fl_Name f) name && String.eqb (fl_ChunkID f) u)
           (map_to_list (t_flavors d)).*2)))).

Definition FlavorVersionExists (flavorID version : string) : CpM bool :=
  do_ (select "FlavorVersionExists" (fun _ d => uuid_arg flavorID (fun u =>
    inr (existsb (fun v => String.eqb (fv_Version v) version && String.eqb (fv_FlavorID v) u)
           (map_to_list (t_versions d)).*2)))).

Definition CreateFlavor (chunkID : string) (name : string) : CpM Flavor :=
  id ← uuid_NewV7;
  do_ (
    now ← time_Now;
    sql "CreateFlavor" (fun _ d =>
      match uuid_in id, uuid_in chunkID with
      | Some id', Some ch =>
          match t_flavors d !! id', t_chunks d !! ch with
          | None, Some _ =>
              (inr tt, set_flavors (<[id' := {| fl_ID := id'; fl_ChunkID := ch; fl_Name := name;
                 fl_CreatedAt := now; fl_UpdatedAt := now; fl_DeletedAt := None |}]> (t_flavors d)) d)
          | _, _ => (inl (ErrOther "constraint"), d)
          end
      | _, _ => (inl (ErrOther "invalid input syntax for type uuid"), d)
      end);;
    mret {| rf_ID := id; rf_Name := name; rf_Versions := []; rf_CreatedAt := now;
            rf_UpdatedAt := now; rf_DeletedAt := None |}).

Definition FlavorVersionFileHashes (id : string) : CpM (list file_row) :=
  select "FlavorVersionFileHashes" (fun h d => uuid_arg id (fun u =>
    inr (filter (fun f => ff_FlavorVersionID f = u) (cp_rows h (t_files d))))).

(** The zero value if the flavor has no version yet. *)
Definition LatestFlavorVersion (flavorID : string) : CpM FlavorVersion :=
  doTX (
    r ← catch (select "LatestFlavorVersionByFlavorID" (fun h d => uuid_arg flavorID (fun u =>
      match merge_sort newer_row (versions_of h d u) with v :: _ => inr v | [] => inl ErrNoRows end)));
    match r with
    | inl ErrNoRows => mret no_version
    | inl e => raise e
    | inr latest =>
        files ← FlavorVersionFileHashes (fv_ID latest);
        let hashes := (fun f => mk_hash (ff_FilePath f) (ff_FileHash f)) <$> files in
        mret {| rv_ID := fv_ID latest; rv_Version := fv_Version latest; rv_MinecraftVersion := "";
                rv_Hash := fv_Hash latest; rv_FileHashes := sortByPath hashes;
                rv_FilesUploaded := false; rv_BuildStatus := "";
                rv_CreatedAt := fv_CreatedAt latest; rv_PresignedURLExpiryDate := None;
                rv_PresignedURL := None; rv_MinPlayers := cast_u32 (fv_MinPlayers latest);
                rv_MaxPlayers := cast_u32 (fv_MaxPlayers latest) |}
    end).

(** [int32] of a [uint32] *)
Definition cast_i32 (z : Z) : Z := let r := z mod 2 ^ 32 in if r <? 2 ^ 31 then r else r - 2 ^ 32.

(** The row is rejected if the flavor or the Minecraft version is missing, or if
    the flavor has this version already. *)
Definition insert_version (v : version_row) (d : db) : (api_error + unit) * db :=
  match t_versions d !! fv_ID v, t_flavors d !! fv_FlavorID v, t_minecraft d !! fv_MinecraftVersion v with
  | None, Some _, Some _ =>
      if existsb (fun v' => String.eqb (fv_Version v') (fv_Version v) &&
                            String.eqb (fv_FlavorID v') (fv_FlavorID v)) (map_to_list (t_versions d)).*2
      then (inl (ErrOther "unique constraint"), d)
      else (inr tt, set_versions (<[fv_ID v := v]> (t_versions d)) d)
  | _, _, _ => (inl (ErrOther "constraint"), d)
  end.

Definition CreateFlavorVersion_repo (flavorID : string) (version : FlavorVersion)
    (prevVersionID : string) : CpM FlavorVersion :=
  id ← uuid_NewV7;
  now ← time_Now;
  doTX (
    let prev := if String.eqb prevVersionID "" then None else Some prevVersionID in
    sql "CreateFlavorVersion" (fun _ d =>
      match uuid_in id, uuid_in flavorID with
      | Some id', Some fl =>
          insert_version {| fv_ID := id'; fv_FlavorID := fl; fv_Hash := rv_Hash version;
            fv_BuildStatus := FlavorVersionBuildStatusPending; fv_Version := rv_Version version;
            fv_FilesUploaded := false; fv_PrevVersionID := prev; fv_CreatedAt := now;
            fv_PresignedUrlExpiryDate := None; fv_PresignedUrl := None;
            fv_MinecraftVersion := rv_MinecraftVersion version;
            fv_MinPlayers := cast_i32 (rv_MinPlayers version);
            fv_MaxPlayers := cast_i32 (rv_MaxPlayers version) |} d
      | _, _ => (inl (ErrOther "invalid input syntax for type uuid"), d)
      end);;
    br ← SendBatch "BulkInsertFlavorFileHashes" ((fun f : Hash => fun d =>
      uuid_arg id (fun u =>
        inr (set_files (t_files d ++ [{| ff_FlavorVersionID := u; ff_FileHash := h_Hash f;
                                         ff_FilePath := h_Path f |}]) d))) <$> rv_FileHashes version);
    bulkExecAndClose br);;
  mret {| rv_ID := id; rv_Version := rv_Version version;
          rv_MinecraftVersion := rv_MinecraftVersion version; rv_Hash := rv_Hash version;
          rv_FileHashes := rv_FileHashes version; rv_FilesUploaded := rv_FilesUploaded version;
          rv_BuildStatus := rv_BuildStatus version; rv_CreatedAt := now;
          rv_PresignedURLExpiryDate := rv_PresignedURLExpiryDate version;
          rv_PresignedURL := rv_PresignedURL version; rv_MinPlayers := rv_MinPlayers version;
          rv_MaxPlayers := rv_MaxPlayers version |}.

(** [UPDATE ... WHERE id]: nothing happens if there is no such row. *)
Definition update_version (name id : string) (f : version_row -> version_row) : CpM unit :=
  sql name (fun _ d =>
    match uuid_in id with
    | Some u => (inr tt, set_versions (alter f u (t_versions d)) d)
    | None => (inl (ErrOther "invalid input syntax for type uuid"), d)
    end).

Definition with_uploaded (v : version_row) : version_row :=
  {| fv_ID := fv_ID v; fv_FlavorID := fv_FlavorID v; fv_Hash := fv_Hash v;
     fv_BuildStatus := fv_BuildStatus v; fv_Version := fv_Version v; fv_FilesUploaded := true;
     fv_PrevVersionID := fv_PrevVersionID v; fv_CreatedAt := fv_CreatedAt v;
     fv_PresignedUrlExpiryDate := fv_PresignedUrlExpiryDate v; fv_PresignedUrl := fv_PresignedUrl v;
     fv_MinecraftVersion := fv_MinecraftVersion v; fv_MinPlayers := fv_MinPlayers v;
     fv_MaxPlayers := fv_MaxPlayers v |}.

Definition with_status (st : string) (v : version_row) : version_row :=
  {| fv_ID := fv_ID v; fv_FlavorID := fv_FlavorID v; fv_Hash := fv_Hash v;
     fv_BuildStatus := st; fv_Version := fv_Version v; fv_FilesUploaded := fv_FilesUploaded v;
     fv_PrevVersionID := fv_PrevVersionID v; fv_CreatedAt := fv_CreatedAt v;
     fv_PresignedUrlExpiryDate := fv_PresignedUrlExpiryDate v; fv_PresignedUrl := fv_PresignedUrl v;
     fv_MinecraftVersion := fv_MinecraftVersion v; fv_MinPlayers := fv_MinPlayers v;
     fv_MaxPlayers := fv_MaxPlayers v |}.

Definition MarkFlavorVersionFilesUploaded (id : string) : CpM unit :=
  do_ (update_version "MarkFlavorVersionFilesUploaded" id with_uploaded).

Definition UpdateFlavorVersionBuildStatus (id status : string) : CpM unit :=
  do_ (update_version "UpdateFlavorVersionBuildStatus" id (with_status status)).

Definition MarkFlavorDeleted (id : string) : CpM unit :=
  do_ (sql "MarkFlavorDeleted" (fun h d =>
    match uuid_in id with
    | Some u => (inr tt, set_flavors (alter (fun f =>
        {| fl_ID := fl_ID f; fl_ChunkID := fl_ChunkID f; fl_Name := fl_Name f;
           fl_CreatedAt := fl_CreatedAt f; fl_UpdatedAt := fl_UpdatedAt f;
           fl_DeletedAt := Some (cp_now h) |}) u (t_flavors d)) d)
    | None => (inl (ErrOther "invalid input syntax for type uuid"), d)
    end)).

(** An inner join: a version without files has no row. *)
Definition FlavorVersionByID (id : string) : CpM FlavorVersion :=
  do_ (
    rows ← select "FlavorVersionByID" (fun h d => uuid_arg id (fun u =>
      inr match t_versions d !! u with
          | Some v => (fun f => (v, f)) <$> filter (fun f => ff_FlavorVersionID f = u) (cp_rows h (t_files d))
          | None => []
          end));
    match rows with
    | [] => raise ErrNotFound
    | (v, _) :: _ =>
        mret {| rv_ID := fv_ID v; rv_Version := fv_Version v;
                rv_MinecraftVersion := fv_MinecraftVersion v; rv_Hash := fv_Hash v;
                rv_FileHashes := (fun r : version_row * file_row =>
                  mk_hash (ff_FilePath r.2) (ff_FileHash r.2)) <$> rows;
                rv_FilesUploaded := fv_FilesUploaded v; rv_BuildStatus := fv_BuildStatus v;
                rv_CreatedAt := fv_CreatedAt v;
                rv_PresignedURLExpiryDate := fv_PresignedUrlExpiryDate v;
                rv_PresignedURL := fv_PresignedUrl v; rv_MinPlayers := cast_u32 (fv_MinPlayers v);
                rv_MaxPlayers := cast_u32 (fv_MaxPlayers v) |}
    end).

(** ** postgres/authz.go *)

Definition to_user (u : user_row) : User :=
  {| ru_ID := us_ID u; ru_Nickname := us_Nickname u; ru_Email := us_Email u;
     ru_CreatedAt := us_CreatedAt u; ru_UpdatedAt := us_UpdatedAt u |}.

(** An error is turned into the zero user and no error. *)
Definition getOwner (fn : CpM user_row) : CpM User :=
  r ← catch (do_ fn);
  match r with
  | inl _ => mret no_user
  | inr u => mret (to_user u)
  end.

Definition one_row {A} (o : option A) : api_error + A :=
  match o with Some a => inr a | None => inl ErrNoRows end.

Definition owner_of_chunk (d : db) (chunk : string) : option user_row :=
  c ← t_chunks d !! chunk; t_users d !! ck_OwnerID c.
Definition owner_of_flavor (d : db) (flavor : string) : option user_row :=
  f ← t_flavors d !! flavor; owner_of_chunk d (fl_ChunkID f).
Definition owner_of_version (d : db) (version : string) : option user_row :=
  v ← t_versions d !! version; owner_of_flavor d (fv_FlavorID v).

Definition ChunkOwner (chunkID : string) : CpM User :=
  getOwner (select "ChunkOwnerByChunkID" (fun _ d =>
    uuid_arg chunkID (fun u => one_row (owner_of_chunk d u)))).
Definition FlavorOwner (flavorID : string) : CpM User :=
  getOwner (select "ChunkOwnerByFlavorID" (fun _ d =>
    uuid_arg flavorID (fun u => one_row (owner_of_flavor d u)))).
Definition FlavorVersionOwner (versionID : string) : CpM User :=
  getOwner (select "ChunkOwnerByFlavorVersionID" (fun _ d =>
    uuid_arg versionID (fun u => one_row (owner_of_version d u)))).
(** ** Functions that only read *)

Lemma keeps_FlavorID id : keeps_db (FlavorIDByFlavorVersionID id).
Proof using Type.
  apply keeps_do, keeps_bind; [apply keeps_catch, keeps_select|]. intros [[]|x]; apply keeps_ret.
Qed.

Lemma keeps_FlavorByID id : keeps_db (FlavorByID id).
Proof using Type.
  apply keeps_do, keeps_bind; [apply keeps_select|]. intros [|[f o] l]; apply keeps_ret.
Qed.

Lemma keeps_FlavorVersionExists flavorID version : keeps_db (FlavorVersionExists flavorID version).
Proof using Type. apply keeps_do, keeps_select. Qed.

Lemma keeps_LatestFlavorVersion flavorID : keeps_db (LatestFlavorVersion flavorID).
Proof using Type.
  apply keeps_doTX, keeps_bind; [apply keeps_catch, keeps_select|]. intros [[]|v]; try apply keeps_ret.
  apply keeps_bind; [apply keeps_select|]. intros l. apply keeps_ret.
Qed.

Lemma keeps_getOwner fn : keeps_db fn -> keeps_db (getOwner fn).
Proof using Type.
  intros Hfn. apply keeps_bind; [by apply keeps_catch, keeps_do|]. intros [e|u]; apply keeps_ret.
Qed.
End flavors.
