(* ===== verification/CpSamples.v ===== *)
(** * Concrete databases

    An environment in which no statement fails, and small databases on which the
    definitions of the control plane are evaluated. *)

From stdpp Require Import pretty.
From S2P Require Import Prelude CpDb.

(** Every text but the empty one counts as an id. *)
#[global] Instance demo_cp_env : CpEnv := {|
  cp_fault _ := None;
  cp_broken _ := None;
  cp_rows _ _ l := l;
  cp_newV7 h := Some ("id-" +:+ pretty (length h));
  cp_now h := Z.of_nat (length h);
  parse_addr_port _ := true;
  uuid_in s := if String.eqb s "" then None else Some s;
  uuid_version s := if String.eqb s "" then None else Some 7;
|}.

#[global] Instance demo_cp_laws : CpLaws demo_cp_env.
Proof.
  split; [done| | |done].
  - intros s u. cbn. destruct (String.eqb s "") eqn:E; [done|]. intros [= <-]. by rewrite E.
  - intros h u. cbn. by intros [= <-].
Qed.

Definition demo_user : user_row :=
  {| us_ID := "u"; us_Nickname := "nick"; us_Email := "mail"; us_CreatedAt := 0; us_UpdatedAt := 0 |}.
Definition demo_chunk : chunk_row :=
  {| ck_ID := "c"; ck_Name := "chunk"; ck_Description := ""; ck_Tags := []; ck_CreatedAt := 0;
     ck_UpdatedAt := 0; ck_OwnerID := "u"; ck_DeletedAt := None |}.
Definition demo_flavor : flavor_row :=
  {| fl_ID := "f"; fl_ChunkID := "c"; fl_Name := "flavor"; fl_CreatedAt := 0; fl_UpdatedAt := 0;
     fl_DeletedAt := None |}.
Definition demo_version (id version : string) (url : option string) : version_row :=
  {| fv_ID := id; fv_FlavorID := "f"; fv_Hash := "h"; fv_BuildStatus := "COMPLETED";
     fv_Version := version; fv_FilesUploaded := true; fv_PrevVersionID := None; fv_CreatedAt := 0;
     fv_PresignedUrlExpiryDate := None; fv_PresignedUrl := url; fv_MinecraftVersion := "1.21";
     fv_MinPlayers := 1; fv_MaxPlayers := 8 |}.
Definition demo_node (slots : Z) : node_row :=
  {| nd_ID := "n"; nd_Name := "node"; nd_Address := "10.0.0.1";
     nd_CheckpointApiEndpoint := "10.0.0.1:9"; nd_Slots := slots |}.
Definition demo_row (id : string) : instance_row :=
  {| in_ID := id; in_FlavorVersionID := "v"; in_NodeID := "n"; in_Port := None;
     in_State := "PENDING"; in_CreatedAt := 0; in_UpdatedAt := 0; in_OwnerID := "u";
     in_OrderedBy := "" |}.

(** One node with [slots] slots, one version, and instances with the given ids. *)
Definition demo_db (slots : Z) (ids : list string) : db :=
  {| t_nodes := {["n" := demo_node slots]}; t_users := {["u" := demo_user]};
     t_chunks := {["c" := demo_chunk]}; t_flavors := {["f" := demo_flavor]};
     t_versions := {["v" := demo_version "v" "1" None]}; t_files := [];
     t_minecraft := {["1.21" := "image"]};
     t_instances := list_to_map ((fun id => (id, demo_row id)) <$> ids);
     t_jobs := [] |}.

Definition demo_cp (slots : Z) (ids : list string) : cp := mk_cp (demo_db slots ids) [].
