(* ===== verification/Authz.v ===== *)
(** * Access to chunks, flavors and versions

    [src/controlplane/authz]: requests that change a resource are allowed to the
    owner of the chunk that it belongs to. *)

From S2P Require Import Prelude CpDb CpFlavors CpSamples.

Inductive ResourceType := ResourceTypeChunk | ResourceTypeFlavor | ResourceTypeFlavorVersion.

Record ResourceDef := { rd_ID : string; rd_Type : ResourceType }.

Definition ChunkResourceDef (id : string) : ResourceDef :=
  {| rd_ID := id; rd_Type := ResourceTypeChunk |}.
Definition FlavorResourceDef (id : string) : ResourceDef :=
  {| rd_ID := id; rd_Type := ResourceTypeFlavor |}.
Definition FlavorVersionResourceDef (id : string) : ResourceDef :=
  {| rd_ID := id; rd_Type := ResourceTypeFlavorVersion |}.

Record OwnershipRule := { or_Resource : ResourceDef; or_ActorID : string }.

(** Options set the rules one after the other; [None] is nil. *)
Definition accessRules : Type := option OwnershipRule.
Definition AccessRuleOption : Type := accessRules -> accessRules.

Definition WithOwnershipRule (actorID : string) (res : ResourceDef) : AccessRuleOption :=
  fun _ => Some {| or_Resource := res; or_ActorID := actorID |}.

Section access.
Context {En : CpEnv}.

Definition evalOwnership (rule : OwnershipRule) : CpM unit :=
  let id := rd_ID (or_Resource rule) in
  owner ← match rd_Type (or_Resource rule) with
          | ResourceTypeChunk => ChunkOwner id
          | ResourceTypeFlavor => FlavorOwner id
          | ResourceTypeFlavorVersion => FlavorVersionOwner id
          end;
  if String.eqb (or_ActorID rule) (ru_ID owner) then mret tt else raise ErrPermissionDenied.

Definition AccessAuthorized (opts : list AccessRuleOption) : CpM unit :=
  let rules := fold_left (fun rules o => o rules) opts None in
  match rules with
  | Some rule => evalOwnership rule
  | None => mret tt
  end.

Lemma keeps_AccessAuthorized opts : keeps_db (AccessAuthorized opts).
Proof using Type.
  unfold AccessAuthorized.
  destruct (fold_left (fun (rules : accessRules) o => o rules) opts None) as [[[id ty] actor]|];
    [|apply keeps_ret].
  apply keeps_bind; [destruct ty; apply keeps_getOwner, keeps_select|].
  intros owner. cbn. destruct (String.eqb _ _); apply keeps_ret.
Qed.

(** ** Properties *)

(** The owner of a resource. *)
Definition owner_of (d : db) (res : ResourceDef) : option user_row :=
  u ← uuid_in (rd_ID res);
  match rd_Type res with
  | ResourceTypeChunk => owner_of_chunk d u
  | ResourceTypeFlavor => owner_of_flavor d u
  | ResourceTypeFlavorVersion => owner_of_version d u
  end.

(** The two statements sent to find it, neither of which fails. *)
Definition owner_query (res : ResourceDef) : string :=
  match rd_Type res with
  | ResourceTypeChunk => "ChunkOwnerByChunkID"
  | ResourceTypeFlavor => "ChunkOwnerByFlavorID"
  | ResourceTypeFlavorVersion => "ChunkOwnerByFlavorVersionID"
  end.
Definition lookup_works (s : cp) (res : ResourceDef) : Prop :=
  cp_fault ("acquire" :: cp_log s) = None /\
  cp_fault (owner_query res :: "acquire" :: cp_log s) = None.

(** Who is compared with the actor: the owner, or the zero user. *)
Lemma getOwner_spec (s : cp) (name : string) (res : ResourceDef) (f : db -> string -> option user_row) :
  exists s', cp_db s' = cp_db s /\
    getOwner (select name (fun _ d => uuid_arg (rd_ID res) (fun u => one_row (f d u)))) s =
    (inr (match cp_fault ("acquire" :: cp_log s), cp_fault (name :: "acquire" :: cp_log s),
                uuid_in (rd_ID res) ≫= f (cp_db s) with
          | None, None, Some u => to_user u
          | _, _, _ => no_user
          end), s').
Proof using Type.
  unfold getOwner, catch, do_, select, sql, mbind, CpM_bind, uuid_arg, one_row, mret, CpM_ret. cbn.
  destruct (cp_fault ("acquire" :: cp_log s)) as [m|]; [by eexists; split; [|reflexivity]|]. cbn.
  destruct (cp_fault (name :: _)) as [m|]; [by eexists; split; [|reflexivity]|]. cbn.
  destruct (uuid_in (rd_ID res)) as [u|]; [|by eexists; split; [|reflexivity]]. cbn.
  destruct (f (cp_db s) u); by eexists; split; [|reflexivity].
Qed.

Lemma access_unfold (s : cp) (actor : string) (res : ResourceDef) :
  exists s', cp_db s' = cp_db s /\
    let found := match cp_fault ("acquire" :: cp_log s),
                       cp_fault (owner_query res :: "acquire" :: cp_log s), owner_of (cp_db s) res with
                 | None, None, Some u => to_user u
                 | _, _, _ => no_user
                 end in
    AccessAuthorized [WithOwnershipRule actor res] s =
    (if String.eqb actor (ru_ID found) then inr tt else inl ErrPermissionDenied, s').
Proof using Type.
  pose proof (getOwner_spec s (owner_query res) res) as Hg.
  unfold AccessAuthorized, evalOwnership, owner_of, WithOwnershipRule. cbn [fold_left or_Resource or_ActorID].
  unfold owner_query in *.
  destruct res as [id []]; cbn [rd_ID rd_Type] in *;
    [destruct (Hg owner_of_chunk) as (s' & Hd & E)|destruct (Hg owner_of_flavor) as (s' & Hd & E)
    |destruct (Hg owner_of_version) as (s' & Hd & E)];
    exists s'; (split; [exact Hd|]); cbn zeta; rewrite (CpM_bind_ok _ _ _ _ _ E);
    by destruct String.eqb.
Qed.

(** C27: access is granted to the owner of the resource and to nobody else, and
    the check changes nothing; when the owner cannot be determined (the database
    fails, or there is no such resource) the answer is also that permission is
    denied and no other error, except that an actor without id is let in. *)
Theorem access_exact (s : cp) (actor : string) (res : ResourceDef) :
  cp_db (AccessAuthorized [WithOwnershipRule actor res] s).2 = cp_db s /\
  (lookup_works s res -> forall u, owner_of (cp_db s) res = Some u ->
     (AccessAuthorized [WithOwnershipRule actor res] s).1 =
     if String.eqb actor (us_ID u) then inr tt else inl ErrPermissionDenied) /\
  (~ (lookup_works s res /\ is_Some (owner_of (cp_db s) res)) ->
     (AccessAuthorized [WithOwnershipRule actor res] s).1 =
     if String.eqb actor "" then inr tt else inl ErrPermissionDenied).
Proof using Type.
  destruct (access_unfold s actor res) as (s' & Hd & E). cbn zeta in E. rewrite E. cbn [fst snd].
  unfold lookup_works. split; [exact Hd|]. split.
  - intros [-> ->] u ->. done.
  - intros Hn. destruct (cp_fault ("acquire" :: _)); [done|].
    destruct (cp_fault (owner_query res :: _)); [done|].
    destruct (owner_of (cp_db s) res) as [u|]; [|done]. exfalso. apply Hn. eauto.
Qed.
End access.

(** The owner of a chunk, another user, and a chunk that does not exist. *)
Lemma access_exact_witness :
  let chunk := {| rd_ID := "c"; rd_Type := ResourceTypeChunk |} in
  let missing := {| rd_ID := "z"; rd_Type := ResourceTypeChunk |} in
  (AccessAuthorized [WithOwnershipRule "u" chunk] (demo_cp 1 [])).1 = inr tt /\
  (AccessAuthorized [WithOwnershipRule "w" chunk] (demo_cp 1 [])).1 = inl ErrPermissionDenied /\
  (AccessAuthorized [WithOwnershipRule "" missing] (demo_cp 1 [])).1 = inr tt.
Proof.
  intros chunk missing. split; [|split].
  - apply (access_exact (demo_cp 1 []) "u" chunk) with (u := demo_user); [by split|vm_compute; reflexivity].
  - apply (access_exact (demo_cp 1 []) "w" chunk) with (u := demo_user); [by split|vm_compute; reflexivity].
  - apply (access_exact (demo_cp 1 []) "" missing). intros [_ [u Hu]]. by vm_compute in Hu.
Defined.
