(* ===== verification/Paths.v ===== *)
(** * Paths of uploaded files

    A flavor version names its files by path, and they are later unpacked
    beneath one directory.  [cleanFileHashPaths] of [controlplane/chunk/flavor.go]
    rejects paths that lead elsewhere; this file has it, with the functions of Go's
    [path/filepath] for Unix that it calls, and shows that it accepts exactly the
    paths that lead to a place beneath every directory that one starts from. *)

From Stdlib Require Import Ascii.
From S2P Require Import Prelude GoStrings CpDb CpFlavors.

#[local] Open Scope string_scope.

(** ** path/filepath *)

Definition Separator : ascii := "/"%char.

(** The elements between the separators, and a path made of them. *)
Abbreviation elements := (split_on Separator).
Abbreviation join_elements := (join Separator).

Definition IsAbs (path : string) : bool := HasPrefix path "/".

(** The elements of the result so far, the last one first. *)
Definition clean_step (rooted : bool) (out : list string) (c : string) : list string :=
  if String.eqb c "" || String.eqb c "." then out
  else if String.eqb c ".." then
    match out with
    | top :: rest => if String.eqb top ".." then ".." :: out else rest
    | [] => if rooted then [] else [".."]
    end
  else c :: out.

Definition Clean (path : string) : string :=
  let rooted := IsAbs path in
  let out := rev (fold_left (clean_step rooted) (elements path) []) in
  if rooted then String Separator (join_elements out)
  else match out with [] => "." | _ => join_elements out end.

(** ** chunk/flavor.go *)

Definition invalid_path (cleanPath : string) : bool :=
  String.eqb cleanPath "." || IsAbs cleanPath || String.eqb cleanPath ".." ||
  HasPrefix cleanPath "../".

(** The errors list the paths, with their positions, that are not allowed. *)
Fixpoint cleanFileHashPaths_loop (i : nat) (hashes : list Hash) : list (nat * string) * list Hash :=
  match hashes with
  | [] => ([], [])
  | h :: hashes =>
      let (bad, rest) := cleanFileHashPaths_loop (S i) hashes in
      let cleanPath := Clean (h_Path h) in
      if invalid_path cleanPath then ((i, h_Path h) :: bad, h :: rest)
      else (bad, mk_hash cleanPath (h_Hash h) :: rest)
  end.

Definition cleanFileHashPaths (hashes : list Hash) : list (nat * string) + list Hash :=
  match cleanFileHashPaths_loop 0 hashes with
  | ([], hashes') => inr hashes'
  | (bad, _) => inl bad
  end.

(** ** Elements *)

Definition no_separator (c : string) : Prop := lacks Separator c = true.

(** A proper name: neither empty nor one of the special elements. *)
Definition proper (c : string) : Prop := no_separator c /\ c <> "" /\ c <> "." /\ c <> "..".

Lemma elements_parts path c : c ∈ elements path -> no_separator c.
Proof.
  intros Hc. destruct (join_split Separator path) as [_ Hall]. rewrite list.Forall_forall in Hall. by apply Hall.
Qed.

(** The tests look at the first element. *)
Lemma IsAbs_elements path : path <> "" -> IsAbs path = true <-> list.head (elements path) = Some "".
Proof.
  destruct path as [|a rest]; [done|]. intros _. unfold IsAbs. rewrite HasPrefix_app. cbn [split_on].
  destruct (Ascii.eqb_spec a Separator) as [-> |Hne].
  - split; [done|]. by exists rest.
  - split; [intros [rest' E]; by injection E as -> _|].
    by destruct (elements rest).
Qed.

Lemma dotdot_elements path :
  String.eqb path ".." || HasPrefix path "../" = true <-> list.head (elements path) = Some "..".
Proof.
  rewrite orb_true_iff, String.eqb_eq, HasPrefix_app. split.
  - intros [-> |[rest ->]]; [done|]. change ("../" +:+ rest) with (".." +:+ String Separator rest).
    by rewrite (split_on_app Separator "..").
  - destruct path as [|a path]; [done|]. cbn [split_on]. destruct (Ascii.eqb a Separator); [done|].
    destruct path as [|b path]; [done|]. cbn [split_on]. destruct (Ascii.eqb_spec b Separator) as [-> |Hb].
    { cbn. by intros [= ->]. }
    destruct path as [|c path]; cbn [split_on]; [by intros [= -> ->]; left|].
    destruct (Ascii.eqb_spec c Separator) as [-> |Hc]; [intros [= -> ->]; right; by exists path|].
    by destruct (elements path).
Qed.

(** ** What a path leads to *)

(** Following a path from a directory, both as names from the bottom up. *)
Definition walk_step (dir : list string) (c : string) : list string :=
  if String.eqb c "" || String.eqb c "." then dir
  else if String.eqb c ".." then tail dir
  else c :: dir.

Definition walk (dir : list string) (path : string) : list string :=
  fold_left walk_step (elements path) dir.

(** The path leads to a place beneath the directory that one starts from. *)
Definition beneath (path : string) : Prop :=
  IsAbs path = false /\ exists names, names <> [] /\ forall dir, walk dir path = (names ++ dir)%list.

(** A relative path leads some directories up and some names down. *)
Lemma clean_walk cs : Forall no_separator cs -> forall names k, Forall proper names ->
  exists names' k', fold_left (clean_step false) cs (names ++ replicate k "..")%list
      = (names' ++ replicate k' "..")%list /\ Forall proper names' /\
    forall dir, fold_left walk_step cs (names ++ drop k dir)%list = (names' ++ drop k' dir)%list.
Proof.
  induction 1 as [|c cs Hc Hcs IH]; intros names k Hn; [by exists names, k|]. cbn [fold_left].
  unfold clean_step at 2, walk_step at 2.
  destruct (String.eqb c "" || String.eqb c ".") eqn:Ed; [by apply IH|].
  destruct (String.eqb_spec c "..") as [-> |Hup].
  - destruct Hn as [|x names Hx Hn].
    + destruct k as [|k]; cbn [app replicate].
      * destruct (IH [] 1%nat) as (names' & k' & H1 & H2 & H3); [constructor|]. exists names', k'.
        split; [exact H1|]. split; [done|]. intros dir. rewrite <-H3. by destruct dir.
      * destruct (IH [] (S (S k))) as (names' & k' & H1 & H2 & H3); [constructor|]. exists names', k'.
        split; [exact H1|]. split; [done|]. intros dir. rewrite <-H3. cbn [app]. f_equal.
        clear. revert dir. induction k as [|k IH]; intros [|d dir]; try done. apply IH.
    + cbn [app tail]. destruct Hx as (_ & _ & _ & Hx). apply String.eqb_neq in Hx. rewrite Hx. by apply IH.
  - apply orb_false_iff in Ed as [E1%String.eqb_neq E2%String.eqb_neq].
    apply (IH (c :: names) k). constructor; [|done]. done.
Qed.

Lemma clean_relative path : IsAbs path = false ->
  exists names k, Forall proper names /\
    Clean path = match (replicate k ".." ++ names)%list with [] => "." | cs => join_elements cs end /\
    forall dir, walk dir path = (rev names ++ drop k dir)%list.
Proof.
  intros Ha. destruct (clean_walk (elements path)) with (names := @nil string) (k := 0%nat)
    as (names & k & H1 & H2 & H3); [apply list.Forall_forall; apply elements_parts|constructor|].
  exists (rev names), k. split; [by apply Forall_rev|]. split.
  - unfold Clean. rewrite Ha. cbn [app replicate] in H1. rewrite H1, rev_app_distr.
    replace (rev (replicate k "..")) with (replicate k "..");
      [by destruct (replicate k ".." ++ rev names)%list|].
    rewrite rev_alt. symmetry. exact (reverse_replicate k "..").
  - intros dir. rewrite rev_involutive. apply H3.
Qed.

Lemma relative_elements names k :
  (replicate k ".." ++ names)%list <> [] -> Forall proper names ->
  elements (join_elements (replicate k ".." ++ names)) = (replicate k ".." ++ names)%list.
Proof.
  intros Hne Hn. apply split_join; [done|]. apply list.Forall_app. split.
  - by apply list.Forall_replicate.
  - eapply list.Forall_impl; [exact Hn|]. by intros c [? _].
Qed.

Lemma invalid_exact path : invalid_path (Clean path) = false <-> beneath path.
Proof.
  unfold beneath. destruct (IsAbs path) eqn:Ha.
  { split; [|by intros [? _]]. unfold Clean. rewrite Ha. unfold invalid_path. cbn [IsAbs HasPrefix].
    rewrite orb_true_r. done. }
  destruct (clean_relative path Ha) as (names & k & Hn & Hc & Hw). rewrite Hc. split.
  - intros Hv. split; [done|]. exists (rev names). destruct k as [|k].
    + split; [|exact Hw]. destruct names as [|x names]; [done|]. cbn. by destruct (rev names).
    + exfalso. set (cs := (replicate (S k) ".." ++ names)%list) in *.
      assert (elements (join_elements cs) = cs) as He by by apply relative_elements.
      assert (list.head (elements (join_elements cs)) = Some "..") as Hd by by rewrite He.
      apply dotdot_elements in Hd. assert (invalid_path (join_elements cs) = false) as Hf by exact Hv.
      unfold invalid_path in Hf. rewrite <-orb_assoc, Hd, orb_true_r in Hf. done.
  - intros [_ (names' & Hne & Hw')].
    assert (k = 0%nat /\ names <> []) as [-> Hnames].
    { pose proof (Hw []) as E0. rewrite Hw', drop_nil, !app_nil_r in E0. subst names'. split.
      - destruct k as [|k]; [done|]. pose proof (Hw (replicate (S k) "")) as E.
        rewrite Hw', drop_replicate in E. apply (f_equal length) in E.
        rewrite !length_app, !length_replicate in E. lia.
      - intros ->. done. }
    cbn [replicate app]. destruct names as [|x names]; [done|].
    assert (elements (join_elements (x :: names)) = x :: names) as He by (by apply (relative_elements (x :: names) 0)).
    apply list.Forall_cons in Hn as [(Hx1 & Hx2 & Hx3 & Hx4) Hn].
    unfold invalid_path. rewrite <-orb_assoc. apply orb_false_iff. split; [apply orb_false_iff; split|].
    + apply String.eqb_neq. intros E. rewrite E in He. cbn in He. by injection He as <- _.
    + destruct (IsAbs (join_elements (x :: names))) eqn:E; [|done].
      apply IsAbs_elements in E; [rewrite He in E; by injection E as ->|].
      intros E'. rewrite E' in He. by injection He as <-.
    + apply not_true_iff_false. intros E. apply dotdot_elements in E. rewrite He in E. by injection E as ->.
Qed.

(** What is stored for an allowed path: proper names, that lead to the same place. *)
Lemma cleaned path : beneath path ->
  exists names, names <> [] /\ Forall proper names /\ Clean path = join_elements names /\
    forall dir, walk dir path = (rev names ++ dir)%list /\ walk dir (Clean path) = (rev names ++ dir)%list.
Proof.
  intros [Ha (names' & Hne & Hw')]. destruct (clean_relative path Ha) as (names & k & Hn & Hc & Hw).
  pose proof (Hw []) as E0. rewrite Hw', drop_nil, !app_nil_r in E0. subst names'.
  exists names. assert (names <> []) as Hnames by by intros ->.
  split; [done|]. split; [done|].
  assert (k = 0%nat) as ->.
  { destruct k as [|k]; [done|]. pose proof (Hw (replicate (S k) "")) as E.
    rewrite Hw', drop_replicate in E. apply (f_equal length) in E.
    rewrite !length_app, !length_replicate in E. lia. }
  assert (Clean path = join_elements names) as Hj by (rewrite Hc; cbn [replicate app]; by destruct names).
  split; [done|]. intros dir. split; [apply Hw|]. unfold walk.
  rewrite Hj, (relative_elements names 0 Hnames Hn : elements (join_elements names) = names). clear -Hn. revert dir. induction Hn as [|c names (H1 & H2 & H3 & H4) Hn IH]; intros dir; [done|].
  cbn [fold_left rev]. unfold walk_step at 2.
  rewrite (proj2 (String.eqb_neq _ _) H2), (proj2 (String.eqb_neq _ _) H3), (proj2 (String.eqb_neq _ _) H4).
  cbn [orb]. rewrite IH, <-app_assoc. done.
Qed.

Lemma loop_spec hashes : forall i bad hashes',
  cleanFileHashPaths_loop i hashes = (bad, hashes') ->
  (forall j p, (j, p) ∈ bad <-> exists k h, hashes !! k = Some h /\ j = (i + k)%nat /\ h_Path h = p /\ ~ beneath p) /\
  Forall2 (fun h h' => beneath (h_Path h) -> h' = mk_hash (Clean (h_Path h)) (h_Hash h)) hashes hashes'.
Proof.
  induction hashes as [|h hashes IH]; intros i bad hashes'; cbn [cleanFileHashPaths_loop].
  { intros [= <- <-]. split; [|constructor]. intros j p. rewrite elem_of_nil. split; [done|].
    by intros (k & h & Hk & _). }
  destruct (cleanFileHashPaths_loop (S i) hashes) as [bad1 rest] eqn:E.
  destruct (IH (S i) bad1 rest E) as [Hbad Hall].
  assert (forall j p, (exists k h', (h :: hashes) !! k = Some h' /\ j = (i + k)%nat /\ h_Path h' = p /\ ~ beneath p) <->
    (j = i /\ p = h_Path h /\ ~ beneath p) \/ (j, p) ∈ bad1) as Hsplit.
  { intros j p. rewrite Hbad. split.
    - intros ([|k] & h' & Hk & -> & <- & Hb).
      + injection Hk as <-. left. split; [lia|done].
      + right. exists k, h'. split; [done|]. split; [lia|done].
    - intros [(-> & -> & Hb)|(k & h' & Hk & -> & Hp & Hb)].
      + exists 0%nat, h. split; [done|]. split; [lia|done].
      + exists (S k), h'. split; [done|]. split; [lia|done]. }
  pose proof (invalid_exact (h_Path h)) as Hi. destruct (invalid_path (Clean (h_Path h))).
  - intros [= <- <-]. split; [|constructor; [|done]; intros Hb; by apply Hi in Hb].
    intros j p. rewrite Hsplit, elem_of_cons. split.
    + intros [[= -> ->]|Hin]; [left|by right]. split; [done|]. split; [done|]. intros Hb. by apply Hi in Hb.
    + intros [(-> & -> & _)|Hin]; [by left|by right].
  - intros [= <- <-]. split; [|by constructor]. intros j p. rewrite Hsplit. split; [by right|].
    intros [(_ & -> & Hb)|Hin]; [|done]. destruct Hb. by apply Hi.
Qed.

(** C24: the paths of uploaded files.  A list of files is accepted exactly if
    every path leads beneath the directory that it is taken from, wherever that
    is; an error names exactly those that do not, by position.  What is stored of
    an accepted path is a non-empty sequence of proper names (no empty one, none
    that is [.] or [..]) that leads to the same place as the path that was sent,
    with the hash unchanged. *)
Theorem paths_contained (hashes : list Hash) :
  match cleanFileHashPaths hashes with
  | inr hashes' =>
      Forall2 (fun h h' => beneath (h_Path h) /\ h_Hash h' = h_Hash h /\
        exists names, names <> [] /\ Forall proper names /\ h_Path h' = join_elements names /\
          forall dir, walk dir (h_Path h) = (rev names ++ dir)%list /\
                      walk dir (h_Path h') = (rev names ++ dir)%list) hashes hashes'
  | inl bad =>
      bad <> [] /\
      forall i p, (i, p) ∈ bad <-> exists h, hashes !! i = Some h /\ h_Path h = p /\ ~ beneath p
  end.
Proof.
  unfold cleanFileHashPaths. destruct (cleanFileHashPaths_loop 0 hashes) as [bad hashes'] eqn:E.
  destruct (loop_spec hashes 0 bad hashes' E) as [Hbad Hall]. destruct bad as [|b bad].
  - apply Forall2_same_length_lookup. split; [by eapply Forall2_length|]. intros i h h' Hh Hh'.
    pose proof (Forall2_lookup_lr _ _ _ _ _ _ Hall Hh Hh') as Heq. cbn in Heq.
    assert (beneath (h_Path h)) as Hb.
    { destruct (invalid_path (Clean (h_Path h))) eqn:Ei; [|by apply invalid_exact].
      assert ((i, h_Path h) ∈ @nil (nat * string)) as Hin; [|by apply elem_of_nil in Hin].
      apply Hbad. exists i, h. split; [done|]. split; [done|]. split; [done|].
      intros Hb. apply invalid_exact in Hb. congruence. }
    rewrite (Heq Hb). split; [done|]. split; [done|]. apply (cleaned _ Hb).
  - split; [done|]. intros i p. rewrite Hbad. split.
    + intros (k & h & Hk & -> & Hp). by exists h.
    + intros (h & Hh & Hp). by exists i, h.
Qed.

(** Two paths that are rewritten, and three that are refused. *)
Example cleaned_paths :
  cleanFileHashPaths [mk_hash "plugins/./a.jar" "1"; mk_hash "world//x/../level.dat" "2"]
    = inr [mk_hash "plugins/a.jar" "1"; mk_hash "world/level.dat" "2"] /\
  cleanFileHashPaths [mk_hash "ok" "1"; mk_hash "a/../../etc/passwd" "2"; mk_hash "/etc/passwd" "3"; mk_hash "a/.." "4"]
    = inl [(1%nat, "a/../../etc/passwd"); (2%nat, "/etc/passwd"); (3%nat, "a/..")].
Proof. split; reflexivity. Qed.
