(* ===== verification/Versions.v ===== *)
(** * Flavor versions

    [controlplane/chunk/flavor.go]: a new version of a flavor is compared with the
    newest one so far, and the client then uploads only what differs.  The hash
    over all files is computed by a package outside of the repository. *)

From stdpp Require Import sorting.
From S2P Require Import Prelude Endian CpDb CpFlavors CpSamples Authz Paths.

Record FlavorVersionDiff := { d_Added : list Hash; d_Removed : list Hash; d_Changed : list Hash }.

Section versions.
Context {En : CpEnv}.

(** [HashTreeRootString] of [HashTree], over the hashes of the files in order;
    [None] is an error.  [range] is the order in which a map is iterated. *)
Context (hash_tree : list string -> option string) (range : list Hash -> list Hash).

(** ** chunk/flavor.go *)

Definition CreateFlavor_svc (actorID : option string) (chunkID name : string) : handler Flavor :=
  match actorID with
  | None => herr (ErrOther "actor_id not found in context")
  | Some actorID =>
      repo (AccessAuthorized [WithOwnershipRule actorID (ChunkResourceDef chunkID)]);;
      exists_ ← repo (FlavorNameExists chunkID name);
      if exists_ : bool then herr ErrFlavorNameExists
      else repo (CreateFlavor chunkID name)
  end.

(** Of two files with one path the later counts. *)
Definition hash_map (l : list Hash) : gmap string Hash :=
  fold_left (fun m v => <[h_Path v := v]> m) l ∅.

Definition map_values (m : gmap string Hash) : list Hash := range (map_to_list m).*2.

(** The uploaded file in place of a previous one, if it has, or has not, the same hash. *)
Definition in_both (same : bool) (uploadedMap : gmap string Hash) (prev : Hash) : option Hash :=
  uploaded ← uploadedMap !! h_Path prev;
  if Bool.eqb (String.eqb (h_Hash uploaded) (h_Hash prev)) same then Some uploaded else None.

(** The slices of the diff are sorted in place after it is made. *)
Definition compare_files (prev uploaded : list Hash) : FlavorVersionDiff * list Hash :=
  let prevMap := hash_map prev in
  let uploadedMap := hash_map uploaded in
  let unchanged := omap (in_both true uploadedMap) (map_values prevMap) in
  let changed := omap (in_both false uploadedMap) (map_values prevMap) in
  let removed := omap (fun p =>
    match uploadedMap !! h_Path p with Some _ => None | None => Some p end) (map_values prevMap) in
  let added := omap (fun u =>
    match prevMap !! h_Path u with Some _ => None | None => Some u end) (map_values uploadedMap) in
  let unchanged := sortByPath unchanged in
  let changed := sortByPath changed in
  let added := sortByPath added in
  let removed := sortByPath removed in
  let changes := sortByPath (changed ++ added) in
  let all := sortByPath (changes ++ unchanged) in
  ({| d_Added := added; d_Removed := removed; d_Changed := changed |}, all).

Definition with_files (files : list Hash) (v : FlavorVersion) : FlavorVersion :=
  {| rv_ID := rv_ID v; rv_Version := rv_Version v; rv_MinecraftVersion := rv_MinecraftVersion v;
     rv_Hash := rv_Hash v; rv_FileHashes := files; rv_FilesUploaded := rv_FilesUploaded v;
     rv_BuildStatus := rv_BuildStatus v; rv_CreatedAt := rv_CreatedAt v;
     rv_PresignedURLExpiryDate := rv_PresignedURLExpiryDate v; rv_PresignedURL := rv_PresignedURL v;
     rv_MinPlayers := rv_MinPlayers v; rv_MaxPlayers := rv_MaxPlayers v |}.

(** The image of a Minecraft version. *)
Definition GetMinecraftVersionByVersion (version : string) : CpM string :=
  do_ (select "GetMinecraftVersionByVersionName" (fun _ d => one_row (t_minecraft d !! version))).

Definition CreateFlavorVersion (actorID : option string) (flavorID : string) (version : FlavorVersion)
    : handler (FlavorVersion * FlavorVersionDiff) :=
  match actorID with
  | None => herr (ErrOther "actor_id not found in context")
  | Some actorID =>
      repo (AccessAuthorized [WithOwnershipRule actorID (FlavorResourceDef flavorID)]);;
      f ← repo (FlavorByID flavorID);
      match rf_DeletedAt f with
      | Some _ => herr ErrNotFound
      | None =>
          exists_ ← repo (FlavorVersionExists flavorID (rv_Version version));
          if exists_ : bool then herr ErrFlavorVersionExists else
          mc ← repo (catch (GetMinecraftVersionByVersion (rv_MinecraftVersion version)));
          match mc with
          | inl ErrNoRows => herr ErrMinecraftVersionNotSupported
          | inl e => herr e
          | inr _ =>
              match cleanFileHashPaths (rv_FileHashes version) with
              | inl bad => herr (ErrInvalidPath bad)
              | inr files =>
                  prevVersion ← repo (LatestFlavorVersion flavorID);
                  match hash_tree (h_Hash <$> files) with
                  | None => herr (ErrOther "new content tree")
                  | Some root =>
                      if String.eqb root (rv_Hash version) then
                        let (diff, all) := compare_files (rv_FileHashes prevVersion) files in
                        created ← repo (CreateFlavorVersion_repo flavorID (with_files all version)
                                          (rv_ID prevVersion));
                        mret (created, diff)
                      else herr ErrHashMismatch
                  end
              end
          end
      end
  end.

Definition DeleteFlavor (actorID : option string) (id : string) : handler unit :=
  match actorID with
  | None => herr (ErrOther "actor_id not found in context")
  | Some actorID =>
      repo (AccessAuthorized [WithOwnershipRule actorID (FlavorResourceDef id)]);;
      f ← repo (FlavorByID id);
      match rf_DeletedAt f with
      | Some _ => mret tt
      | None => repo (MarkFlavorDeleted id)
      end
  end.

Definition GetFlavor (actorID : option string) (id : string) : handler Flavor :=
  match actorID with
  | None => herr (ErrOther "actor_id not found in context")
  | Some _ =>
      f ← repo (FlavorByID id);
      match rf_DeletedAt f with Some _ => herr ErrNotFound | None => mret f end
  end.

(** ** The difference *)

(** A set of files, as the hash of each path. *)
Definition contents_of (l : list Hash) : gmap string string := h_Hash <$> hash_map l.

(** A client that has the files [base] and applies the difference. *)
Definition apply_diff (d : FlavorVersionDiff) (base : gmap string string) : gmap string string :=
  foldr (fun h m => <[h_Path h := h_Hash h]> m)
    (foldr (fun h m => delete (h_Path h) m) base (d_Removed d)) (d_Changed d ++ d_Added d).

Context (Hrange : forall l, range l ≡ₚ l).

Lemma hash_map_snoc l h : hash_map (l ++ [h]) = <[h_Path h := h]> (hash_map l).
Proof using Type. unfold hash_map. by rewrite fold_left_app. Qed.

Lemma hash_map_path l p h : hash_map l !! p = Some h -> h_Path h = p.
Proof using Type.
  induction l as [|x l IH] using rev_ind; [done|]. rewrite hash_map_snoc.
  destruct (decide (h_Path x = p)) as [<-|Hne].
  - rewrite lookup_insert_eq. by intros [= ->].
  - by rewrite lookup_insert_ne.
Qed.

Lemma elem_of_values l h : h ∈ map_values (hash_map l) <-> hash_map l !! h_Path h = Some h.
Proof using Hrange.
  unfold map_values. rewrite Hrange, list_elem_of_fmap. split.
  - intros ([p h'] & -> & Hp%elem_of_map_to_list). cbn. by rewrite (hash_map_path _ _ _ Hp).
  - intros Hh. exists (h_Path h, h). split; [done|]. by apply elem_of_map_to_list.
Qed.

Lemma elem_of_sort l h : h ∈ sortByPath l <-> h ∈ l.
Proof using Type. unfold sortByPath. by rewrite merge_sort_Permutation. Qed.

Lemma values_paths l : NoDup (h_Path <$> map_values (hash_map l)).
Proof using Hrange.
  unfold map_values. rewrite Hrange, <-list_fmap_compose.
  erewrite list_fmap_ext; [apply NoDup_fst_map_to_list|]. intros n [k h] Hk%list_elem_of_lookup_2. cbn.
  apply elem_of_map_to_list in Hk. by apply hash_map_path in Hk.
Qed.

Lemma omap_paths (f : Hash -> option Hash) l :
  (forall x y, f x = Some y -> h_Path y = h_Path x) -> (h_Path <$> omap f l) `sublist_of` (h_Path <$> l).
Proof using Type.
  intros Hf. induction l as [|x l IH]; cbn; [done|]. destruct (f x) as [y|] eqn:E; cbn.
  - rewrite (Hf x y E). by apply sublist_skip.
  - by apply sublist_cons.
Qed.

Section compare.
Context (prev uploaded : list Hash).
Let P : gmap string Hash := hash_map prev.
Let M : gmap string Hash := hash_map uploaded.
Let diff : FlavorVersionDiff := (compare_files prev uploaded).1.
Let all : list Hash := (compare_files prev uploaded).2.

Lemma elem_of_added h : h ∈ d_Added diff <-> M !! h_Path h = Some h /\ P !! h_Path h = None.
Proof using Hrange.
  unfold diff. cbn [compare_files fst d_Added]. rewrite elem_of_sort, list_elem_of_omap. split.
  - intros (u & Hu%elem_of_values & E). fold M P in Hu, E. destruct (P !! h_Path u) eqn:Ep; [done|].
    by injection E as ->.
  - intros [Hm Hp]. exists h. split; [by apply elem_of_values|]. fold P. by rewrite Hp.
Qed.

Lemma elem_of_removed h : h ∈ d_Removed diff <-> P !! h_Path h = Some h /\ M !! h_Path h = None.
Proof using Hrange.
  unfold diff. cbn [compare_files fst d_Removed]. rewrite elem_of_sort, list_elem_of_omap. split.
  - intros (u & Hu%elem_of_values & E). fold M P in Hu, E. destruct (M !! h_Path u) eqn:Em; [done|].
    by injection E as ->.
  - intros [Hp Hm]. exists h. split; [by apply elem_of_values|]. fold M. by rewrite Hm.
Qed.

(** The files of both, with equal or with different hashes. *)
Lemma elem_of_both (b : bool) h :
  h ∈ omap (in_both b M) (map_values P) <->
  M !! h_Path h = Some h /\ exists p, P !! h_Path h = Some p /\ String.eqb (h_Hash h) (h_Hash p) = b.
Proof using Hrange.
  unfold in_both. rewrite list_elem_of_omap. split.
  - intros (p & Hp%elem_of_values & E). destruct (M !! h_Path p) as [u|] eqn:Em; [|done]. cbn in E.
    destruct (Bool.eqb_spec (String.eqb (h_Hash u) (h_Hash p)) b) as [Hb|]; [|done]. injection E as ->.
    pose proof (hash_map_path _ _ _ Em) as Hpath. rewrite Hpath. split; [done|]. by exists p.
  - intros (Hm & p & Hp & Hb). exists p. pose proof (hash_map_path _ _ _ Hp) as Hpath.
    split; [apply elem_of_values; by rewrite Hpath|]. rewrite Hpath, Hm. cbn.
    by rewrite Hb, eqb_reflx.
Qed.

Lemma elem_of_changed h :
  h ∈ d_Changed diff <->
  M !! h_Path h = Some h /\ exists p, P !! h_Path h = Some p /\ String.eqb (h_Hash h) (h_Hash p) = false.
Proof using Hrange.
  rewrite <-(elem_of_both false). unfold diff. cbn [compare_files fst d_Changed]. by rewrite elem_of_sort.
Qed.
Lemma all_perm : all ≡ₚ d_Changed diff ++ d_Added diff ++ omap (in_both true M) (map_values P).
Proof using Type.
  unfold all, diff. cbn [compare_files fst snd d_Changed d_Added]. unfold sortByPath.
  by rewrite !merge_sort_Permutation, <-app_assoc.
Qed.

Lemma elem_of_all h : h ∈ all <-> M !! h_Path h = Some h.
Proof using Hrange.
  rewrite all_perm, !elem_of_app, elem_of_changed, elem_of_added, (elem_of_both true). split; [tauto|].
  intros Hm. destruct (P !! h_Path h) as [p|] eqn:Ep; [|tauto].
  destruct (String.eqb (h_Hash h) (h_Hash p)) eqn:Eh; [right; right|left]; eauto.
Qed.

(** A file of a list is found under its path. *)
Lemma all_paths : NoDup (h_Path <$> all).
Proof using Hrange.
  assert (forall b, NoDup (h_Path <$> omap (in_both b M) (map_values P))) as Hboth.
  { intros b. eapply sublist_NoDup; [apply values_paths|]. apply omap_paths. intros x y. unfold in_both.
    destruct (M !! h_Path x) as [u|] eqn:Em; [|done]. cbn. destruct (Bool.eqb _ _); [|done].
    intros [= ->]. by apply hash_map_path in Em. }
  assert (forall l, h_Path <$> sortByPath l ≡ₚ h_Path <$> l) as Hsort
    by (intros l; unfold sortByPath; by rewrite merge_sort_Permutation).
  assert (forall h h', M !! h_Path h = Some h -> M !! h_Path h' = Some h' -> h_Path h = h_Path h' -> h = h') as Hinj
    by (intros h h' Hh Hh' E; rewrite E in Hh; congruence).
  rewrite all_perm, !fmap_app. apply list.NoDup_app. split; [|split].
  - unfold diff. cbn [compare_files fst d_Changed]. rewrite Hsort. apply (Hboth false).
  - intros p (h & -> & Hh%elem_of_changed)%list_elem_of_fmap.
    intros [(h' & E & Hh'%elem_of_added)%list_elem_of_fmap|(h' & E & Hh'%(elem_of_both true))%list_elem_of_fmap]%elem_of_app.
    + assert (h = h') as <- by (apply Hinj; tauto). destruct Hh as (_ & p & Hp & _), Hh' as [_ Hn]. congruence.
    + assert (h = h') as <- by (apply Hinj; tauto).
      destruct Hh as (_ & p & Hp & Hne), Hh' as (_ & p' & Hp' & He). congruence.
  - apply list.NoDup_app. split; [|split; [|apply (Hboth true)]].
    + unfold diff. cbn [compare_files fst d_Added]. rewrite Hsort.
      eapply sublist_NoDup; [apply (values_paths uploaded)|]. apply omap_paths. intros x y.
      destruct (_ !! _); [done|]. by intros [= ->].
    + intros p (h & -> & Hh%elem_of_added)%list_elem_of_fmap (h' & E & Hh'%(elem_of_both true))%list_elem_of_fmap.
      assert (h = h') as <- by (apply Hinj; tauto). destruct Hh as [_ Hn], Hh' as (_ & p & Hp & _). congruence.
Qed.

(** Removing and setting files, in any order. *)
Lemma foldr_delete (l : list Hash) (m : gmap string string) p :
  foldr (fun h m => delete (h_Path h) m) m l !! p = if decide (p ∈ h_Path <$> l) then None else m !! p.
Proof using Type.
  induction l as [|h l IH]; [done|]. cbn [foldr fmap list_fmap]. destruct (decide (h_Path h = p)) as [<-|Hne].
  - rewrite lookup_delete_eq, decide_True by left. done.
  - rewrite lookup_delete_ne, IH by done. destruct (decide (p ∈ h_Path <$> l)) as [Hin|Hin].
    + rewrite decide_True by by right. done.
    + rewrite decide_False; [done|]. intros [->|]%elem_of_cons; done.
Qed.

Lemma foldr_insert (l : list Hash) (m : gmap string string) p :
  (forall h h', h ∈ l -> h' ∈ l -> h_Path h = h_Path h' -> h = h') ->
  (forall h, h ∈ l -> h_Path h = p -> foldr (fun h m => <[h_Path h := h_Hash h]> m) m l !! p = Some (h_Hash h)) /\
  (p ∉ h_Path <$> l -> foldr (fun h m => <[h_Path h := h_Hash h]> m) m l !! p = m !! p).
Proof using Type.
  induction l as [|x l IH]; intros Hinj; [split; [by intros h Hh%elem_of_nil|done]|].
  destruct IH as [IH1 IH2]; [intros h h' Hh Hh'; apply Hinj; by right|]. cbn [foldr]. split.
  - intros h Hh Hp. destruct (decide (h_Path x = p)) as [<-|Hne].
    + rewrite lookup_insert_eq. do 2 f_equal. apply Hinj; [left|done|done].
    + rewrite lookup_insert_ne by done. apply elem_of_cons in Hh as [->|Hh]; [done|]. by apply IH1.
  - cbn [fmap list_fmap]. intros [Hne Hin]%not_elem_of_cons. rewrite lookup_insert_ne by done. by apply IH2.
Qed.

(** The difference leads from the previous files to the uploaded ones. *)
Lemma apply_diff_exact : apply_diff diff (contents_of prev) = contents_of uploaded.
Proof using Hrange.
  apply map_eq. intros p. unfold apply_diff, contents_of. rewrite !lookup_fmap. fold P M.
  set (l := d_Changed diff ++ d_Added diff).
  set (m := foldr _ (h_Hash <$> P) (d_Removed diff)).
  assert (forall h, h ∈ l -> M !! h_Path h = Some h) as Hl.
  { intros h [Hh%elem_of_changed|Hh%elem_of_added]%elem_of_app; tauto. }
  destruct (foldr_insert l m p) as [Hin Hout].
  { intros h h' Hh%Hl Hh'%Hl E. rewrite E in Hh. congruence. }
  destruct (decide (p ∈ h_Path <$> l)) as [(h & -> & Hh)%list_elem_of_fmap|Hp].
  - rewrite (Hin h Hh eq_refl), (Hl h Hh). done.
  - rewrite Hout by done. unfold m. rewrite foldr_delete, lookup_fmap.
    destruct (M !! p) as [u|] eqn:Em.
    + pose proof (hash_map_path _ _ _ Em) as Hu. rewrite decide_False.
      * destruct (P !! p) as [q|] eqn:Ep.
        -- cbn. f_equal. destruct (String.eqb_spec (h_Hash u) (h_Hash q)) as [|Hne]; [done|].
           destruct Hp. apply list_elem_of_fmap. exists u. split; [done|]. apply elem_of_app. left.
           apply elem_of_changed. rewrite Hu. split; [done|]. exists q. split; [done|]. by apply String.eqb_neq.
        -- destruct Hp. apply list_elem_of_fmap. exists u. split; [done|]. apply elem_of_app. right.
           apply elem_of_added. by rewrite Hu.
      * intros (h & -> & [_ Hn]%elem_of_removed)%list_elem_of_fmap. congruence.
    + destruct (P !! p) as [q|] eqn:Ep; [|by destruct (decide _)].
      rewrite decide_True; [done|]. apply list_elem_of_fmap. exists q.
      pose proof (hash_map_path _ _ _ Ep) as Hq. split; [done|]. apply elem_of_removed. by rewrite Hq.
Qed.
End compare.

(** ** Files in the database *)

Lemma hash_map_elem l p h :
  NoDup (h_Path <$> l) -> hash_map l !! p = Some h <-> h ∈ l /\ h_Path h = p.
Proof using Type.
  induction l as [|x l IH] using rev_ind; intros Hnd.
  { split; [done|]. by intros [?%elem_of_nil _]. }
  rewrite fmap_app in Hnd. apply list.NoDup_app in Hnd as (Hnd & Hd & _).
  rewrite hash_map_snoc, elem_of_app, list_elem_of_singleton.
  assert (h_Path x ∉ h_Path <$> l) as Hx by (intros Hx; apply (Hd _ Hx); left).
  destruct (decide (h_Path x = p)) as [<-|Hne].
  - rewrite lookup_insert_eq. split; [intros [= ->]; auto|]. intros [[Hh| ->] E]; [|done].
    destruct Hx. apply list_elem_of_fmap. eauto.
  - rewrite lookup_insert_ne, IH by done. split; [tauto|]. intros [[Hh| ->] E]; [auto|done].
Qed.

Lemma contents_ext l l' :
  NoDup (h_Path <$> l) -> NoDup (h_Path <$> l') -> (forall h, h ∈ l <-> h ∈ l') -> contents_of l = contents_of l'.
Proof using Type.
  intros Hl Hl' Heq. unfold contents_of. f_equal. apply map_eq. intros p. apply option_eq. intros h.
  by rewrite !hash_map_elem, Heq.
Qed.

(** The files that are kept are those that were uploaded. *)
Lemma contents_all prev uploaded :
  contents_of (compare_files prev uploaded).2 = contents_of uploaded.
Proof using Hrange.
  unfold contents_of. f_equal. apply map_eq. intros p. apply option_eq. intros h.
  rewrite hash_map_elem, elem_of_all by apply all_paths. split.
  - by intros [Hm <-].
  - intros Hm. pose proof (hash_map_path _ _ _ Hm) as <-. done.
Qed.

Definition to_hash (f : file_row) : Hash := mk_hash (ff_FilePath f) (ff_FileHash f).

Definition files_of (d : db) (version : string) : list Hash :=
  to_hash <$> filter (fun f => ff_FlavorVersionID f = version) (t_files d).

(** Versions are rows under their standard id, files belong to one of them, and
    no two files of a version have one path. *)
Record versions_ok (d : db) : Prop := {
  vo_row k v : t_versions d !! k = Some v -> fv_ID v = k /\ uuid_in k = Some k;
  vo_files f : f ∈ t_files d -> is_Some (t_versions d !! ff_FlavorVersionID f);
  vo_paths k : NoDup (h_Path <$> files_of d k);
}.

(** The files of the newest version of a flavor; none if it has no version yet. *)
Definition newest_files (d : db) (flavor : string) (base : gmap string string) : Prop :=
  (base = ∅ /\ forall k v, t_versions d !! k = Some v -> fv_FlavorID v <> flavor) \/
  exists k v, t_versions d !! k = Some v /\ fv_FlavorID v = flavor /\ base = contents_of (files_of d k) /\
    forall k' v', t_versions d !! k' = Some v' -> fv_FlavorID v' = flavor -> (fv_CreatedAt v' <= fv_CreatedAt v)%Z.

Context {Hl : CpLaws En}.

Lemma elem_of_versions h d flavor v :
  versions_ok d -> v ∈ versions_of h d flavor <-> t_versions d !! fv_ID v = Some v /\ fv_FlavorID v = flavor.
Proof using Hl.
  intros Hok. unfold versions_of. rewrite list_elem_of_filter, (cp_rows_perm h), list_elem_of_fmap. split.
  - intros [Hf ([k v'] & -> & Hk%elem_of_map_to_list)]. cbn [snd] in *.
    destruct (vo_row d Hok k v' Hk) as [-> _]. done.
  - intros [Hv Hf]. split; [done|]. exists (fv_ID v, v). split; [done|]. by apply elem_of_map_to_list.
Qed.

#[local] Instance newer_row_trans : Transitive newer_row.
Proof using Type. intros a b c. unfold newer_row. lia. Qed.
#[local] Instance newer_row_total : Total newer_row.
Proof using Type. intros a b. unfold newer_row. lia. Qed.

Lemma LatestFlavorVersion_spec s flavorID prev s1 :
  versions_ok (cp_db s) -> LatestFlavorVersion flavorID s = (inr prev, s1) ->
  exists fl, uuid_in flavorID = Some fl /\ newest_files (cp_db s) fl (contents_of (rv_FileHashes prev)).
Proof using Hl.
  intros Hok E. unfold LatestFlavorVersion in E. apply doTX_spec in E as (s2 & s3 & Hdb & E & _).
  rewrite <-Hdb in *. clear Hdb. unfold catch, select, sql in E. unfold mbind at 1, CpM_bind in E.
  destruct (cp_fault ("LatestFlavorVersionByFlavorID" :: _)) as [msg|]; [done|].
  unfold uuid_arg in E. destruct (uuid_in flavorID) as [fl|]; [|done]. exists fl. split; [done|].
  set (h := "LatestFlavorVersionByFlavorID" :: _) in E.
  pose proof (StronglySorted_merge_sort newer_row (versions_of h (cp_db s2) fl)) as Hsort.
  pose proof (merge_sort_Permutation newer_row (versions_of h (cp_db s2) fl)) as Hp.
  destruct (merge_sort newer_row (versions_of h (cp_db s2) fl)) as [|v vs].
  { injection E as <- _. left. split; [done|]. intros k v Hv Hf.
    destruct (vo_row _ Hok k v Hv) as [Hk _]. assert (v ∈ @nil version_row) as Hin; [|by apply elem_of_nil in Hin].
    rewrite Hp. apply elem_of_versions; [done|]. by rewrite Hk. }
  apply CpM_bind_inr in E as (files & s4 & E & [= <- _]). right.
  assert (v ∈ versions_of h (cp_db s2) fl) as Hv by (rewrite <-Hp; left).
  apply elem_of_versions in Hv as [Hv Hf]; [|done]. exists (fv_ID v), v. split; [done|]. split; [done|]. split.
  - cbn [rv_FileHashes]. unfold FlavorVersionFileHashes, select, sql in E. destruct (cp_fault _); [done|].
    unfold uuid_arg in E. cbn [cp_db] in E. destruct (vo_row _ Hok _ _ Hv) as [_ Hu]. rewrite Hu in E.
    injection E as <- _.
    assert (forall l, (fun f => mk_hash (ff_FilePath f) (ff_FileHash f)) <$> filter (fun f => ff_FlavorVersionID f = fv_ID v)
      (cp_rows l (t_files (cp_db s2))) ≡ₚ files_of (cp_db s2) (fv_ID v)) as Hperm
      by (intros l; unfold files_of; by rewrite (cp_rows_perm l)).
    assert (forall l, sortByPath ((fun f => mk_hash (ff_FilePath f) (ff_FileHash f)) <$>
      filter (fun f => ff_FlavorVersionID f = fv_ID v) (cp_rows l (t_files (cp_db s2)))) ≡ₚ
      files_of (cp_db s2) (fv_ID v)) as Hperm' by (intros l; unfold sortByPath; by rewrite merge_sort_Permutation).
    apply contents_ext; [rewrite Hperm'|..]; [by apply vo_paths..|]. intros h0. by rewrite Hperm'.
  - intros k' v' Hv' Hf'. apply StronglySorted_inv in Hsort as [_ Hall].
    destruct (vo_row _ Hok k' v' Hv') as [Hk' _].
    assert (v' ∈ v :: vs) as [-> |Hin]%elem_of_cons; [|done|].
    + rewrite Hp. apply elem_of_versions; [done|]. by rewrite Hk'.
    + rewrite list.Forall_forall in Hall. by apply (Hall v').
Qed.

(** ** Creating a version *)

Definition file_rows (id : string) (files : list Hash) : list file_row :=
  (fun f => {| ff_FlavorVersionID := id; ff_FileHash := h_Hash f; ff_FilePath := h_Path f |}) <$> files.

(** The version and its files are added, and nothing else changes. *)
Definition version_added (id : string) (row : version_row) (files : list Hash) (d d' : db) : Prop :=
  t_versions d !! id = None /\ fv_ID row = id /\
  d' = set_files (t_files d ++ file_rows id files) (set_versions (<[id := row]> (t_versions d)) d).

Lemma run_files id u (files : list Hash) : uuid_in id = Some u -> forall d,
  run_batch ((fun f : Hash => fun d => uuid_arg id (fun u =>
    inr (set_files (t_files d ++ [{| ff_FlavorVersionID := u; ff_FileHash := h_Hash f;
                                     ff_FilePath := h_Path f |}]) d))) <$> files) d
  = inr (set_files (t_files d ++ file_rows u files) d).
Proof using Type.
  intros Hu. induction files as [|f files IH]; intros d.
  { cbn. rewrite app_nil_r. by destruct d. }
  cbn [fmap list_fmap run_batch]. unfold uuid_arg at 1. rewrite Hu, IH. cbn [t_files set_files].
  by rewrite <-app_assoc.
Qed.

Lemma CreateFlavorVersion_repo_spec flavorID version prev s r s' :
  CreateFlavorVersion_repo flavorID version prev s = (r, s') ->
  match r with
  | inl _ => cp_db s' = cp_db s
  | inr created => exists id row, uuid_in (rv_ID created) = Some id /\ uuid_in flavorID = Some (fv_FlavorID row) /\
      rv_FileHashes created = rv_FileHashes version /\
      version_added id row (rv_FileHashes version) (cp_db s) (cp_db s')
  end.
Proof using Type.
  unfold CreateFlavorVersion_repo. pose proof (keeps_NewV7 s) as Hk0.
  destruct (uuid_NewV7 s) as [[e|id] s1] eqn:E1; cbn [snd] in Hk0.
  { rewrite (CpM_bind_err _ _ _ _ _ E1). by intros [= <- <-]. }
  rewrite (CpM_bind_ok _ _ _ _ _ E1). rewrite <-Hk0. clear Hk0 E1.
  unfold time_Now at 1. unfold mbind at 1, CpM_bind. generalize (cp_now (cp_log s1)). intros now.
  change (cp_db s1) with (cp_db (send "now" s1)). generalize (send "now" s1). clear s s1. intros s.
  match goal with |- context [doTX ?m] => destruct (doTX m s) as [[e|u] s2] eqn:E end; pose proof (doTX_spec _ _ _ _ E) as Hs.
  { rewrite (CpM_bind_err _ _ _ _ _ E). by intros [= <- <-]. }
  rewrite (CpM_bind_ok _ _ _ _ _ E). intros [= <- <-]. destruct Hs as (s3 & s4 & <- & Et & ->). clear E s s2.
  apply CpM_bind_inr in Et as ([] & s5 & Ei & Eb). unfold sql in Ei. destruct (cp_fault _); [done|].
  destruct (uuid_in id) as [id'|] eqn:Eid; [|done]. destruct (uuid_in flavorID) as [fl|] eqn:Efl; [|done].
  unfold insert_version in Ei. cbn [fv_ID fv_FlavorID fv_MinecraftVersion fv_Version] in Ei.
  destruct (t_versions (cp_db s3) !! id') eqn:Ev; [done|]. destruct (t_flavors (cp_db s3) !! fl); [|done].
  destruct (t_minecraft (cp_db s3) !! _); [|done]. destruct (existsb _ _); [done|]. injection Ei as <-.
  apply bulk_spec in Eb. cbn [cp_db] in Eb. rewrite (run_files id id' _ Eid) in Eb. injection Eb as <-.
  eexists id', _. split; [exact Eid|]. split; [|split; [reflexivity|split; [exact Ev|split; [|reflexivity]]]]; reflexivity.
Qed.

Lemma versions_ok_added id row files d d' :
  versions_ok d -> uuid_in id = Some id -> NoDup (h_Path <$> files) -> version_added id row files d d' ->
  versions_ok d' /\ files_of d' id = files /\ forall k, k <> id -> files_of d' k = files_of d k.
Proof using Type.
  intros [H1 H2 H3] Hu Hnd (Hv & Hid & ->).
  assert (forall k, files_of (set_files (t_files d ++ file_rows id files)
    (set_versions (<[id := row]> (t_versions d)) d)) k = files_of d k ++ (if decide (k = id) then files else [])) as Hf.
  { intros k. unfold files_of. cbn [t_files set_files]. rewrite list.filter_app, fmap_app. f_equal.
    unfold file_rows. destruct (decide (k = id)) as [-> |Hne].
    - induction files as [|[p h] files IH]; [done|]. cbn [fmap list_fmap]. rewrite filter_cons_True by done.
      cbn [fmap list_fmap]. f_equal. apply IH. cbn in Hnd. by apply list.NoDup_cons in Hnd as [_ ?].
    - induction files as [|f files IH]; [done|]. cbn [fmap list_fmap]. rewrite filter_cons_False by (cbn; congruence).
      apply IH. cbn in Hnd. by apply list.NoDup_cons in Hnd as [_ ?]. }
  assert (files_of d id = []) as Hnone.
  { unfold files_of. destruct (filter _ (t_files d)) as [|f l] eqn:E; [done|].
    assert (f ∈ filter (fun f => ff_FlavorVersionID f = id) (t_files d)) as [Hfi Hin]%list_elem_of_filter
      by (rewrite E; left). apply H2 in Hin as [v Hin]. congruence. }
  split; [split|split].
  - cbn. intros k v. destruct (decide (k = id)) as [-> |Hne]; [rewrite lookup_insert_eq; by intros [= <-]|].
    rewrite lookup_insert_ne by done. apply H1.
  - cbn. intros f [Hin|Hin]%elem_of_app.
    + destruct (H2 f Hin) as [v Hfv]. destruct (decide (id = ff_FlavorVersionID f)) as [-> |Hne].
      * rewrite lookup_insert_eq. eauto.
      * rewrite lookup_insert_ne; eauto.
    + apply list_elem_of_fmap in Hin as (x & -> & _). cbn. rewrite lookup_insert_eq. eauto.
  - intros k. rewrite Hf. destruct (decide (k = id)) as [-> |]; [by rewrite Hnone|]. rewrite app_nil_r. apply H3.
  - by rewrite Hf, decide_True, Hnone.
  - intros k Hne. by rewrite Hf, decide_False, app_nil_r.
Qed.

Lemma keeps_Minecraft version : keeps_db (catch (GetMinecraftVersionByVersion version)).
Proof using Type. apply keeps_catch, keeps_do, keeps_select. Qed.

(** Nothing that is uploaded is there already. *)
Lemma diff_needed prev uploaded h :
  h ∈ d_Changed (compare_files prev uploaded).1 ++ d_Added (compare_files prev uploaded).1 ->
  contents_of prev !! h_Path h <> Some (h_Hash h).
Proof using Hrange.
  unfold contents_of. rewrite lookup_fmap.
  intros [(_ & p & -> & Hne)%elem_of_changed|[_ ->]%elem_of_added]%elem_of_app; [|done].
  cbn. intros [= E]. rewrite E, String.eqb_refl in Hne. done.
Qed.

(** The part of the handler that follows the checks. *)
Lemma create_spec flavorID version files s r s' :
  versions_ok (cp_db s) ->
  serve (prevVersion ← repo (LatestFlavorVersion flavorID);
    match hash_tree (h_Hash <$> files) with
    | None => herr (ErrOther "new content tree")
    | Some root =>
        if String.eqb root (rv_Hash version) then
          let (diff, all) := compare_files (rv_FileHashes prevVersion) files in
          created ← repo (CreateFlavorVersion_repo flavorID (with_files all version) (rv_ID prevVersion));
          mret (created, diff)
        else herr ErrHashMismatch
    end) s = (r, s') ->
  match r with
  | inl _ => cp_db s' = cp_db s
  | inr (created, diff) => exists id row base,
      hash_tree (h_Hash <$> files) = Some (rv_Hash version) /\
      uuid_in (rv_ID created) = Some id /\ uuid_in flavorID = Some (fv_FlavorID row) /\
      version_added id row (rv_FileHashes created) (cp_db s) (cp_db s') /\
      NoDup (h_Path <$> rv_FileHashes created) /\ contents_of (rv_FileHashes created) = contents_of files /\
      newest_files (cp_db s) (fv_FlavorID row) base /\ apply_diff diff base = contents_of files /\
      forall h, h ∈ d_Changed diff ++ d_Added diff -> base !! h_Path h <> Some (h_Hash h)
  end.
Proof using Hrange Hl.
  intros Hok E. apply serve_reads in E as [(e & -> & Hdb)|(prev & s1 & El & Hdb & E)];
    [done| |apply keeps_LatestFlavorVersion].
  destruct (LatestFlavorVersion_spec s flavorID prev s1 Hok El) as (fl & Hfl & Hbase). rewrite <-Hdb in *. clear El Hdb.
  destruct (hash_tree (h_Hash <$> files)) as [root|] eqn:Eh; [|by injection E as <- <-].
  destruct (String.eqb_spec root (rv_Hash version)) as [-> |]; [|by injection E as <- <-].
  pose proof (all_paths (rv_FileHashes prev) files) as Hnd.
  pose proof (contents_all (rv_FileHashes prev) files) as Hall.
  pose proof (apply_diff_exact (rv_FileHashes prev) files) as Hdiff.
  pose proof (diff_needed (rv_FileHashes prev) files) as Hneed.
  destruct (compare_files (rv_FileHashes prev) files) as [diff all]. cbn [fst snd] in *.
  rewrite serve_bind in E. unfold repo in E. cbn [serve] in E.
  match type of E with context [CreateFlavorVersion_repo ?f ?v ?p] =>
    destruct (CreateFlavorVersion_repo f v p s1) as [r2 s2] eqn:Ec end.
  pose proof (CreateFlavorVersion_repo_spec _ _ _ _ _ _ Ec) as Hc.
  unfold mbind, CpM_bind in E. rewrite Ec in E. destruct r2 as [e|created]; [by injection E as <- <-|].
  injection E as <- <-. destruct Hc as (id & row & Hid & Hrow & Hf & Hadd). cbn [with_files rv_FileHashes] in *.
  exists id, row, (contents_of (rv_FileHashes prev)). rewrite Hf. rewrite Hfl in Hrow. injection Hrow as ->.
  do 8 (split; [done|]). exact Hneed.
Qed.

(** C18: a new version of a flavor.  A request that fails leaves the database as
    it was.  One that succeeds was made by somebody who may change the flavor, for
    paths that are allowed and that have the announced hash; it adds one version
    with exactly the uploaded files (of two with one path, the later) and changes
    nothing else.  The difference that the client is sent leads from the files of
    the newest version to the new ones, and names no file that is there already. *)
Theorem version_created (actor : option string) (flavorID : string) (version : FlavorVersion) (s : cp)
    (r : api_error + (FlavorVersion * FlavorVersionDiff)) (s' : cp) :
  versions_ok (cp_db s) -> serve (CreateFlavorVersion actor flavorID version) s = (r, s') ->
  versions_ok (cp_db s') /\
  match r with
  | inl _ => cp_db s' = cp_db s
  | inr (created, diff) => exists a files id row base,
      actor = Some a /\ (AccessAuthorized [WithOwnershipRule a (FlavorResourceDef flavorID)] s).1 = inr tt /\
      cleanFileHashPaths (rv_FileHashes version) = inr files /\
      hash_tree (h_Hash <$> files) = Some (rv_Hash version) /\
      uuid_in (rv_ID created) = Some id /\ uuid_in flavorID = Some (fv_FlavorID row) /\
      version_added id row (rv_FileHashes created) (cp_db s) (cp_db s') /\
      contents_of (files_of (cp_db s') id) = contents_of files /\
      (forall k, k <> id -> files_of (cp_db s') k = files_of (cp_db s) k) /\
      newest_files (cp_db s) (fv_FlavorID row) base /\ apply_diff diff base = contents_of files /\
      forall h, h ∈ d_Changed diff ++ d_Added diff -> base !! h_Path h <> Some (h_Hash h)
  end.
Proof using Hrange Hl.
  intros Hok E. unfold CreateFlavorVersion in E.
  destruct actor as [a|]; [|injection E as <- <-; split; [exact Hok|reflexivity]].
  apply serve_reads in E as [(e & -> & Hdb)|([] & s1 & E1 & Hdb1 & E)]; [by rewrite Hdb| |apply keeps_AccessAuthorized].
  assert ((AccessAuthorized [WithOwnershipRule a (FlavorResourceDef flavorID)] s).1 = inr tt) as Hacc by by rewrite E1.
  rewrite <-Hdb1 in *. clear E1 Hdb1.
  apply serve_reads in E as [(e & -> & Hdb)|(f & s2 & _ & Hdb & E)]; [by rewrite Hdb| |apply keeps_FlavorByID].
  rewrite <-Hdb in Hok |- *. clear Hdb.
  destruct (rf_DeletedAt f); [injection E as <- <-; split; [exact Hok|reflexivity]|].
  apply serve_reads in E as [(e & -> & Hdb)|(b & s3 & _ & Hdb & E)]; [by rewrite Hdb| |apply keeps_FlavorVersionExists].
  rewrite <-Hdb in Hok |- *. clear Hdb.
  destruct b; [injection E as <- <-; split; [exact Hok|reflexivity]|].
  apply serve_reads in E as [(e & -> & Hdb)|(mc & s4 & _ & Hdb & E)]; [by rewrite Hdb| |apply keeps_Minecraft].
  rewrite <-Hdb in Hok |- *. clear Hdb.
  destruct mc as [e|image]; [destruct e; cbn in E; injection E as <- <-; split; done|].
  destruct (cleanFileHashPaths (rv_FileHashes version)) as [bad|files]; [injection E as <- <-; split; [exact Hok|reflexivity]|].
  apply create_spec in E; [|done]. destruct r as [e|[created diff]]; [by rewrite E|].
  destruct E as (id & row & base & H1 & H2 & H3 & H4 & H5 & H6 & H7 & H8 & H9).
  destruct (versions_ok_added id row _ _ _ Hok (uuid_in_standard _ _ H2) H5 H4) as (Hok' & Hf & Hother).
  split; [done|]. exists a, files, id, row, base. rewrite Hf. done.
Qed.
End versions.

(** ** Example *)

Definition demo_hash_tree (l : list string) : option string :=
  match l with [] => None | _ => Some (foldr String.app "" l) end.

(** A version with three files; the next one keeps the first, changes the second,
    drops the third and adds another one. *)
Definition demo_files : list Hash := [mk_hash "a" "1"; mk_hash "b" "2"; mk_hash "c" "3"].
Definition demo_version_cp : cp := mk_cp (set_files (file_rows "v" demo_files) (demo_db 1 [])) [].
Definition demo_upload : FlavorVersion :=
  {| rv_ID := ""; rv_Version := "2"; rv_MinecraftVersion := "1.21"; rv_Hash := "194";
     rv_FileHashes := [mk_hash "./a" "1"; mk_hash "b" "9"; mk_hash "x/../d" "4"];
     rv_FilesUploaded := false; rv_BuildStatus := ""; rv_CreatedAt := 0; rv_PresignedURLExpiryDate := None;
     rv_PresignedURL := None; rv_MinPlayers := 1; rv_MaxPlayers := 8 |}.

Lemma demo_versions_ok : versions_ok (cp_db demo_version_cp).
Proof.
  split.
  - intros k v. cbn. intros [<- <-]%lookup_singleton_Some. done.
  - cbn. intros f. rewrite !elem_of_cons, elem_of_nil. intros [-> |[-> |[-> |[]]]]; by eexists.
  - intros k. destruct (decide ("v" = k)) as [<-|Hne].
    + apply (bool_decide_unpack _). vm_compute. exact I.
    + replace (files_of (cp_db demo_version_cp) k) with (@nil Hash); [constructor|].
      unfold files_of, demo_version_cp, file_rows, demo_files. cbn [cp_db t_files set_files fmap list_fmap].
      by rewrite !filter_cons_False.
Qed.

Lemma version_created_witness :
  exists created s', serve (CreateFlavorVersion demo_hash_tree id (Some "u") "f" demo_upload) demo_version_cp
    = (inr (created, {| d_Added := [mk_hash "d" "4"]; d_Removed := [mk_hash "c" "3"];
                        d_Changed := [mk_hash "b" "9"] |}), s') /\
    versions_ok (cp_db s') /\ rv_FileHashes created = [mk_hash "a" "1"; mk_hash "b" "9"; mk_hash "d" "4"].
Proof.
  pose proof (version_created demo_hash_tree id ltac:(done) (Some "u") "f" demo_upload demo_version_cp) as Ht.
  destruct (serve (CreateFlavorVersion demo_hash_tree id (Some "u") "f" demo_upload) demo_version_cp)
    as [r s'] eqn:E.
  destruct (Ht r s' demo_versions_ok eq_refl) as [Hok _].
  vm_compute in E. injection E as <- <-. eexists _, _. split; [reflexivity|]. split; [exact Hok|reflexivity].
Defined.
