(* ===== verification/Instances.v ===== *)
(** * The instance service of the control plane

    [src/controlplane/instance] with [postgres/instance.go] and
    [postgres/node.go]: instances are created on the node with most room, handed
    out to the nodes that discover them, updated from the reports of the nodes
    and listed page by page.  A handler is a tree of repository calls
    ([handler]), the way the server and the service are composed. *)

From stdpp Require Import sorting pretty.
From S2P Require Import Prelude Endian Node Tick CpDb CpFlavors.

#[local] Open Scope Z_scope.

(** ** internal/resource *)

Record Chunk := {
  rc_ID : string; rc_Name : string; rc_Description : string; rc_Tags : list string;
  rc_Flavors : list Flavor; rc_CreatedAt : Z; rc_UpdatedAt : Z;
}.

(** [resource.Instance] *)
Record instance := {
  ri_ID : string; ri_Chunk : Chunk; ri_FlavorVersion : FlavorVersion; ri_Flavor : Flavor;
  ri_Address : string; ri_State : string; ri_Port : option Z; ri_Owner : User;
  ri_CreatedAt : Z; ri_UpdatedAt : Z; ri_OrderedBy : string;
}.

(** [resource.InstanceStatusReport] *)
Record status_report := { sr_InstanceID : string; sr_State : string; sr_Port : Z }.

Definition InstanceStatePending : string := "PENDING".
Definition InstanceStateDeleted : string := "DELETED".

(** The values of the type instance_state of the database. *)
Definition instance_states : list string :=
  ["PENDING"; "CREATING"; "RUNNING"; "DELETING"; "DELETED"; "CREATION_FAILED"].

Section instances.
Context {En : CpEnv}.

(** ** query.sql *)

(** A row of the joins with the tables that an instance refers to. *)
Record inst_join := {
  j_v : version_row; j_c : chunk_row; j_f : flavor_row; j_n : node_row; j_u : user_row;
  j_i : instance_row;
}.

Definition join_instance (d : db) (i : instance_row) : option inst_join :=
  v ← t_versions d !! in_FlavorVersionID i;
  f ← t_flavors d !! fv_FlavorID v;
  c ← t_chunks d !! fl_ChunkID f;
  n ← t_nodes d !! in_NodeID i;
  u ← t_users d !! in_OwnerID i;
  Some {| j_v := v; j_c := c; j_f := f; j_n := n; j_u := u; j_i := i |}.

Definition instances_on (t : gmap string instance_row) (node : string) : nat :=
  count_map (fun i => in_NodeID i = node) t.

Definition GetInstance_rows (id : string) : CpM (list inst_join) :=
  select "GetInstance" (fun _ d => uuid_arg id (fun u =>
    inr (omap (join_instance d) (option_list (t_instances d !! u))))).

Definition GetInstancesByNodeID_rows (nodeID : string) : CpM (list inst_join) :=
  select "GetInstancesByNodeID" (fun h d => uuid_arg nodeID (fun u =>
    inr (omap (join_instance d)
      (filter (fun i => in_NodeID i = u) (cp_rows h (map_to_list (t_instances d)).*2))))).

Definition is_after (after : option string) (id : string) : Prop :=
  match after with None => True | Some a => ~ String.le id a end.
#[global] Instance is_after_dec after id : Decision (is_after after id).
Proof using Type. destruct after; cbn; apply _. Defined.

(** The page is cut out before the joins. *)
Definition page_ids (d : db) (limit : nat) (after : option string) : list string :=
  take limit (filter (is_after after)
    (merge_sort String.le (map_to_list (t_instances d)).*1)).

Definition ListInstancesWithPagination (limit : Z) (after : option string) : CpM (list inst_join) :=
  select "ListInstancesWithPagination" (fun _ d =>
    let page a := if limit <? 0 then inl (ErrOther "LIMIT must not be negative")
                  else inr (omap (fun id => t_instances d !! id ≫= join_instance d)
                              (page_ids d (Z.to_nat limit) a)) in
    match after with
    | None => page None
    | Some a => uuid_arg a (fun u => page (Some u))
    end).

Record CreateInstanceParams := {
  cip_ID : string; cip_FlavorVersionID : string; cip_NodeID : string; cip_State : string;
  cip_OwnerID : string; cip_CreatedAt : Z; cip_UpdatedAt : Z; cip_OrderedBy : string;
}.

(** A row with a key that is in use, or that refers to nothing, is rejected. *)
Definition CreateInstance_row (p : CreateInstanceParams) : CpM unit :=
  sql "CreateInstance" (fun _ d =>
    match uuid_in (cip_ID p), uuid_in (cip_FlavorVersionID p), uuid_in (cip_NodeID p),
          uuid_in (cip_OwnerID p) with
    | Some id, Some fv, Some nd, Some ow =>
        match t_instances d !! id, t_versions d !! fv, t_nodes d !! nd, t_users d !! ow,
              bool_decide (cip_State p ∈ instance_states) with
        | None, Some _, Some _, Some _, true =>
            (inr tt, set_instances (<[id := {| in_ID := id; in_FlavorVersionID := fv; in_NodeID := nd;
               in_Port := None; in_State := cip_State p; in_CreatedAt := cip_CreatedAt p;
               in_UpdatedAt := cip_UpdatedAt p; in_OwnerID := ow;
               in_OrderedBy := cip_OrderedBy p |}]> (t_instances d)) d)
        | _, _, _, _, _ => (inl (ErrOther "constraint"), d)
        end
    | _, _, _, _ => (inl (ErrOther "invalid input syntax for type uuid"), d)
    end).

Definition with_report (state : string) (port now : Z) (i : instance_row) : instance_row :=
  {| in_ID := in_ID i; in_FlavorVersionID := in_FlavorVersionID i; in_NodeID := in_NodeID i;
     in_Port := Some port; in_State := state; in_CreatedAt := in_CreatedAt i;
     in_UpdatedAt := now; in_OwnerID := in_OwnerID i; in_OrderedBy := in_OrderedBy i |}.

(** [now] is that of the transaction. *)
Definition BulkUpdateInstanceStateAndPort (now : Z) (l : list status_report) : CpM batch_results :=
  SendBatch "BulkUpdateInstanceStateAndPort" ((fun r : status_report => fun d =>
    uuid_arg (sr_InstanceID r) (fun u =>
      if bool_decide (sr_State r ∈ instance_states)
      then inr (set_instances (alter (with_report (sr_State r) (sr_Port r) now) u (t_instances d)) d)
      else inl (ErrOther "invalid input value for enum instance_state"))) <$> l).

Definition BulkDeleteInstances (l : list string) : CpM batch_results :=
  SendBatch "BulkDeleteInstances" ((fun id : string => fun d =>
    uuid_arg id (fun u => inr (set_instances (delete u (t_instances d)) d))) <$> l).

(** The nodes with room, the one with fewest instances first. *)
Definition fewer_on (d : db) (a b : node_row) : Prop :=
  (instances_on (t_instances d) (nd_ID a) <= instances_on (t_instances d) (nd_ID b))%nat.
#[global] Instance fewer_on_dec d a b : Decision (fewer_on d a b).
Proof using Type. unfold fewer_on. apply _. Defined.

Definition with_room (d : db) (n : node_row) : Prop :=
  nd_Slots n > Z.of_nat (instances_on (t_instances d) (nd_ID n)).
#[global] Instance with_room_dec d n : Decision (with_room d n).
Proof using Type. unfold with_room. apply Z_gt_dec. Defined.

Definition BestNode_row : CpM (node_row * Z) :=
  select "BestNode" (fun h d =>
    match merge_sort (fewer_on d) (cp_rows h (filter (with_room d) (map_to_list (t_nodes d)).*2)) with
    | n :: _ => inr (n, Z.of_nat (instances_on (t_instances d) (nd_ID n)))
    | [] => inl ErrNoRows
    end).

(** ** postgres/node.go *)

(** [node.Node] *)
Record Node := {
  nn_ID : string; nn_Name : string; nn_Addr : string; nn_CheckpointAPIEndpoint : string;
  nn_Slots : Z; nn_AvailableSlots : Z;
}.

Definition BestNode : CpM Node :=
  do_ (
    r ← catch BestNode_row;
    match r with
    | inl ErrNoRows => raise ErrNoSlotsAvailable
    | inl e => raise e
    | inr (n, count) =>
        if parse_addr_port (nd_CheckpointApiEndpoint n) then
          let available := nd_Slots n - count in
          mret {| nn_ID := nd_ID n; nn_Name := nd_Name n; nn_Addr := nd_Address n;
                  nn_CheckpointAPIEndpoint := nd_CheckpointApiEndpoint n; nn_Slots := nd_Slots n;
                  nn_AvailableSlots := if available <? 0 then 0 else available |}
        else raise (ErrOther "invalid address port")
    end).

(** ** postgres/instance.go *)

Definition to_chunk (c : chunk_row) (flavors : list Flavor) : Chunk :=
  {| rc_ID := ck_ID c; rc_Name := ck_Name c; rc_Description := ck_Description c;
     rc_Tags := ck_Tags c; rc_Flavors := flavors; rc_CreatedAt := ck_CreatedAt c;
     rc_UpdatedAt := ck_UpdatedAt c |}.

Definition to_flavor (f : flavor_row) : Flavor :=
  {| rf_ID := fl_ID f; rf_Name := fl_Name f; rf_Versions := []; rf_CreatedAt := fl_CreatedAt f;
     rf_UpdatedAt := fl_UpdatedAt f; rf_DeletedAt := None |}.

Definition to_version (v : version_row) : FlavorVersion :=
  {| rv_ID := fv_ID v; rv_Version := fv_Version v; rv_MinecraftVersion := fv_MinecraftVersion v;
     rv_Hash := fv_Hash v; rv_FileHashes := []; rv_FilesUploaded := fv_FilesUploaded v;
     rv_BuildStatus := fv_BuildStatus v; rv_CreatedAt := fv_CreatedAt v;
     rv_PresignedURLExpiryDate := None; rv_PresignedURL := None;
     rv_MinPlayers := cast_u32 (fv_MinPlayers v); rv_MaxPlayers := cast_u32 (fv_MaxPlayers v) |}.

Definition to_owner (u : user_row) : User :=
  {| ru_ID := us_ID u; ru_Nickname := us_Nickname u; ru_Email := "";
     ru_CreatedAt := us_CreatedAt u; ru_UpdatedAt := us_UpdatedAt u |}.

Definition no_flavor : Flavor :=
  {| rf_ID := ""; rf_Name := ""; rf_Versions := []; rf_CreatedAt := 0; rf_UpdatedAt := 0;
     rf_DeletedAt := None |}.

Definition older_first (a b : Flavor) : Prop := rf_CreatedAt a <= rf_CreatedAt b.
#[global] Instance older_first_dec a b : Decision (older_first a b).
Proof using Type. unfold older_first. apply _. Defined.

(** The instance that a group of rows with one instance id describes: the first
    row gives its data, each row a flavor of the chunk. *)
Definition from_rows (row : inst_join) (rows : list inst_join) (port : option Z) : instance :=
  let flavors := (fun r => to_flavor (j_f r)) <$> rows in
  let flavor := fold_left (fun acc r =>
    if String.eqb (fl_ID (j_f r)) (fv_FlavorID (j_v r)) then to_flavor (j_f r) else acc)
    rows no_flavor in
  {| ri_ID := in_ID (j_i row); ri_Chunk := to_chunk (j_c row) (merge_sort older_first flavors);
     ri_FlavorVersion := to_version (j_v row); ri_Flavor := flavor;
     ri_Address := nd_Address (j_n row); ri_State := in_State (j_i row); ri_Port := port;
     ri_Owner := to_owner (j_u row); ri_CreatedAt := in_CreatedAt (j_i row);
     ri_UpdatedAt := in_UpdatedAt (j_i row); ri_OrderedBy := in_OrderedBy (j_i row) |}.

(** [getInstanceByID] *)
Definition get_instance (id : string) : CpM instance :=
  rows ← GetInstance_rows id;
  match rows with
  | [] => raise ErrInstanceNotFound
  | row :: _ => mret (from_rows row rows (cast_u16 <$> in_Port (j_i row)))
  end.

Definition GetInstanceByID (id : string) : CpM instance := do_ (get_instance id).

Definition CreateInstance (ins : instance) (nodeID : string) : CpM instance :=
  let params := {| cip_ID := ri_ID ins; cip_FlavorVersionID := rv_ID (ri_FlavorVersion ins);
                   cip_NodeID := nodeID; cip_State := ri_State ins;
                   cip_OwnerID := ru_ID (ri_Owner ins); cip_CreatedAt := ri_CreatedAt ins;
                   cip_UpdatedAt := ri_UpdatedAt ins; cip_OrderedBy := ri_OrderedBy ins |} in
  doTX (
    CreateInstance_row params;;
    get_instance (cip_ID params)).

(** The rows of each id, in the order in which the ids come up first. *)
Definition add_row (acc : list (string * list inst_join)) (r : inst_join)
    : list (string * list inst_join) :=
  let id := in_ID (j_i r) in
  if existsb (fun g => String.eqb g.1 id) acc
  then (fun g => if String.eqb g.1 id then (g.1, g.2 ++ [r]) else g) <$> acc
  else acc ++ [(id, [r])].

(** The port is left out. *)
Definition ListInstances (pageSize : Z) (afterID : option string) : CpM (list instance) :=
  do_ (
    rows ← ListInstancesWithPagination (cast_i32 pageSize) afterID;
    let groups := fold_left add_row rows [] in
    mret (omap (fun g : string * list inst_join =>
      row ← list.head g.2; Some (from_rows row g.2 None)) groups)).

(** Here the chunk comes without flavors. *)
Definition from_row (row : inst_join) : instance :=
  {| ri_ID := in_ID (j_i row); ri_Chunk := to_chunk (j_c row) [];
     ri_FlavorVersion := to_version (j_v row); ri_Flavor := to_flavor (j_f row);
     ri_Address := nd_Address (j_n row); ri_State := in_State (j_i row);
     ri_Port := cast_u16 <$> in_Port (j_i row); ri_Owner := to_owner (j_u row);
     ri_CreatedAt := in_CreatedAt (j_i row); ri_UpdatedAt := in_UpdatedAt (j_i row);
     ri_OrderedBy := in_OrderedBy (j_i row) |}.

Definition GetInstancesByNodeID (nodeID : string) : CpM (list instance) :=
  do_ (
    rows ← GetInstancesByNodeID_rows nodeID;
    mret (List.map from_row rows)).

(** Reports of deleted instances remove rows, after the others were applied. *)
Definition is_removal (r : status_report) : bool := String.eqb (sr_State r) InstanceStateDeleted.

Definition ApplyStatusReports (reports : list status_report) : CpM unit :=
  let toUpdate := List.filter (fun r => negb (is_removal r)) reports in
  let toRemove := sr_InstanceID <$> List.filter is_removal reports in
  if bool_decide (toRemove = [] /\ toUpdate = []) then mret tt else
  do_ (
    now ← time_Now;
    br ← BulkUpdateInstanceStateAndPort now toUpdate;
    bulkExecAndClose br;;
    if bool_decide (toRemove = []) then mret tt else
    br ← BulkDeleteInstances toRemove;
    bulkExecAndClose br).

Definition CountInstancesByFlavorVersionID (id : string) : CpM Z :=
  do_ (select "CountInstancesByFlavorID" (fun _ d => uuid_arg id (fun u =>
    inr (Z.of_nat (length (filter (fun i => in_FlavorVersionID i = u) (map_to_list (t_instances d)).*2)))))).

(** ** instance/service.go *)

Definition RunFlavorVersion_svc (flavorVersionID ownerID orderedBy : string) : handler instance :=
  n ← repo BestNode;
  flavorID ← repo (FlavorIDByFlavorVersionID flavorVersionID);
  flavor ← repo (FlavorByID flavorID);
  match rf_DeletedAt flavor with
  | Some _ => herr ErrNotFound
  | None =>
      match List.find (fun v => String.eqb (rv_ID v) flavorVersionID) (rf_Versions flavor) with
      | None => herr ErrNotFound
      | Some version =>
          instanceID ← repo uuid_NewV7;
          createdAt ← repo time_Now;
          updatedAt ← repo time_Now;
          repo (CreateInstance
            {| ri_ID := instanceID; ri_Chunk := {| rc_ID := ""; rc_Name := ""; rc_Description := "";
                 rc_Tags := []; rc_Flavors := []; rc_CreatedAt := 0; rc_UpdatedAt := 0 |};
               ri_FlavorVersion := version; ri_Flavor := no_flavor; ri_Address := "";
               ri_State := InstanceStatePending; ri_Port := None;
               ri_Owner := {| ru_ID := ownerID; ru_Nickname := ""; ru_Email := "";
                              ru_CreatedAt := 0; ru_UpdatedAt := 0 |};
               ri_CreatedAt := createdAt; ri_UpdatedAt := updatedAt; ri_OrderedBy := orderedBy |}
            (nn_ID n))
      end
  end.

Definition by_id (a b : instance) : Prop := String.le (ri_ID a) (ri_ID b).
#[global] Instance by_id_dec a b : Decision (by_id a b).
Proof using Type. apply String.le_dec. Defined.

Definition DiscoverInstances_svc (nodeID : string) : handler (list instance) :=
  instances ← repo (GetInstancesByNodeID nodeID);
  mret (merge_sort by_id instances).

(** ** pagination, internal/resource/codec, instance/server.go *)

Definition DefaultPageSize : Z := 10.
Definition MaxPageSize : Z := 100.

Definition DecodePageToken (pageToken : string) : api_error + option string :=
  if String.eqb pageToken "" then inr None else
  match uuid_version pageToken with
  | None => inl (ErrOther "invalid UUID")
  | Some v => if v =? 7 then inr (Some pageToken)
              else inl (ErrOther "page token must be a uuidv7")
  end.

Definition EncodePageToken (lastID : string) : string := lastID.

Definition ResolvePageSize (pageSize : Z) : Z :=
  if pageSize =? 0 then DefaultPageSize else pageSize.

(** [instancev1alpha1.Instance], the fields that the node reads ([Instance] of
    [Node]) and what a client sees of it. *)
Record transport := {
  tr_Id : string; tr_ChunkId : string; tr_ChunkName : string; tr_FlavorVersionId : string;
  tr_OwnerId : string; tr_Ip : string; tr_Port : Z; tr_State : Z; tr_OrderedBy : string;
  tr_ChunkCreatedAt : Z; tr_ChunkUpdatedAt : Z; tr_FlavorName : string; tr_Version : string;
}.

Definition InstanceToTransport (ins : instance) : transport :=
  {| tr_Id := ri_ID ins; tr_ChunkId := rc_ID (ri_Chunk ins); tr_ChunkName := rc_Name (ri_Chunk ins);
     tr_FlavorVersionId := rv_ID (ri_FlavorVersion ins); tr_OwnerId := ru_ID (ri_Owner ins);
     tr_Ip := ri_Address ins; tr_Port := default 0 (ri_Port ins);
     tr_State := InstanceState_value (ri_State ins); tr_OrderedBy := ri_OrderedBy ins;
     tr_ChunkCreatedAt := rc_CreatedAt (ri_Chunk ins); tr_ChunkUpdatedAt := rc_UpdatedAt (ri_Chunk ins);
     tr_FlavorName := rf_Name (ri_Flavor ins); tr_Version := rv_Version (ri_FlavorVersion ins) |}.

(** [String] of the enumeration: the name, or the number if it has none. *)
Definition InstanceState_String (state : Z) : string :=
  match instance_states !! Z.to_nat state with
  | Some name => if state <? 0 then pretty state else name
  | None => pretty state
  end.

Definition StatusReportToDomain (r : InstanceStatusReport) : status_report :=
  {| sr_InstanceID := rep_InstanceId r; sr_State := InstanceState_String (rep_State r);
     sr_Port := cast_u16 (rep_Port r) |}.

Record ListInstancesResponse := { li_Instances : list transport; li_NextPageToken : string }.

(** The page that is cut off after [pageSize] instances. *)
Definition page_response (pageSize : Z) (instances : list instance) : ListInstancesResponse :=
  let more := pageSize <? Z.of_nat (length instances) in
  let page := if more then take (Z.to_nat pageSize) instances else instances in
  {| li_Instances := InstanceToTransport <$> page;
     li_NextPageToken :=
       if more then EncodePageToken (default "" (ri_ID <$> list.last page)) else "" |}.

(** It is asked for with one instance more than it holds. *)
Definition ListInstances_srv (pageSize : Z) (pageToken : string) : handler ListInstancesResponse :=
  if MaxPageSize <? pageSize then herr ErrInvalidPageSize else
  let pageSize := ResolvePageSize pageSize in
  match DecodePageToken pageToken with
  | inl _ => herr ErrInvalidPageToken
  | inr afterID =>
      instances ← repo (ListInstances (pageSize + 1) afterID);
      mret (page_response pageSize instances)
  end.

Definition GetInstance_srv (id : string) : handler transport :=
  ins ← repo (GetInstanceByID id);
  mret (InstanceToTransport ins).

Definition RunFlavorVersion_srv (userID flavorVersionID orderedBy : string) : handler transport :=
  ins ← RunFlavorVersion_svc flavorVersionID userID orderedBy;
  mret (InstanceToTransport ins).

Definition DiscoverInstances_srv (nodeKey : string) : handler (list transport) :=
  if String.eqb nodeKey "" then herr ErrNodeKeyMissing else
  instances ← DiscoverInstances_svc nodeKey;
  mret (List.map InstanceToTransport instances).

Definition ReceiveInstanceStatusReports_srv (reports : list InstanceStatusReport) : handler unit :=
  repo (ApplyStatusReports (StatusReportToDomain <$> reports)).
End instances.
