(* ===== verification/Reports.v ===== *)
(** * Status reports in the control plane

    What [ApplyStatusReports] does to the table of instances, when it succeeds
    and when it fails half-way, and how the reports of a node arrive there. *)

From stdpp Require Import pretty.
From S2P Require Import Prelude Endian StatusStore Node Tick CpDb CpFlavors CpSamples Instances.

#[local] Open Scope Z_scope.

Section reports.
Context {En : CpEnv}.

(** The report is about the row with this id. *)
Definition is_about (id : string) (r : status_report) : bool := bool_decide (uuid_in (sr_InstanceID r) = Some id).

(** A row after the reports that do not remove it, in their order. *)
Definition updated_row (now : Z) (reports : list status_report) (id : string) (i : instance_row) : instance_row :=
  fold_left (fun i r => if negb (is_removal r) && is_about id r
                        then with_report (sr_State r) (sr_Port r) now i else i) reports i.

Definition removed (reports : list status_report) (id : string) : bool :=
  existsb (fun r => is_removal r && is_about id r) reports.

(** The table after the reports are applied, and with only the updates. *)
Definition reported (now : Z) (reports : list status_report) (t t' : gmap string instance_row) : Prop :=
  forall id, t' !! id = if removed reports id then None else updated_row now reports id <$> t !! id.
Definition half_reported (now : Z) (reports : list status_report) (t t' : gmap string instance_row) : Prop :=
  forall id, t' !! id = updated_row now reports id <$> t !! id.

Definition valid_report (r : status_report) : Prop :=
  is_Some (uuid_in (sr_InstanceID r)) /\ sr_State r ∈ instance_states.

(** Nothing but the table of instances differs. *)
Definition only_instances (d d' : db) : Prop := d' = set_instances (t_instances d') d.

(** ** Proofs *)

Definition update_stmt (now : Z) (r : status_report) : batch_stmt := fun d =>
  uuid_arg (sr_InstanceID r) (fun u =>
    if bool_decide (sr_State r ∈ instance_states)
    then inr (set_instances (alter (with_report (sr_State r) (sr_Port r) now) u (t_instances d)) d)
    else inl (ErrOther "invalid input value for enum instance_state")).

Definition delete_stmt (id : string) : batch_stmt := fun d =>
  uuid_arg id (fun u => inr (set_instances (delete u (t_instances d)) d)).

Lemma run_updates now l : forall d d',
  run_batch (update_stmt now <$> l) d = inr d' ->
  only_instances d d' /\
  forall id, t_instances d' !! id =
    fold_left (fun i r => if is_about id r then with_report (sr_State r) (sr_Port r) now i else i) l
      <$> t_instances d !! id.
Proof using Type.
  induction l as [|r l IH]; intros d d'; cbn [fmap list_fmap run_batch].
  - intros [= <-]. split; [by destruct d|]. intros id. by destruct (t_instances d !! id).
  - unfold update_stmt at 1, uuid_arg. destruct (uuid_in (sr_InstanceID r)) as [u|] eqn:Eu; [|done].
    destruct (bool_decide (sr_State r ∈ instance_states)); [|done]. intros Hr.
    destruct (IH _ _ Hr) as [Ho Hl]. split; [exact Ho|]. intros id. rewrite Hl. cbn [t_instances set_instances].
    destruct (decide (u = id)) as [-> |Hne].
    + rewrite lookup_alter_eq. destruct (t_instances d !! id); [|done]. cbn. unfold is_about.
      by rewrite bool_decide_eq_true_2 by exact Eu.
    + rewrite lookup_alter_ne by done. destruct (t_instances d !! id); [|done]. cbn. unfold is_about.
      rewrite bool_decide_eq_false_2; [done|]. congruence.
Qed.

Lemma run_deletes l : forall d d',
  run_batch (delete_stmt <$> l) d = inr d' ->
  only_instances d d' /\
  forall id, t_instances d' !! id =
    if existsb (fun x => bool_decide (uuid_in x = Some id)) l then None else t_instances d !! id.
Proof using Type.
  induction l as [|x l IH]; intros d d'; cbn [fmap list_fmap run_batch].
  - intros [= <-]. split; [by destruct d|done].
  - unfold delete_stmt at 1, uuid_arg. destruct (uuid_in x) as [u|] eqn:Eu; [|done]. intros Hr.
    destruct (IH _ _ Hr) as [Ho Hl]. split; [exact Ho|]. intros id. rewrite Hl. cbn [t_instances set_instances existsb].
    rewrite Eu. destruct (decide (u = id)) as [-> |Hne].
    + rewrite bool_decide_eq_true_2, lookup_delete_eq by done. by destruct existsb.
    + rewrite bool_decide_eq_false_2, lookup_delete_ne by congruence. done.
Qed.

(** The updates of the reports that do not remove. *)
Lemma updated_row_filter now reports id i :
  fold_left (fun i r => if is_about id r then with_report (sr_State r) (sr_Port r) now i else i)
    (List.filter (fun r => negb (is_removal r)) reports) i = updated_row now reports id i.
Proof using Type.
  unfold updated_row. revert i. induction reports as [|r l IH]; intros i; [done|]. cbn.
  destruct (is_removal r); cbn; apply IH.
Qed.

Lemma removed_filter reports id :
  existsb (fun x => bool_decide (uuid_in x = Some id)) (sr_InstanceID <$> List.filter is_removal reports)
  = removed reports id.
Proof using Type.
  unfold removed. induction reports as [|r l IH]; [done|]. cbn.
  destruct (is_removal r); cbn; by rewrite ?IH.
Qed.

Lemma only_instances_trans d1 d2 d3 : only_instances d1 d2 -> only_instances d2 d3 -> only_instances d1 d3.
Proof using Type. unfold only_instances. by intros -> ->. Qed.

Lemma only_instances_refl d : only_instances d d.
Proof using Type. by destruct d. Qed.
#[local] Hint Resolve only_instances_refl : core.

(** The two batches. *)
Definition updates (now : Z) (reports : list status_report) : CpM unit :=
  br ← BulkUpdateInstanceStateAndPort now (List.filter (fun r => negb (is_removal r)) reports);
  bulkExecAndClose br.
Definition deletes (reports : list status_report) : CpM unit :=
  br ← BulkDeleteInstances (sr_InstanceID <$> List.filter is_removal reports);
  bulkExecAndClose br.

Lemma Apply_unfold reports s : reports <> [] ->
  ApplyStatusReports reports s =
  do_ (now ← time_Now; updates now reports;;
       if bool_decide (sr_InstanceID <$> List.filter is_removal reports = []) then mret tt
       else deletes reports) s.
Proof using Type.
  intros Hne. unfold ApplyStatusReports.
  rewrite bool_decide_eq_false_2.
  - unfold do_. apply CpM_bind_ext. intros _ s1. apply CpM_bind_ext. intros now s2.
    unfold updates. apply CpM_bind_assoc.
  - intros [H1%fmap_nil_inv H2]. destruct reports as [|r l]; [done|]. cbn in H1, H2. by destruct (is_removal r).
Qed.

Lemma updates_spec now reports s r s' :
  updates now reports s = (r, s') ->
  match r with
  | inr _ => only_instances (cp_db s) (cp_db s') /\
             half_reported now reports (t_instances (cp_db s)) (t_instances (cp_db s'))
  | inl _ => cp_db s' = cp_db s \/ only_instances (cp_db s) (cp_db s') /\
             half_reported now reports (t_instances (cp_db s)) (t_instances (cp_db s'))
  end.
Proof using Type.
  intros E. apply bulk_spec in E.
  assert (forall d', run_batch (update_stmt now <$> List.filter (fun r => negb (is_removal r)) reports) (cp_db s)
    = inr d' -> only_instances (cp_db s) d' /\
    half_reported now reports (t_instances (cp_db s)) (t_instances d')) as Hd.
  { intros d' Hr. destruct (run_updates _ _ _ _ Hr) as [Ho Hl]. split; [exact Ho|]. intros id. rewrite Hl.
    destruct (t_instances (cp_db s) !! id); [|done]. cbn. by rewrite updated_row_filter. }
  destruct r as [e|[]]; [destruct E as [E|E]; [by left|right]|]; by apply Hd.
Qed.

Lemma deletes_spec reports s r s' :
  deletes reports s = (r, s') ->
  let dropped t' := forall id, t' !! id =
    if removed reports id then None else t_instances (cp_db s) !! id in
  match r with
  | inr _ => only_instances (cp_db s) (cp_db s') /\ dropped (t_instances (cp_db s'))
  | inl _ => cp_db s' = cp_db s \/ only_instances (cp_db s) (cp_db s') /\ dropped (t_instances (cp_db s'))
  end.
Proof using Type.
  intros E. apply bulk_spec in E. cbn zeta.
  assert (forall d', run_batch (delete_stmt <$> (sr_InstanceID <$> List.filter is_removal reports)) (cp_db s)
    = inr d' -> only_instances (cp_db s) d' /\ forall id, t_instances d' !! id =
    if removed reports id then None else t_instances (cp_db s) !! id) as Hd.
  { intros d' Hr. destruct (run_deletes _ _ _ Hr) as [Ho Hl]. split; [exact Ho|]. intros id.
    by rewrite Hl, removed_filter. }
  destruct r as [e|[]]; [destruct E as [E|E]; [by left|right]|]; by apply Hd.
Qed.

(** Without removals the updates are all. *)
Lemma half_all now reports t t' :
  sr_InstanceID <$> List.filter is_removal reports = [] -> half_reported now reports t t' ->
  reported now reports t t'.
Proof using Type.
  intros Hn Hh id. rewrite (Hh id), <-removed_filter, Hn. done.
Qed.

Lemma half_dropped now reports t t1 t' :
  half_reported now reports t t1 ->
  (forall id, t' !! id = if removed reports id then None else t1 !! id) -> reported now reports t t'.
Proof using Type. intros Hh Hd id. rewrite Hd. destruct (removed reports id); [done|]. apply Hh. Qed.

Lemma Apply_outcome reports s r s' :
  ApplyStatusReports reports s = (r, s') ->
  only_instances (cp_db s) (cp_db s') /\
  exists now,
  match r with
  | inr _ => reported now reports (t_instances (cp_db s)) (t_instances (cp_db s'))
  | inl _ => t_instances (cp_db s') = t_instances (cp_db s) \/
             half_reported now reports (t_instances (cp_db s)) (t_instances (cp_db s')) \/
             reported now reports (t_instances (cp_db s)) (t_instances (cp_db s'))
  end.
Proof using Type.
  destruct (decide (reports = [])) as [-> |Hne].
  { intros [= <- <-]. split; [done|]. exists 0. intros id. cbn. by destruct (t_instances (cp_db s) !! id). }
  rewrite Apply_unfold by done. unfold do_, select, sql. unfold mbind at 1, CpM_bind.
  destruct (cp_fault _) as [msg|].
  { intros [= <- <-]. split; [done|]. exists 0. by left. }
  set (s1 := mk_cp _ _). unfold time_Now. unfold mbind at 1, CpM_bind.
  set (now := cp_now _). set (s2 := send _ _). change (cp_db s) with (cp_db s2).
  clearbody s2 now. clear s1. unfold mbind at 1.
  destruct (updates now reports s2) as [[e|u] s3] eqn:Eu; apply updates_spec in Eu.
  { intros [= <- <-]. destruct Eu as [-> |[Ho Hh]]; (split; [done|]); exists now; auto. }
  destruct Eu as [Ho Hh]. destruct (bool_decide _) eqn:En'.
  { intros [= <- <-]. split; [done|]. exists now. apply half_all; [by apply bool_decide_eq_true in En'|done]. }
  intros Ed. apply deletes_spec in Ed. cbn zeta in Ed.
  destruct r as [e|v].
  - destruct Ed as [-> |[Ho' Hd]]; (split; [eauto using only_instances_trans|]); exists now.
    + by right; left.
    + right; right. by eapply half_dropped.
  - destruct Ed as [Ho' Hd]. split; [eauto using only_instances_trans|]. exists now.
    by eapply half_dropped.
Qed.
Lemma run_updates_ok now l : forall d, Forall valid_report l ->
  exists d', run_batch (update_stmt now <$> l) d = inr d'.
Proof using Type.
  induction l as [|r l IH]; intros d Hall; [by eexists|].
  apply list.Forall_cons in Hall as [[[u Hu] Hst] Hall]. cbn [fmap list_fmap run_batch].
  unfold update_stmt at 1, uuid_arg. rewrite Hu, bool_decide_eq_true_2 by done. by apply IH.
Qed.

Lemma run_deletes_ok l : forall d, Forall (fun x => is_Some (uuid_in x)) l ->
  exists d', run_batch (delete_stmt <$> l) d = inr d'.
Proof using Type.
  induction l as [|x l IH]; intros d Hall; [by eexists|].
  apply list.Forall_cons in Hall as [[u Hu] Hall]. cbn [fmap list_fmap run_batch].
  unfold delete_stmt at 1, uuid_arg. rewrite Hu. by apply IH.
Qed.

Lemma run_updates_rejected now l : forall d, Exists (fun r => ~ valid_report r) l ->
  exists e, run_batch (update_stmt now <$> l) d = inl e.
Proof using Type.
  induction l as [|r l IH]; intros d Hex; [by apply Exists_nil in Hex|].
  cbn [fmap list_fmap run_batch]. unfold update_stmt at 1, uuid_arg.
  destruct (uuid_in (sr_InstanceID r)) as [u|] eqn:Eu; [|by eexists].
  destruct (bool_decide_reflect (sr_State r ∈ instance_states)) as [Hst|]; [|by eexists].
  apply List.Exists_cons in Hex as [Hr|Hex]; [|by apply IH]. destruct Hr. by split; [eexists|].
Qed.

(** Nothing fails. *)
Definition faultless : Prop := (forall h, cp_fault h = None) /\ forall h, cp_broken h = None.

Lemma Apply_succeeds reports s :
  faultless -> Forall valid_report reports -> (ApplyStatusReports reports s).1 = inr tt.
Proof using Type.
  intros [Hf Hb] Hall. destruct (decide (reports = [])) as [-> |Hne]; [done|].
  rewrite Apply_unfold by done. unfold do_, select, sql. unfold mbind at 1, CpM_bind. rewrite Hf.
  unfold time_Now. unfold mbind at 1, CpM_bind. set (now := cp_now _). set (s2 := send _ _).
  destruct (run_updates_ok now (List.filter (fun r => negb (is_removal r)) reports) (cp_db s2)) as [d Hd].
  { rewrite list.Forall_forall in *. intros r Hr. apply Hall.
    apply list_elem_of_In, filter_In in Hr. apply list_elem_of_In. tauto. }
  destruct (bulk_ok "BulkUpdateInstanceStateAndPort" _ s2 d Hf Hb Hd) as [h' E].
  change (updates now reports s2 = (inr tt, mk_cp d h')) in E. unfold mbind at 1. rewrite E.
  destruct (bool_decide _); [done|].
  destruct (run_deletes_ok (sr_InstanceID <$> List.filter is_removal reports) d) as [d' Hd'].
  { apply list.Forall_forall. intros x (r & -> & Hr)%list_elem_of_fmap.
    rewrite list.Forall_forall in Hall. apply Hall.
    apply list_elem_of_In, filter_In in Hr. apply list_elem_of_In. tauto. }
  destruct (bulk_ok "BulkDeleteInstances" _ (mk_cp d h') d' Hf Hb Hd') as [h2 E2].
  change (deletes reports (mk_cp d h') = (inr tt, mk_cp d' h2)) in E2. by rewrite E2.
Qed.

Lemma Apply_rejected reports s :
  Exists (fun r => is_removal r = false /\ ~ valid_report r) reports ->
  cp_db (ApplyStatusReports reports s).2 = cp_db s /\ exists e, (ApplyStatusReports reports s).1 = inl e.
Proof using Type.
  intros Hex. assert (reports <> []) as Hne by (intros ->; by apply Exists_nil in Hex).
  destruct (ApplyStatusReports reports s) as [r s'] eqn:E. cbn [fst snd]. revert E.
  rewrite Apply_unfold by done. unfold do_, select, sql. unfold mbind at 1, CpM_bind.
  destruct (cp_fault _); [intros [= <- <-]; by split; [|eexists]|].
  unfold time_Now. unfold mbind at 1, CpM_bind. set (now := cp_now _). set (s2 := send _ _).
  change (cp_db s) with (cp_db s2).
  destruct (run_updates_rejected now (List.filter (fun r => negb (is_removal r)) reports) (cp_db s2))
    as [e He].
  { rewrite list.Exists_exists in *. destruct Hex as (x & Hr & Hrm & Hv). exists x. split; [|done].
    apply list_elem_of_In, filter_In. rewrite Hrm. split; [by apply list_elem_of_In|done]. }
  destruct (updates now reports s2) as [r' s3] eqn:Eu.
  destruct (bulk_rejected "BulkUpdateInstanceStateAndPort" _ s2 r' s3 e Eu He) as [Hd [e' ->]].
  unfold mbind at 1. rewrite Eu. intros [= <- <-]. by split; [|eexists].
Qed.

(** C26: a call that succeeds has removed exactly the instances that are
    reported deleted and given every other one its last reported state and port,
    without creating any; one that fails has done nothing, only the updates, or
    everything.  Valid reports succeed when the database does; one that is
    invalid keeps all of them from being applied. *)
Theorem reports_applied (reports : list status_report) (s : cp) :
  let (r, s') := ApplyStatusReports reports s in
  only_instances (cp_db s) (cp_db s') /\
  (exists now,
     match r with
     | inr _ => reported now reports (t_instances (cp_db s)) (t_instances (cp_db s'))
     | inl _ => t_instances (cp_db s') = t_instances (cp_db s) \/
                half_reported now reports (t_instances (cp_db s)) (t_instances (cp_db s')) \/
                reported now reports (t_instances (cp_db s)) (t_instances (cp_db s'))
     end) /\
  (faultless -> Forall valid_report reports -> r = inr tt) /\
  (Exists (fun r => is_removal r = false /\ ~ valid_report r) reports ->
     cp_db s' = cp_db s /\ exists e, r = inl e).
Proof using Type.
  pose proof (Apply_succeeds reports s) as Hs. pose proof (Apply_rejected reports s) as Hr.
  destruct (ApplyStatusReports reports s) as [r s'] eqn:E. cbn [fst snd] in *.
  destruct (Apply_outcome reports s r s' E) as [Ho Hn]. done.
Qed.
End reports.

Lemma demo_faultless : faultless.
Proof. done. Qed.

Definition demo_reports : list status_report :=
  [{| sr_InstanceID := "b"; sr_State := "DELETED"; sr_Port := 0 |};
   {| sr_InstanceID := "a"; sr_State := "CREATING"; sr_Port := 30000 |};
   {| sr_InstanceID := "a"; sr_State := "RUNNING"; sr_Port := 30000 |}].

Lemma reports_applied_witness :
  let (r, s') := ApplyStatusReports demo_reports (demo_cp 9 ["a"; "b"; "c"]) in
  r = inr tt /\ t_instances (cp_db s') !! "b" = None.
Proof.
  pose proof (reports_applied demo_reports (demo_cp 9 ["a"; "b"; "c"])) as Ht.
  destruct (ApplyStatusReports _ _) as [r s']. destruct Ht as (_ & [now Hn] & Hok & _).
  assert (r = inr tt) as ->.
  { apply Hok; [apply demo_faultless|].
    do 3 (apply List.Forall_cons; [split; [by eexists|apply (bool_decide_unpack _); vm_compute; exact I]|]).
    apply List.Forall_nil. }
  split; [done|]. apply (Hn "b").
Defined.

(** ** From the node *)

(** The number of a state on the wire becomes its name again. *)
Lemma state_roundtrip (name : string) :
  name ∈ instance_states -> InstanceState_String (InstanceState_value name) = name.
Proof.
  unfold instance_states. rewrite !elem_of_cons, elem_of_nil.
  by intros [-> |[-> |[-> |[-> |[-> |[-> |[]]]]]]].
Qed.

(** A report of a workload with a recorded status arrives as it was recorded. *)
Lemma report_arrives (s : MemStore) (id : string) (st : Status) (w : WorkloadStatus) :
  sv_workload (resolve s st) = Some w -> ws_State w ∈ instance_states -> 0 <= ws_Port w < 2 ^ 16 ->
  StatusReportToDomain <$> report s (id, st) =
  Some {| sr_InstanceID := id; sr_State := ws_State w; sr_Port := ws_Port w |}.
Proof.
  intros Hw Hst Hp. unfold report. cbn [fst snd]. rewrite Hw. cbn. unfold StatusReportToDomain. cbn.
  rewrite state_roundtrip by done. unfold cast_u16, wrap. by rewrite Z.mod_small.
Qed.
