(* ===== verification/Pages.v ===== *)
(** * Listing instances page by page

    A client that follows the page tokens of [ListInstances] while other
    requests and reports change the table. *)

From stdpp Require Import sorting.
From S2P Require Import Prelude Endian CpDb CpFlavors CpSamples Instances.

#[local] Open Scope Z_scope.

(** ** The order of ids *)

Definition id_lt (a b : string) : Prop := ~ String.le b a.

#[global] Instance id_lt_anti : AntiSymm (=) id_lt.
Proof. intros a b Hab Hba. destruct Hab. destruct (String.le_total b a); [done|]. by destruct Hba. Qed.

#[global] Instance id_lt_trans : Transitive id_lt.
Proof.
  intros a b c Hab Hbc Hca. destruct (String.le_total a b) as [Hle|Hle]; [|done].
  apply Hbc. by transitivity a.
Qed.

Lemma id_lt_irrefl a : ~ id_lt a a.
Proof. intros H. by apply H. Qed.

Lemma id_lt_le a b : id_lt a b -> String.le a b.
Proof. intros H. destruct (String.le_total a b) as [|Hle]; [done|]. by destruct H. Qed.

Lemma sorted_strict (l : list string) :
  NoDup l -> StronglySorted String.le l -> StronglySorted id_lt l.
Proof.
  induction l as [|x l IH]; intros Hnd Hs; [constructor|]. apply list.NoDup_cons in Hnd as [Hx Hnd].
  apply StronglySorted_inv in Hs as [Hs Hall]. constructor; [by apply IH|].
  rewrite list.Forall_forall in *. intros y Hy Hle. apply Hx.
  replace x with y; [done|]. apply (anti_symm String.le); auto.
Qed.

Lemma StronglySorted_filter {A} (R : relation A) (P : A -> Prop) `{!forall x, Decision (P x)} l :
  StronglySorted R l -> StronglySorted R (filter P l).
Proof.
  induction 1 as [|x l Hs IH Hall]; [constructor|]. rewrite filter_cons. destruct (decide (P x)); [|done].
  constructor; [done|]. rewrite list.Forall_forall in *. intros y [_ Hy]%list_elem_of_filter. auto.
Qed.

Lemma filter_all {A} (P : A -> Prop) `{!forall x, Decision (P x)} (l : list A) :
  (forall x, P x) -> filter P l = l.
Proof.
  intros HP. induction l as [|x l IH]; [done|]. rewrite filter_cons_True by apply HP. by rewrite IH.
Qed.

Lemma sorted_take {A} (R : relation A) n l : StronglySorted R l -> StronglySorted R (take n l).
Proof. intros Hs. rewrite <-(take_drop n l) in Hs. by apply StronglySorted_app_1_l in Hs. Qed.

Lemma sorted_NoDup (l : list string) : StronglySorted id_lt l -> NoDup l.
Proof.
  induction 1 as [|x l Hs IH Hall]; [constructor|]. apply list.NoDup_cons. split; [|done].
  intros Hx. rewrite list.Forall_forall in Hall. by destruct (id_lt_irrefl x), (Hall x Hx).
Qed.

Lemma elem_of_snoc {A} (l : list A) x : x ∈ l ++ [x].
Proof. apply elem_of_app. right. by apply list_elem_of_singleton. Qed.

(** Strictly sorted lists with the same elements are equal. *)
Lemma sorted_ext (l1 l2 : list string) :
  StronglySorted id_lt l1 -> StronglySorted id_lt l2 -> (forall x, x ∈ l1 <-> x ∈ l2) -> l1 = l2.
Proof.
  intros H1 H2 Hx. apply (StronglySorted_unique id_lt); [done..|].
  apply NoDup_Permutation; [by apply sorted_NoDup..|exact Hx].
Qed.

(** ** The database *)

Section pages.
Context {En : CpEnv}.

(** Every instance has its id as key, a standard id of version 7, and refers to
    rows that exist. *)
Record instances_ok (d : db) : Prop := {
  io_row id i : t_instances d !! id = Some i ->
    in_ID i = id /\ uuid_in id = Some id /\ uuid_version id = Some 7 /\ is_Some (join_instance d i);
}.

Definition instance_ids (d : db) : list string := merge_sort String.le (map_to_list (t_instances d)).*1.

Lemma instance_ids_spec d :
  StronglySorted id_lt (instance_ids d) /\
  forall id, id ∈ instance_ids d <-> is_Some (t_instances d !! id).
Proof using Type.
  pose proof (merge_sort_Permutation String.le (map_to_list (t_instances d)).*1) as Hp.
  fold (instance_ids d) in Hp. split.
  - apply sorted_strict; [|apply (StronglySorted_merge_sort String.le)].
    rewrite Hp. apply NoDup_fst_map_to_list.
  - intros id. rewrite Hp, list_elem_of_fmap. split.
    + intros ([k i] & -> & Hi%elem_of_map_to_list). eauto.
    + intros [i Hi]. exists (id, i). split; [done|]. by apply elem_of_map_to_list.
Qed.

(** The ids that a request for the rest of the list asks about. *)
Definition ids_after (d : db) (after : option string) : list string :=
  filter (is_after after) (instance_ids d).

Lemma page_ids_after d n after : page_ids d n after = take n (ids_after d after).
Proof using Type. done. Qed.

Lemma ids_after_sorted d after : StronglySorted id_lt (ids_after d after).
Proof using Type. apply StronglySorted_filter, instance_ids_spec. Qed.

Lemma elem_of_ids_after d after id :
  id ∈ ids_after d after <-> is_after after id /\ is_Some (t_instances d !! id).
Proof using Type. unfold ids_after. by rewrite list_elem_of_filter, (proj2 (instance_ids_spec d)). Qed.

(** ** One page *)

Lemma join_row d i j : join_instance d i = Some j -> j_i j = i.
Proof using Type.
  unfold join_instance. intros Hj.
  repeat (apply bind_Some in Hj as (? & _ & Hj)). by injection Hj as <-.
Qed.

(** Rows with different ids are groups of their own. *)
Lemma groups_distinct (rows : list inst_join) : forall acc,
  NoDup (acc.*1 ++ ((fun r => in_ID (j_i r)) <$> rows)) ->
  fold_left add_row rows acc = acc ++ ((fun r => (in_ID (j_i r), [r])) <$> rows).
Proof using Type.
  induction rows as [|r rows IH]; intros acc Hnd; cbn [fold_left fmap list_fmap].
  { by rewrite app_nil_r. }
  cbn [fmap list_fmap] in Hnd.
  assert (existsb (fun g : string * list inst_join => String.eqb g.1 (in_ID (j_i r))) acc = false) as Hex.
  { apply not_true_is_false. intros ([k l] & Hin & Heq%String.eqb_eq)%existsb_exists. cbn in Heq. subst k.
    apply list.NoDup_app in Hnd as (_ & Hdis & _). apply (Hdis (in_ID (j_i r))); [|by left].
    apply list_elem_of_In in Hin. apply list_elem_of_fmap. by exists (in_ID (j_i r), l). }
  unfold add_row at 2. rewrite Hex. rewrite IH.
  - by rewrite <-app_assoc.
  - rewrite fmap_app, <-app_assoc. exact Hnd.
Qed.

(** The statements of a listing do not fail. *)
Definition responsive (s : cp) : Prop :=
  cp_fault ("acquire" :: cp_log s) = None /\
  cp_fault ("ListInstancesWithPagination" :: "acquire" :: cp_log s) = None.

Lemma page_rows d (ids : list string) :
  instances_ok d -> (forall id, id ∈ ids -> is_Some (t_instances d !! id)) ->
  (fun r => in_ID (j_i r)) <$> omap (fun id => t_instances d !! id ≫= join_instance d) ids = ids.
Proof using Type.
  intros Hok. induction ids as [|id ids IH]; intros Hall; [done|].
  destruct (Hall id ltac:(left)) as [i Hi]. destruct (io_row d Hok id i Hi) as (Hid & _ & _ & [j Hj]).
  cbn. rewrite Hi. cbn. rewrite Hj. cbn. rewrite (join_row _ _ _ Hj), Hid. f_equal.
  apply IH. intros k Hk. apply Hall. by right.
Qed.

Lemma list_rows (rows : list inst_join) :
  NoDup ((fun r => in_ID (j_i r)) <$> rows) ->
  ri_ID <$> omap (fun g : string * list inst_join =>
    row ← list.head g.2; Some (from_rows row g.2 None)) (fold_left add_row rows [])
  = (fun r => in_ID (j_i r)) <$> rows.
Proof using Type.
  intros Hnd. rewrite groups_distinct by exact Hnd. cbn [app]. clear Hnd.
  induction rows as [|r rows IH]; [done|]. cbn. f_equal. exact IH.
Qed.

Lemma ListInstances_ids (s : cp) (n : Z) (after : option string) :
  instances_ok (cp_db s) -> responsive s -> 0 <= n < 2 ^ 31 ->
  (forall a, after = Some a -> uuid_in a = Some a) ->
  exists l s', ListInstances n after s = (inr l, s') /\
    ri_ID <$> l = take (Z.to_nat n) (ids_after (cp_db s) after).
Proof using Type.
  intros Hok [Hf1 Hf2] Hn Ha.
  set (rows := omap (fun id => t_instances (cp_db s) !! id ≫= join_instance (cp_db s))
                 (page_ids (cp_db s) (Z.to_nat n) after)).
  assert (exists s', ListInstances n after s =
    (inr (omap (fun g : string * list inst_join =>
       row ← list.head g.2; Some (from_rows row g.2 None)) (fold_left add_row rows [])), s'))
    as (s' & E).
  { unfold ListInstances, do_, ListInstancesWithPagination, select, sql, mbind at 1 2, CpM_bind. cbn.
    rewrite Hf1. cbn. rewrite Hf2. cbn. unfold cast_i32. rewrite Z.mod_small by lia.
    replace (n <? 2 ^ 31) with true by lia. replace (n <? 0) with false by lia.
    destruct after as [a|]; [unfold uuid_arg; rewrite (Ha a eq_refl)|]; by eexists. }
  eexists _, s'. split; [exact E|].
  assert ((fun r => in_ID (j_i r)) <$> rows = take (Z.to_nat n) (ids_after (cp_db s) after)) as Hrows.
  { apply page_rows; [done|]. intros id Hid.
    apply subseteq_take, elem_of_ids_after in Hid. tauto. }
  rewrite list_rows; [exact Hrows|]. rewrite Hrows. apply sorted_NoDup, sorted_take, ids_after_sorted.
Qed.

(** What one request returns: the next ids, and a token if there are more. *)
Definition page_size (size : Z) : nat := Z.to_nat (ResolvePageSize size).

Definition token_of (after : option string) : string := default "" after.

Lemma ListInstances_page (Hl : CpLaws En) (s : cp) (size : Z) (after : option string) :
  instances_ok (cp_db s) -> responsive s -> 0 <= size <= MaxPageSize ->
  (forall a, after = Some a -> uuid_in a = Some a /\ uuid_version a = Some 7) ->
  exists r s', serve (ListInstances_srv size (token_of after)) s = (inr r, s') /\
    tr_Id <$> li_Instances r = take (page_size size) (ids_after (cp_db s) after) /\
    li_NextPageToken r =
      if (page_size size <? length (ids_after (cp_db s) after))%nat
      then default "" (list.last (take (page_size size) (ids_after (cp_db s) after))) else "".
Proof using Type.
  intros Hok Hr Hsz Ha. unfold ListInstances_srv.
  replace (MaxPageSize <? size) with false by lia. set (sz := ResolvePageSize size).
  assert (1 <= sz <= 100) as Hb.
  { unfold sz, ResolvePageSize, DefaultPageSize, MaxPageSize in *. destruct (size =? 0) eqn:E; lia. }
  assert (DecodePageToken (token_of after) = inr after) as ->.
  { unfold DecodePageToken, token_of. destruct after as [a|]; [cbn|done].
    destruct (Ha a eq_refl) as [_ Hv]. rewrite Hv. destruct (String.eqb_spec a "") as [-> |]; [|done].
    by rewrite (uuid_version_empty) in Hv. }
  destruct (ListInstances_ids s (sz + 1) after Hok Hr) as (l & s' & E & Hids); [lia|intros a Ea; by apply Ha|].
  exists (page_response sz l), s'. split.
  { cbn [serve mbind handler_bind repo]. unfold mbind, CpM_bind. by rewrite E. }
  set (ids := ids_after (cp_db s) after) in *.
  assert (length l = Nat.min (Z.to_nat (sz + 1)) (length ids)) as Hlen
    by (rewrite <-(length_fmap ri_ID), Hids; apply length_take).
  assert (ri_ID <$> (if sz <? Z.of_nat (length l) then take (Z.to_nat sz) l else l)
          = take (Z.to_nat sz) ids) as Hpage.
  { destruct (Z.ltb_spec sz (Z.of_nat (length l))) as [Hlt|Hge].
    - rewrite fmap_take, Hids, take_take. f_equal. lia.
    - rewrite Hids, !take_ge by lia. done. }
  unfold page_response, page_size. fold sz. cbn [li_Instances li_NextPageToken]. split.
  - rewrite <-list_fmap_compose. exact Hpage.
  - destruct (Nat.ltb_spec (Z.to_nat sz) (length ids)) as [Hlt|Hge].
    + replace (sz <? Z.of_nat (length l)) with true in * by lia.
      unfold EncodePageToken. by rewrite <-fmap_last, Hpage.
    + by replace (sz <? Z.of_nat (length l)) with false by lia.
Qed.

(** ** Following the tokens *)

(** The ids that a client gets that asks for pages in the given states of the
    control plane, one after the other; [None] if it is not at the end yet. *)
Fixpoint list_all (size : Z) (token : string) (states : list cp) : option (list string) :=
  match states with
  | [] => None
  | s :: states =>
      match (serve (ListInstances_srv size token) s).1 with
      | inl _ => None
      | inr r =>
          if String.eqb (li_NextPageToken r) "" then Some (tr_Id <$> li_Instances r)
          else l ← list_all size (li_NextPageToken r) states; Some ((tr_Id <$> li_Instances r) ++ l)
      end
  end.

(** The number of instances. *)
Definition size_of (d : db) : nat := size (t_instances d).

Definition present (id : string) (s : cp) : Prop := is_Some (t_instances (cp_db s) !! id).

Context {Hl : CpLaws En}.

(** The last id of a page that is not the last page. *)
Lemma page_last d after n :
  instances_ok d -> (0 < n)%nat -> (n < length (ids_after d after))%nat ->
  exists x, list.last (take n (ids_after d after)) = Some x /\
    uuid_in x = Some x /\ uuid_version x = Some 7 /\ x <> "" /\
    (forall id, id ∈ take n (ids_after d after) -> String.le id x) /\
    (forall id, id ∈ ids_after d after -> id ∈ take n (ids_after d after) \/ id_lt x id) /\
    ids_after d (Some x) = drop n (ids_after d after).
Proof using Hl.
  intros Hok Hn Hlen. pose proof (ids_after_sorted d after) as Hs.
  assert (forall id, id ∈ ids_after d after <-> is_after after id /\ is_Some (t_instances d !! id)) as Hin
    by apply elem_of_ids_after.
  set (ids := ids_after d after) in *.
  destruct (list.last (take n ids)) as [x|] eqn:Hlast; cycle 1.
  { apply last_None in Hlast. apply (f_equal length) in Hlast. rewrite length_take in Hlast. cbn in Hlast. lia. }
  exists x. split; [done|]. apply last_Some in Hlast as [pre Hpre].
  assert (x ∈ ids) as Hx.
  { rewrite <-(take_drop n ids), Hpre. apply elem_of_app. left. apply elem_of_snoc. }
  apply Hin in Hx as [Hxa [i Hi]]. destruct (io_row d Hok x i Hi) as (_ & Hu & Hv & _).
  assert (forall id, id ∈ take n ids -> String.le id x) as Hle.
  { rewrite Hpre. intros id [Hid|Hid]%elem_of_app; [|apply list_elem_of_singleton in Hid; by subst].
    apply id_lt_le. rewrite <-(take_drop n ids), Hpre in Hs. apply StronglySorted_app_1_l in Hs.
    eapply (StronglySorted_app_1_elem_of id_lt); [exact Hs|done|by left]. }
  assert (forall id, id ∈ drop n ids -> id_lt x id) as Hgt.
  { intros id Hid. rewrite <-(take_drop n ids) in Hs.
    eapply (StronglySorted_app_1_elem_of id_lt); [exact Hs|rewrite Hpre; apply elem_of_snoc|done]. }
  split; [done|]. split; [done|]. split; [intros ->; by rewrite uuid_version_empty in Hv|].
  split; [exact Hle|]. split.
  { intros id Hid. rewrite <-(take_drop n ids) in Hid. apply elem_of_app in Hid as [|]; auto. }
  apply sorted_ext; [apply ids_after_sorted| |].
  { rewrite <-(take_drop n ids) in Hs. by apply StronglySorted_app_1_r in Hs. }
  intros id. rewrite elem_of_ids_after. split.
  - intros [Hlt Hp]. change (id_lt x id) in Hlt. assert (id ∈ ids) as Hid.
    { apply Hin. split; [|done]. destruct after as [a|]; [|done].
      change (id_lt a id). by transitivity x. }
    rewrite <-(take_drop n ids) in Hid. apply elem_of_app in Hid as [Hid|]; [|done].
    by destruct (Hlt (Hle id Hid)).
  - intros Hid. split; [by apply Hgt|]. apply Hin. rewrite <-(take_drop n ids). apply elem_of_app. by right.
Qed.

(** A state in which listing works. *)
Definition listable (s : cp) : Prop := instances_ok (cp_db s) /\ responsive s.

Definition valid_after (after : option string) : Prop :=
  forall a, after = Some a -> uuid_in a = Some a /\ uuid_version a = Some 7.

Lemma page_size_pos size : 0 <= size -> (0 < page_size size)%nat.
Proof using Type.
  unfold page_size, ResolvePageSize, DefaultPageSize. destruct (Z.eqb_spec size 0); lia.
Qed.

(** One request of [list_all]. *)
Lemma list_all_step size after s states :
  0 <= size <= MaxPageSize -> listable s -> valid_after after ->
  let ids := ids_after (cp_db s) after in
  let n := page_size size in
  ((length ids <= n)%nat /\ list_all size (token_of after) (s :: states) = Some ids) \/
  exists x, (n < length ids)%nat /\ list.last (take n ids) = Some x /\ valid_after (Some x) /\
    list_all size (token_of after) (s :: states) =
      (l ← list_all size (token_of (Some x)) states; Some (take n ids ++ l)).
Proof using Hl.
  intros Hsz [Hok Hr] Ha ids n. cbn [list_all].
  destruct (ListInstances_page Hl s size after Hok Hr Hsz Ha) as (r & s' & E & Hids & Htok).
  fold ids n in Hids, Htok. rewrite E. cbn [fst]. rewrite Htok, Hids.
  destruct (Nat.ltb_spec n (length ids)) as [Hlt|Hge].
  - right. destruct (page_last (cp_db s) after n Hok) as (x & Hlast & Hu & Hv & Hne & _);
      [apply page_size_pos; lia|exact Hlt|]. fold ids in Hlast. exists x. split; [done|].
    split; [done|]. split; [by intros a [= <-]|]. rewrite Hlast. cbn.
    by apply String.eqb_neq in Hne as ->.
  - left. split; [done|]. cbn. by rewrite take_ge.
Qed.

Lemma list_all_spec size states : 0 <= size <= MaxPageSize -> Forall listable states ->
  forall after l, valid_after after -> list_all size (token_of after) states = Some l ->
  StronglySorted id_lt l /\ Forall (is_after after) l /\
  (forall id, is_after after id -> Forall (present id) states -> id ∈ l) /\
  (forall id, id ∈ l -> Exists (present id) states).
Proof using Hl.
  intros Hsz Hall. induction Hall as [|s states Hs Hall IH]; intros after l Ha El; [done|].
  pose proof (ids_after_sorted (cp_db s) after) as Hsort.
  assert (forall id, id ∈ ids_after (cp_db s) after -> is_after after id /\ present id s) as Hin
    by (intros id; apply elem_of_ids_after).
  destruct (list_all_step size after s states Hsz Hs Ha) as [[Hlen E]|(x & Hlt & Hlast & Hx & E)];
    rewrite E in El.
  - injection El as <-. split; [done|]. split; [apply list.Forall_forall; apply Hin|]. split.
    + intros id Hid [Hp _]%list.Forall_cons. by apply elem_of_ids_after.
    + intros id Hid. left. by apply Hin.
  - destruct (list_all size (token_of (Some x)) states) as [l'|] eqn:El'; [|done].
    cbn in El. injection El as <-. destruct (IH (Some x) l' Hx El') as (Hs' & Haft & Hc & He).
    destruct (page_last (cp_db s) after (page_size size) (proj1 Hs)) as
      (x' & Hlast' & _ & _ & _ & Hle & Hsplit & _); [apply page_size_pos; lia|exact Hlt|].
    assert (x' = x) as -> by congruence. rewrite list.Forall_forall in Haft.
    assert (is_after after x) as Hxa.
    { apply Hin, (subseteq_take (page_size size)). apply last_Some in Hlast as [pre ->]. apply elem_of_snoc. }
    assert (forall id, id ∈ l' -> is_after after id) as Haft'.
    { intros id Hid. destruct after as [a|]; [|done]. change (id_lt a id).
      transitivity x; [exact Hxa|by apply Haft]. }
    split; [|split; [|split]].
    + apply StronglySorted_app_2; [|by apply sorted_take|done].
      intros a b Ha' Hb Hba. apply (Haft b Hb). transitivity a; [done|by apply Hle].
    + apply list.Forall_app. split; apply list.Forall_forall; [|done].
      intros id Hid%subseteq_take. by apply Hin.
    + intros id Hid [Hp Hps]%list.Forall_cons. apply elem_of_app.
      destruct (Hsplit id) as [|Hgt]; [by apply elem_of_ids_after|by left|].
      right. by apply Hc.
    + intros id [Hid%subseteq_take|Hid]%elem_of_app; [left; by apply Hin|right; auto].
Qed.

Lemma list_all_ends size T states : 0 <= size <= MaxPageSize ->
  Forall (fun s => listable s /\ t_instances (cp_db s) = T) states ->
  forall after, valid_after after ->
  (forall d, t_instances d = T -> length (ids_after d after) <= length states * page_size size)%nat ->
  (0 < length states)%nat ->
  forall d, t_instances d = T -> list_all size (token_of after) states = Some (ids_after d after).
Proof using Hl.
  intros Hsz Hall. induction Hall as [|s states [Hs HT] Hall IH]; intros after Ha Hlen Hpos d Hd.
  { cbn in Hpos. lia. }
  assert (ids_after d after = ids_after (cp_db s) after) as ->
    by (unfold ids_after, instance_ids; by rewrite Hd, HT).
  destruct (list_all_step size after s states Hsz Hs Ha) as [[_ E]|(x & Hlt & Hlast & Hx & E)];
    rewrite E; [done|].
  destruct (page_last (cp_db s) after (page_size size) (proj1 Hs)) as
    (x' & Hlast' & _ & _ & _ & _ & _ & Hdrop); [apply page_size_pos; lia|exact Hlt|].
  assert (x' = x) as -> by congruence.
  assert (forall d', t_instances d' = T -> ids_after d' (Some x) = ids_after (cp_db s) (Some x)) as Hsame
    by (intros d' Hd'; unfold ids_after, instance_ids; by rewrite Hd', HT).
  specialize (Hlen (cp_db s) HT). cbn [length] in Hlen, Hpos.
  pose proof (page_size_pos size ltac:(lia)) as Hps.
  rewrite (IH (Some x) Hx) with (d := cp_db s).
  - cbn. by rewrite Hdrop, take_drop.
  - intros d' Hd'. rewrite (Hsame d' Hd'), Hdrop, length_drop. nia.
  - destruct states; cbn in *; [nia|lia].
  - done.
Qed.
(** C25: a client that follows the page tokens, whatever is created, updated and
    deleted between its requests, gets each instance at most once and in order,
    does not miss one that was there all the time, and gets none that never was;
    if the table does not change, it is done after as many requests as there are
    pages and has the whole table. *)
Theorem pages_complete (size : Z) (states : list cp) :
  0 <= size <= MaxPageSize -> Forall listable states ->
  (forall l, list_all size "" states = Some l ->
     StronglySorted id_lt l /\
     (forall id, Forall (present id) states -> id ∈ l) /\
     (forall id, id ∈ l -> Exists (present id) states)) /\
  (forall d, Forall (fun s => t_instances (cp_db s) = t_instances d) states ->
     (0 < length states)%nat -> (size_of d <= length states * page_size size)%nat ->
     list_all size "" states = Some (instance_ids d)).
Proof using Hl.
  intros Hsz Hall. split.
  - intros l El. destruct (list_all_spec size states Hsz Hall None l) as (H1 & _ & H2 & H3); [done..|].
    split; [done|]. split; [|done]. intros id. by apply H2.
  - intros d Hd Hpos Hlen.
    assert (forall d', ids_after d' None = instance_ids d') as Hall'
      by (intros d'; unfold ids_after; by apply filter_all).
    rewrite <-Hall'. change "" with (token_of None).
    apply (list_all_ends size (t_instances d)); [done| |done| |done|done].
    + rewrite list.Forall_forall in *. intros s Hs. split; [by apply Hall|by apply Hd].
    + intros d' Hd'. rewrite Hall'. unfold instance_ids. rewrite merge_sort_Permutation, length_fmap.
      rewrite length_map_to_list, Hd'. exact Hlen.
Qed.
End pages.

(** ** Example *)

Lemma demo_listable slots ids : NoDup ids -> Forall (fun id => id <> "") ids -> listable (demo_cp slots ids).
Proof.
  intros Hnd Hne. split; [|done]. split. intros id i Hi.
  apply elem_of_list_to_map_2, list_elem_of_fmap in Hi as (k & [= -> ->] & Hk).
  rewrite list.Forall_forall in Hne. apply Hne, String.eqb_neq in Hk.
  split; [done|]. cbn [uuid_in uuid_version demo_cp_env]. rewrite Hk. split; [done|]. split; [done|].
  by eexists.
Qed.

(** Five instances in pages of two; the third is deleted and a sixth created
    after the first page. *)
Definition demo_ids : list string := ["a"; "b"; "c"; "d"; "e"].
Definition demo_walk : list cp :=
  [demo_cp 9 demo_ids; demo_cp 9 ["a"; "b"; "d"; "e"; "aa"]; demo_cp 9 ["a"; "b"; "d"; "e"; "aa"]].

Lemma pages_complete_witness :
  list_all 2 "" demo_walk = Some ["a"; "b"; "d"; "e"] /\
  StronglySorted id_lt ["a"; "b"; "d"; "e"] /\
  list_all 2 "" (replicate 3 (demo_cp 9 demo_ids)) = Some (instance_ids (demo_db 9 demo_ids)).
Proof.
  assert (list_all 2 "" demo_walk = Some ["a"; "b"; "d"; "e"]) as E by (vm_compute; reflexivity).
  assert (Forall listable demo_walk) as Hw.
  { do 3 (apply List.Forall_cons;
      [apply demo_listable; apply (bool_decide_unpack _); vm_compute; exact I|]). apply List.Forall_nil. }
  assert (Forall listable (replicate 3 (demo_cp 9 demo_ids))) as Hc.
  { do 3 (apply List.Forall_cons;
      [apply demo_listable; apply (bool_decide_unpack _); vm_compute; exact I|]). apply List.Forall_nil. }
  split; [exact E|]. split.
  - apply (proj1 (pages_complete 2 demo_walk ltac:(unfold MaxPageSize; lia) Hw) _ E).
  - apply (proj2 (pages_complete 2 _ ltac:(unfold MaxPageSize; lia) Hc)).
    + by do 3 (apply List.Forall_cons; [done|]).
    + cbn. lia.
    + apply Nat.leb_le. vm_compute. reflexivity.
Defined.
