(* ===== verification/Slots.v ===== *)
(** * The slots of a node

    [RunFlavorVersion] looks for a node with a free slot and inserts the instance
    in a later transaction.  Requests that are served at the same time can find
    the same slot; this file bounds by how much a node is overcommitted. *)

From stdpp Require Import sorting.
From S2P Require Import Prelude Endian CpDb CpFlavors CpSamples Instances Reports.

#[local] Open Scope Z_scope.

(** No row is added, and none moves to another node. *)
Definition shrinks (t t' : gmap string instance_row) : Prop :=
  forall id i', t' !! id = Some i' -> exists i, t !! id = Some i /\ in_NodeID i' = in_NodeID i.

Lemma shrinks_refl t : shrinks t t.
Proof. intros id i Hi. eauto. Qed.

Lemma instances_on_shrinks node t t' :
  shrinks t t' -> (instances_on t' node <= instances_on t node)%nat.
Proof.
  intros Hs. apply (count_map_mono (fun i => in_NodeID i = node)). intros id i' Hi'.
  destruct (Hs id i' Hi') as (i & Hi & Hn). exists i. split; [done|]. congruence.
Qed.

(** ** What the calls of a request do to the table *)

Section slots.
Context {En : CpEnv} {Hl : CpLaws En}.

(** Nodes are rows under their standard id. *)
Definition nodes_ok (d : db) : Prop :=
  forall k n, t_nodes d !! k = Some n -> nd_ID n = k /\ uuid_in k = Some k.

Lemma keeps_BestNode : keeps_db BestNode.
Proof using Type.
  apply keeps_do, keeps_bind; [apply keeps_catch, keeps_select|].
  intros [[]|[n c]]; try apply keeps_ret. destruct (parse_addr_port _); apply keeps_ret.
Qed.

Lemma keeps_get id : keeps_db (get_instance id).
Proof using Type. apply keeps_bind; [apply keeps_select|]. intros [|r l]; apply keeps_ret. Qed.

(** The node has room in the database in which it was chosen. *)
Lemma BestNode_room s n :
  nodes_ok (cp_db s) -> (BestNode s).1 = inr n ->
  exists row, t_nodes (cp_db s) !! nn_ID n = Some row /\ uuid_in (nn_ID n) = Some (nn_ID n) /\
    Z.of_nat (instances_on (t_instances (cp_db s)) (nn_ID n)) < nd_Slots row.
Proof using Hl.
  intros Hok. unfold BestNode, do_, BestNode_row, select, sql, catch. unfold mbind, CpM_bind. cbn.
  destruct (cp_fault ("acquire" :: _)); [done|]. cbn.
  destruct (cp_fault ("BestNode" :: _)); [done|]. cbn.
  match goal with |- context [merge_sort ?R ?l] => pose proof (merge_sort_Permutation R l) as Hp;
    destruct (merge_sort R l) as [|b rest] eqn:Em end; [done|]. cbn.
  destruct (parse_addr_port _); [|done]. cbn. intros [= <-]. cbn [nn_ID].
  assert (b ∈ filter (with_room (cp_db s)) (map_to_list (t_nodes (cp_db s))).*2) as Hb.
  { rewrite <-(cp_rows_perm ("BestNode" :: "acquire" :: cp_log s)), <-Hp. left. }
  apply list_elem_of_filter in Hb as [Hroom ([k b'] & -> & Hk%elem_of_map_to_list)%list_elem_of_fmap].
  cbn [snd] in *. destruct (Hok k b' Hk) as [-> Hu]. exists b'. split; [done|]. split; [done|].
  unfold with_room in Hroom. destruct (Hok k b' Hk) as [E _]. rewrite E in Hroom. lia.
Qed.

(** A new row on the node, or nothing. *)
Lemma CreateInstance_spec ins node s :
  cp_db (CreateInstance ins node s).2 = cp_db s \/
  exists id i u, t_instances (cp_db s) !! id = None /\ uuid_in node = Some u /\ in_NodeID i = u /\
    cp_db (CreateInstance ins node s).2 = set_instances (<[id := i]> (t_instances (cp_db s))) (cp_db s).
Proof using Type.
  destruct (CreateInstance ins node s) as [r s'] eqn:E. cbn [snd]. apply doTX_spec in E.
  destruct r as [e|a]; [by left|]. destruct E as (s1 & s2 & Hs1 & E & Hs2). right. rewrite Hs2, <-Hs1.
  apply CpM_bind_inr in E as ([] & s3 & E1 & E2).
  assert (cp_db s2 = cp_db s3) as ->
    by (pose proof (keeps_get (ri_ID ins) s3) as Hk; cbn in E2; by rewrite E2 in Hk).
  unfold CreateInstance_row, sql in E1. destruct (cp_fault _); [done|]. cbn in E1.
  destruct (uuid_in (ri_ID ins)) as [id|]; [|done].
  destruct (uuid_in (rv_ID _)) as [fv|]; [|done].
  destruct (uuid_in node) as [nd|]; [|done].
  destruct (uuid_in (ru_ID _)) as [ow|]; [|done].
  destruct (t_instances (cp_db s1) !! id) as [x|] eqn:Eid; [done|].
  destruct (t_versions _ !! fv); [|done]. destruct (t_nodes _ !! nd); [|done].
  destruct (t_users _ !! ow); [|done]. destruct (bool_decide _); [|done].
  injection E1 as <-. eexists id, _, nd. split; [done|]. split; [done|]. split; [|reflexivity]. done.
Qed.

Lemma ApplyStatusReports_shrinks reports s :
  only_instances (cp_db s) (cp_db (ApplyStatusReports reports s).2) /\
  shrinks (t_instances (cp_db s)) (t_instances (cp_db (ApplyStatusReports reports s).2)).
Proof using Type.
  destruct (ApplyStatusReports reports s) as [r s'] eqn:E. cbn [snd].
  destruct (Apply_outcome reports s r s' E) as [Ho [now Hn]]. split; [done|].
  assert (forall i id, in_NodeID (updated_row now reports id i) = in_NodeID i) as Hnode.
  { intros i id. unfold updated_row. clear. revert i.
    induction reports as [|x l IH]; intros i; [done|]. cbn. rewrite IH.
    by destruct (negb (is_removal x) && is_about id x). }
  assert (half_reported now reports (t_instances (cp_db s)) (t_instances (cp_db s')) ->
          shrinks (t_instances (cp_db s)) (t_instances (cp_db s'))) as Hh.
  { intros Hh id i'. rewrite (Hh id), fmap_Some. intros (i & Hi & ->). exists i. split; [done|apply Hnode]. }
  assert (reported now reports (t_instances (cp_db s)) (t_instances (cp_db s')) ->
          shrinks (t_instances (cp_db s)) (t_instances (cp_db s'))) as Hr.
  { intros Hr id i'. rewrite (Hr id). destruct (removed reports id); [done|].
    rewrite fmap_Some. intros (i & Hi & ->). exists i. split; [done|apply Hnode]. }
  destruct r as [e|u]; [|auto]. destruct Hn as [-> |[|]]; auto using shrinks_refl.
Qed.
(** ** Requests at the same time *)

Record server := mk_server { ss_cp : cp; ss_reqs : gmap nat (handler transport) }.

(** At most [k] requests for a new instance are served at a time.  They take
    turns call by call; status reports come in between. *)
Inductive server_step (k : nat) : server -> server -> Prop :=
| ss_request s R j user version orderedBy :
    R !! j = None -> (size R < k)%nat ->
    server_step k (mk_server s R)
      (mk_server s (<[j := RunFlavorVersion_srv user version orderedBy]> R))
| ss_call s R j X (m : CpM X) cont r s' :
    R !! j = Some (HCall m cont) -> m s = (r, s') ->
    server_step k (mk_server s R)
      (mk_server s' match r with inr x => <[j := cont x]> R | inl _ => delete j R end)
| ss_answer s R j r :
    R !! j = Some (HRet r) -> server_step k (mk_server s R) (mk_server s (delete j R))
| ss_reports s R reports :
    server_step k (mk_server s R)
      (mk_server (ApplyStatusReports (StatusReportToDomain <$> reports) s).2 R).

(** ** The part that a request plays *)

Inductive rphase := RIdle | RPicked (node : string) | RDone.
#[local] Instance rphase_eq_dec : EqDecision rphase.
Proof using Type. solve_decision. Defined.

(** The node has a free slot. *)
Definition room (d : db) (node : string) : Prop :=
  exists row, t_nodes d !! node = Some row /\ uuid_in node = Some node /\
    Z.of_nat (instances_on (t_instances d) node) < nd_Slots row.

(** At most one row is added, on this node. *)
Definition adds {X} (node : string) (m : CpM X) : Prop := forall s,
  cp_db (m s).2 = cp_db s \/
  exists id i u, t_instances (cp_db s) !! id = None /\ uuid_in node = Some u /\ in_NodeID i = u /\
    cp_db (m s).2 = set_instances (<[id := i]> (t_instances (cp_db s))) (cp_db s).

Definition picks {X} (nd : X -> string) (m : CpM X) : Prop :=
  keeps_db m /\ forall s x, nodes_ok (cp_db s) -> (m s).1 = inr x -> room (cp_db s) (nd x).

Fixpoint plays {A} (ph : rphase) (g : handler A) : Prop :=
  match g with
  | HRet _ => True
  | HCall m k =>
      (keeps_db m /\ forall x, plays ph (k x)) \/
      (ph = RIdle /\ exists nd, picks nd m /\ forall x, plays (RPicked (nd x)) (k x)) \/
      (exists node, ph = RPicked node /\ adds node m /\ forall x, plays RDone (k x))
  end.

Lemma RunFlavorVersion_plays user version orderedBy :
  plays RIdle (RunFlavorVersion_srv user version orderedBy).
Proof using Hl.
  cbn. right. left. split; [done|]. exists nn_ID. split.
  { split; [apply keeps_BestNode|]. intros s n Hok Hn. by apply BestNode_room. }
  intros n. left. split; [apply keeps_FlavorID|]. intros flavorID.
  left. split; [apply keeps_FlavorByID|]. intros fl.
  destruct (rf_DeletedAt fl); [done|]. destruct (List.find _ _) as [v|]; [|done]. cbn.
  left. split; [apply keeps_NewV7|]. intros id. left. split; [done|]. intros t1.
  left. split; [done|]. intros t2. right. right. exists (nn_ID n). split; [done|]. split; [|done].
  intros s. apply CreateInstance_spec.
Qed.

(** ** The invariant *)

Definition inflight (P : gmap nat rphase) (node : string) : nat := count_map (fun ph => ph = RPicked node) P.

Definition within (k : nat) (d : db) (P : gmap nat rphase) : Prop := forall node row,
  t_nodes d !! node = Some row ->
  Z.of_nat (instances_on (t_instances d) node) + Z.of_nat (inflight P node)
    <= nd_Slots row + Z.of_nat k - 1.

Record slots_ok (k : nat) (S : server) (P : gmap nat rphase) : Prop := {
  so_nodes : nodes_ok (cp_db (ss_cp S));
  so_dom j : is_Some (P !! j) <-> is_Some (ss_reqs S !! j);
  so_size : (size P <= k)%nat;
  so_plays j g ph : ss_reqs S !! j = Some g -> P !! j = Some ph -> plays ph g;
  so_standard j node : P !! j = Some (RPicked node) -> uuid_in node = Some node;
  so_within : within k (cp_db (ss_cp S)) P;
}.

Lemma inflight_delete P j node : (inflight (delete j P) node <= inflight P node)%nat.
Proof using Type.
  apply (count_map_mono (fun ph => ph = RPicked node)). intros i ph [_ Hi]%lookup_delete_Some. eauto.
Qed.

Lemma within_mono k d P d' P' :
  within k d P -> t_nodes d' = t_nodes d ->
  (forall node, (instances_on (t_instances d') node + inflight P' node <=
                 instances_on (t_instances d) node + inflight P node)%nat) -> within k d' P'.
Proof using Type. intros Hw En' Hle node row Hr. rewrite En' in Hr. specialize (Hw node row Hr). specialize (Hle node). lia. Qed.

(** A request ends. *)
Lemma slots_ok_end k s R P j s' :
  slots_ok k (mk_server s R) P -> t_nodes (cp_db s') = t_nodes (cp_db s) ->
  (forall node, (instances_on (t_instances (cp_db s')) node + inflight (delete j P) node <=
     instances_on (t_instances (cp_db s)) node + inflight P node)%nat) ->
  slots_ok k (mk_server s' (delete j R)) (delete j P).
Proof using Type.
  intros [H1 H2 H3 H4 H5 H6] En' Hle. split; cbn [ss_cp ss_reqs] in *.
  - unfold nodes_ok. by rewrite En'.
  - intros i. destruct (decide (i = j)) as [-> |Hne].
    + rewrite !lookup_delete_eq. split; intros [x Hx]; done.
    + rewrite !lookup_delete_ne by done. apply H2.
  - etrans; [|exact H3]. destruct (P !! j) as [x|] eqn:Ex.
    + rewrite map_size_delete_Some by eauto. lia.
    + by rewrite delete_id.
  - intros i g ph [_ Hg]%lookup_delete_Some [_ Hp]%lookup_delete_Some. by eapply H4.
  - intros i node [_ Hp]%lookup_delete_Some. by eapply H5.
  - by eapply within_mono.
Qed.

(** A request goes on in another phase. *)
Lemma slots_ok_next k s R P j s' g ph ph' :
  slots_ok k (mk_server s R) P -> P !! j = Some ph -> t_nodes (cp_db s') = t_nodes (cp_db s) ->
  plays ph' g -> (forall node, ph' = RPicked node -> uuid_in node = Some node) ->
  within k (cp_db s') (<[j := ph']> P) ->
  slots_ok k (mk_server s' (<[j := g]> R)) (<[j := ph']> P).
Proof using Type.
  intros [H1 H2 H3 H4 H5 H6] Hj En' Hg Hst Hw. split; cbn [ss_cp ss_reqs] in *.
  - unfold nodes_ok. by rewrite En'.
  - intros i. destruct (decide (i = j)) as [-> |Hne].
    + rewrite !lookup_insert_eq. split; eauto.
    + rewrite !lookup_insert_ne by done. apply H2.
  - by rewrite map_size_insert_Some by eauto.
  - intros i g' q Hi Hq. destruct (decide (i = j)) as [-> |Hne].
    + rewrite lookup_insert_eq in Hi. rewrite lookup_insert_eq in Hq. by simplify_eq.
    + rewrite lookup_insert_ne in Hi by done. rewrite lookup_insert_ne in Hq by done. by eapply H4.
  - intros i node [[<- ->]|[_ Hi]]%lookup_insert_Some; [by apply Hst|by eapply H5].
  - exact Hw.
Qed.

Lemma inflight_keep P j ph node : P !! j = Some ph -> inflight (<[j := ph]> P) node = inflight P node.
Proof using Type. intros Hj. by rewrite insert_id. Qed.

(** A slot is found: nobody else counts for it more than once. *)
Lemma within_pick k d P j ph node :
  within k d P -> (size P <= k)%nat -> P !! j = Some ph -> (forall n, ph <> RPicked n) -> room d node ->
  within k d (<[j := RPicked node]> P).
Proof using Type.
  intros Hw Hk Hj Hph (row & Hrow & _ & Hroom) n r Hr. specialize (Hw n r Hr).
  pose proof (count_map_replace (fun ph => ph = RPicked n) P j ph (RPicked node) Hj) as Hc.
  fold (inflight (<[j := RPicked node]> P) n) (inflight P n) in Hc. unfold counted in Hc.
  rewrite (decide_False (P := ph = RPicked n)) in Hc by apply Hph.
  destruct (decide (RPicked node = RPicked n)) as [[= <-]|Hne]; [|lia].
  assert (r = row) as -> by congruence.
  pose proof (count_map_size (fun ph => ph = RPicked node) (<[j := RPicked node]> P)) as Hs.
  rewrite map_size_insert_Some in Hs by eauto. fold (inflight (<[j := RPicked node]> P) node) in Hs. lia.
Qed.

(** An instance is created by a request that had found the slot. *)
Lemma within_add d P j node id i P' :
  P !! j = Some (RPicked node) -> t_instances d !! id = None -> in_NodeID i = node ->
  P' = <[j := RDone]> P \/ P' = delete j P ->
  forall n, (instances_on (<[id := i]> (t_instances d)) n + inflight P' n <=
             instances_on (t_instances d) n + inflight P n)%nat.
Proof using Type.
  intros Hj Hid Hi HP' n.
  assert (instances_on (<[id := i]> (t_instances d)) n =
    counted (fun x => in_NodeID x = n) i + instances_on (t_instances d) n)%nat as Hc
    by by apply count_map_insert.
  assert ((inflight P' n + counted (fun x => in_NodeID x = n) i <= inflight P n)%nat) as Hp; [|lia].
  unfold counted. destruct HP' as [-> | ->].
  - pose proof (count_map_replace (fun ph => ph = RPicked n) P j _ RDone Hj) as Hr.
    fold (inflight (<[j := RDone]> P) n) (inflight P n) in Hr. unfold counted in Hr.
    repeat case_decide; simplify_eq; lia.
  - pose proof (count_map_delete (fun ph => ph = RPicked n) P j _ Hj) as Hr.
    fold (inflight (delete j P) n) (inflight P n) in Hr. unfold counted in Hr.
    repeat case_decide; simplify_eq; lia.
Qed.

(** One call of a request. *)
Lemma slots_ok_call k s R P j X (m : CpM X) cont r s' :
  slots_ok k (mk_server s R) P -> R !! j = Some (HCall m cont) -> m s = (r, s') ->
  exists P', slots_ok k (mk_server s' match r with inr x => <[j := cont x]> R | inl _ => delete j R end) P'.
Proof using Hl.
  intros Hok Hj Em. pose proof Hok as [H1 H2 H3 H4 H5 H6]. cbn [ss_cp ss_reqs] in *.
  destruct (proj2 (H2 j)) as [ph Hph]; [by eauto|]. pose proof (H4 j _ ph Hj Hph) as Hpl. cbn in Hpl.
  assert (forall Y (f : CpM Y), keeps_db f -> forall r' s1, f s = (r', s1) -> cp_db s1 = cp_db s) as Hkeep.
  { intros Y f Hf r' s1 E. specialize (Hf s). by rewrite E in Hf. }
  assert (cp_db s' = cp_db s -> slots_ok k (mk_server s' (delete j R)) (delete j P)) as Hend.
  { intros Hd. apply (slots_ok_end k s); [done|by rewrite Hd|]. intros n. rewrite Hd.
    pose proof (inflight_delete P j n). lia. }
  destruct Hpl as [[Hk Hx]|[(-> & nd & [Hk Hroom] & Hx)|(node & -> & Hadd & Hx)]].
  - pose proof (Hkeep _ m Hk r s' Em) as Hd. destruct r as [e|x]; [by eauto|].
    exists (<[j := ph]> P). apply (slots_ok_next k s R P j s' _ ph ph); [done..|by rewrite Hd|apply Hx| |].
    + intros node ->. by eapply H5.
    + rewrite insert_id by done. by rewrite Hd.
  - pose proof (Hkeep _ m Hk r s' Em) as Hd. destruct r as [e|x]; [by eauto|].
    pose proof (Hroom s x H1 ltac:(by rewrite Em)) as Hr. exists (<[j := RPicked (nd x)]> P).
    apply (slots_ok_next k s R P j s' _ RIdle); [done..|by rewrite Hd|apply Hx| |].
    + intros node [= <-]. by destruct Hr as (row & _ & Hu & _).
    + rewrite Hd. by apply (within_pick k _ P j RIdle).
  - specialize (Hadd s). rewrite Em in Hadd. cbn [snd] in Hadd.
    destruct Hadd as [Hd|(id & i & u & Hid & Hu & Hi & Hd)].
    + destruct r as [e|x]; [by eauto|]. exists (<[j := RDone]> P).
      apply (slots_ok_next k s R P j s' _ (RPicked node)); [done..|by rewrite Hd|apply Hx|done|].
      rewrite Hd. eapply within_mono; [exact H6|done|]. intros n.
      pose proof (count_map_replace (fun ph => ph = RPicked n) P j _ RDone Hph) as Hr.
      fold (inflight (<[j := RDone]> P) n) (inflight P n) in Hr. unfold counted in Hr.
      repeat case_decide; simplify_eq; lia.
    + assert (u = node) as -> by (rewrite (H5 j node Hph) in Hu; congruence).
      pose proof (within_add (cp_db s) P j node id i) as Hw.
      assert (t_nodes (cp_db s') = t_nodes (cp_db s)) as Hn by (by rewrite Hd).
      assert (t_instances (cp_db s') = <[id := i]> (t_instances (cp_db s))) as Ht by (by rewrite Hd).
      destruct r as [e|x]; eexists.
      * apply (slots_ok_end k s); [done..|]. rewrite Ht. by apply Hw; [..|right].
      * apply (slots_ok_next k s R P j s' _ (RPicked node) RDone); [done..|apply Hx|done|].
        eapply within_mono; [exact H6|done|]. rewrite Ht. by apply Hw; [..|left].
Qed.

Lemma slots_ok_step k S S' P :
  server_step k S S' -> slots_ok k S P -> exists P', slots_ok k S' P'.
Proof using Hl.
  intros Hst Hok. destruct Hst as [s R j user version orderedBy Hj Hsz|s R j X m cont r s' Hj Em
    |s R j r Hj|s R reports].
  - pose proof Hok as [H1 H2 H3 H4 H5 H6]. cbn [ss_cp ss_reqs] in *.
    assert (P !! j = None) as HP by (apply eq_None_not_Some; rewrite H2, Hj; by intros []).
    exists (<[j := RIdle]> P). split; cbn [ss_cp ss_reqs]; [done|..].
    + intros i. destruct (decide (i = j)) as [-> |Hne].
      * rewrite !lookup_insert_eq. split; eauto.
      * rewrite !lookup_insert_ne by done. apply H2.
    + rewrite map_size_insert_None by done.
      assert (size P = size R) as ->; [|lia].
      rewrite <-(size_dom P), <-(size_dom R). f_equal. apply set_eq. intros i.
      rewrite !elem_of_dom. apply H2.
    + intros i g ph Hg Hp. destruct (decide (i = j)) as [-> |Hne].
      * rewrite lookup_insert_eq in Hg. rewrite lookup_insert_eq in Hp. simplify_eq. apply RunFlavorVersion_plays.
      * rewrite lookup_insert_ne in Hg by done. rewrite lookup_insert_ne in Hp by done. by eapply H4.
    + intros i node [[_ [=]]|[_ Hi]]%lookup_insert_Some. by eapply H5.
    + eapply within_mono; [exact H6|done|]. intros n. unfold inflight.
      rewrite count_map_insert by done. unfold counted. rewrite decide_False by done. lia.
  - by eapply slots_ok_call.
  - exists (delete j P). apply (slots_ok_end k s); [done..|]. intros n.
    pose proof (inflight_delete P j n). lia.
  - exists P. destruct Hok as [H1 H2 H3 H4 H5 H6]. cbn [ss_cp ss_reqs] in *.
    destruct (ApplyStatusReports_shrinks (StatusReportToDomain <$> reports) s) as [Ho Hs].
    set (s' := (ApplyStatusReports _ s).2) in *.
    assert (t_nodes (cp_db s') = t_nodes (cp_db s)) as Hn by (by rewrite Ho).
    split; cbn [ss_cp ss_reqs]; [|done..|].
    + unfold nodes_ok. by rewrite Hn.
    + eapply within_mono; [exact H6|done|]. intros n.
      pose proof (instances_on_shrinks n _ _ Hs). lia.
Qed.

(** C17: if at most [k] requests for a new instance are served at the same time,
    then in every state that is reached, with status reports coming in between,
    a node has at most [k - 1] instances more than it has slots; requests that are
    served one at a time never exceed them. *)
Theorem slots_bounded (k : nat) (s0 : cp) (S : server) (node : string) (row : node_row) :
  (0 < k)%nat -> nodes_ok (cp_db s0) ->
  (forall n r, t_nodes (cp_db s0) !! n = Some r ->
     Z.of_nat (instances_on (t_instances (cp_db s0)) n) <= nd_Slots r) ->
  rtc (server_step k) (mk_server s0 ∅) S ->
  t_nodes (cp_db (ss_cp S)) !! node = Some row ->
  Z.of_nat (instances_on (t_instances (cp_db (ss_cp S))) node) <= nd_Slots row + Z.of_nat k - 1.
Proof using Hl.
  intros Hk Hn H0 Hsteps Hrow.
  assert (exists P, slots_ok k S P) as [P [_ _ _ _ _ Hw]].
  { refine (rtc_preserves (server_step k) (fun S => exists P, slots_ok k S P) _ _ _ Hsteps _).
    - intros x y Hst [P HP]. by eapply slots_ok_step.
    - exists ∅. split; cbn [ss_cp ss_reqs]; [done|..].
      + intros j. rewrite !lookup_empty. done.
      + rewrite map_size_empty. lia.
      + intros j g ph. by rewrite lookup_empty.
      + intros j n. by rewrite lookup_empty.
      + intros n r Hr. specialize (H0 n r Hr). unfold inflight. rewrite count_map_empty. lia. }
  specialize (Hw node row Hrow). lia.
Qed.
End slots.

(** ** Two requests, one slot *)

(** The next call of a request, if it has one. *)
Definition turn {En : CpEnv} (S : server) (j : nat) : server :=
  match ss_reqs S !! j with
  | Some (HCall m cont) =>
      let (r, s') := m (ss_cp S) in
      mk_server s' match r with inr x => <[j := cont x]> (ss_reqs S) | inl _ => delete j (ss_reqs S) end
  | Some (HRet _) => mk_server (ss_cp S) (delete j (ss_reqs S))
  | None => S
  end.

Lemma turns_steps {En : CpEnv} k js : forall S, rtc (server_step k) S (fold_left turn js S).
Proof.
  induction js as [|j js IH]; intros S; [done|]. cbn. etrans; [|apply IH].
  unfold turn. destruct S as [s R]. cbn [ss_cp ss_reqs]. destruct (R !! j) as [[r|X m cont]|] eqn:Ej; [..|done].
  - apply rtc_once. by eapply ss_answer.
  - destruct (m s) as [r s'] eqn:Em. apply rtc_once. by eapply ss_call.
Qed.

Definition demo_requests : server :=
  mk_server (demo_cp 1 []) (<[2%nat := RunFlavorVersion_srv "u" "v" ""]>
    (<[1%nat := RunFlavorVersion_srv "u" "v" ""]> ∅)).

(** Both requests look for a node before either creates its instance. *)
Definition demo_race : server := fold_left turn [1; 2; 1; 1; 1; 1; 1; 1; 2; 2; 2; 2; 2; 2]%nat demo_requests.

Lemma demo_race_reached : rtc (server_step 2) (mk_server (demo_cp 1 []) ∅) demo_race.
Proof.
  eapply rtc_l; [apply (ss_request 2 _ _ 1 "u" "v" ""); [done|rewrite map_size_empty; lia]|].
  eapply rtc_l; [apply (ss_request 2 _ _ 2 "u" "v" "")|apply turns_steps].
  - by rewrite lookup_insert_ne.
  - rewrite map_size_insert_None by done. rewrite map_size_empty. lia.
Qed.

Lemma demo_nodes_ok : nodes_ok (demo_db 1 []).
Proof. intros k n Hk. cbn in Hk. apply lookup_singleton_Some in Hk as [<- <-]. done. Qed.

Lemma slots_bounded_witness :
  exists S, rtc (server_step 2) (mk_server (demo_cp 1 []) ∅) S /\
    instances_on (t_instances (cp_db (ss_cp S))) "n" = 2%nat /\ nd_Slots (demo_node 1) = 1 /\
    Z.of_nat (instances_on (t_instances (cp_db (ss_cp S))) "n") <= nd_Slots (demo_node 1) + Z.of_nat 2 - 1.
Proof.
  exists demo_race. split; [exact demo_race_reached|]. split; [vm_compute; reflexivity|]. split; [done|].
  apply (slots_bounded 2 (demo_cp 1 []) demo_race "n" (demo_node 1)).
  - lia.
  - exact demo_nodes_ok.
  - intros n r Hr. cbn in Hr. apply lookup_singleton_Some in Hr as [<- <-]. vm_compute. discriminate.
  - exact demo_race_reached.
  - vm_compute. reflexivity.
Defined.
