(* ===== verification/Goroutines.v ===== *)
(** * The goroutines of a round

    The reconciler handles every discovered instance in a goroutine of its own
    and waits for all of them.  This file runs them together, in every
    interleaving of their operations, and shows what becomes of an instance
    while those of others come and go. *)

From S2P Require Import Prelude Go Endian PortAlloc StatusStore Node Reconciler.

#[local] Open Scope Z_scope.

(** ** Running them together *)

Section concurrently.
Context {R : RandSource} {W : WorkloadService} {En : Env}.

(** The goroutines that have not ended. *)
Definition live {A} (gs : list (gor A)) : list nat :=
  omap (fun '(j, g) => match g with GDo _ _ => Some j | GRet _ => None end) (imap pair gs).

(** An operation of one of them. *)
Definition advance {A} (g : gor A) (n : node MemStore) : option (gor A * node MemStore) :=
  match g with
  | GRet a => Some (GRet a, n)
  | GDo o k => '(x, n') ← do_op o n; Some (k x, n')
  end.

(** [pick] chooses the next among those that have not ended; a number that is
    too large chooses the first.  [None]: a goroutine panics. *)
Fixpoint concurrently (pick : nat -> nat) (fuel : nat) (gs : list (gor unit)) (n : node MemStore)
    : option (node MemStore) :=
  match live gs with
  | [] => Some n
  | j0 :: _ =>
      match fuel with
      | O => None
      | S fuel =>
          let j := default j0 (live gs !! pick fuel) in
          g ← gs !! j;
          '(g', n') ← advance g n;
          concurrently pick fuel (<[j := g']> gs) n'
      end
  end.

(** A goroutine makes at most [d] operations. *)
Fixpoint bounded {A} (d : nat) (g : gor A) : Prop :=
  match g, d with
  | GRet _, _ => True
  | GDo _ _, O => False
  | GDo _ k, S d => forall x, bounded d (k x)
  end.

(** Creating an instance takes the most: eight operations until the workload is
    removed again, and three to count the attempt. *)
Definition reconcile_ops : nat := 11.

Lemma bounded_do {X A} d (o : pop X) (k : X -> gor A) : (forall x, bounded d (k x)) -> bounded (S d) (GDo o k).
Proof using Type. done. Qed.

Lemma reconcile_bounded cfg ins : bounded reconcile_ops (reconcile cfg ins).
Proof using Type.
  unfold reconcile, reconcile_ops, handleInstanceCreation, handleInstanceDeleting, handleInstanceRunning.
  destruct (ins_State ins);
    repeat first
      [ exact Logic.I
      | lazymatch goal with
        | |- bounded (S _) (GDo _ _) => apply bounded_do; intros ?
        | |- bounded _ (mbind _ (if ?b then _ else _)) => destruct b
        | |- bounded _ (mbind _ (match ?x with _ => _ end)) => destruct x
        | |- bounded _ (if ?b then _ else _) => destruct b
        | |- bounded _ (match ?x with _ => _ end) => destruct x
        end
      | progress cbn [mbind gor_bind call mret gor_ret] ].
Qed.

(** [r.reconcile] for every instance, and [wg.Wait]. *)
Definition reconcile_instances (cfg : reconcilerConfig) (pick : nat -> nat) (l : list Instance)
    (n : node MemStore) : option (node MemStore) :=
  concurrently pick (reconcile_ops * length l) (reconcile cfg <$> l) n.

(** ** One goroutine amid the others *)

Context {RL : RandLaws R} (is_cp : string -> bool).

(** The node is in order and hands out real ports. *)
Definition node_fit (n : node MemStore) : Prop := node_ok is_cp n /\ 0 < portMin (n_alloc n).

(** What the goroutine of [id] may see the others do. *)
Definition rely (id : string) (n n' : node MemStore) : Prop := untouched id n n' /\ node_fit n'.

(** However the others interfere before each operation, [Q] holds at the end. *)
Fixpoint amid {A} (id : string) (g : gor A) (Q : A -> node MemStore -> Prop) (n : node MemStore) : Prop :=
  match g with
  | GRet a => Q a n
  | GDo o k => forall n0 x n1, rely id n n0 -> do_op o n0 = Some (x, n1) -> amid id (k x) Q n1
  end.

Definition stable {A} (id : string) (Q : A -> node MemStore -> Prop) : Prop :=
  forall a n n', rely id n n' -> Q a n -> Q a n'.

Lemma amid_rely {A} id (g : gor A) Q n n' :
  stable id Q -> rely id n n' -> amid id g Q n -> amid id g Q n'.
Proof using Type.
  intros Hs Hr. destruct g as [a|X o k]; cbn; [by apply Hs|]. intros H n0 x n1 [Hu Hn] E.
  eapply H; [|exact E]. split; [|done]. eapply untouched_trans; [apply Hr|exact Hu].
Qed.

Lemma amid_bind {A B} id (g : gor A) (f : A -> gor B) Q n :
  amid id g (fun a n' => amid id (f a) Q n') n -> amid id (g ≫= f) Q n.
Proof using Type.
  revert n. induction g as [a|X o k IH]; intros n; cbn; [done|]. intros H n0 x n1 Hr E. eauto.
Qed.

Lemma amid_mono {A} id (g : gor A) (P Q : A -> node MemStore -> Prop) n :
  (forall a n', P a n' -> Q a n') -> amid id g P n -> amid id g Q n.
Proof using Type.
  intros HPQ. revert n. induction g as [a|X o k IH]; intros n; cbn; [apply HPQ|]. eauto.
Qed.

Lemma op_range {X} (o : pop X) (n : node MemStore) x n' :
  do_op o n = Some (x, n') -> portMin (n_alloc n') = portMin (n_alloc n).
Proof using Type.
  destruct o; cbn [do_op]; try discriminate 1; try by intros [= _ <-].
  - destruct (store_update _ _ _); [|done]. cbn. by intros [= _ <-].
  - pose proof (allocate_loop_range maxTries (n_alloc n)) as [Hm _]. fold Allocate in Hm.
    destruct (Allocate (n_alloc n)) as [[p|msg|] a]; [..|done]; by intros [= _ <-].
  - destruct (sv_checkpoint _); [|done]. cbn. by intros [= _ <-].
Qed.

(** *** All of them *)

Lemma live_lookup {A} (gs : list (gor A)) j :
  j ∈ live gs <-> exists X (o : pop X) k, gs !! j = Some (GDo o k).
Proof using Type.
  unfold live. rewrite list_elem_of_omap. split.
  - intros ([j' g] & (i & g' & E & Hi)%elem_of_lookup_imap & Hg). injection E as -> ->.
    destruct g' as [|X o k]; [done|]. injection Hg as ->. by exists X, o, k.
  - intros (X & o & k & Hj). exists (j, GDo o k). split; [|done]. apply elem_of_lookup_imap. eauto.
Qed.

(** Goroutines of different instances, each of which follows the outline. *)
Record crew (ids : list string) (gs : list (gor unit)) (ds : list nat) : Prop := {
  cr_ids : NoDup ids;
  cr_cp : forall id, id ∈ ids -> is_cp id = false;
  cr_follows : Forall2 (fun id g => exists ph, follows id ph g) ids gs;
  cr_bounded : Forall2 bounded ds gs;
}.

Lemma crew_step ids gs ds j id X (o : pop X) k n :
  crew ids gs ds -> node_fit n -> gs !! j = Some (GDo o k) -> ids !! j = Some id ->
  exists x n1 ds', do_op o n = Some (x, n1) /\ node_fit n1 /\
    (forall i, i <> id -> untouched i n n1) /\ crew ids (<[j := k x]> gs) ds' /\
    sum_list ds = S (sum_list ds').
Proof using RL.
  intros [H1 H2 H3 H4] [Hok Hm] Hj Hid.
  destruct (Forall2_lookup_lr _ _ _ _ _ _ H3 Hid Hj) as [ph Hf].
  destruct (Forall2_lookup_r _ _ _ _ _ H4 Hj) as (d & Hd & Hb). cbn in Hb. destruct d as [|d]; [done|].
  destruct (op_frame is_cp id o k ph n Hf) as (x & n1 & ph' & E & Hok1 & Hu & Hf'); [|done|].
  { by apply H2, (list_elem_of_lookup_2 _ j). }
  exists x, n1, (<[j := d]> ds). split; [done|]. split; [by split; [|rewrite (op_range _ _ _ _ E)]|].
  split; [done|]. split; [split; [done..| |]|].
  - rewrite <-(list_insert_id ids j id) by done. apply Forall2_insert; [done|eauto].
  - apply Forall2_insert; [done|apply Hb].
  - clear -Hd. rewrite <-(list_insert_id ds j (S d) Hd) at 1. apply lookup_lt_Some in Hd.
    rewrite !insert_take_drop, !sum_list_with_app by done. cbn [sum_list_with]. unfold Datatypes.id. lia.
Qed.

Lemma concurrently_spec pick fuel : forall ids gs ds n,
  crew ids gs ds -> (sum_list ds <= fuel)%nat -> node_fit n ->
  exists n', concurrently pick fuel gs n = Some n' /\ node_fit n' /\
    (forall i, i ∉ ids -> untouched i n n') /\
    forall j id g Q, ids !! j = Some id -> gs !! j = Some g -> stable id Q -> amid id g Q n -> Q tt n'.
Proof using RL.
  assert (forall (gs : list (gor unit)) n, live gs = [] -> forall j id g (Q : unit -> node MemStore -> Prop),
    gs !! j = Some g -> amid id g Q n -> Q tt n) as Hdone.
  { intros gs n Hl j id g Q Hj Ha. destruct g as [[]|X o k]; [exact Ha|].
    assert (j ∈ live gs) as Hin by (apply live_lookup; eauto). by rewrite Hl in Hin; apply elem_of_nil in Hin. }
  induction fuel as [|fuel IH]; intros ids gs ds n Hc Hle Hn; cbn [concurrently];
    destruct (live gs) as [|j0 js] eqn:El; try by (exists n; do 2 (split; [done|]); split; [intros; by apply untouched_same|];
      intros j id g Q _ Hg _; apply (Hdone gs n El j)).
  - destruct (live_lookup gs j0) as [(X & o & k & Hj) _]; [rewrite El; left|]. destruct Hc as [_ _ _ H4].
    destruct (Forall2_lookup_r _ _ _ _ _ H4 Hj) as (d & Hd & Hb).
    assert (d <= sum_list ds)%nat.
    { by apply (sum_list_with_in d id ds), (list_elem_of_lookup_2 _ j0). }
    by destruct d; [|lia].
  - set (j := default j0 ((j0 :: js) !! pick fuel)).
    assert (j ∈ live gs) as (X & o & k & Hj)%live_lookup.
    { rewrite El. unfold j. destruct ((j0 :: js) !! pick fuel) as [j'|] eqn:Ej; cbn; [|left].
      by eapply list_elem_of_lookup_2. }
    destruct (Forall2_lookup_r _ _ _ _ _ (cr_follows _ _ _ Hc) Hj) as (id & Hid & _).
    destruct (crew_step ids gs ds j id X o k n Hc Hn Hj Hid) as (x & n1 & ds' & E & Hn1 & Hu & Hc' & Hs).
    rewrite Hj. cbn [mbind option_bind advance]. rewrite E. cbn [mbind option_bind].
    destruct (IH ids _ ds' n1 Hc') as (n' & En' & Hn' & Hun & HQ); [lia|done|].
    exists n'. split; [exact En'|]. split; [done|]. split.
    { intros i Hi. eapply untouched_trans; [apply Hu|by apply Hun]. intros ->.
      by apply Hi, (list_elem_of_lookup_2 _ j). }
    intros j' id' g Q Hid' Hg Hst Ha. destruct (decide (j' = j)) as [-> |Hne].
    + rewrite Hg in Hj. injection Hj as ->. rewrite Hid in Hid'. injection Hid' as <-.
      eapply (HQ j id (k x) Q); [done| |done|].
      { apply list_lookup_insert_eq. by eapply lookup_lt_Some. }
      cbn in Ha. eapply Ha; [|exact E]. split; [by apply untouched_same|done].
    + eapply (HQ j' id' g Q); [done| |done|]; [by rewrite list_lookup_insert_ne|].
      eapply amid_rely; [done| |exact Ha]. split; [|done]. apply Hu. intros ->. apply Hne.
      eapply NoDup_lookup; [apply (cr_ids _ _ _ Hc)|done..].
Qed.

(** Every schedule ends without a panic, and an instance fares in it as it does
    amid the others. *)
Lemma reconcile_instances_spec cfg pick l n :
  node_fit n -> NoDup (ins_Id <$> l) -> (forall ins, ins ∈ l -> is_cp (ins_Id ins) = false) ->
  exists n', reconcile_instances cfg pick l n = Some n' /\ node_fit n' /\
    (forall i, i ∉ (ins_Id <$> l) -> untouched i n n') /\
    forall ins Q, ins ∈ l -> stable (ins_Id ins) Q ->
      amid (ins_Id ins) (reconcile cfg ins) Q n -> Q tt n'.
Proof using RL.
  intros Hn Hnd Hcp.
  destruct (concurrently_spec pick (reconcile_ops * length l) (ins_Id <$> l) (reconcile cfg <$> l)
    (replicate (length l) reconcile_ops) n) as (n' & E & Hn' & Hu & HQ); [| |done|].
  - split; [done| | |].
    + intros id (ins & -> & Hi)%list_elem_of_fmap. by apply Hcp.
    + clear. induction l as [|ins l IH]; constructor; [exists Idle; apply reconcile_follows|exact IH].
    + clear. induction l as [|ins l IH]; constructor; [apply reconcile_bounded|exact IH].
  - rewrite sum_list_replicate. lia.
  - exists n'. split; [exact E|]. split; [done|]. split; [done|].
    intros ins Q (j & Hj)%list_elem_of_lookup_1 Hs Ha. eapply (HQ j _ _ Q); [| |done|exact Ha];
      by rewrite list_lookup_fmap, Hj.
Qed.

(** ** What becomes of an instance *)

(** An instance that is being created, and has been tried [k] times. *)
Definition trying (k : nat) (id : string) (n : node MemStore) : Prop :=
  attempts_of n id = Z.of_nat k /\
  forall w, recorded (table n) id = Some w -> ws_State w = WorkloadStateCreating.

(** One that runs on a port. *)
Definition started (p : Z) (id : string) (n : node MemStore) : Prop :=
  0 < p < 2 ^ 16 /\ running_on (table n) id p /\ 0 <= attempts_of n id < 5.

(** One that is not tried again. *)
Definition exhausted (id : string) (n : node MemStore) : Prop := 5 <= attempts_of n id.

Definition recorded_as (state id : string) (n : node MemStore) : Prop :=
  exists p, recorded (table n) id = Some (mk_ws state p).

Lemma trying_rely k id n n' : rely id n n' -> trying k id n -> trying k id n'.
Proof using Type. intros [(Hr & Ha & _) _]. unfold trying. by rewrite Hr, Ha. Qed.

Lemma started_rely p id n n' : rely id n n' -> started p id n -> started p id n'.
Proof using Type. intros [(Hr & Ha & _) _]. unfold started, running_on. by rewrite Hr, Ha. Qed.

Lemma exhausted_rely id n n' : rely id n n' -> exhausted id n -> exhausted id n'.
Proof using Type. intros [(_ & Ha & _) _]. unfold exhausted. by rewrite Ha. Qed.

(** What is recorded of it is still the same. *)
Definition unchanged (id : string) (n n' : node MemStore) : Prop :=
  recorded (table n') id = recorded (table n) id /\ attempts_of n' id = attempts_of n id.

Lemma unchanged_rely n0 id n n' : rely id n n' -> unchanged id n0 n -> unchanged id n0 n'.
Proof using Type. intros [(Hr & Ha & _) _]. unfold unchanged. by rewrite Hr, Ha. Qed.

Lemma recorded_as_rely state id n n' : rely id n n' -> recorded_as state id n -> recorded_as state id n'.
Proof using Type. intros [(Hr & _) _]. unfold recorded_as. by rewrite Hr. Qed.

(** An update by the goroutine itself. *)
Lemma own_update id nw n0 n1 x :
  node_fit n0 -> is_cp id = false -> do_op (PUpdate id (mk_sv None (Some nw))) n0 = Some (x, n1) ->
  recorded (table n1) id = Some (updated (table n0) id nw) /\ attempts_of n1 id = attempts_of n0 id.
Proof using Type.
  intros [Hok _] Hi E. destruct (node_ok_update is_cp n0 id nw Hok Hi) as (n1' & E' & _ & Er & Ea & _).
  rewrite E' in E. injection E as _ <-. split; [exact Er|]. unfold attempts_of. by rewrite Ea.
Qed.

Lemma own_state id state n0 n1 x :
  state <> "" -> node_fit n0 -> is_cp id = false ->
  do_op (PUpdate id (workload_state state)) n0 = Some (x, n1) ->
  recorded_as state id n1 /\ attempts_of n1 id = attempts_of n0 id.
Proof using Type.
  intros Hs Hn Hi E. apply own_update in E as [Er Ea]; [|done..]. split; [|exact Ea].
  exists (ws_Port (updated (table n0) id (mk_ws state 0))). rewrite Er. f_equal.
  destruct (updated_state (table n0) id state Hs) as [Hst _]. by destruct (updated _ _ _); cbn in *; subst.
Qed.

Lemma amid_do {X A} id (o : pop X) (k : X -> gor A) Q n :
  (forall n0 x n1, rely id n n0 -> do_op o n0 = Some (x, n1) -> amid id (k x) Q n1) ->
  amid id (GDo o k) Q n.
Proof using Type. done. Qed.

(** What an attempt to create the instance leaves. *)
Definition attempted (k : nat) (id : string) (err : option create_error) (n : node MemStore) : Prop :=
  match err with
  | None => exists p, started p id n
  | Some (errOther _) => trying k id n
  | Some errMaxAttemptsReached => False
  end.

Context (cfg : reconcilerConfig) (ins : Instance) (Hins : is_cp (ins_Id ins) = false).

Lemma creation_amid k n :
  (k < 5)%nat -> trying k (ins_Id ins) n ->
  amid (ins_Id ins) (handleInstanceCreation cfg ins) (attempted k (ins_Id ins)) n.
Proof using RL Hins.
  intros Hk Ht. unfold handleInstanceCreation. set (id := ins_Id ins) in *. cbn [mbind gor_bind call].
  apply amid_do. intros n0 x n1 Hr0 E. apply (trying_rely _ _ _ _ Hr0) in Ht. cbn in E. injection E as <- <-.
  fold (attempts_of n0 id). rewrite (proj2 (Z.leb_gt _ _)) by (destruct Ht as [-> _]; lia). clear Hr0.
  apply amid_do. intros n1 x n2 Hr1 E. apply (trying_rely _ _ _ _ Hr1) in Ht. cbn [do_op] in E. injection E as <- <-.
  pose proof (creating_not_skipped ins n1 (proj2 Ht)) as Hs. fold id in Hs. cbn [store_get MemStore_store] in Hs.
  cbv zeta. rewrite Hs. clear Hs Hr1.
  apply amid_do. intros n2 x n3 Hr2 E. apply (trying_rely _ _ _ _ Hr2) in Ht.
  apply own_update in E as [Er3 Ea3]; [|apply Hr2|exact Hins].
  assert (trying k id n3) as Ht3.
  { split; [rewrite Ea3; apply Ht|]. intros w. rewrite Er3. intros [= <-]. apply updated_creating. }
  assert (exists w, recorded (table n3) id = Some w) as Hw by eauto. clear Hr2 Er3 Ea3 Ht.
  apply amid_do. intros n4 x' n5 Hr4 E. apply (trying_rely _ _ _ _ Hr4) in Ht3.
  destruct Hr4 as [(Er4 & _) [Hok4 Hm4]]. rewrite <-Er4 in Hw. clear Er4.
  destruct (node_ok_allocate is_cp n4 Hok4) as (r & a & E' & Hok5 & Hp). rewrite E' in E. injection E as <- <-.
  destruct r as [p|]; [|exact Ht3].
  assert (0 < p < 2 ^ 16) as Hp16 by (destruct Hp as [Hp _], Hok4 as [_ (H1 & H2 & _) _]; lia). clear Hp E'.
  apply amid_do. intros n6 y n7 Hr6 E. apply (trying_rely _ _ _ _ Hr6) in Ht3.
  destruct Hr6 as [(Er6 & _) Hn6].
  replace (recorded (table n4) id) with (recorded (table n6) id) in Hw by exact Er6. clear Er6.
  apply own_update in E as [Er7 Ea7]; [|done..]. destruct Hw as [w Hw].
  assert (recorded (table n7) id = Some (mk_ws WorkloadStateCreating p)) as Er.
  { rewrite Er7. unfold updated. rewrite Hw. unfold merge_workload. cbn.
    rewrite (proj2 Ht3 w Hw). by replace (p =? 0) with false by lia. }
  assert (trying k id n7) as Ht7.
  { split; [rewrite Ea7; apply Ht3|]. intros w'. rewrite Er. by intros [= <-]. }
  clear Hw Er7 Ea7 Ht3. apply amid_do. intros n8 ok n9 Hr8 E. apply (trying_rely _ _ _ _ Hr8) in Ht7.
  destruct Hr8 as [(Er8 & _) Hn8]. rewrite <-Er8 in Er. cbn in E. injection E as _ <-.
  destruct ok; cbn [mbind gor_bind].
  - apply amid_do. intros n10 z n11 Hr10 E. pose proof Hr10 as [(Er10 & _) Hn10].
    apply own_update in E as [Er11 Ea11]; [|done..].
    exists p. split; [done|]. split; [|rewrite Ea11; apply (trying_rely k id _ _ Hr10) in Ht7 as [-> _]; lia].
    unfold running_on. rewrite Er11. unfold updated.
    replace (recorded (table n10) id) with (recorded (table n8) id) by (symmetry; exact Er10). by rewrite Er.
  - apply amid_do. intros n10 z n11 Hr10 E. cbn in E. injection E as _ <-.
    apply amid_do. intros n12 z' n13 Hr12 E. cbn in E. injection E as _ <-.
    exact (trying_rely k id _ _ Hr12 (trying_rely k id _ _ Hr10 Ht7)).
Qed.

(** A round in which the instance is to be created. *)
Lemma turn_new n Q :
  ins_State ins = InstanceState_PENDING \/ ins_State ins = InstanceState_CREATING ->
  amid (ins_Id ins) (handleInstanceCreation cfg ins) (fun err => amid (ins_Id ins)
    match err with
    | None => mret tt
    | Some errMaxAttemptsReached => call (PAttempts (ins_Id ins));; mret tt
    | Some (errOther _) =>
        n ← call (PAttempts (ins_Id ins)); call (PSetAttempts (ins_Id ins) (n + 1));;
        call (PAttempts (ins_Id ins));; mret tt
    end Q) n ->
  amid (ins_Id ins) (reconcile cfg ins) Q n.
Proof using Type. intros Hnew Ha. apply amid_bind in Ha. unfold reconcile. by destruct Hnew as [-> | ->]. Qed.

(** It is tried once more, *)
Lemma turn_creation k n :
  (k < 5)%nat -> trying k (ins_Id ins) n ->
  ins_State ins = InstanceState_PENDING \/ ins_State ins = InstanceState_CREATING ->
  amid (ins_Id ins) (reconcile cfg ins)
    (fun _ n' => trying (k + 1) (ins_Id ins) n' \/ exists p, started p (ins_Id ins) n') n.
Proof using RL Hins.
  intros Hk Ht Hnew. apply turn_new; [done|]. eapply amid_mono; [|by apply (creation_amid k)].
  set (id := ins_Id ins). intros [[|msg]|] n'; cbn [attempted]; [done| |by right].
  intros H n0 x n1 Hr E. cbn in E. injection E as <- <-. apply (trying_rely _ _ _ _ Hr) in H.
  intros n2 [] n3 Hr2 E2. cbn in E2. injection E2 as <-. intros n4 x4 n5 Hr4 E4. cbn in E4. injection E4 as _ <-.
  left. eapply trying_rely; [exact Hr4|]. destruct Hr2 as [(Er2 & Ea2 & _) _], H as [Ha Hc].
  split; [|intros w Hw; apply Hc; rewrite <-Er2; exact Hw].
  unfold attempts_of in *. cbn. rewrite lookup_insert_eq. cbn. lia.
Qed.

(** not any more, *)
Lemma turn_exhausted n :
  exhausted (ins_Id ins) n ->
  ins_State ins = InstanceState_PENDING \/ ins_State ins = InstanceState_CREATING ->
  amid (ins_Id ins) (reconcile cfg ins)
    (fun _ n' => recorded_as WorkloadStateCreationFailed (ins_Id ins) n' /\ exhausted (ins_Id ins) n') n.
Proof using Hins.
  intros He Hnew. apply turn_new; [done|]. unfold handleInstanceCreation. set (id := ins_Id ins) in *.
  cbn [mbind gor_bind call]. apply amid_do. intros n0 x n1 Hr E. apply (exhausted_rely _ _ _ Hr) in He. cbn in E. injection E as <- <-.
  fold (attempts_of n0 id). rewrite (proj2 (Z.leb_le _ _) He).
  apply amid_do. intros n1 x n2 Hr1 E. apply (exhausted_rely _ _ _ Hr1) in He.
  apply own_state in E as [Hf Ea]; [|done|apply Hr1|exact Hins].
  intros n3 y n4 Hr3 E. cbn in E. injection E as _ <-. split; [by apply (recorded_as_rely _ _ _ _ Hr3)|].
  apply (exhausted_rely _ _ _ Hr3). unfold exhausted. by rewrite Ea.
Qed.

(** or something else than that it is being created is recorded of it already,
    and it stays as it is. *)
Lemma turn_skipped w n :
  recorded (table n) (ins_Id ins) = Some w -> ws_State w <> WorkloadStateCreating ->
  attempts_of n (ins_Id ins) < 5 ->
  ins_State ins = InstanceState_PENDING \/ ins_State ins = InstanceState_CREATING ->
  amid (ins_Id ins) (reconcile cfg ins) (fun _ => unchanged (ins_Id ins) n) n.
Proof using Hins.
  intros Hw Hc Ha Hnew. apply turn_new; [done|]. unfold handleInstanceCreation. set (id := ins_Id ins) in *.
  cbn [mbind gor_bind call]. apply amid_do. intros n0 x n1 Hr E.
  pose proof (unchanged_rely n _ _ _ Hr ltac:(done)) as Hu. cbn in E. injection E as <- <-.
  fold (attempts_of n0 id). rewrite (proj2 (Z.leb_gt _ _)) by (rewrite (proj2 Hu); exact Ha).
  apply amid_do. intros n1 x n2 Hr1 E. apply (unchanged_rely n _ _ _ Hr1) in Hu.
  cbn [do_op] in E. injection E as <- <-.
  pose proof (store_get_law id (n_store n1)) as Hg. cbn [store_get MemStore_store] in Hg. rewrite Hg.
  pose proof Hu as [Hrec _]. rewrite Hw in Hrec. unfold recorded, table in Hrec.
  destruct (store_table (n_store n1) !! id) as [v|] eqn:Ev; [|done]. cbn in Hrec. rewrite Hrec.
  rewrite (proj2 (String.eqb_neq _ _) Hc). exact Hu.
Qed.

(** A round in which the instance runs, or could not be created: it stays as it
    is or is recorded as deleted. *)
Lemma turn_over n :
  ins_State ins = InstanceState_RUNNING \/ ins_State ins = InstanceState_CREATION_FAILED ->
  amid (ins_Id ins) (reconcile cfg ins)
    (fun _ n' => unchanged (ins_Id ins) n n' \/ recorded_as WorkloadStateDeleted (ins_Id ins) n') n.
Proof using Hins.
  intros Hst. set (id := ins_Id ins) in *.
  assert (forall m, amid id (call (PUpdate id (workload_state WorkloadStateDeleted));; mret tt)
    (fun _ n' => unchanged id n n' \/ recorded_as WorkloadStateDeleted id n') m) as Hdel.
  { intros m n0 x n1 Hr E. right. by eapply own_state; [|apply Hr|exact Hins|exact E]. }
  unfold reconcile, handleInstanceRunning. fold id. destruct Hst as [-> | ->]; cbn [mbind gor_bind call].
  - apply amid_do. intros n0 x n1 Hr E. pose proof (unchanged_rely n _ _ _ Hr ltac:(done)) as Hu.
    cbn in E. injection E as _ <-. destruct x; [by left| |by left]. cbn [mbind gor_bind].
    apply amid_do. intros n2 x n3 Hr2 E. apply (unchanged_rely n _ _ _ Hr2) in Hu. cbn in E. injection E as _ <-.
    destruct x; [apply Hdel|apply Hdel|by left].
  - apply amid_do. intros n0 x n1 Hr E. pose proof (unchanged_rely n _ _ _ Hr ltac:(done)) as Hu.
    cbn in E. injection E as _ <-. destruct x; [apply Hdel|by left|by left].
Qed.
End concurrently.
