(* ===== verification/Cluster.v ===== *)
(** * The control plane and a node together

    One round of a node: it discovers its instances, reconciles them, reports
    what became of them and drops what is over ([tick] of
    [platformd/reconciler.go]).  This file composes the instance service of the
    control plane with the reconciler and shows that every round is a step of
    the life of an instance, whatever the container runtime does. *)

From stdpp Require Import sorting.
From S2P Require Import Prelude Go Endian PortAlloc StatusStore Node Reconciler Tick Goroutines.
From S2P Require Import CpDb CpFlavors CpSamples Instances Reports Pages.

#[local] Open Scope Z_scope.

(** ** A round *)

(** A number without a name is skipped, like [DELETED]. *)
Definition state_of_number (state : Z) : InstanceState :=
  if state =? 0 then InstanceState_PENDING
  else if state =? 1 then InstanceState_CREATING
  else if state =? 2 then InstanceState_RUNNING
  else if state =? 3 then InstanceState_DELETING
  else if state =? 5 then InstanceState_CREATION_FAILED
  else InstanceState_DELETED.

Definition received (t : transport) : Instance :=
  {| ins_Id := tr_Id t; ins_State := state_of_number (tr_State t);
     ins_FlavorVersionId := tr_FlavorVersionId t; ins_ChunkId := tr_ChunkId t;
     ins_ChunkName := tr_ChunkName t; ins_OrderedBy := tr_OrderedBy t;
     ins_ChunkCreatedAt := tr_ChunkCreatedAt t; ins_ChunkUpdatedAt := tr_ChunkUpdatedAt t;
     ins_FlavorName := tr_FlavorName t; ins_Version := tr_Version t; ins_OwnerId := tr_OwnerId t |}.

Section round.
Context {CE : CpEnv} {R : RandSource} {W : WorkloadService} {En : Env}.
Context (cfg : reconcilerConfig) (NodeID : string).

(** Calls of [StopWorkload], which the monitors beside the game servers make
    when nobody plays ([servermon/monitor.go]). *)
Fixpoint stop_all (ids : list string) (n : node MemStore) : option (node MemStore) :=
  match ids with
  | [] => Some n
  | id :: ids => '(_, n') ← run (StopWorkload id) n; stop_all ids n'
  end.

(** When they are handled: before the goroutines of a round, between them and
    the making of the reports, or between that and the clean-up. *)
Record stops := { st_before : list string; st_between : list string; st_late : list string }.

(** [order] is the order in which the view of the store is iterated, [pick] the
    schedule of the goroutines, [calls] the workloads that are stopped, and
    [meanwhile] what the control plane does for others while the node
    reconciles.  [None]: a goroutine panics. *)
Definition tick (order : list (string * Status) -> list (string * Status)) (pick : nat -> nat)
    (calls : stops) (meanwhile : cp -> cp) (s : cp) (n : node MemStore) : option (cp * node MemStore) :=
  n ← stop_all (st_before calls) n;
  match serve (DiscoverInstances_srv NodeID) s with
  | (inl _, s1) => Some (s1, n)
  | (inr l, s1) =>
      n ← reconcile_instances cfg pick (received <$> l) n;
      n1 ← stop_all (st_between calls) n;
      let statuses := order (map_to_list (View (n_store n1))) in
      let reports := tick_reports statuses (n_store n1) in
      n2 ← stop_all (st_late calls) n1;
      match serve (ReceiveInstanceStatusReports_srv reports) (meanwhile s1) with
      | (inl _, s2) => Some (s2, n2)
      | (inr _, s2) => Some (s2, with_store (tick_cleanup statuses (n_store n2)) n2)
      end
  end.

(** ** Discovery *)

Context {CL : CpLaws CE} {RL : RandLaws R}.

(** What the node is told of an instance. *)
Definition told (i : instance_row) (t : transport) : Prop :=
  tr_Id t = in_ID i /\ tr_State t = InstanceState_value (in_State i).

(** The rows of a node, joined, have the ids of its instances. *)
Lemma node_rows_spec (d : db) (h : list string) :
  instances_ok d ->
  let js := omap (join_instance d)
    (filter (fun i => in_NodeID i = NodeID) (cp_rows h (map_to_list (t_instances d)).*2)) in
  NoDup ((fun j => in_ID (j_i j)) <$> js) /\
  (forall j, j ∈ js -> t_instances d !! in_ID (j_i j) = Some (j_i j) /\ in_NodeID (j_i j) = NodeID) /\
  (forall id i, t_instances d !! id = Some i -> in_NodeID i = NodeID -> exists j, j ∈ js /\ j_i j = i).
Proof using CL.
  intros Hok js. set (rows := filter _ _) in js.
  assert (forall i, i ∈ rows <-> t_instances d !! in_ID i = Some i /\ in_NodeID i = NodeID) as Hrows.
  { intros i. unfold rows. rewrite list_elem_of_filter, (cp_rows_perm h), list_elem_of_fmap. split.
    - intros (Hn & [k i'] & -> & Hi%elem_of_map_to_list). cbn [snd] in *.
      destruct (io_row d Hok k i' Hi) as [Hk _]. by rewrite Hk.
    - intros [Hi Hn]. split; [done|]. exists (in_ID i, i). split; [done|]. by apply elem_of_map_to_list. }
  assert (NoDup (in_ID <$> rows)) as Hnd.
  { eapply sublist_NoDup; [|apply fmap_sublist, sublist_filter].
    rewrite (cp_rows_perm h), <-list_fmap_compose.
    erewrite list_fmap_ext; [apply NoDup_fst_map_to_list|]. intros n [k i] Hk%list_elem_of_lookup_2. cbn.
    apply elem_of_map_to_list in Hk. by destruct (io_row d Hok k i Hk). }
  assert (forall i, i ∈ rows -> is_Some (join_instance d i)) as Hj.
  { intros i [Hi _]%Hrows. by destruct (io_row d Hok _ i Hi) as (_ & _ & _ & ?). }
  assert (j_i <$> js = rows) as Ejs.
  { clear Hrows Hnd. unfold js. clearbody rows. induction rows as [|i l IH]; [done|].
    destruct (Hj i ltac:(left)) as [j Ej]. cbn. rewrite Ej. cbn. rewrite (join_row _ _ _ Ej). f_equal.
    apply IH. intros i' Hi'. apply Hj. by right. }
  split; [|split].
  - rewrite <-Ejs, <-list_fmap_compose in Hnd. exact Hnd.
  - intros j Hjs. apply Hrows. rewrite <-Ejs. apply list_elem_of_fmap. eauto.
  - intros id i Hi Hn. assert (i ∈ rows) as Hin.
    { apply Hrows. destruct (io_row d Hok id i Hi) as [-> _]. done. }
    rewrite <-Ejs in Hin. apply list_elem_of_fmap in Hin as (j & -> & Hjs). eauto.
Qed.

Lemma discover_spec (s : cp) r s1 :
  instances_ok (cp_db s) -> uuid_in NodeID = Some NodeID -> NodeID <> "" ->
  serve (DiscoverInstances_srv NodeID) s = (r, s1) ->
  cp_db s1 = cp_db s /\
  match r with
  | inl _ => ~ faultless
  | inr l =>
      NoDup (tr_Id <$> l) /\
      (forall t, t ∈ l -> exists i, t_instances (cp_db s) !! tr_Id t = Some i /\ in_NodeID i = NodeID /\
         told i t) /\
      (forall id i, t_instances (cp_db s) !! id = Some i -> in_NodeID i = NodeID ->
         exists t, t ∈ l /\ tr_Id t = id)
  end.
Proof using CL.
  intros Hok Hu Hne. apply String.eqb_neq in Hne. unfold DiscoverInstances_srv. rewrite Hne.
  set (h := "GetInstancesByNodeID" :: "acquire" :: cp_log s).
  destruct (node_rows_spec (cp_db s) h Hok) as (Hnd & Hin & Hall).
  set (js := omap _ _) in *. set (l := merge_sort by_id (List.map from_row js)).
  assert (l ≡ₚ List.map from_row js) as Hp by apply merge_sort_Permutation. intros E.
  assert (cp_db s1 = cp_db s /\ match r with inl _ => ~ faultless | inr x => x = List.map InstanceToTransport l end)
    as [Hdb Hr].
  { revert E. cbn. unfold mbind, CpM_bind, GetInstancesByNodeID, do_, GetInstancesByNodeID_rows, select, sql.
    unfold mbind, CpM_bind. cbn.
    destruct (cp_fault ("acquire" :: _)) as [msg|] eqn:Ef; [intros [= <- <-]; split; [done|]; intros [Hf _]; by rewrite Hf in Ef|].
    cbn. destruct (cp_fault ("GetInstancesByNodeID" :: _)) as [msg|] eqn:Ef';
      [intros [= <- <-]; split; [done|]; intros [Hf _]; by rewrite Hf in Ef'|].
    cbn. unfold uuid_arg. rewrite Hu. by intros [= <- <-]. }
  split; [exact Hdb|]. destruct r as [e|x]; [exact Hr|]. subst x. split; [|split].
  - change (List.map InstanceToTransport l) with (InstanceToTransport <$> l).
    rewrite Hp. change (List.map from_row js) with (from_row <$> js). rewrite <-!list_fmap_compose. exact Hnd.
  - intros t (ins & -> & Hl)%list_elem_of_fmap. rewrite Hp in Hl.
    apply list_elem_of_fmap in Hl as (j & -> & Hj). destruct (Hin j Hj) as [Hi Hn].
    exists (j_i j). split; [exact Hi|]. by split.
  - intros id i Hi Hn. destruct (Hall id i Hi Hn) as (j & Hj & <-).
    exists (InstanceToTransport (from_row j)). split; [|by destruct (io_row _ Hok id (j_i j) Hi)].
    apply list_elem_of_fmap. eexists. split; [done|]. rewrite Hp. apply list_elem_of_fmap. eauto.
Qed.

Context (is_cp : string -> bool).

(** ** Reports *)

Definition standard (id : string) : Prop := uuid_in id = Some id.

Lemma no_report now reports id i :
  (forall r, r ∈ reports -> standard (sr_InstanceID r) /\ sr_InstanceID r <> id) ->
  removed reports id = false /\ updated_row now reports id i = i.
Proof using Type.
  revert i. induction reports as [|x l IH]; intros i Hl; [done|].
  destruct (Hl x ltac:(left)) as [Hs Hne].
  assert (is_about id x = false) as Ha by (apply bool_decide_eq_false_2; rewrite Hs; congruence).
  unfold removed, updated_row. cbn. rewrite Ha, !andb_false_r. cbn.
  apply IH. intros y Hy. apply Hl. by right.
Qed.

(** Reports about different instances: the one about [id], if there is one,
    decides. *)
Lemma one_report now reports r id i :
  NoDup (sr_InstanceID <$> reports) -> (forall r, r ∈ reports -> standard (sr_InstanceID r)) ->
  r ∈ reports -> sr_InstanceID r = id ->
  removed reports id = is_removal r /\
  updated_row now reports id i = if is_removal r then i else with_report (sr_State r) (sr_Port r) now i.
Proof using Type.
  intros Hnd Hstd Hr <-.
  apply list_elem_of_split in Hr as (l1 & l2 & ->). rewrite fmap_app in Hnd. cbn [fmap list_fmap] in Hnd.
  apply list.NoDup_app in Hnd as (_ & Hd & Hnd). apply list.NoDup_cons in Hnd as [Hn2 _].
  assert (standard (sr_InstanceID r)) as Hsr by (apply Hstd, elem_of_app; right; left).
  destruct (no_report now l1 (sr_InstanceID r) i) as [Hr1 Hu1].
  { intros x Hx. split; [apply Hstd, elem_of_app; by left|]. intros E. apply (Hd (sr_InstanceID r)); [|left].
    rewrite <-E. apply list_elem_of_fmap. eauto. }
  assert (forall i, removed l2 (sr_InstanceID r) = false /\ updated_row now l2 (sr_InstanceID r) i = i) as H2.
  { intros i'. apply no_report. intros x Hx. split; [apply Hstd, elem_of_app; right; by right|].
    intros E. apply Hn2. rewrite <-E. apply list_elem_of_fmap. eauto. }
  assert (is_about (sr_InstanceID r) r = true) as Ha by by apply bool_decide_eq_true_2.
  unfold removed, updated_row in *. rewrite existsb_app, fold_left_app. cbn [existsb fold_left].
  rewrite Hr1, Hu1, (proj1 (H2 i)), Ha, !andb_true_r. split; [by destruct (is_removal r)|].
  destruct (is_removal r); cbn [negb]; apply H2.
Qed.

(** The state that the control plane is told. *)
Definition told_state (state : string) : string := InstanceState_String (InstanceState_value state).

Lemma told_state_valid state : told_state state ∈ instance_states.
Proof using Type.
  unfold told_state, InstanceState_value.
  repeat case_match; apply (bool_decide_unpack _); vm_compute; exact I.
Qed.

Lemma told_deleted state : String.eqb (told_state state) "DELETED" = String.eqb state "DELETED".
Proof using Type.
  unfold told_state, InstanceState_value.
  repeat match goal with
  | |- context [String.eqb state ?name] =>
      destruct (String.eqb_spec state name) as [-> |]; [reflexivity|]
  end.
  reflexivity.
Qed.

Context (order : list (string * Status) -> list (string * Status)) (Hord : forall l, order l ≡ₚ l).

(** The reports that a node sends. *)
Definition sent (n : node MemStore) : list status_report :=
  StatusReportToDomain <$> tick_reports (order (map_to_list (View (n_store n)))) (n_store n).

Lemma report_id st kv x : report st kv = Some x -> rep_InstanceId x = kv.1.
Proof using Type. unfold report. destruct (sv_workload _); [|done]. cbn. by intros [= <-]. Qed.

Lemma sent_spec n :
  NoDup (sr_InstanceID <$> sent n) /\
  forall r, r ∈ sent n <-> exists w, recorded (table n) (sr_InstanceID r) = Some w /\
    r = {| sr_InstanceID := sr_InstanceID r; sr_State := told_state (ws_State w);
           sr_Port := cast_u16 (ws_Port w) |}.
Proof using Hord.
  set (view := order (map_to_list (View (n_store n)))).
  assert (is_view (n_store n) view) as Hv by apply Hord.
  assert (forall id w, recorded (table n) id = Some w <->
    exists st, (id, st) ∈ view /\ sv_workload (resolve (n_store n) st) = Some w) as Hrec.
  { intros id w. unfold recorded, table. cbn. unfold contents. rewrite lookup_fmap. split.
    - intros E. destruct (data (n_store n) !! id) as [st|] eqn:Ed; [|done]. exists st.
      split; [by apply (view_lookup (n_store n))|exact E].
    - intros (st & Hin & E). apply (view_lookup (n_store n)) in Hin; [|done]. by rewrite Hin. }
  unfold sent, tick_reports. fold view. split.
  - assert (NoDup view.*1) as Hnd by (rewrite Hv; apply NoDup_fst_map_to_list). clear Hv Hrec.
    clearbody view. induction view as [|[k st] l IH]; [constructor|].
    cbn [fmap list_fmap fst] in Hnd. apply list.NoDup_cons in Hnd as [Hk Hnd].
    change (omap (report (n_store n)) ((k, st) :: l)) with
      (match report (n_store n) (k, st) with
       | Some y => y :: omap (report (n_store n)) l | None => omap (report (n_store n)) l end).
    destruct (report (n_store n) (k, st)) as [y|] eqn:Ey; [|by apply IH].
    apply report_id in Ey. cbn [fmap list_fmap]. apply list.NoDup_cons. split; [|by apply IH].
    intros (r & Hr & (x & -> & ([k' st'] & Hin & Hx)%list_elem_of_omap)%list_elem_of_fmap)%list_elem_of_fmap.
    apply report_id in Hx. cbn in Hr, Hx, Ey. apply Hk, list_elem_of_fmap. exists (k', st').
    split; [cbn; congruence|done].
  - intros r. rewrite list_elem_of_fmap. split.
    + intros (x & -> & ([k st] & Hin & Hx)%list_elem_of_omap). unfold report in Hx. cbn [fst snd] in Hx.
      destruct (sv_workload (resolve (n_store n) st)) as [w|] eqn:Ew; [|done]. cbn in Hx. injection Hx as <-.
      exists w. split; [|done]. apply Hrec. by exists st.
    + intros (w & (st & Hin & Ew)%Hrec & Er). eexists. split; [|apply list_elem_of_omap; exists (sr_InstanceID r, st);
        split; [exact Hin|]; unfold report; cbn [fst snd]; rewrite Ew; reflexivity]. exact Er.
Qed.

(** The row of an instance of which the node has the status [r] once that is reported. *)
Definition row_after (r : option WorkloadStatus) (now : Z) (row : option instance_row) : option instance_row :=
  match r with
  | None => row
  | Some w => if String.eqb (ws_State w) WorkloadStateDeleted then None
              else with_report (told_state (ws_State w)) (cast_u16 (ws_Port w)) now <$> row
  end.

(** Reports that fail may have reached any of the rows. *)
Lemma received_row (s1 : cp) (n : node MemStore) r s2 :
  (forall id w, recorded (table n) id = Some w -> standard id) ->
  serve (ReceiveInstanceStatusReports_srv
    (tick_reports (order (map_to_list (View (n_store n)))) (n_store n))) s1 = (r, s2) ->
  only_instances (cp_db s1) (cp_db s2) /\ (faultless -> r = inr tt) /\
  exists now, forall id,
    t_instances (cp_db s2) !! id = row_after (recorded (table n) id) now (t_instances (cp_db s1) !! id) \/
    (exists e, r = inl e) /\ t_instances (cp_db s2) !! id = t_instances (cp_db s1) !! id.
Proof using Hord.
  intros Hstd E0. destruct (sent_spec n) as [Hnd Hin].
  assert (forall r, r ∈ sent n -> standard (sr_InstanceID r)) as Hst.
  { intros x (w & Hw & _)%Hin. by eapply Hstd. }
  pose proof (Apply_succeeds (sent n) s1) as Hok.
  destruct (ApplyStatusReports (sent n) s1) as [r' s2'] eqn:E. cbn [fst] in Hok.
  assert ((r', s2') = (r, s2)) as [= -> ->].
  { rewrite <-E0. unfold ReceiveInstanceStatusReports_srv. cbn [serve repo]. fold (sent n).
    unfold mbind, CpM_bind. rewrite E. by destruct r' as [|[]]. }
  destruct (Apply_outcome (sent n) s1 r s2 E) as [Ho [now Hrep]].
  split; [exact Ho|]. split.
  { intros Hf. apply Hok; [done|]. apply list.Forall_forall. intros x Hx. split; [rewrite (Hst x Hx); eauto|].
    apply Hin in Hx as (w & _ & ->). apply told_state_valid. }
  exists now. intros id. set (row := t_instances (cp_db s1) !! id) in *.
  assert ((forall i, row = Some i -> updated_row now (sent n) id i =
      match recorded (table n) id with
      | Some w => if String.eqb (ws_State w) WorkloadStateDeleted then i
                  else with_report (told_state (ws_State w)) (cast_u16 (ws_Port w)) now i
      | None => i
      end) /\ removed (sent n) id =
      match recorded (table n) id with Some w => String.eqb (ws_State w) WorkloadStateDeleted | None => false end)
    as [Hup Hrm].
  { destruct (recorded (table n) id) as [w|] eqn:Ew.
    - set (x := {| sr_InstanceID := id; sr_State := told_state (ws_State w); sr_Port := cast_u16 (ws_Port w) |}).
      assert (x ∈ sent n) as Hx by (apply Hin; by exists w).
      assert (is_removal x = String.eqb (ws_State w) WorkloadStateDeleted) as Erm by apply told_deleted.
      rewrite <-Erm. split; [intros i _|]; eapply (one_report now (sent n) x id); try done. exact (demo_row "").
    - assert (forall i, removed (sent n) id = false /\ updated_row now (sent n) id i = i) as Hno.
      { intros i. apply no_report. intros r0 Hr0. split; [by apply Hst|]. intros <-.
        apply Hin in Hr0 as (w & Hw & _). congruence. }
      split; [intros i _; apply Hno|apply (Hno (demo_row ""))]. }
  assert (row_after (recorded (table n) id) now row =
    if removed (sent n) id then None else updated_row now (sent n) id <$> row) as Hnew.
  { rewrite Hrm. unfold row_after. destruct row as [i|].
    - cbn [fmap option_fmap option_map]. rewrite (Hup i eq_refl). by destruct (recorded (table n) id) as [w|]; [destruct (String.eqb (ws_State w) WorkloadStateDeleted)|].
    - by destruct (recorded (table n) id) as [w|]; [destruct (String.eqb (ws_State w) WorkloadStateDeleted)|]. }
  destruct r as [e|u]; [|left; by rewrite (Hrep id)].
  destruct Hrep as [-> |[Hh|Hr]]; [right; eauto| |left; by rewrite (Hr id)].
  rewrite (Hh id). fold row. destruct (removed (sent n) id) eqn:Er; [|by left].
  right. split; [eauto|]. destruct row as [i|]; [|done]. cbn. rewrite (Hup i eq_refl).
  destruct (recorded (table n) id) as [w|]; [|done]. by rewrite <-Hrm.
Qed.

(** ** Clean-up *)

Definition over (w : WorkloadStatus) : bool :=
  String.eqb (ws_State w) WorkloadStateDeleted || String.eqb (ws_State w) WorkloadStateCreationFailed.

Lemma cleanup_store view : forall st, store_wf st ->
  store_wf (tick_cleanup view st) /\ ws_cells (tick_cleanup view st) = ws_cells st /\
  cs_cells (tick_cleanup view st) = cs_cells st.
Proof using Type.
  induction view as [|[k h] l IH]; intros st Hwf; [done|]. cbn [tick_cleanup].
  destruct (is_gone st h); [|by apply IH].
  apply (IH (Del k st)), Del_refines, Hwf.
Qed.

(** The clean-up works on a view of the store as it was when the reports were
    made; it drops an entry of that view if the entry is over by now. *)
Lemma cleanup_spec n n1 :
  node_fit is_cp n -> node_fit is_cp n1 ->
  (forall i st, data (n_store n) !! i = Some st -> data (n_store n1) !! i = Some st) ->
  let n2 := with_store (tick_cleanup (order (map_to_list (View (n_store n)))) (n_store n1)) n1 in
  node_fit is_cp n2 /\
  forall id, is_cp id = false -> recorded (table n2) id =
    match recorded (table n) id, recorded (table n1) id with
    | Some _, Some w => if over w then None else Some w
    | _, r => r
    end.
Proof using Hord.
  intros [[H0 _ H0'] _] [[H1 H2 H3] Hm] Hkeep n2. set (view := order _) in n2.
  assert (is_view (n_store n) view) as Hv by apply Hord.
  destruct (cleanup_store view (n_store n1) H1) as (Hwf & Ew & Ec).
  assert (forall st, resolve (tick_cleanup view (n_store n1)) st = resolve (n_store n1) st) as Hres
    by (intros st; unfold resolve; by rewrite Ew, Ec).
  assert (forall id, existsb (fun kv : string * Status => String.eqb kv.1 id && is_gone (n_store n1) kv.2) view
    = match data (n_store n) !! id with Some st => is_gone (n_store n1) st | None => false end) as Hdrop.
  { intros id. apply eq_true_iff_eq. rewrite existsb_exists. split.
    - intros ([k h] & Hin%list_elem_of_In & Hk). cbn in Hk. apply andb_prop in Hk as [->%String.eqb_eq Hg].
      apply (view_lookup (n_store n)) in Hin; [|done]. by rewrite Hin.
    - destruct (data (n_store n) !! id) as [st|] eqn:Ed; [|done]. intros Hg. exists (id, st). cbn.
      rewrite String.eqb_refl, Hg. split; [|done].
      apply list_elem_of_In. by apply (view_lookup (n_store n)). }
  assert (forall id, table n2 !! id = if match data (n_store n) !! id with
    Some st => is_gone (n_store n1) st | None => false end then None else table n1 !! id) as Ht.
  { intros id. unfold table. cbn. unfold contents. rewrite !lookup_fmap, tick_cleanup_data, Hdrop.
    destruct (match data (n_store n) !! id with Some st => _ | None => _ end); [done|].
    destruct (data (n_store n1) !! id) as [st|]; [|done]. cbn. by rewrite Hres. }
  split.
  - split; [|exact Hm]. split; [exact Hwf|exact H2|]. intros id v. rewrite Ht.
    destruct (match data (n_store n) !! id with Some st => _ | None => _ end); [done|apply H3].
  - intros id Hid. unfold recorded at 1. rewrite Ht.
    assert (table n !! id = resolve (n_store n) <$> data (n_store n) !! id) as Et by apply lookup_fmap.
    assert (table n1 !! id = resolve (n_store n1) <$> data (n_store n1) !! id) as Et1 by apply lookup_fmap.
    destruct (data (n_store n) !! id) as [st|] eqn:Ed; cbn [fmap option_fmap option_map] in Et.
    + pose proof (H0' id _ Et) as He. unfold entry_ok in He. rewrite Hid in He. destruct He as [_ [w Hw]].
      assert (recorded (table n) id = Some w) as -> by (unfold recorded; by rewrite Et).
      rewrite (Hkeep id st Ed) in Et1. cbn [fmap option_fmap option_map] in Et1. unfold recorded. rewrite Et1. cbn [mbind option_bind].
      unfold is_gone. fold over. destruct (sv_workload (resolve (n_store n1) st)) as [w1|] eqn:E1; [|exact E1].
      change (String.eqb (ws_State w1) WorkloadStateDeleted || _) with (over w1).
      destruct (over w1); [done|exact E1].
    + assert (recorded (table n) id = None) as -> by (unfold recorded; by rewrite Et). done.
Qed.

(** ** Stopping *)

(** What [StopWorkload] may have done to an instance. *)
Definition hit (id : string) (n n' : node MemStore) : Prop :=
  attempts_of n' id = attempts_of n id /\
  (recorded (table n') id = recorded (table n) id \/ recorded_as WorkloadStateDeleted id n').

Lemma hit_trans id n n' n'' : hit id n n' -> hit id n' n'' -> hit id n n''.
Proof using Type.
  intros [Ha Hr] [Ha' Hr']. split; [congruence|]. destruct Hr' as [Hr'|Hr']; [|by right].
  unfold recorded_as. rewrite Hr'. exact Hr.
Qed.

Definition keeps_handles (n n' : node MemStore) : Prop :=
  forall i st, data (n_store n) !! i = Some st -> data (n_store n') !! i = Some st.

Lemma stop_spec id n :
  is_cp id = false -> node_fit is_cp n ->
  exists r n', run (StopWorkload id) n = Some (r, n') /\ node_fit is_cp n' /\ keeps_handles n n' /\
    hit id n n' /\ forall i, i <> id -> untouched i n n'.
Proof using Type.
  intros Hid Hn. unfold StopWorkload.
  assert (forall m, node_fit is_cp m -> n_store m = n_store n -> n_attempts m = n_attempts n ->
    node_fit is_cp m /\ keeps_handles n m /\ hit id n m) as Hsame.
  { intros m Hm Es Ea. split; [done|]. unfold keeps_handles, hit, table, attempts_of. rewrite Es, Ea. auto. }
  destruct (String.eqb id "").
  { exists (inl "workload id required"), n. split; [done|]. destruct (Hsame n) as (? & ? & ?); [done..|].
    do 3 (split; [done|]). intros i _. by apply untouched_same. }
  cbn [mbind gor_bind call run do_op]. set (n1 := log_wl (CallRemove id) n).
  assert (node_fit is_cp n1) as Hn1 by (destruct Hn as [[? ? ?] ?]; by split).
  assert (forall i, i <> id -> untouched i n n1) as Hu1 by (intros i Hi; by apply untouched_call).
  destruct (svc_remove (n_calls n) id);
    [|exists (inl "remove workload"), n1; split; [done|];
      destruct (Hsame n1) as (? & ? & ?); [done..|]; by do 3 (split; [done|])..].
  destruct (node_ok_update is_cp n1 id (mk_ws WorkloadStateDeleted 0) (proj1 Hn1) Hid)
    as (n2 & E & Hok2 & _ & Ea & _ & Hu).
  cbn [mbind gor_bind run]. change (workload_state WorkloadStateDeleted) with
    (mk_sv None (Some (mk_ws WorkloadStateDeleted 0))). rewrite E. exists (inr tt), n2. split; [done|].
  split; [split; [done|by rewrite (op_range _ _ _ _ E); apply Hn1]|]. split; [|split].
  - intros i st Hi. cbn [do_op] in E. destruct (store_update _ _ _) as [s'|] eqn:Es; [|done].
    cbn in E. injection E as <-.
    cbn [store_update MemStore_store] in Es. cbn [with_store n_store].
    pose proof (UpdateLit_refines id (mk_sv None (Some (mk_ws WorkloadStateDeleted 0))) (n_store n1)
      (no_store _ _ (proj1 Hn1))) as Hr.
    destruct (spec_update _ _ _); [|by destruct Hr as (s2 & E2); rewrite E2 in Es].
    destruct Hr as (s2 & E2 & _ & _ & Hk & _). rewrite E2 in Es. injection Es as <-. by apply Hk.
  - apply (own_state is_cp) in E as [Hd Ha]; [|done..]. split; [by rewrite Ha|by right].
  - intros i Hi. eapply untouched_trans; [by apply Hu1|by apply Hu].
Qed.

Lemma stop_all_spec ids : forall n,
  Forall (fun i => is_cp i = false) ids -> node_fit is_cp n ->
  exists n', stop_all ids n = Some n' /\ node_fit is_cp n' /\ keeps_handles n n' /\
    (forall i, hit i n n') /\ forall i, i ∉ ids -> untouched i n n'.
Proof using Type.
  induction ids as [|j ids IH]; intros n Hids Hn.
  { exists n. do 2 (split; [done|]). split; [by intros i st|]. split; [by split; [|left]|].
    intros i _. by apply untouched_same. }
  apply Forall_cons_1 in Hids as [Hj Hids].
  destruct (stop_spec j n Hj Hn) as (r & n1 & E & Hn1 & Hk & Hh & Hu).
  destruct (IH n1 Hids Hn1) as (n' & E' & Hn' & Hk' & Hh' & Hu'). exists n'. cbn [stop_all]. rewrite E.
  cbn [mbind option_bind]. split; [exact E'|]. split; [done|]. split; [by intros i st ?%Hk%Hk'|]. split.
  - intros i. eapply hit_trans; [|apply Hh']. destruct (decide (i = j)) as [-> |Hne]; [done|].
    destruct (Hu i Hne) as (Hr & Ha & _). split; [done|by left].
  - intros i [Hne Hi]%not_elem_of_cons. eapply untouched_trans; [by apply Hu|by apply Hu'].
Qed.

End round.
