(* ===== verification/Lifecycle.v ===== *)
(** * The life of an instance

    From the row that [RunFlavorVersion] creates to its removal, over any number
    of rounds of its node: whatever the container runtime answers, however the
    goroutines of a round are scheduled, whenever between them the workload is
    stopped, whatever the control plane does for others and whichever of its
    statements fail. *)

From S2P Require Import Prelude Go Endian PortAlloc StatusStore Node Reconciler Tick Goroutines.
From S2P Require Import CpDb CpFlavors CpSamples Instances Reports Pages Cluster.

#[local] Open Scope Z_scope.

(** ** Phases *)

(** Waiting to be started, tried [k] times so far; running on a port; not started
    and not tried again; stopped, but not yet known to be; stopped and forgotten
    by the node before the control plane knew; removed. *)
Inductive life := Waiting (k : nat) | Running (port : Z) | Failing | Ending | Forgotten | Gone.

Inductive life_step : life -> life -> Prop :=
| life_retry k : (k < 5)%nat -> life_step (Waiting k) (Waiting (k + 1))
| life_start k p : (k < 5)%nat -> life_step (Waiting k) (Running p)
| life_fail k : (5 <= k)%nat -> life_step (Waiting k) Failing
| life_halt k : (k < 5)%nat -> life_step (Waiting k) Ending
| life_stop p : life_step (Running p) Ending
| life_forget p : life_step (Running p) Forgotten
| life_find : life_step Forgotten Ending
| life_clear : life_step Failing Ending
| life_remove : life_step Ending Gone.

Section lifecycle.
Context {CE : CpEnv} {CL : CpLaws CE} {R : RandSource} {RL : RandLaws R} {W : WorkloadService} {En : Env}.
Context (is_cp : string -> bool) (cfg : reconcilerConfig) (NodeID id : string).

(** The row of the instance, on this node. *)
Definition row_is (state : string) (row : option instance_row) : Prop :=
  exists i, row = Some i /\ in_NodeID i = NodeID /\ in_State i = state.

Definition row_new (row : option instance_row) : Prop := row_is "PENDING" row \/ row_is "CREATING" row.

Definition row_running (p : Z) (row : option instance_row) : Prop :=
  exists i, row = Some i /\ in_NodeID i = NodeID /\ in_State i = "RUNNING" /\ in_Port i = Some p.

(** What the control plane and the node hold of it. *)
Definition life_of (L : life) (row : option instance_row) (n : node MemStore) : Prop :=
  match L with
  | Waiting k => trying k id n /\ row_new row
  | Running p => started p id n /\ (row_new row \/ row_running p row)
  | Failing => ((recorded_as WorkloadStateCreationFailed id n \/ recorded_as WorkloadStateDeleted id n) /\
                  row_new row /\ exhausted id n) \/
               ((recorded_as WorkloadStateCreationFailed id n \/ recorded (table n) id = None) /\
                  row_is "CREATION_FAILED" row)
  | Ending => recorded_as WorkloadStateDeleted id n /\
              (row_is "RUNNING" row \/ row_is "CREATION_FAILED" row \/
               row_new row /\ attempts_of n id < 5)
  | Forgotten => recorded (table n) id = None /\ row_is "RUNNING" row
  | Gone => row = None /\ (recorded (table n) id = None \/ recorded_as WorkloadStateDeleted id n)
  end.

(** The control plane knows how the instance fares. *)
Definition known (L : life) (row : option instance_row) (n : node MemStore) : Prop :=
  match L with
  | Running p => row_running p row
  | Failing => row_is "CREATION_FAILED" row
  | Ending | Forgotten => False
  | Gone => recorded (table n) id = None
  | Waiting _ => True
  end.

(** ** A round *)

Lemma life_unchanged L row n n' : unchanged id n n' -> life_of L row n -> life_of L row n'.
Proof using Type.
  intros [Er Ea]. destruct L; unfold life_of, trying, started, running_on, recorded_as, exhausted;
    by rewrite ?Er, ?Ea.
Qed.

(** The state of the instance when its goroutine runs. *)
Lemma told_new i t :
  told i t -> in_State i = "PENDING" \/ in_State i = "CREATING" ->
  ins_State (received t) = InstanceState_PENDING \/ ins_State (received t) = InstanceState_CREATING.
Proof using Type. intros [_ Hs] [E|E]; rewrite E in Hs; cbn; rewrite Hs; auto. Qed.

Lemma told_over i t :
  told i t -> in_State i = "RUNNING" \/ in_State i = "CREATION_FAILED" ->
  ins_State (received t) = InstanceState_RUNNING \/ ins_State (received t) = InstanceState_CREATION_FAILED.
Proof using Type. intros [_ Hs] [E|E]; rewrite E in Hs; cbn; rewrite Hs; auto. Qed.

(** The goroutine of the instance. *)
Definition turn (i : instance_row) (n n' : node MemStore) : Prop :=
  exists t, told i t /\ tr_Id t = id /\
    forall Q, stable is_cp id Q -> amid is_cp id (reconcile cfg (received t)) Q n -> Q tt n'.

Context (Hcp : is_cp id = false).

Section turns.
Context (i : instance_row) (n n' : node MemStore) (Hturn : turn i n n').

Lemma turn_over_row :
  row_is "RUNNING" (Some i) \/ row_is "CREATION_FAILED" (Some i) ->
  unchanged id n n' \/ recorded_as WorkloadStateDeleted id n'.
Proof using Hcp Hturn.
  intros Hrow. destruct Hturn as (t & Htold & Hid & HQ). eapply (HQ (fun _ n' => unchanged id n n' \/ _)).
  - intros _ m m' Hm [E|E]; [left; by apply (unchanged_rely is_cp _ _ _ _ Hm)|right].
    by apply (recorded_as_rely is_cp _ _ _ _ Hm).
  - pose proof (turn_over is_cp cfg (received t)) as Ht. cbn [ins_Id received] in Ht. rewrite Hid in Ht.
    apply Ht; [done|]. apply (told_over i); [done|].
    destruct Hrow as [(i' & [= <-] & _ & E)|(i' & [= <-] & _ & E)]; auto.
Qed.

(** While the instance is new, [P] holds after its goroutine if it does amid the others. *)
Lemma turn_new_row (P : node MemStore -> Prop) :
  row_new (Some i) -> (forall m m', rely is_cp id m m' -> P m -> P m') ->
  (forall ins, ins_Id ins = id ->
     ins_State ins = InstanceState_PENDING \/ ins_State ins = InstanceState_CREATING ->
     amid is_cp id (reconcile cfg ins) (fun _ => P) n) -> P n'.
Proof using Hturn.
  intros Hrow HP Ha. destruct Hturn as (t & Htold & Hid & HQ).
  apply (HQ (fun _ => P)); [intros _; exact HP|]. apply Ha; [exact Hid|]. apply (told_new i); [done|].
  destruct Hrow as [(i' & [= <-] & _ & E)|(i' & [= <-] & _ & E)]; auto.
Qed.

Lemma exhausted_turn :
  exhausted id n -> row_new (Some i) -> recorded_as WorkloadStateCreationFailed id n' /\ exhausted id n'.
Proof using Hcp Hturn.
  intros He Hrow. apply (turn_new_row (fun m => recorded_as WorkloadStateCreationFailed id m /\ exhausted id m)).
  - done.
  - intros m m' Hm [E1 E2]. split; [by apply (recorded_as_rely is_cp _ _ _ _ Hm)|].
    by apply (exhausted_rely is_cp _ _ _ Hm).
  - intros ins <- Hnew. by apply turn_exhausted.
Qed.

Lemma trying_turn k :
  (k < 5)%nat -> trying k id n -> row_new (Some i) ->
  trying (k + 1) id n' \/ exists p, started p id n'.
Proof using Hcp Hturn RL.
  intros Hk Ht Hrow. apply (turn_new_row (fun m => trying (k + 1) id m \/ exists p, started p id m)).
  - done.
  - intros m m' Hm [E|[p E]]; [left; by apply (trying_rely is_cp _ _ _ _ Hm)|right].
    exists p. by apply (started_rely is_cp _ _ _ _ Hm).
  - intros ins <- Hnew. by apply turn_creation.
Qed.

Lemma skipped_turn w :
  recorded (table n) id = Some w -> ws_State w <> WorkloadStateCreating -> attempts_of n id < 5 ->
  row_new (Some i) -> unchanged id n n'.
Proof using Hcp Hturn.
  intros Hw Hc Ha Hrow. apply (turn_new_row (unchanged id n)).
  - done.
  - intros m m' Hm. by apply (unchanged_rely is_cp).
  - intros ins <- Hnew. by apply (turn_skipped is_cp cfg ins Hcp w).
Qed.

Lemma life_turn L :
  life_of L (Some i) n -> exists L', rtc life_step L L' /\ life_of L' (Some i) n' /\
    (forall k, L' = Waiting k -> exists j, L = Waiting j /\ k = (j + 1)%nat) /\
    (L' = Forgotten -> L = Forgotten).
Proof using Hcp Hturn RL.
  assert (forall p, row_running p (Some i) -> row_is "RUNNING" (Some i)) as Hrun.
  { intros p (i' & E & H1 & H2 & _). by exists i'. }
  assert (forall L, unchanged id n n' -> (forall k, L <> Waiting k) -> life_of L (Some i) n ->
    exists L', rtc life_step L L' /\ life_of L' (Some i) n' /\
    (forall k, L' = Waiting k -> exists j, L = Waiting j /\ k = (j + 1)%nat) /\
    (L' = Forgotten -> L = Forgotten)) as Hstay.
  { intros M Hu HM HL. exists M. split; [done|]. split; [by eapply life_unchanged|].
    split; [|done]. intros k ->. by destruct (HM k). }
  intros HL. pose proof HL as HL0. destruct L as [k|p| | | |]; cbn [life_of] in HL.
  - destruct HL as [Ht Hrow]. destruct (decide (k < 5)%nat) as [Hk|Hk].
    + destruct (trying_turn k Hk Ht Hrow) as [Ht'|[p Hs]].
      * exists (Waiting (k + 1)). split; [by apply rtc_once, life_retry|]. split; [done|].
        split; [|done]. intros j [= <-]. eauto.
      * exists (Running p). split; [by apply rtc_once, life_start|]. split; [by split; [|left]|done].
    + exists Failing. split; [apply rtc_once, life_fail; lia|]. split; [|done]. left.
      destruct exhausted_turn as [H1 H2]; [destruct Ht as [Ha _]; unfold exhausted; lia|done|auto].
  - destruct HL as [Hs [Hrow|Hrow]].
    + apply (Hstay (Running p)); [|done|done]. destruct Hs as (_ & Hr & Ha).
      by apply (skipped_turn _ Hr); [|lia|].
    + destruct turn_over_row as [Hu|Hd]; [by eauto|by apply (Hstay (Running p))|].
      exists Ending. split; [by apply rtc_once, life_stop|]. split; [|done]. split; [done|eauto].
  - destruct HL as [(_ & Hrow & He)|[Hf Hrow]].
    + exists Failing. split; [done|]. split; [|done]. left. destruct exhausted_turn as [H1 H2]; auto.
    + destruct turn_over_row as [Hu|Hd]; [by eauto|by apply (Hstay Failing)|].
      exists Ending. split; [apply rtc_once, life_clear|]. split; [|done]. split; [done|eauto].
  - destruct HL as [Hd Hrow]. destruct Hrow as [Hrow|[Hrow|[Hrow Ha]]].
    1, 2: destruct turn_over_row as [Hu|Hd']; [by eauto|by apply (Hstay Ending)|];
      exists Ending; split; [done|]; split; [|done]; split; [done|eauto].
    apply (Hstay Ending); [|done|done]. destruct Hd as [q Hd]. by apply (skipped_turn _ Hd).
  - destruct HL as [Hr Hrow]. destruct turn_over_row as [Hu|Hd]; [by eauto|by apply (Hstay Forgotten)|].
    exists Ending. split; [apply rtc_once, life_find|]. split; [|done]. split; [done|eauto].
  - by destruct HL.
Qed.
End turns.

(** *** Stopping *)

Lemma life_hit L row n n' :
  hit id n n' -> life_of L row n ->
  exists L', rtc life_step L L' /\ life_of L' row n' /\
    (forall k, L' = Waiting k -> L = Waiting k) /\ (L' = Forgotten -> L = Forgotten).
Proof using Type.
  intros [Ea [Er|Hd]] HL.
  { exists L. split; [done|]. split; [|done]. eapply life_unchanged; [|exact HL]. by split. }
  assert (exhausted id n -> exhausted id n') as He by (unfold exhausted; by rewrite Ea).
  assert (forall p, row_running p row -> row_is "RUNNING" row) as Hrun
    by (intros p (i & -> & Hn & Hs & _); by exists i).
  destruct L as [k|p| | | |]; cbn [life_of] in HL.
  - destruct HL as [[Ha _] Hrow]. destruct (decide (k < 5)%nat) as [Hk|Hk].
    + exists Ending. split; [by apply rtc_once, life_halt|]. split; [|done]. split; [done|].
      right. right. split; [done|]. rewrite Ea, Ha. lia.
    + exists Failing. split; [apply rtc_once, life_fail; lia|]. split; [|done]. left.
      split; [by right|]. split; [done|]. apply He. unfold exhausted. lia.
  - exists Ending. split; [by apply rtc_once, life_stop|]. split; [|done]. split; [done|].
    destruct HL as [(_ & _ & Ha) [Hrow|Hrow]]; [right; right; split; [done|lia]|eauto].
  - destruct HL as [(_ & Hrow & Hx)|[_ Hrow]].
    + exists Failing. split; [done|]. split; [|done]. left. auto.
    + exists Ending. split; [apply rtc_once, life_clear|]. split; [|done]. split; [done|auto].
  - exists Ending. split; [done|]. split; [|done]. destruct HL as [_ Hrow].
    split; [done|]. by rewrite Ea.
  - exists Ending. split; [apply rtc_once, life_find|]. split; [|done]. destruct HL as [_ Hrow].
    split; [done|auto].
  - exists Gone. split; [done|]. split; [|done]. destruct HL as [-> _]. split; [done|by right].
Qed.

(** *** The report *)

Lemma reported_row state p now row :
  state <> WorkloadStateDeleted -> (exists i, row = Some i /\ in_NodeID i = NodeID) ->
  row_is (told_state state) (row_after (Some (mk_ws state p)) now row).
Proof using Type.
  intros Hs (i & -> & Hn). unfold row_after. cbn [ws_State ws_Port].
  rewrite (proj2 (String.eqb_neq _ _) Hs). cbn. by eexists.
Qed.

Lemma row_on state row : row_is state row -> exists i, row = Some i /\ in_NodeID i = NodeID.
Proof using Type. intros (i & -> & Hn & _). eauto. Qed.

Lemma row_new_on row : row_new row -> exists i, row = Some i /\ in_NodeID i = NodeID.
Proof using Type. intros [Hr|Hr]; by apply row_on in Hr. Qed.

(** What holds once the report is received. *)
Definition settled (L : life) (row : option instance_row) (n : node MemStore) : Prop :=
  match L with
  | Waiting k => trying k id n /\ row_new row
  | Running p => started p id n /\ row_running p row
  | Failing => (recorded_as WorkloadStateCreationFailed id n \/ recorded (table n) id = None) /\
               row_is "CREATION_FAILED" row
  | Ending => False
  | Forgotten => recorded (table n) id = None /\ row_is "RUNNING" row
  | Gone => row = None /\ (recorded (table n) id = None \/ recorded_as WorkloadStateDeleted id n)
  end.

Lemma settled_life L row n : settled L row n -> life_of L row n.
Proof using Type. destruct L; cbn [settled life_of]; tauto. Qed.

Lemma life_report L row n now :
  life_of L row n ->
  exists L', rtc life_step L L' /\ settled L' (row_after (recorded (table n) id) now row) n /\
    (forall k, L' = Waiting k -> L = Waiting k) /\ (L' = Forgotten -> L = Forgotten).
Proof using Type.
  assert (recorded_as WorkloadStateDeleted id n -> settled Gone (row_after (recorded (table n) id) now row) n)
    as Hgone by (intros [q Hd]; rewrite Hd; split; [done|]; right; by exists q).
  destruct L as [k|p| | | |]; cbn [life_of].
  - intros [[Ha Hc] Hrow]. exists (Waiting k). split; [done|]. split; [|done]. split; [done|].
    destruct (recorded (table n) id) as [[st q]|]; [|exact Hrow]. right. specialize (Hc _ eq_refl).
    cbn in Hc. subst st. apply (reported_row WorkloadStateCreating); [done|by apply row_new_on].
  - intros [Hs Hrow]. exists (Running p). split; [done|]. split; [|done]. split; [done|].
    pose proof Hs as (Hp & -> & _).
    assert (exists i, row = Some i /\ in_NodeID i = NodeID) as (i & -> & Hn).
    { destruct Hrow as [Hrow|(i & -> & Hn & _)]; [by apply row_new_on|eauto]. }
    eexists. split; [reflexivity|]. split; [exact Hn|]. split; [done|]. cbn. unfold cast_u16, wrap.
    by rewrite Z.mod_small by lia.
  - intros [([[q Hf]|Hd] & Hrow & _)|[[[q Hf]|Hf] Hrow]].
    + exists Failing. split; [done|]. split; [|done]. split; [left; by exists q|]. rewrite Hf.
      apply (reported_row WorkloadStateCreationFailed); [done|by apply row_new_on].
    + exists Gone. split; [by eapply rtc_l; [apply life_clear|apply rtc_once, life_remove]|].
      split; [by apply Hgone|done].
    + exists Failing. split; [done|]. split; [|done]. split; [left; by exists q|]. rewrite Hf.
      apply (reported_row WorkloadStateCreationFailed); [done|by apply row_on in Hrow].
    + exists Failing. split; [done|]. split; [|done]. rewrite Hf. split; [by right|done].
  - intros [Hd _]. exists Gone. split; [apply rtc_once, life_remove|]. split; [by apply Hgone|done].
  - intros [Hr Hrow]. exists Forgotten. split; [done|]. split; [|done]. by rewrite Hr.
  - intros [-> [Hr|Hd]]; exists Gone; (split; [done|]); (split; [|done]); [|auto]. rewrite Hr. split; auto.
Qed.

(** *** The clean-up *)

(** The clean-up after a report, [n] being the node at the time of the report
    and [n1] once the late calls of [StopWorkload] are through. *)
Lemma life_cleanup L row n n1 n2 :
  hit id n n1 -> n_attempts n2 = n_attempts n1 ->
  recorded (table n2) id =
    match recorded (table n) id, recorded (table n1) id with
    | Some _, Some w => if over w then None else Some w
    | _, r => r
    end ->
  settled L row n ->
  exists L', rtc life_step L L' /\ life_of L' row n2 /\
    (forall k, L' = Waiting k -> L = Waiting k) /\
    (unchanged id n n1 -> L <> Forgotten -> L' <> Forgotten /\ known L' row n2).
Proof using Type.
  intros Hh Ea2 Hrec HL.
  assert (attempts_of n2 id = attempts_of n1 id) as Ea by (unfold attempts_of; by rewrite Ea2).
  destruct (recorded (table n) id) as [w|] eqn:Er.
  - (* in the view *)
    assert (recorded (table n2) id = None \/
      recorded (table n2) id = Some w /\ over w = false /\ recorded (table n1) id = Some w) as Hr2.
    { rewrite Hrec, ?Er. destruct Hh as [_ [E|[q E]]]; rewrite E, ?Er; [|by left].
      destruct (over w) eqn:Eo; auto. }
    assert (unchanged id n n1 -> recorded (table n1) id = Some w) as Hsame by (intros [E _]; congruence).
    assert (attempts_of n2 id = attempts_of n id) as Ean by (rewrite Ea; apply Hh). clear Hh Ea2 Ea.
    destruct L as [k|p| | | |]; cbn [settled] in HL.
    + exists (Waiting k). split; [done|]. split; [|done]. destruct HL as [[Ha Hc] Hrow]. split; [|done].
      split; [by rewrite Ean|]. intros w'. destruct Hr2 as [-> |[-> _]]; [done|].
      intros [= <-]. by apply Hc.
    + destruct HL as [Hs Hrow]. pose proof Hs as (Hp & Hrun & Ha). unfold running_on in Hrun.
      rewrite Er in Hrun. injection Hrun as ->. destruct Hr2 as [Hr2|[Hr2 _]].
      * exists Forgotten. split; [apply rtc_once, life_forget|].
        split; [split; [done|]; destruct Hrow as (i & -> & ? & ? & _); by exists i|]. split; [done|].
        intros Hu%Hsame. rewrite Hrec, Hu in Hr2. done.
      * exists (Running p). split; [done|]. split; [|done]. split; [|by right].
        split; [done|]. split; [exact Hr2|by rewrite Ean].
    + exists Failing. split; [done|]. destruct HL as [[[q Hf]|Hf] Hrow]; rewrite Er in Hf; [|done].
      injection Hf as ->. split; [|split; [done|by split]]. right. split; [|done].
      right. by destruct Hr2 as [|(_ & ? & _)].
    + done.
    + destruct HL as [Hf _]. by rewrite Er in Hf.
    + exists Gone. split; [done|]. destruct HL as [-> [Hf|[q Hf]]]; rewrite Er in Hf; [done|].
      injection Hf as ->. destruct Hr2 as [Hr2|(_ & ? & _)]; [|done]. split; [by split; [|left]|done].
  - (* not in the view: only the late calls count *)
    assert (hit id n n2) as Hh2.
    { destruct Hh as [Ha Hr]. split; [congruence|]. unfold recorded_as in *. rewrite Hrec. by rewrite ?Er in *. }
    assert (unchanged id n n1 -> unchanged id n n2) as Hsame.
    { intros [Hr1 Ha1]. split; [|congruence]. rewrite Hrec. congruence. }
    pose proof (settled_life _ _ _ HL) as HL'.
    destruct (decide (recorded (table n2) id = None)) as [H0|H0].
    + exists L. split; [done|]. split; [|split; [done|intros _ HF; split; [done|]]].
      * eapply life_unchanged; [|exact HL']. split; [congruence|apply Hh2].
      * destruct L; cbn [settled known] in *; tauto.
    + destruct (life_hit L row n n2 Hh2 HL') as (L' & H1 & H2 & H3 & H4).
      exists L'. split; [done|]. split; [done|]. split; [done|].
      intros Hu%Hsame. destruct Hu. congruence.
Qed.

(** *** All of a round *)

Definition db_fit (d : db) : Prop :=
  instances_ok d /\ forall i r, t_instances d !! i = Some r -> is_cp i = false.

Definition consistent (s : cp) (n : node MemStore) : Prop :=
  db_fit (cp_db s) /\ node_fit is_cp n /\ forall i w, recorded (table n) i = Some w -> standard i.

Definition row_of (s : cp) : option instance_row := t_instances (cp_db s) !! id.

(** What the control plane does for others leaves the instance alone. *)
Definition leaves (f : cp -> cp) : Prop :=
  forall s, db_fit (cp_db s) -> db_fit (cp_db (f s)) /\ row_of (f s) = row_of s.

Lemma join_kept d t i i' :
  in_FlavorVersionID i' = in_FlavorVersionID i -> in_NodeID i' = in_NodeID i -> in_OwnerID i' = in_OwnerID i ->
  is_Some (join_instance d i) -> is_Some (join_instance (set_instances t d) i').
Proof using Type.
  intros E1 E2 E3 [j Hj]. unfold join_instance in *. cbn [t_versions t_flavors t_chunks t_nodes t_users set_instances].
  rewrite E1, E2, E3.
  destruct (t_versions d !! _) as [v|]; [cbn in *|done]. destruct (t_flavors d !! _) as [f|]; [cbn in *|done].
  destruct (t_chunks d !! _) as [c|]; [cbn in *|done]. destruct (t_nodes d !! _) as [m|]; [cbn in *|done].
  destruct (t_users d !! _) as [u|]; [by eexists|done].
Qed.

Lemma db_fit_reported d d' :
  only_instances d d' ->
  (forall i, t_instances d' !! i = t_instances d !! i \/
     exists r now, t_instances d' !! i = row_after r now (t_instances d !! i)) ->
  db_fit d -> db_fit d'.
Proof using Type.
  intros Ho Hrows [[Hok] Hcps].
  assert (forall i r', t_instances d' !! i = Some r' -> exists r, t_instances d !! i = Some r /\
    in_ID r' = in_ID r /\ in_FlavorVersionID r' = in_FlavorVersionID r /\ in_NodeID r' = in_NodeID r /\
    in_OwnerID r' = in_OwnerID r) as Hold.
  { intros i r' Hr. destruct (Hrows i) as [E|(w & now & E)]; rewrite E in Hr; [by exists r'|].
    unfold row_after in Hr. destruct w as [w|]; [|by exists r'].
    destruct (String.eqb (ws_State w) WorkloadStateDeleted); [done|].
    destruct (t_instances d !! i) as [r|]; [|done]. injection Hr as <-. by exists r. }
  split.
  - split. intros i r' Hr. destruct (Hold i r' Hr) as (r & Hr0 & E0 & E1 & E2 & E3).
    destruct (Hok i r Hr0) as (H1 & H2 & H3 & H4). rewrite E0. split; [done|]. split; [done|]. split; [done|].
    rewrite Ho. by eapply join_kept.
  - intros i r' Hr. destruct (Hold i r' Hr) as (r & Hr0 & _). by eapply Hcps.
Qed.

(** Every phase but the last has a row on the node. *)
Lemma life_row L row n :
  life_of L row n -> (row = None /\ L = Gone) \/ exists i, row = Some i /\ in_NodeID i = NodeID.
Proof using Type.
  assert (forall p, row_running p row -> exists i, row = Some i /\ in_NodeID i = NodeID) as Hrun
    by (intros p (i & -> & Hn & _); eauto).
  destruct L as [k|p| | | |]; cbn [life_of].
  - intros [_ Hrow]. right. by apply row_new_on.
  - intros [_ [Hrow|Hrow]]; right; [by apply row_new_on|eauto].
  - intros [(_ & Hrow & _)|[_ Hrow]]; right; [by apply row_new_on|by apply row_on in Hrow].
  - intros [_ [Hrow|[Hrow|[Hrow _]]]]; right; [by apply row_on in Hrow..|by apply row_new_on].
  - intros [_ Hrow]. right. by apply row_on in Hrow.
  - intros [-> _]. by left.
Qed.

Context (HNode : standard NodeID) (HNode' : NodeID <> "").

(** The goroutines of a round. *)
Lemma life_reconciled L s n l pick :
  consistent s n -> life_of L (row_of s) n ->
  NoDup (tr_Id <$> l) ->
  (forall t, t ∈ l -> exists i, t_instances (cp_db s) !! tr_Id t = Some i /\ in_NodeID i = NodeID /\ told i t) ->
  (forall j i, t_instances (cp_db s) !! j = Some i -> in_NodeID i = NodeID -> exists t, t ∈ l /\ tr_Id t = j) ->
  exists n1 L1, reconcile_instances cfg pick (received <$> l) n = Some n1 /\ node_fit is_cp n1 /\
    (forall i w, recorded (table n1) i = Some w -> standard i) /\
    rtc life_step L L1 /\ life_of L1 (row_of s) n1 /\
    (forall k, L1 = Waiting k -> exists j, L = Waiting j /\ k = (j + 1)%nat) /\
    (L1 = Forgotten -> L = Forgotten).
Proof using Hcp RL.
  intros ([[Hok] Hcps] & Hn & Hstd) HL Hnd Hin Hall.
  assert (ins_Id <$> (received <$> l) = tr_Id <$> l) as Hids by (by rewrite <-list_fmap_compose).
  destruct (reconcile_instances_spec is_cp cfg pick (received <$> l) n Hn) as (n1 & E & Hn1 & Hu & HQ).
  { by rewrite Hids. }
  { intros ins (t & -> & Ht)%list_elem_of_fmap. destruct (Hin t Ht) as (i & Hi & _). by eapply Hcps. }
  rewrite Hids in Hu. exists n1.
  assert (forall i w, recorded (table n1) i = Some w -> standard i) as Hstd1.
  { intros i w Hw. destruct (decide (i ∈ tr_Id <$> l)) as [(t & -> & Ht)%list_elem_of_fmap|Hni].
    - destruct (Hin t Ht) as (r & Hr & _). by destruct (Hok _ _ Hr) as (_ & ? & _).
    - destruct (Hu i Hni) as [Er _]. rewrite Er in Hw. by eapply Hstd. }
  destruct (life_row _ _ _ HL) as [[Hrow ->]|(i & Hrow & Hni)].
  - exists Gone. do 4 (split; [done|]). split; [|done].
    eapply life_unchanged; [|exact HL]. assert (untouched id n n1) as (? & ? & _); [|done]. apply Hu.
    intros (t & Et & Ht)%list_elem_of_fmap. destruct (Hin t Ht) as (i & Hi & _).
    unfold row_of in Hrow. congruence.
  - destruct (Hall id i Hrow Hni) as (t & Ht & Hid).
    destruct (Hin t Ht) as (i' & Hi' & _ & Htold). rewrite Hid in Hi'. unfold row_of in Hrow.
    assert (i' = i) as -> by congruence.
    assert (turn i n n1) as Hturn.
    { exists t. split; [done|]. split; [done|]. intros Q HQs Ha. apply (HQ (received t) Q).
      - apply list_elem_of_fmap. eauto.
      - cbn. by rewrite Hid.
      - cbn. by rewrite Hid. }
    unfold row_of in *. rewrite Hrow in *. destruct (life_turn i n n1 Hturn L HL) as (L1 & H1 & H2 & H3 & H4).
    by exists L1.
Qed.

(** Calls of [StopWorkload] name instances. *)
Definition calls_fit (ids : list string) : Prop :=
  Forall (fun i => is_cp i = false) ids /\ Forall standard ids.

Lemma stopped_standard ids n n' :
  calls_fit ids -> (forall i, i ∉ ids -> untouched i n n') ->
  (forall i w, recorded (table n) i = Some w -> standard i) ->
  forall i w, recorded (table n') i = Some w -> standard i.
Proof using Type.
  intros [_ Hids] Hu Hstd i w Hw. destruct (decide (i ∈ ids)) as [Hi|Hi].
  - by apply (proj1 (list.Forall_forall _ _) Hids).
  - destruct (Hu i Hi) as [Er _]. rewrite Er in Hw. by eapply Hstd.
Qed.

(** The calls before the report. *)
Lemma life_stopped ids L s n :
  calls_fit ids -> consistent s n -> life_of L (row_of s) n ->
  exists n' L', stop_all ids n = Some n' /\ consistent s n' /\
    rtc life_step L L' /\ life_of L' (row_of s) n' /\
    (forall k, L' = Waiting k -> L = Waiting k) /\ (L' = Forgotten -> L = Forgotten).
Proof using Type.
  intros Hids (Hd & Hn & Hstd) HL.
  destruct (stop_all_spec is_cp ids n (proj1 Hids) Hn) as (n' & E & Hn' & _ & Hh & Hu).
  destruct (life_hit L (row_of s) n n' (Hh id) HL) as (L' & H1 & H2 & H3 & H4).
  exists n', L'. split; [done|]. split; [|done]. split; [done|]. split; [done|].
  by eapply stopped_standard.
Qed.

(** The report, the late calls and the clean-up. *)
Lemma life_ending late order L s n :
  (forall l, order l ≡ₚ l) -> calls_fit late -> consistent s n -> life_of L (row_of s) n ->
  let statuses := order (map_to_list (View (n_store n))) in
  let '(r, s2) := serve (ReceiveInstanceStatusReports_srv (tick_reports statuses (n_store n))) s in
  exists n2 L', stop_all late n = Some n2 /\
    let n3 := match r with inl _ => n2 | inr _ => with_store (tick_cleanup statuses (n_store n2)) n2 end in
    consistent s2 n3 /\ rtc life_step L L' /\ life_of L' (row_of s2) n3 /\
    (forall k, L' = Waiting k -> L = Waiting k) /\
    (id ∉ late -> L <> Forgotten -> L' <> Forgotten /\ (faultless -> known L' (row_of s2) n3)).
Proof using Hcp.
  intros Hord Hlate (Hfit & Hn & Hstd) HL statuses. destruct (serve _ s) as [r s2] eqn:Er.
  destruct (received_row order Hord s n r s2 Hstd Er) as (Ho & Hok & now & Hrows).
  assert (db_fit (cp_db s2)) as Hfit2.
  { eapply db_fit_reported; [exact Ho| |exact Hfit]. intros i. destruct (Hrows i) as [E|[_ E]]; eauto. }
  specialize (Hrows id). fold (row_of s2) (row_of s) in Hrows.
  destruct (stop_all_spec is_cp late n (proj1 Hlate) Hn) as (n2 & E & Hn2 & Hk & Hh & Hu).
  pose proof (stopped_standard late n n2 Hlate Hu Hstd) as Hstd2.
  destruct (life_report L (row_of s) n now HL) as (L1 & Hst & Hset & HW & HF). exists n2. destruct r as [e|u].
  - assert (exists L0, rtc life_step L L0 /\ life_of L0 (row_of s2) n /\
      (forall k, L0 = Waiting k -> L = Waiting k) /\ (L0 = Forgotten -> L = Forgotten))
      as (L0 & H1 & H2 & H3 & H4).
    { destruct Hrows as [-> |[_ ->]]; [exists L1|exists L]; [|done].
      split; [done|]. split; [by apply settled_life|done]. }
    destruct (life_hit L0 (row_of s2) n n2 (Hh id) H2) as (L' & H5 & H6 & H7 & H8).
    exists L'. split; [done|]. split; [done|]. split; [by transitivity L0|]. split; [done|].
    split; [by intros k ?%H7%H3|]. intros _ HF0. split; [tauto|]. intros Hf. by specialize (Hok Hf).
  - destruct Hrows as [Hrow2|[[e ?] _]]; [|done]. rewrite <-Hrow2 in Hset.
    destruct (cleanup_spec is_cp order Hord n n2 Hn Hn2 Hk) as [Hn3 Hrec]. fold statuses in Hn3, Hrec.
    set (n3 := with_store _ n2) in *.
    destruct (life_cleanup L1 (row_of s2) n n2 n3 (Hh id) eq_refl (Hrec id Hcp) Hset) as (L' & H1 & H2 & H3 & H4).
    exists L'. split; [done|]. split; [split; [done|split; [done|]]|].
    { intros i w Hw. destruct (is_cp i) eqn:Ei.
      - unfold recorded in Hw. destruct (table n3 !! i) as [v|] eqn:Ev; [|done].
        pose proof (no_table _ _ (proj1 Hn3) i v Ev) as He. unfold entry_ok in He. rewrite Ei in He.
        destruct He as [He _]. cbn in Hw. congruence.
      - rewrite (Hrec i Ei) in Hw. destruct (recorded (table n2) i) as [w'|] eqn:Ew;
          [by eapply Hstd2|by destruct (recorded (table n) i)]. }
    split; [by transitivity L1|]. split; [done|]. split; [by intros k ?%H3%HW|].
    intros Hl HF0. destruct H4 as [H5 H6]; [destruct (Hu id Hl) as (? & ? & _); by split|tauto|]. by split.
Qed.

Lemma life_round order pick calls meanwhile L s n :
  (forall l, order l ≡ₚ l) -> leaves meanwhile ->
  calls_fit (st_before calls) -> calls_fit (st_between calls) -> calls_fit (st_late calls) ->
  consistent s n -> life_of L (row_of s) n ->
  exists s' n' L', tick cfg NodeID order pick calls meanwhile s n = Some (s', n') /\ consistent s' n' /\
    rtc life_step L L' /\ life_of L' (row_of s') n' /\
    (id ∉ st_late calls -> L <> Forgotten -> L' <> Forgotten) /\
    (faultless ->
       (id ∉ st_late calls -> L <> Forgotten -> known L' (row_of s') n') /\
       forall k, L' = Waiting k -> exists j, L = Waiting j /\ k = (j + 1)%nat).
Proof using Hcp RL HNode HNode' CL.
  intros Hord Hm Hc1 Hc2 Hc3 Hc HL. unfold tick.
  destruct (life_stopped (st_before calls) L s n Hc1 Hc HL)
    as (n0 & L0 & -> & Hc0 & Hst0 & HL0 & HW0 & HF0). cbn [mbind option_bind].
  destruct (serve (DiscoverInstances_srv NodeID) s) as [r s1] eqn:Ed.
  destruct (discover_spec NodeID s r s1) as [Hdb Hd]; [apply Hc|done..|].
  destruct r as [e|l].
  { exists s1, n0, L0. split; [done|]. unfold consistent, row_of in *. rewrite Hdb. do 3 (split; [done|]).
    split; [tauto|]. intros Hf. by destruct (Hd Hf). }
  destruct Hd as (Hnd & Hin & Hall).
  destruct (life_reconciled L0 s n0 l pick Hc0 HL0 Hnd Hin Hall)
    as (n1 & L1 & -> & Hn1 & Hstd1 & Hst1 & HL1 & HW1 & HF1).
  cbn [mbind option_bind]. destruct (Hm s1) as [Hfit Hrow]; [rewrite Hdb; apply Hc|].
  assert (row_of (meanwhile s1) = row_of s) as Hrow1 by (rewrite Hrow; unfold row_of; by rewrite Hdb).
  rewrite <-Hrow1 in HL1.
  destruct (life_stopped (st_between calls) L1 (meanwhile s1) n1 Hc2 (conj Hfit (conj Hn1 Hstd1)) HL1)
    as (n2 & L2 & -> & Hc2' & Hst2 & HL2 & HW2 & HF2). cbn [mbind option_bind].
  pose proof (life_ending (st_late calls) order L2 (meanwhile s1) n2 Hord Hc3 Hc2' HL2) as He. cbv zeta in He |- *.
  destruct (serve _ (meanwhile s1)) as [r2 s2].
  destruct He as (n3 & L3 & -> & Hc3' & Hst3 & HL3 & HW3 & HK3). cbn [mbind option_bind].
  assert (L <> Forgotten -> L2 <> Forgotten) as HF by tauto.
  match type of Hc3' with consistent _ ?m => exists s2, m, L3 end.
  split; [by destruct r2|]. split; [exact Hc3'|].
  split; [by transitivity L0; [|transitivity L1; [|transitivity L2]]|]. split; [exact HL3|].
  split; [intros Hl HLF; by apply HK3; [|apply HF]|].
  intros Hf. split; [intros Hl HLF; by apply HK3; [|apply HF|]|].
  intros k (j & Hj & ->)%HW3%HW2%HW1. exists j. split; [by apply HW0|done].
Qed.

(** ** Any number of rounds *)

Record round := {
  r_before : cp -> cp;
  r_meanwhile : cp -> cp;
  r_pick : nat -> nat;
  r_stops : stops;
  r_order : list (string * Status) -> list (string * Status);
}.

Definition round_fit (r : round) : Prop :=
  leaves (r_before r) /\ leaves (r_meanwhile r) /\ (forall l, r_order r l ≡ₚ l) /\
  calls_fit (st_before (r_stops r)) /\ calls_fit (st_between (r_stops r)) /\ calls_fit (st_late (r_stops r)).

Fixpoint rounds (rs : list round) (s : cp) (n : node MemStore) : option (cp * node MemStore) :=
  match rs with
  | [] => Some (s, n)
  | r :: rs =>
      '(s', n') ← tick cfg NodeID (r_order r) (r_pick r) (r_stops r) (r_meanwhile r) (r_before r s) n;
      rounds rs s' n'
  end.

(** The instance is not stopped between a report and the clean-up after it. *)
Definition never_late (rs : list round) : Prop := Forall (fun r => id ∉ st_late (r_stops r)) rs.

Lemma life_rounds rs : Forall round_fit rs -> forall L s n,
  consistent s n -> life_of L (row_of s) n ->
  exists s' n' L', rounds rs s n = Some (s', n') /\ rtc life_step L L' /\ life_of L' (row_of s') n' /\
    (faultless ->
       (never_late rs -> L <> Forgotten -> rs <> [] \/ known L (row_of s) n -> known L' (row_of s') n') /\
       forall k, L' = Waiting k -> exists j, L = Waiting j /\ k = (j + length rs)%nat).
Proof using Hcp RL HNode HNode' CL.
  induction 1 as [|r rs (Hb & Hm & Ho & H1 & H2 & H3) Hrs IH]; intros L s n Hc HL.
  { exists s, n, L. split; [done|]. split; [done|]. split; [done|]. intros _. split; [by intros _ _ [?|?]|].
    intros k ->. exists k. split; [done|cbn; lia]. }
  destruct (Hb s (proj1 Hc)) as [Hfit Hrow].
  destruct (life_round (r_order r) (r_pick r) (r_stops r) (r_meanwhile r) L (r_before r s) n Ho Hm H1 H2 H3)
    as (s1 & n1 & L1 & E & Hc1 & Hst & HL1 & HF1 & Hf1); [by split; [|apply Hc]|by rewrite Hrow|].
  destruct (IH L1 s1 n1 Hc1 HL1) as (s' & n' & L' & E' & Hst' & HL' & Hf').
  exists s', n', L'. cbn [rounds]. rewrite E. cbn [mbind option_bind]. split; [exact E'|].
  split; [by transitivity L1|]. split; [done|]. intros Hf.
  destruct (Hf1 Hf) as [Hk1 HW1], (Hf' Hf) as [Hk' HW']. split.
  - intros [Hl Hls]%Forall_cons_1 HLF _. apply Hk'; [done|by apply HF1|right; by apply Hk1].
  - intros k Hk. destruct (HW' k Hk) as (j & Hj & ->). destruct (HW1 j Hj) as (i & -> & ->).
    exists i. split; [done|]. cbn. lia.
Qed.
End lifecycle.

Lemma waiting_bound L L' :
  rtc life_step L L' -> (forall k, L = Waiting k -> (k <= 5)%nat) -> forall k, L' = Waiting k -> (k <= 5)%nat.
Proof.
  induction 1 as [L|L L1 L' Hs _ IH]; intros HL; [done|]. apply IH.
  intros k ->. inversion Hs; subst. lia.
Qed.

(** C9: the life of an instance.  From the moment that its row is created, over
    any number of rounds of its node, whatever the container runtime answers,
    however the goroutines of each round are scheduled, whichever workloads are
    stopped before or after the goroutines of a round or between its report and
    its clean-up, whatever the control plane does to other rows and whichever
    statements fail in the database, no goroutine panics and what the control
    plane and the node hold of the instance agrees with one phase of its life,
    each of which leads to the next: it is tried at most five times, then runs
    or is given up or stopped, and is removed only after that; when it is
    stopped between a report and the clean-up, the node forgets it while the
    control plane still has it running.  If the database answers, six rounds are
    enough for it not to be waiting any more, and if in addition it was never
    stopped between a report and the clean-up, the control plane then knows the
    state and the port that the node has. *)
Theorem instance_lifecycle (CE : CpEnv) (CL : CpLaws CE) (R : RandSource) (RL : RandLaws R)
    (W : WorkloadService) (En : Env) (is_cp : string -> bool) (cfg : reconcilerConfig) (NodeID id : string)
    (rs : list round) (s : cp) (n : node MemStore) :
  standard NodeID -> NodeID <> "" -> consistent is_cp s n ->
  row_is NodeID "PENDING" (row_of id s) -> n_attempts n !! id = None -> recorded (table n) id = None ->
  Forall (round_fit is_cp id) rs ->
  exists s' n' L, rounds cfg NodeID rs s n = Some (s', n') /\
    rtc life_step (Waiting 0) L /\ life_of NodeID id L (row_of id s') n' /\
    (faultless -> (6 <= length rs)%nat ->
       (forall k, L <> Waiting k) /\ (never_late id rs -> known NodeID id L (row_of id s') n')).
Proof.
  intros HN HN' Hc Hrow Ha Hr Hrs.
  assert (is_cp id = false) as Hcp.
  { destruct Hrow as (i & Hi & _). destruct Hc as ([_ Hcps] & _). by eapply Hcps. }
  destruct (life_rounds is_cp cfg NodeID id Hcp HN HN' rs Hrs (Waiting 0) s n Hc)
    as (s' & n' & L & E & Hst & HL & Hf).
  { split; [|by left]. split; [unfold attempts_of; by rewrite Ha|]. by rewrite Hr. }
  exists s', n', L. split; [done|]. split; [done|]. split; [done|]. intros Hfl Hlen.
  destruct (Hf Hfl) as [Hk HW]. split.
  - intros k ->. destruct (HW k eq_refl) as (j & [= <-] & ->).
    assert (0 + length rs <= 5)%nat; [|lia]. eapply (waiting_bound _ _ Hst); [|reflexivity]. intros k [= <-]. lia.
  - intros Hl. apply Hk; [done|done|left; intros ->; cbn in Hlen; lia].
Qed.

(** ** Example *)

(** Two instances are scheduled in turns; x cannot be started, and y is stopped
    in one of the rounds. *)
Definition demo_round (stopped : list string) : round :=
  {| r_before s := send "other" s; r_meanwhile s := send "other" s; r_pick t := (t `mod` 2)%nat;
     r_stops := {| st_before := []; st_between := stopped; st_late := [] |}; r_order := reverse |}.

Definition demo_rounds : list round := replicate 5 (demo_round []) ++ [demo_round ["y"]].

Lemma instance_lifecycle_witness :
  (exists s n L, rounds demo_cfg "n" demo_rounds (demo_cp 9 ["x"; "y"]) (fresh_node 30000 30100)
      = Some (s, n) /\ rtc life_step (Waiting 0) L /\ life_of "n" "x" L (row_of "x" s) n /\
      (forall k, L <> Waiting k) /\ known "n" "x" L (row_of "x" s) n) /\
  (fun x : cp * node MemStore => (in_State <$> row_of "x" x.1, in_Port <$> row_of "y" x.1)) <$>
    rounds demo_cfg "n" demo_rounds (demo_cp 9 ["x"; "y"]) (fresh_node 30000 30100)
  = Some (Some "CREATION_FAILED", None).
Proof.
  split; [|vm_compute; reflexivity].
  destruct (instance_lifecycle demo_cp_env demo_cp_laws ref_rand ref_rand_laws demo_service idle_env
    no_checkpoints demo_cfg "n" "x" demo_rounds (demo_cp 9 ["x"; "y"]) (fresh_node 30000 30100))
    as (s & n & L & H1 & H2 & H3 & H4).
  - reflexivity.
  - done.
  - split; [split; [|done]|split; [split; [apply fresh_node_ok; lia|cbn; lia]|]].
    + apply demo_listable; apply (bool_decide_unpack _); vm_compute; exact I.
    + done.
  - exists (demo_row "x"). vm_compute. auto.
  - reflexivity.
  - reflexivity.
  - assert (forall l, calls_fit no_checkpoints l -> round_fit no_checkpoints "x" (demo_round l)) as Hfit.
    { intros l Hl. split; [done|]. split; [done|]. split; [intros v; apply reverse_Permutation|].
      split; [by split; constructor|]. split; [exact Hl|by split; constructor]. }
    apply list.Forall_app. split; [apply list.Forall_replicate, Hfit; by split; constructor|].
    constructor; [|constructor]. apply Hfit. split; repeat constructor.
  - exists s, n, L. destruct H4 as [H5 H6]; [apply demo_faultless|cbn; lia|]. repeat (split; [done|]).
    apply H6. repeat constructor; apply not_elem_of_nil.
Defined.
