(* ===== verification/Cri.v ===== *)
(** * The container runtime and the service in front of it

    platformd runs containers through the container runtime interface (CRI).
    The runtime is another program: what platformd relies on is stated as a
    relation between the tables of the runtime before and after a call
    ([effect]), following the documentation of the interface.  Every call may
    fail, and an error leaves open whether the call took effect.  The functions
    of [platformd/cri/service.go] are programs over these calls ([prog]); they
    are reasoned about amid other programs that use the same runtime ([rg]). *)

From Stdlib Require Import Ascii.
From S2P Require Import Prelude Go GoStrings Node.

(** ** The runtime *)

(** [runtimev1.PodSandbox]: metadata and annotations are those of the
    configuration. *)
Record Pod := { pd_Id : string; pd_Config : PodSandboxConfig; pd_Labels : gmap string string }.

(** [runtimev1.Container] without its state, which may change at any time. *)
Record Ctr := { ct_Id : string; ct_Pod : string; ct_Config : ContainerConfig }.

(** What a runtime holds: pods, containers, tags of images, entries of the
    directory for logs, and the ids that it gave out. *)
Record view := mk_view {
  v_pods : list Pod;
  v_ctrs : list Ctr;
  v_tags : gset string;
  v_logs : gset string;
  v_used : gset string;
}.

(** [runtimev1.ContainerState], an open enumeration *)
Definition CONTAINER_CREATED : Z := 0.
Definition CONTAINER_RUNNING : Z := 1.
Definition CONTAINER_EXITED : Z := 2.
Definition CONTAINER_UNKNOWN : Z := 3.

(** [ContainerFilter]: by a label or by the pod *)
Inductive ctr_filter := ByLabel (label value : string) | ByPod (pod : string).

Definition selects (f : ctr_filter) (c : Ctr) : Prop :=
  match f with
  | ByLabel label value => ctr_Labels (ct_Config c) !! label = Some value
  | ByPod pod => ct_Pod c = pod
  end.
#[global] Instance selects_dec f c : Decision (selects f c).
Proof. destruct f; unfold selects; apply _. Defined.

(** Calls of the runtime, and of the operating system around it. *)
Inductive rt_call : Type -> Type :=
| ListImages : rt_call (list (list string))
| PullImage (url user pass : string) : rt_call unit
| RtRunPodSandbox (cfg : PodSandboxConfig) : rt_call string
| RtListPodSandbox (label value : string) : rt_call (list Pod)
| RtStopPodSandbox (pod : string) : rt_call unit
| RtRemovePodSandbox (pod : string) : rt_call unit
| CreateContainer (pod : string) (cfg : ContainerConfig) (sandbox : PodSandboxConfig) : rt_call string
| StartContainer (ctr : string) : rt_call unit
| RemoveContainer (ctr : string) : rt_call unit
| ListContainers (f : ctr_filter) : rt_call (list (Ctr * Z))
| ContainerStatus (ctr : string) (verbose : bool) : rt_call (gmap string string)
| RestartCrio : rt_call unit
| FindProcess (pid : Z) : rt_call unit
| SignalCont (pid : Z) : rt_call unit
| ReadLogDir : rt_call (list string)
| RemoveTree (path : string) : rt_call unit.

Definition log_path (name : string) : string := PodLogDir +:+ "/" +:+ name.

Definition has_pod (v : view) (id : string) : Prop := id ∈ (pd_Id <$> v_pods v).
#[global] Instance has_pod_dec v id : Decision (has_pod v id).
Proof. unfold has_pod. apply _. Defined.

(** A call with the result [x] took effect. *)
Definition effect {X} (c : rt_call X) (v : view) (x : X) (v' : view) : Prop :=
  match c in rt_call X return X -> Prop with
  | ListImages => fun imgs => v' = v /\ forall t, t ∈ v_tags v <-> exists img, img ∈ imgs /\ t ∈ img
  | PullImage url _ _ => fun _ =>
      v' = mk_view (v_pods v) (v_ctrs v) ({[url]} ∪ v_tags v) (v_logs v) (v_used v)
  | RtRunPodSandbox cfg => fun id => (id ∉ v_used v) /\ exists labels logs,
      pod_Labels cfg ⊆ labels /\ labels !! LabelWorkloadID = pod_Labels cfg !! LabelWorkloadID /\
      v_logs v ⊆ logs /\
      v' = mk_view ({| pd_Id := id; pd_Config := cfg; pd_Labels := labels |} :: v_pods v)
             (v_ctrs v) (v_tags v) logs ({[id]} ∪ v_used v)
  | RtListPodSandbox label value => fun l =>
      v' = v /\ (l ≡ₚ filter (fun p => pd_Labels p !! label = Some value) (v_pods v))
  | RtRemovePodSandbox pod => fun _ =>
      v' = mk_view (filter (fun p => pd_Id p <> pod) (v_pods v))
             (filter (fun c => ct_Pod c <> pod) (v_ctrs v)) (v_tags v) (v_logs v) (v_used v)
  | CreateContainer pod cfg _ => fun id => (id ∉ v_used v) /\ has_pod v pod /\
      v' = mk_view (v_pods v) ({| ct_Id := id; ct_Pod := pod; ct_Config := cfg |} :: v_ctrs v)
             (v_tags v) (v_logs v) ({[id]} ∪ v_used v)
  | RemoveContainer ctr => fun _ =>
      v' = mk_view (v_pods v) (filter (fun c => ct_Id c <> ctr) (v_ctrs v)) (v_tags v) (v_logs v) (v_used v)
  | ListContainers f => fun l => v' = v /\ (l.*1) ≡ₚ filter (selects f) (v_ctrs v)
  | ReadLogDir => fun l => v' = v /\ (l ≡ₚ elements (v_logs v))
  | RemoveTree path => fun _ =>
      v' = mk_view (v_pods v) (v_ctrs v) (v_tags v)
             (filter (fun name => log_path name <> path) (v_logs v)) (v_used v)
  | RtStopPodSandbox _ => fun _ => v' = v
  | StartContainer _ => fun _ => v' = v
  | ContainerStatus _ _ => fun _ => v' = v
  | RestartCrio => fun _ => v' = v
  | FindProcess _ => fun _ => v' = v
  | SignalCont _ => fun _ => v' = v
  end x.

(** An error leaves open whether the call took effect. *)
Definition answers {X} (c : rt_call X) (v : view) (r : string + X) (v' : view) : Prop :=
  match r with
  | inr x => effect c v x v'
  | inl _ => v' = v \/ exists x, effect c v x v'
  end.

(** A runtime, and what it promises. *)
Class Runtime := {
  rt : Type;
  rt_view : rt -> view;
  rt_do : forall X : Type, rt_call X -> rt -> (string + X) * rt;
}.
Arguments rt_do {Runtime X} _ _.

Class RuntimeLaws (R : Runtime) : Prop := {
  rt_answers {X} (c : rt_call X) s : answers c (rt_view s) (rt_do c s).1 (rt_view (rt_do c s).2);
}.

(** ** Programs over the runtime *)

Inductive prog (A : Type) : Type :=
| Ret (a : A)
| Do (X : Type) (c : rt_call X) (k : string + X -> prog A).
Arguments Ret {A} a.
Arguments Do {A X} c k.

#[global] Instance prog_ret : MRet prog := fun A a => Ret a.
#[global] Instance prog_bind : MBind prog := fun A B f =>
  fix go (p : prog A) : prog B :=
    match p with
    | Ret a => f a
    | Do c k => Do c (fun r => go (k r))
    end.

Definition req {X} (c : rt_call X) : prog (string + X) := Do c Ret.

(** [x, err := p; if err != nil { return fmt.Errorf("msg: %w", err) }] *)
Definition try {X A} (msg : string) (p : prog (string + X)) (k : X -> prog (string + A))
    : prog (string + A) :=
  r ← p; match r with inl err => mret (inl (msg +:+ ": " +:+ err)) | inr x => k x end.

(** A program that runs alone. *)
Fixpoint exec {R : Runtime} {A} (p : prog A) (s : rt) : A * rt :=
  match p with
  | Ret a => (a, s)
  | Do c k => let (r, s') := rt_do c s in exec (k r) s'
  end.

(** ** cri/service.go *)

Definition LabelPodUID : string := "io.kubernetes.pod.uid".

(** [json.Unmarshal] into a [ContainerInfo] *)
Class InfoJson := { unmarshal_info : string -> string + ContainerInfo }.

Definition RunContainer (pod : string) (cfg : ContainerConfig) (sandbox : PodSandboxConfig)
    : prog (string + string) :=
  try "create container" (req (CreateContainer pod cfg sandbox)) (fun ctr =>
  try "start container" (req (StartContainer ctr)) (fun _ =>
  mret (inr ctr))).

(** The boolean: the image was pulled. *)
Definition EnsureImage (imageURL user pass : string) : prog (string + bool) :=
  try "list images" (req ListImages) (fun imgs =>
  if existsb (fun tags => bool_decide (imageURL ∈ tags)) imgs then mret (inr false) else
  try "pull image" (req (PullImage imageURL user pass)) (fun _ =>
  mret (inr true))).

Definition ContainerInfo {J : InfoJson} (id : string) : prog (string + ContainerInfo) :=
  try "get container status" (req (ContainerStatus id true)) (fun info =>
  match info !! "info" with
  | None => mret (inl "info key missing")
  | Some data =>
      match unmarshal_info data with
      | inl err => mret (inl ("unmarshal: " +:+ err))
      | inr i => mret (inr i)
      end
  end).

(** [RunOptions] *)
Record RunOptions := {
  ro_PodConfig : PodSandboxConfig;
  ro_ContainerConfig : ContainerConfig;
  ro_User : string;
  ro_Pass : string;
}.

(** The log path and the name are set by [EnsurePod]. *)
Definition ensured_config (opts : RunOptions) : ContainerConfig :=
  let pod := ro_PodConfig opts in
  let c := ro_ContainerConfig opts in
  {| ctr_Name := pod_Name pod; ctr_Image := ctr_Image c; ctr_Labels := ctr_Labels c;
     ctr_LogPath := pod_Namespace pod +:+ "_" +:+ pod_Name pod; ctr_Mounts := ctr_Mounts c;
     ctr_RunAs := ctr_RunAs c; ctr_Envs := ctr_Envs c |}.

Definition EnsurePod (opts : RunOptions) : prog (string + unit) :=
  let pod := ro_PodConfig opts in
  try "list pod sandbox" (req (RtListPodSandbox LabelPodUID (pod_Uid pod))) (fun items =>
  if negb (length items =? 0)%nat then mret (inr tt) else
  try "create pod" (req (RtRunPodSandbox pod)) (fun podID =>
  try "ensure image" (EnsureImage (ctr_Image (ro_ContainerConfig opts)) (ro_User opts) (ro_Pass opts)) (fun _ =>
  try "run container" (RunContainer podID (ensured_config opts) pod) (fun _ =>
  mret (inr tt))))).

(** ** Amid others *)

(** The pods and containers of a workload. *)
Definition wl_pods (id : string) (v : view) : list Pod :=
  filter (fun p => pd_Labels p !! LabelWorkloadID = Some id) (v_pods v).
Definition wl_ctrs (id : string) (v : view) : list Ctr :=
  filter (selects (ByLabel LabelWorkloadID id)) (v_ctrs v).

(** The tables fit together: ids are unique and were given out, and a container
    is in a pod of the same workload. *)
Record view_ok (v : view) : Prop := {
  vo_pods : NoDup (pd_Id <$> v_pods v);
  vo_used : forall p, p ∈ v_pods v -> pd_Id p ∈ v_used v;
  vo_ctrs : forall c, c ∈ v_ctrs v -> exists p, p ∈ v_pods v /\ pd_Id p = ct_Pod c /\
    forall id, selects (ByLabel LabelWorkloadID id) c -> pd_Labels p !! LabelWorkloadID = Some id;
}.

(** What happens to the runtime, whoever uses it: ids are not used again and
    images stay. *)
Record evolves (v v' : view) : Prop := {
  ev_ok : view_ok v';
  ev_used : v_used v ⊆ v_used v';
  ev_tags : v_tags v ⊆ v_tags v';
  ev_dead : forall x, x ∈ v_used v -> ~ has_pod v x -> ~ has_pod v' x;
}.

Definition same (id : string) (v v' : view) : Prop :=
  wl_pods id v' = wl_pods id v /\ wl_ctrs id v' = wl_ctrs id v.

(** What a program for the workload [id] expects of others, and what it grants
    them: their pods and containers, and directories that are not named after
    [id]. *)
Definition expects (id : string) (v v' : view) : Prop := evolves v v' /\ same id v v'.
Definition grants (id : string) (v v' : view) : Prop :=
  evolves v v' /\ (forall id', id' <> id -> same id' v v') /\
  forall name, Contains name id = false -> name ∈ v_logs v -> name ∈ v_logs v'.

Lemma evolves_refl v : view_ok v -> evolves v v.
Proof. by split. Qed.

Lemma evolves_trans v1 v2 v3 : evolves v1 v2 -> evolves v2 v3 -> evolves v1 v3.
Proof.
  intros [A1 A2 A3 A4] [B1 B2 B3 B4]. split; [done|by etransitivity..|].
  intros x Hx Hn. apply B4; [by apply A2|by apply A4].
Qed.

Lemma same_trans id v1 v2 v3 : same id v1 v2 -> same id v2 v3 -> same id v1 v3.
Proof. intros [A1 A2] [B1 B2]. split; by etransitivity. Qed.

Lemma expects_refl id v : view_ok v -> expects id v v.
Proof. intros. by split; [apply evolves_refl|]. Qed.

Lemma expects_trans id v1 v2 v3 : expects id v1 v2 -> expects id v2 v3 -> expects id v1 v3.
Proof. intros [A1 A2] [B1 B2]. split; [by eapply evolves_trans|by eapply same_trans]. Qed.

Lemma grants_refl id v : view_ok v -> grants id v v.
Proof. intros. by split; [apply evolves_refl|]. Qed.

Lemma grants_trans id v1 v2 v3 : grants id v1 v2 -> grants id v2 v3 -> grants id v1 v3.
Proof.
  intros (A1 & A2 & A3) (B1 & B2 & B3). split; [by eapply evolves_trans|]. split; [|by auto]. intros i Hi.
  eapply same_trans; [by apply A2|by apply B2].
Qed.

#[export] Hint Resolve evolves_refl expects_refl grants_refl : core.

(** Whatever the others do before each call, as long as it is expected, the
    program's calls do what it grants, and [Q] holds at its end. *)
Fixpoint rg {A} (id : string) (p : prog A) (Q : A -> view -> Prop) (v : view) : Prop :=
  match p with
  | Ret a => Q a v
  | Do c k => forall v1, expects id v v1 -> forall r v2, answers c v1 r v2 ->
      grants id v1 v2 /\ rg id (k r) Q v2
  end.

Lemma rg_mono {A} id (p : prog A) (P Q : A -> view -> Prop) : forall v,
  (forall a v', P a v' -> Q a v') -> rg id p P v -> rg id p Q v.
Proof.
  induction p as [a|X c k IH]; intros v HPQ; cbn; [apply HPQ|].
  intros H v1 Hr r v2 Ha. destruct (H v1 Hr r v2 Ha) as [Hg Hk]. split; [done|]. by apply IH.
Qed.

Lemma rg_bind {A B} id (p : prog A) (f : A -> prog B) Q : forall v,
  rg id p (fun a v' => rg id (f a) Q v') v -> rg id (p ≫= f) Q v.
Proof.
  induction p as [a|X c k IH]; intros v; cbn; [done|].
  intros H v1 Hr r v2 Ha. destruct (H v1 Hr r v2 Ha) as [Hg Hk]. split; [done|]. by apply IH.
Qed.

(** A call that may fail: what holds after an error, and after a result. *)
Lemma rg_try {X A} id msg (p : prog (string + X)) (k : X -> prog (string + A)) Q v :
  rg id p (fun r v' => match r with
    | inl err => Q (inl (msg +:+ ": " +:+ err)) v'
    | inr x => rg id (k x) Q v' end) v ->
  rg id (try msg p k) Q v.
Proof. intros H. apply rg_bind. eapply rg_mono; [|exact H]. by intros [err|x] v'. Qed.

Lemma rg_step {X A} id msg (p : prog (string + X)) (k : X -> prog (string + A)) P Q v :
  rg id p P v -> (forall err v', P (inl err) v' -> Q (inl (msg +:+ ": " +:+ err)) v') ->
  (forall x v', P (inr x) v' -> rg id (k x) Q v') -> rg id (try msg p k) Q v.
Proof. intros Hp He Hk. apply rg_try. eapply rg_mono; [|exact Hp]. intros [err|x] v'; auto. Qed.

(** A call that only reads. *)
Definition reads {X} (c : rt_call X) : Prop := forall v x v', effect c v x v' -> v' = v.

Lemma rg_read {X A} id (c : rt_call X) (k : string + X -> prog A) Q v :
  reads c ->
  (forall v1 r, expects id v v1 -> (forall x, r = inr x -> effect c v1 x v1) -> rg id (k r) Q v1) ->
  rg id (Do c k) Q v.
Proof.
  intros Hc H v1 Hr r v2 Ha. assert (v2 = v1) as ->.
  { destruct r as [err|x]; [|by eapply Hc]. destruct Ha as [->|[x Hx]]; [done|by eapply Hc]. }
  split; [apply grants_refl, Hr|]. apply H; [done|]. by intros x ->.
Qed.

Lemma req_read {X} id (c : rt_call X) v :
  reads c -> rg id (req c) (fun r v' => expects id v v' /\ forall x, r = inr x -> effect c v' x v') v.
Proof. intros Hc. apply rg_read; [done|]. by intros v1 r He Hx. Qed.

Ltac solve_reads :=
  let H := fresh in intros ? ? ? H; cbn in H; first [exact H | exact (proj1 H)].

(** Alone, a program does what it does amid others. *)
Lemma exec_rg `{RuntimeLaws} {A} id (p : prog A) Q : forall s,
  view_ok (rt_view s) -> rg id p Q (rt_view s) ->
  Q (exec p s).1 (rt_view (exec p s).2) /\ grants id (rt_view s) (rt_view (exec p s).2).
Proof.
  induction p as [a|X c k IH]; intros s Hs Hp; cbn in *; [by auto|].
  pose proof (rt_answers c s) as Ha. destruct (rt_do c s) as [r s']. cbn [fst snd] in Ha.
  destruct (Hp (rt_view s) (expects_refl id _ Hs) r (rt_view s') Ha) as [Hg Hk].
  destruct (IH r s') as [HQ Hg']; [apply Hg|done|]. split; [done|]. by eapply grants_trans.
Qed.

(** ** The calls *)

Lemma wl_pods_spec id v p : p ∈ wl_pods id v <-> p ∈ v_pods v /\ pd_Labels p !! LabelWorkloadID = Some id.
Proof. unfold wl_pods. rewrite list_elem_of_filter. tauto. Qed.

Lemma wl_ctrs_spec id v c :
  c ∈ wl_ctrs id v <-> c ∈ v_ctrs v /\ selects (ByLabel LabelWorkloadID id) c.
Proof. unfold wl_ctrs. rewrite list_elem_of_filter. tauto. Qed.

(** The pod with an id is unique. *)
Lemma pod_unique v p q : view_ok v -> p ∈ v_pods v -> q ∈ v_pods v -> pd_Id p = pd_Id q -> p = q.
Proof.
  intros [Hnd _ _] (i & Hi)%list_elem_of_lookup_1 (j & Hj)%list_elem_of_lookup_1 E.
  assert (i = j) as ->; [|congruence]. eapply (NoDup_lookup (pd_Id <$> v_pods v)); [done|..];
    rewrite list_lookup_fmap, ?Hi, ?Hj; [done|by rewrite E].
Qed.

(** A workload without pods has no containers. *)
Lemma no_pods_no_ctrs id v : view_ok v -> wl_pods id v = [] -> wl_ctrs id v = [].
Proof.
  intros [_ _ Hc] Hp. apply elem_of_nil_inv. intros c [Hin Hsel]%wl_ctrs_spec.
  destruct (Hc c Hin) as (p & Hpin & _ & Hl). assert (p ∈ wl_pods id v) as Hbad.
  { apply wl_pods_spec. split; [done|by apply Hl]. }
  rewrite Hp in Hbad. by apply elem_of_nil in Hbad.
Qed.

(** Images: the tables of pods and containers stay. *)
Lemma pull_grants id v url :
  view_ok v -> grants id v (mk_view (v_pods v) (v_ctrs v) ({[url]} ∪ v_tags v) (v_logs v) (v_used v)).
Proof.
  intros [H1 H2 H3]. split; [|done]. split; [by split|done|cbn; set_solver|done].
Qed.

Lemma wl_pods_cons id p ps cs tags logs used :
  wl_pods id (mk_view (p :: ps) cs tags logs used) =
  if decide (pd_Labels p !! LabelWorkloadID = Some id) then p :: wl_pods id (mk_view ps cs tags logs used)
  else wl_pods id (mk_view ps cs tags logs used).
Proof. done. Qed.

Lemma wl_ctrs_cons id c ps cs tags logs used :
  wl_ctrs id (mk_view ps (c :: cs) tags logs used) =
  if decide (selects (ByLabel LabelWorkloadID id) c) then c :: wl_ctrs id (mk_view ps cs tags logs used)
  else wl_ctrs id (mk_view ps cs tags logs used).
Proof. done. Qed.

(** Elements that were dropped do not matter to a filter that drops them too. *)
Lemma filter_kept {A} (P Q : A -> Prop) `{forall x, Decision (P x)} `{forall x, Decision (Q x)} (l : list A) :
  (forall x, x ∈ l -> P x -> Q x) -> filter P (filter Q l) = filter P l.
Proof.
  induction l as [|x l IH]; intros Hl; [done|].
  assert (filter P (filter Q l) = filter P l) as E by (apply IH; intros y Hy; apply Hl; by right).
  rewrite (filter_cons Q). destruct (decide (Q x)) as [Hq|Hq]; rewrite !(filter_cons P), ?E.
  - by destruct (decide (P x)).
  - rewrite decide_False; [done|]. intros Hp. apply Hq, Hl; [left|done].
Qed.

Section calls.
Context (id : string).

(** A new pod of the workload. *)
Lemma run_pod_effect cfg v podID v' :
  effect (RtRunPodSandbox cfg) v podID v' -> view_ok v -> pod_Labels cfg !! LabelWorkloadID = Some id ->
  grants id v v' /\ exists p, pd_Id p = podID /\ pd_Config p = cfg /\
    wl_pods id v' = p :: wl_pods id v /\ wl_ctrs id v' = wl_ctrs id v.
Proof using Type.
  intros (Hfresh & labels & logs & _ & El & Hlogs & ->) [H1 H2 H3] Hl. rewrite Hl in El.
  set (p := {| pd_Id := podID |}).
  assert (podID ∉ (pd_Id <$> v_pods v)) as Hnew.
  { intros (q & -> & Hq)%list_elem_of_fmap. by apply Hfresh, H2. }
  split; [split; [|split; [|intros name _; apply Hlogs]]|].
  - split; cbn.
    + split; cbn; [by apply list.NoDup_cons| |].
      * intros q [->|Hq]%elem_of_cons; cbn; [set_solver|]. apply H2 in Hq. set_solver.
      * intros c Hc. destruct (H3 c Hc) as (q & Hq & Hr). exists q. split; [by right|done].
    + set_solver.
    + done.
    + intros x Hx Hn [E|Hin]%elem_of_cons; [|by apply Hn]. cbn in E. subst x. done.
  - intros i Hi. split; [|done]. rewrite wl_pods_cons. by rewrite decide_False by (cbn; congruence).
  - exists p. split; [done|]. split; [done|]. split; [|done]. by rewrite wl_pods_cons, decide_True.
Qed.

(** A new container in a pod of the workload. *)
Lemma create_effect pod cfg sandbox v ctr v' p :
  effect (CreateContainer pod cfg sandbox) v ctr v' -> view_ok v ->
  p ∈ wl_pods id v -> pd_Id p = pod -> ctr_Labels cfg !! LabelWorkloadID = Some id ->
  grants id v v' /\ wl_pods id v' = wl_pods id v /\
  wl_ctrs id v' = {| ct_Id := ctr; ct_Pod := pod; ct_Config := cfg |} :: wl_ctrs id v.
Proof using Type.
  intros (Hfresh & _ & ->) [H1 H2 H3] [Hp Hpl]%wl_pods_spec Hpod Hl. split; [split; [|split; [|done]]|].
  - split; cbn; [split; cbn; [done| |]|set_solver..|done].
    + intros q Hq. apply H2 in Hq. set_solver.
    + intros c [->|Hc]%elem_of_cons; [|by apply H3]. exists p. split; [done|]. split; [done|].
      cbn. intros i. rewrite Hl. by intros [= <-].
  - intros i Hi. split; [done|]. rewrite wl_ctrs_cons. by rewrite decide_False by (cbn; congruence).
  - split; [done|]. by rewrite wl_ctrs_cons, decide_True.
Qed.

(** A pod of the workload goes with its containers. *)
Lemma remove_pod_effect v u v' p :
  effect (RtRemovePodSandbox (pd_Id p)) v u v' -> view_ok v -> p ∈ wl_pods id v ->
  grants id v v' /\ ~ has_pod v' (pd_Id p) /\
  wl_pods id v' = filter (fun q => pd_Id q <> pd_Id p) (wl_pods id v) /\
  wl_ctrs id v' = filter (fun c => ct_Pod c <> pd_Id p) (wl_ctrs id v).
Proof using Type.
  cbn. intros -> Hok [Hp Hpl]%wl_pods_spec. pose proof Hok as [H1 H2 H3].
  assert (forall i, i <> id -> forall q, q ∈ v_pods v -> pd_Labels q !! LabelWorkloadID = Some i -> pd_Id q <> pd_Id p) as Hother.
  { intros i Hi q Hq Hql E. assert (q = p) as -> by by eapply pod_unique. congruence. }
  split; [split; [|split; [|done]]|split; [|split]].
  - split; cbn; [split; cbn|done..|].
    + eapply sublist_NoDup; [exact H1|]. apply fmap_sublist, sublist_filter.
    + intros q [_ Hq]%list_elem_of_filter. by apply H2.
    + intros c [Hc Hin]%list_elem_of_filter. destruct (H3 c Hin) as (q & Hq & Eq & Hl). exists q.
      split; [|done]. apply list_elem_of_filter. split; [congruence|done].
    + intros x _ Hn (q & -> & [_ Hq]%list_elem_of_filter)%list_elem_of_fmap.
      apply Hn. unfold has_pod. apply list_elem_of_fmap. eauto.
  - intros i Hi. unfold same, wl_pods, wl_ctrs. cbn [v_pods v_ctrs]. split.
    + apply filter_kept. intros q Hq Hl. by eapply Hother.
    + apply filter_kept. intros c Hc Hl. destruct (H3 c Hc) as (q & Hq & <- & Hlq).
      eapply Hother; [done..|by apply Hlq].
  - intros (q & Eq & [Hne _]%list_elem_of_filter)%list_elem_of_fmap. by apply Hne.
  - unfold wl_pods. cbn. rewrite !list_filter_filter. apply list_filter_iff. tauto.
  - unfold wl_ctrs. cbn. rewrite !list_filter_filter. apply list_filter_iff. tauto.
Qed.

(** ** cri/service.go *)

Lemma ensure_image_rg url user pass v :
  view_ok v ->
  rg id (EnsureImage url user pass)
    (fun r v' => expects id v v' /\ forall b, r = inr b -> url ∈ v_tags v') v.
Proof using Type.
  intros Hok. unfold EnsureImage. apply rg_try, rg_read; [solve_reads|].
  intros v1 [err|imgs] He Hx; [by split|]. destruct (Hx imgs eq_refl) as [_ Ht].
  cbv beta iota. cbn [rg]. destruct (existsb _ imgs) eqn:Ex.
  - split; [done|]. intros _ _. apply existsb_exists in Ex as (img & Hin%list_elem_of_In & Hb).
    apply bool_decide_eq_true in Hb. apply Ht. eauto.
  - apply rg_try. intros v2 He2 r v3 Ha.
    assert (v3 = v2 \/ v3 = mk_view (v_pods v2) (v_ctrs v2) ({[url]} ∪ v_tags v2) (v_logs v2) (v_used v2)) as Hv3
      by (destruct r as [err|[]]; [destruct Ha as [?|[x ?]]|]; auto).
    assert (grants id v2 v3 /\ expects id v2 v3) as [Hg He3].
    { pose proof (ev_ok _ _ (proj1 He2)) as Hok2.
      destruct Hv3 as [-> | ->]; [auto|]. pose proof (pull_grants id v2 url Hok2) as Hp. split; [done|]. by split; [apply Hp|]. }
    split; [done|]. assert (expects id v v3) as He' by eauto using expects_trans.
    destruct r as [err|[]]; [by split|]. split; [done|]. intros _ _. cbn in Ha. subst v3.
    by apply elem_of_union_l, elem_of_singleton.
Qed.

Lemma container_info_rg {J : InfoJson} ctr v :
  view_ok v -> rg id (ContainerInfo ctr) (fun _ v' => expects id v v') v.
Proof using Type.
  intros Hok. unfold ContainerInfo. apply rg_try, rg_read; [solve_reads|].
  intros v1 [err|info] He _; [done|]. cbn. destruct (info !! "info") as [data|]; [|done].
  by destruct (unmarshal_info data).
Qed.

(** A container is started in a pod of the workload; after an error it may be
    there nevertheless. *)
Lemma run_container_rg p cfg sandbox v :
  view_ok v -> p ∈ wl_pods id v -> ctr_Labels cfg !! LabelWorkloadID = Some id ->
  rg id (RunContainer (pd_Id p) cfg sandbox) (fun r v' =>
    evolves v v' /\ wl_pods id v' = wl_pods id v /\
    match r with
    | inr ctr => wl_ctrs id v' = {| ct_Id := ctr; ct_Pod := pd_Id p; ct_Config := cfg |} :: wl_ctrs id v
    | inl _ => wl_ctrs id v' = wl_ctrs id v \/
        exists ctr, wl_ctrs id v' = {| ct_Id := ctr; ct_Pod := pd_Id p; ct_Config := cfg |} :: wl_ctrs id v
    end) v.
Proof using Type.
  intros Hok Hp Hl. unfold RunContainer. apply rg_try. intros v1 [Hev1 [Ep1 Ec1]] r v2 Ha.
  pose proof (ev_ok _ _ Hev1) as Hok1. rewrite <-Ep1 in Hp.
  assert (forall ctr, effect (CreateContainer (pd_Id p) cfg sandbox) v1 ctr v2 ->
    grants id v1 v2 /\ wl_pods id v2 = wl_pods id v /\
    wl_ctrs id v2 = {| ct_Id := ctr; ct_Pod := pd_Id p; ct_Config := cfg |} :: wl_ctrs id v) as Hc.
  { intros ctr Hc. destruct (create_effect _ _ _ _ _ _ p Hc Hok1 Hp eq_refl Hl) as (Hg & E1 & E2).
    split; [done|]. by rewrite E1, E2, Ep1, Ec1. }
  destruct r as [err|ctr]; cbn [answers] in Ha.
  - destruct Ha as [->|[ctr Hx]]; [split; [auto|]; do 2 (split; [done|]); by left|]. destruct (Hc ctr Hx) as (Hg & E1 & E2). split; [done|].
    split; [eapply evolves_trans; [done|apply Hg]|]. eauto.
  - destruct (Hc ctr Ha) as (Hg & E1 & E2). split; [done|].
    assert (evolves v v2) as Hev2 by (eapply evolves_trans; [done|apply Hg]).
    apply rg_try, rg_read; [solve_reads|]. intros v3 r [Hev3 [Ep3 Ec3]] _.
    assert (evolves v v3) by by eapply evolves_trans.
    rewrite <-Ep3 in E1. rewrite <-Ec3 in E2. destruct r as [err|[]]; cbn; eauto.
Qed.
End calls.

(** ** A runtime *)

(** The tables and the number of calls so far; [bad] says which calls fail.  An
    id is longer than all before it. *)
Section reference.
Context (bad : forall X : Type, rt_call X -> nat -> bool).

Fixpoint dashes (n : nat) : string := match n with O => "" | S n => String "-"%char (dashes n) end.
Definition new_id (used : gset string) : string := dashes (S (max_list (String.length <$> elements used))).

Definition ref_effect {X} (c : rt_call X) (v : view) : X * view :=
  match c in rt_call X return X * view with
  | ListImages => ([elements (v_tags v)], v)
  | PullImage url _ _ => (tt, mk_view (v_pods v) (v_ctrs v) ({[url]} ∪ v_tags v) (v_logs v) (v_used v))
  | RtRunPodSandbox cfg =>
      let id := new_id (v_used v) in
      (id, mk_view ({| pd_Id := id; pd_Config := cfg; pd_Labels := pod_Labels cfg |} :: v_pods v)
             (v_ctrs v) (v_tags v) (v_logs v) ({[id]} ∪ v_used v))
  | RtListPodSandbox label value =>
      (filter (fun p => pd_Labels p !! label = Some value) (v_pods v), v)
  | RtStopPodSandbox _ => (tt, v)
  | RtRemovePodSandbox pod =>
      (tt, mk_view (filter (fun p => pd_Id p <> pod) (v_pods v))
             (filter (fun c => ct_Pod c <> pod) (v_ctrs v)) (v_tags v) (v_logs v) (v_used v))
  | CreateContainer pod cfg _ =>
      let id := new_id (v_used v) in
      (id, mk_view (v_pods v) ({| ct_Id := id; ct_Pod := pod; ct_Config := cfg |} :: v_ctrs v)
             (v_tags v) (v_logs v) ({[id]} ∪ v_used v))
  | StartContainer _ => (tt, v)
  | RemoveContainer ctr =>
      (tt, mk_view (v_pods v) (filter (fun c => ct_Id c <> ctr) (v_ctrs v)) (v_tags v) (v_logs v) (v_used v))
  | ListContainers f => ((fun c => (c, CONTAINER_RUNNING)) <$> filter (selects f) (v_ctrs v), v)
  | ContainerStatus _ _ => ({["info" := "1"]}, v)
  | RestartCrio => (tt, v)
  | FindProcess _ => (tt, v)
  | SignalCont _ => (tt, v)
  | ReadLogDir => (elements (v_logs v), v)
  | RemoveTree path =>
      (tt, mk_view (v_pods v) (v_ctrs v) (v_tags v)
             (filter (fun name => log_path name <> path) (v_logs v)) (v_used v))
  end.

(** A container needs a pod. *)
Definition possible {X} (c : rt_call X) (v : view) : bool :=
  match c with CreateContainer pod _ _ => bool_decide (has_pod v pod) | _ => true end.

Definition ref_runtime : Runtime := {|
  rt := nat * view;
  rt_view := snd;
  rt_do X c s :=
    if bad X c s.1 || negb (possible c s.2) then (inl "unavailable", (S s.1, s.2))
    else let (x, v) := ref_effect c s.2 in (inr x, (S s.1, v))
|}.

Lemma new_id_fresh used : new_id used ∉ used.
Proof using Type.
  assert (forall n, String.length (dashes n) = n) as Hd by (induction n as [|n IH]; cbn; [done|by rewrite IH]).
  intros Hin%elem_of_elements. apply (list_elem_of_fmap_2 String.length), max_list_elem_of_le in Hin.
  unfold new_id in Hin. rewrite Hd in Hin. lia.
Qed.

Lemma ref_runtime_laws : RuntimeLaws ref_runtime.
Proof using Type.
  split. intros X c [k v]. cbn [rt_do ref_runtime rt_view fst snd].
  destruct (bad X c k || negb (possible c v)) eqn:E; [by left|]. apply orb_false_elim in E as [_ Hp].
  destruct c; cbn in *; try done.
  - split; [done|]. intros t. split.
    + intros Ht. exists (elements (v_tags v)). split; [left|]. by apply elem_of_elements.
    + intros (img & [->|[]%elem_of_nil]%elem_of_cons & Ht). by apply elem_of_elements in Ht.
  - split; [apply new_id_fresh|]. by exists (pod_Labels cfg), (v_logs v).
  - split; [apply new_id_fresh|]. split; [|done]. by apply negb_false_iff, bool_decide_eq_true in Hp.
  - split; [done|]. rewrite <-list_fmap_compose. by rewrite list_fmap_id.
Qed.
End reference.

(** *** EnsurePod *)

(** Once a pod with the uid is there, [EnsurePod] does nothing, whatever the pod
    lacks. *)
Lemma ensure_pod_found `{RuntimeLaws} (opts : RunOptions) (s : rt) (p : Pod) :
  p ∈ v_pods (rt_view s) -> pd_Labels p !! LabelPodUID = Some (pod_Uid (ro_PodConfig opts)) ->
  rt_view (exec (EnsurePod opts) s).2 = rt_view s /\
  ((exec (EnsurePod opts) s).1 = inr tt \/
   exists err, (exec (EnsurePod opts) s).1 = inl ("list pod sandbox: " +:+ err)).
Proof.
  intros Hp Hl. unfold EnsurePod. cbn.
  pose proof (rt_answers (RtListPodSandbox LabelPodUID (pod_Uid (ro_PodConfig opts))) s) as Ha.
  destruct (rt_do _ s) as [[err|items] s']; cbn in Ha |- *.
  - split; [|eauto]. by destruct Ha as [->|[x [-> _]]].
  - destruct Ha as [E Hi]. destruct items as [|q items]; cbn; [|by auto].
    exfalso. assert (p ∈ ([] : list Pod)) as []%elem_of_nil. rewrite Hi. apply list_elem_of_filter. by split.
Qed.

Definition demo_system_pod : RunOptions :=
  {| ro_PodConfig :=
       {| pod_Name := "coredns"; pod_Uid := "coredns"; pod_Namespace := "explorer-system"; pod_Attempt := 0;
          pod_Hostname := "coredns"; pod_LogDirectory := PodLogDir; pod_DnsServers := []; pod_DnsOptions := [];
          pod_DnsSearches := []; pod_Labels := {[LabelPodUID := "coredns"]}; pod_Annotations := ∅;
          pod_Resources := {| res_CpuPeriod := 0; res_CpuQuota := 0; res_MemoryLimitInBytes := 0 |};
          pod_Sysctls := ∅ |};
     ro_ContainerConfig :=
       {| ctr_Name := ""; ctr_Image := "coredns"; ctr_Labels := ∅; ctr_LogPath := "";
          ctr_Mounts := []; ctr_RunAs := None; ctr_Envs := [] |};
     ro_User := ""; ro_Pass := "" |}.

(** The first pull fails. *)
Definition one_bad_pull (X : Type) (c : rt_call X) (k : nat) : bool :=
  match c with PullImage _ _ _ => (k <? 5)%nat | _ => false end.

(** A pod whose image could not be pulled is never completed: the next
    [EnsurePod] finds it and returns nil, and it has no container. *)
Lemma ensure_pod_incomplete :
  let r1 := exec (R := ref_runtime one_bad_pull) (EnsurePod demo_system_pod) (O, mk_view [] [] ∅ ∅ ∅) in
  let r2 := exec (R := ref_runtime one_bad_pull) (EnsurePod demo_system_pod) r1.2 in
  r1.1 = inl "ensure image: pull image: unavailable" /\ r2.1 = inr tt /\
  length (v_pods r2.2.2) = 1%nat /\ v_ctrs r2.2.2 = [].
Proof. vm_compute. repeat split. Qed.

#[global] Arguments exec : simpl never.
