(* ===== verification/WorkloadSvc.v ===== *)
(** * The workload service

    [platformd/workload/service.go]: a workload is a pod with two containers,
    the Minecraft server, restored from a checkpoint, and servermon.  Both carry
    the workload's id as a label, by which they are found again.  This file has
    the operations as programs over the container runtime and what they do,
    amid whatever is done there for others. *)

From Stdlib Require Import Ascii.
From S2P Require Import Prelude Go GoStrings Endian Node Reconciler Paths Cri.

#[local] Open Scope Z_scope.

(** ** Data *)

Definition AnnotationInstance : string := "explorer.chunks.cloud/instance".

(** [workload.Config], the registry's credentials and the value of
    PLATFORMD_ENABLE_CRIO_RESTART. *)
Record SvcConfig := {
  MCManagementAPIToken : string;
  ServerMonImage : string;
  ListenSockURL : string;
  ListenSockPath : string;
  SocketUID : Z;
  SocketGID : Z;
  RegistryUser : string;
  RegistryPass : string;
  EnableCrioRestart : string;
}.

(** [protojson.Marshal] and [protojson.Unmarshal] of an instance *)
Class InstanceJson := {
  marshal_instance : Instance -> string + string;
  unmarshal_instance : string -> string + Instance;
}.

(** [Metadata]; the description and the tags of the chunk and the other fields of
    the version, which are copied as they are, are left out *)
Record Metadata := {
  md_ID : string;
  md_ChunkID : string;
  md_ChunkName : string;
  md_ChunkCreatedAt : Z;
  md_ChunkUpdatedAt : Z;
  md_FlavorVersionID : string;
  md_FlavorVersion : string;
  md_OrderedBy : string;
}.

(** A conversion from uint64 to int64. *)
Definition cast_i64 (z : Z) : Z := let r := z mod 2 ^ 64 in if r <? 2 ^ 63 then r else r - 2 ^ 64.

(** [filepath.Dir] *)
Definition Dir (path : string) : string :=
  Clean (join Separator (removelast (split_on Separator path) ++ [""])).

(** Spaces, then underscores, become dashes. *)
Definition dashed (name : string) : string := replace_char "_"%char "-"%char (replace_char " "%char "-"%char name).

(** The name of the directory in [PodLogDir]. *)
Definition logDirName (ins : Instance) : string :=
  dashed (ins_ChunkName ins) +:+ "_" +:+ dashed (ins_FlavorName ins) +:+ "_" +:+ ins_Version ins +:+ "_"
    +:+ ins_ChunkId ins +:+ "_" +:+ ins_FlavorVersionId ins +:+ "_" +:+ ins_Id ins +:+ "_" +:+ ins_OwnerId ins.

Definition podLogDir (ins : Instance) : string := PodLogDir +:+ "/" +:+ logDirName ins.

Section service.
Context {J : InfoJson} {IJ : InstanceJson} (cfg : SvcConfig).

(** ** RunWorkload *)

Definition sboxCfg (w : Workload) (attempt : Z) (data : string) : PodSandboxConfig :=
  {| pod_Name := wl_Name w;
     pod_Uid := wl_ID w;
     pod_Namespace := wl_Namespace w;
     pod_Attempt := cast_u32 attempt;
     pod_Hostname := wl_Hostname w;
     pod_LogDirectory := podLogDir (wl_Instance w);
     pod_DnsServers := ["10.0.0.53"];
     pod_DnsOptions := ["edns0"; "trust-ad"];
     pod_DnsSearches := ["."];
     pod_Labels := wl_Labels w;
     pod_Annotations := {[AnnotationInstance := data]};
     pod_Resources := {| res_CpuPeriod := cast_i64 (wl_CPUPeriod w);
                         res_CpuQuota := cast_i64 (wl_CPUQuota w);
                         res_MemoryLimitInBytes := cast_i64 (wl_MemoryLimitBytes w) |};
     pod_Sysctls := {["net.ipv4.ip_unprivileged_port_start" := "0"]} |}.

Definition mcServerConfig (w : Workload) : ContainerConfig :=
  {| ctr_Name := wl_Name w;
     ctr_Image := wl_CheckpointImage w;
     ctr_Labels := wl_Labels w;
     ctr_LogPath := "mcserver.log";
     ctr_Mounts := [];
     ctr_RunAs := None;
     ctr_Envs := [] |}.

Definition serverMonConfig (w : Workload) : ContainerConfig :=
  {| ctr_Name := "servermon";
     ctr_Image := ServerMonImage cfg;
     ctr_Labels := {[LabelWorkloadID := wl_ID w]};
     ctr_LogPath := "servermon.slog";
     ctr_Mounts := [(Dir (ListenSockPath cfg), Dir (ListenSockPath cfg))];
     ctr_RunAs := Some (cast_i64 (SocketUID cfg), cast_i64 (SocketGID cfg));
     ctr_Envs := [("PLATFORMD_WORKLOAD_ID", wl_ID w);
                  ("SERVERMON_MC_SERVER_MANAGEMENT_API_TOKEN", MCManagementAPIToken cfg);
                  ("SERVERMON_PLATFORMD_LISTEN_SOCK", ListenSockURL cfg)] |}.

(** A freshly pulled base image needs the runtime to be restarted. *)
Definition restart_after_pull {A} (pulled : bool) (k : prog (string + A)) : prog (string + A) :=
  if String.eqb (EnableCrioRestart cfg) "true" && pulled
  then try "systemctl restart crio" (req RestartCrio) (fun _ => k)
  else k.

(** The restored server is told to go on. *)
Definition resumeServer (mcCtrID : string) : prog (string + unit) :=
  try "container info" (ContainerInfo mcCtrID) (fun info =>
  try "find process" (req (FindProcess (info_Pid info))) (fun _ =>
  try "signal process" (req (SignalCont (info_Pid info))) (fun _ =>
  mret (inr tt)))).

(** What follows once the pod is there. *)
Definition fillPod (w : Workload) (sandbox : PodSandboxConfig) (podID : string) : prog (string + unit) :=
  try "pull checkpoint image if not present"
    (EnsureImage (wl_CheckpointImage w) (RegistryUser cfg) (RegistryPass cfg)) (fun _ =>
  try "pull servermon image if not present" (EnsureImage (ServerMonImage cfg) "" "") (fun _ =>
  try "run mc server container" (RunContainer podID (mcServerConfig w) sandbox) (fun mcCtrID =>
  try "run servermon container" (RunContainer podID (serverMonConfig w) sandbox) (fun _ =>
  resumeServer mcCtrID)))).

Definition RunWorkload (w : Workload) (attempt : Z) : prog (string + unit) :=
  match marshal_instance (wl_Instance w) with
  | inl err => mret (inl ("marshalling instance: " +:+ err))
  | inr data =>
      let sandbox := sboxCfg w attempt data in
      try "pull image if not present"
        (EnsureImage (wl_BaseImage w) (RegistryUser cfg) (RegistryPass cfg)) (fun pulled =>
      restart_after_pull pulled (
      try "create pod" (req (RtRunPodSandbox sandbox)) (fillPod w sandbox)))
  end.

(** ** RemoveWorkload *)

Fixpoint removeLogDir_loop (instanceID : string) (entries : list string) : prog (string + unit) :=
  match entries with
  | [] => mret (inr tt)
  | name :: entries =>
      if Contains name instanceID
      then try "remove" (req (RemoveTree (log_path name))) (fun _ => removeLogDir_loop instanceID entries)
      else removeLogDir_loop instanceID entries
  end.

Definition removeLogDir (instanceID : string) : prog (string + unit) :=
  try "read dir" (req ReadLogDir) (removeLogDir_loop instanceID).

(** Errors are only logged. *)
Fixpoint removeContainers (l : list (Ctr * Z)) : prog unit :=
  match l with
  | [] => mret tt
  | (c, _) :: l => req (RemoveContainer (ct_Id c));; removeContainers l
  end.

Definition RemoveWorkload (id : string) : prog (string + unit) :=
  try "list pod sandbox" (req (RtListPodSandbox LabelWorkloadID id)) (fun items =>
  match items with
  | [] => mret (inr tt)
  | item :: _ =>
      let podID := pd_Id item in
      try "stop pod sandbox" (req (RtStopPodSandbox podID)) (fun _ =>
      try "remove pod sandbox" (req (RtRemovePodSandbox podID)) (fun _ =>
      try "list containers" (req (ListContainers (ByPod podID))) (fun ctrs =>
      removeContainers ctrs;;
      removeLogDir id;;
      mret (inr tt))))
  end).

(** ** GetWorkloadHealth *)

(** The first container in a known state decides. *)
Fixpoint health_of (l : list (Ctr * Z)) : health_result :=
  match l with
  | [] => Healthy
  | (_, state) :: l =>
      if state =? CONTAINER_RUNNING then Healthy
      else if (state =? CONTAINER_EXITED) || (state =? CONTAINER_CREATED) || (state =? CONTAINER_UNKNOWN)
      then Unhealthy
      else health_of l
  end.

Definition GetWorkloadHealth (id : string) : prog health_result :=
  r ← req (ListContainers (ByLabel LabelWorkloadID id));
  match r with
  | inl _ => mret HealthErr
  | inr [] => mret Unhealthy
  | inr l => mret (health_of l)
  end.

(** ** WorkloadMetadata *)

Inductive meta_error := MetaNotFound | MetaInvalid | MetaOther (msg : string).

Definition metadata_of (ins : Instance) : Metadata :=
  {| md_ID := ins_Id ins;
     md_ChunkID := ins_ChunkId ins;
     md_ChunkName := ins_ChunkName ins;
     md_ChunkCreatedAt := ins_ChunkCreatedAt ins;
     md_ChunkUpdatedAt := ins_ChunkCreatedAt ins;
     md_FlavorVersionID := ins_FlavorVersionId ins;
     md_FlavorVersion := ins_Version ins;
     md_OrderedBy := ins_OrderedBy ins |}.

(** A missing annotation reads as the empty string. *)
Definition WorkloadMetadata (id : string) : prog (meta_error + Metadata) :=
  r ← req (RtListPodSandbox LabelWorkloadID id);
  match r with
  | inl err => mret (inl (MetaOther ("list pod sandbox: " +:+ err)))
  | inr [] => mret (inl MetaNotFound)
  | inr (item :: _) =>
      let insData := default "" (pod_Annotations (pd_Config item) !! AnnotationInstance) in
      if String.eqb insData "" then mret (inl MetaInvalid) else
      match unmarshal_instance insData with
      | inl err => mret (inl (MetaOther ("unmarshal instance data: " +:+ err)))
      | inr ins => mret (inr (metadata_of ins))
      end
  end.
End service.

(** ** What RunWorkload does *)

Section run.
Context {J : InfoJson} {IJ : InstanceJson} (cfg : SvcConfig) (w : Workload) (attempt : Z).
Let id : string := wl_ID w.
Context (Hlabel : wl_Labels w !! LabelWorkloadID = Some (wl_ID w)).

Definition images : list string := [wl_BaseImage w; wl_CheckpointImage w; ServerMonImage cfg].

(** A pod was added, with containers of it. *)
Definition added (v : view) (p : Pod) (cs : list Ctr) (v' : view) : Prop :=
  evolves v v' /\ wl_pods id v' = p :: wl_pods id v /\ wl_ctrs id v' = cs ++ wl_ctrs id v.

Definition mcServer (p : Pod) (ctr : string) : Ctr :=
  {| ct_Id := ctr; ct_Pod := pd_Id p; ct_Config := mcServerConfig w |}.
Definition serverMon (p : Pod) (ctr : string) : Ctr :=
  {| ct_Id := ctr; ct_Pod := pd_Id p; ct_Config := serverMonConfig cfg w |}.

(** The pod of the attempt. *)
Definition attempt_pod (p : Pod) : Prop :=
  exists data, marshal_instance (wl_Instance w) = inr data /\ pd_Config p = sboxCfg w attempt data.

(** The outcome: the pod with both containers and all images present, or an
    error and as much of this as had been made. *)
Definition run_outcome (v : view) (r : string + unit) (v' : view) : Prop :=
  match r with
  | inr _ => exists p mc mon, attempt_pod p /\ added v p [serverMon p mon; mcServer p mc] v' /\
      forall url, url ∈ images -> url ∈ v_tags v'
  | inl _ => expects id v v' \/ exists p cs, attempt_pod p /\ added v p cs v' /\
      (cs = [] \/ (exists mc, cs = [mcServer p mc]) \/ exists mon mc, cs = [serverMon p mon; mcServer p mc])
  end.

Lemma added_expects v p cs v1 v2 : added v p cs v1 -> expects id v1 v2 -> added v p cs v2.
Proof using Type.
  intros (H1 & H2 & H3) [E1 [E2 E3]]. split; [by eapply evolves_trans|]. by rewrite E2, E3.
Qed.

Lemma added_ok v p cs v1 : added v p cs v1 -> view_ok v1.
Proof using Type. intros [H _]. apply H. Qed.

Lemma tags_expects url v1 v2 : expects id v1 v2 -> url ∈ v_tags v1 -> url ∈ v_tags v2.
Proof using Type. intros [H _]. apply (ev_tags _ _ H). Qed.

(** One more container. *)
Lemma added_container v p cs c v1 v2 :
  added v p cs v1 -> evolves v1 v2 -> wl_pods id v2 = wl_pods id v1 -> wl_ctrs id v2 = c :: wl_ctrs id v1 ->
  added v p (c :: cs) v2.
Proof using Type.
  intros (H1 & H2 & H3) Hev E1 E2. split; [by eapply evolves_trans|]. by rewrite E1, E2, H2, H3.
Qed.

Lemma run_in_pod v p cs c sandbox v1 :
  added v p cs v1 -> ctr_Labels c !! LabelWorkloadID = Some id ->
  rg id (RunContainer (pd_Id p) c sandbox) (fun r v' =>
    match r with
    | inr ctr => added v p ({| ct_Id := ctr; ct_Pod := pd_Id p; ct_Config := c |} :: cs) v'
    | inl _ => added v p cs v' \/
        exists ctr, added v p ({| ct_Id := ctr; ct_Pod := pd_Id p; ct_Config := c |} :: cs) v'
    end /\ v_tags v1 ⊆ v_tags v') v1.
Proof using Type.
  intros Ha Hl. pose proof Ha as (Hev & Ep & Ec). eapply rg_mono; [|apply run_container_rg].
  - intros [err|ctr] v' (Hev' & Ep' & Ec'); (split; [|apply Hev']).
    + destruct Ec' as [Ec'|[ctr Ec']]; [left|right; exists ctr].
      * split; [by eapply evolves_trans|]. by rewrite Ep', Ec'.
      * by eapply added_container.
    + by eapply added_container.
  - by eapply added_ok.
  - rewrite Ep. left.
  - exact Hl.
Qed.

(** Once the containers run. *)
Lemma run_signal_rg v p mc mon v1 :
  attempt_pod p -> added v p [serverMon p mon; mcServer p mc] v1 ->
  (forall url, url ∈ images -> url ∈ v_tags v1) ->
  rg id (resumeServer mc) (run_outcome v) v1.
Proof using Type.
  intros Hp Ha Ht.
  assert (forall v2, expects id v1 v2 -> added v p [serverMon p mon; mcServer p mc] v2 /\
    (forall url, url ∈ images -> url ∈ v_tags v2)) as Hstay.
  { intros v2 He. split; [by eapply added_expects|]. intros url Hu. eapply tags_expects; eauto. }
  assert (forall v2, expects id v1 v2 -> forall err, run_outcome v (inl err) v2) as Herr.
  { intros v2 [Ha2 _]%Hstay err. right. exists p, [serverMon p mon; mcServer p mc].
    do 2 (split; [done|]). right. right. eauto. }
  eapply rg_step; [apply container_info_rg; by eapply added_ok|by eauto|]. intros info v2 He2. cbv beta in He2.
  eapply rg_step; [apply req_read; solve_reads|intros err v3 [He3 _]; eauto using expects_trans|].
  intros _ v3 [He3 _].
  eapply rg_step; [apply req_read; solve_reads|intros err v4 [He4 _]; eauto using expects_trans|].
  intros _ v4 [He4 _]. destruct (Hstay v4) as [Ha4 Ht4]; [by eauto using expects_trans|].
  by exists p, mc, mon.
Qed.

(** In the pod. *)
Lemma run_pod_rg v p data v1 :
  marshal_instance (wl_Instance w) = inr data -> attempt_pod p -> added v p [] v1 ->
  wl_BaseImage w ∈ v_tags v1 ->
  rg id (fillPod cfg w (sboxCfg w attempt data) (pd_Id p)) (run_outcome v) v1.
Proof using Hlabel.
  intros Hm Hp Ha Ht.
  assert (forall cs v2 err, (cs = [] \/ (exists mc, cs = [mcServer p mc]) \/
    exists mon mc, cs = [serverMon p mon; mcServer p mc]) -> added v p cs v2 -> run_outcome v (inl err) v2) as Herr.
  { intros cs v2 err Hcs Ha2. right. exists p, cs. auto. }
  eapply rg_step; [apply ensure_image_rg; by eapply added_ok|
    intros err v2 [He _]; eapply Herr; [by left|by eapply added_expects]|].
  intros b v2 [He2 Ht2]. apply (added_expects _ _ _ _ _ Ha) in He2 as Ha2. apply (tags_expects _ _ _ He2) in Ht.
  specialize (Ht2 b eq_refl). clear Ha He2.
  eapply rg_step; [apply ensure_image_rg; by eapply added_ok|
    intros err v3 [He _]; eapply Herr; [by left|by eapply added_expects]|].
  intros b' v3 [He3 Ht3]. apply (added_expects _ _ _ _ _ Ha2) in He3 as Ha3.
  apply (tags_expects _ _ _ He3) in Ht. apply (tags_expects _ _ _ He3) in Ht2. specialize (Ht3 b' eq_refl).
  clear Ha2 He3.
  eapply rg_step; [by apply (run_in_pod v p [])| |].
  { intros err v4 [[Ha4|[mc Ha4]] _]; (eapply Herr; [|exact Ha4]); [by left|right; left; by exists mc]. }
  intros mc v4 [Ha4 Hs4].
  eapply rg_step; [apply (run_in_pod v p [mcServer p mc]); [done|by apply lookup_singleton_eq]| |].
  { intros err v5 [[Ha5|[mon Ha5]] _]; (eapply Herr; [|exact Ha5]); right; [left; by exists mc|right; by exists mon, mc]. }
  intros mon v5 [Ha5 Hs5]. apply (run_signal_rg v p mc mon); [done..|].
  intros url [->|[->|[->|[]%elem_of_nil]%elem_of_cons]%elem_of_cons]%elem_of_cons; set_solver.
Qed.

Lemma RunWorkload_rg v : view_ok v -> rg id (RunWorkload cfg w attempt) (run_outcome v) v.
Proof using Hlabel.
  intros Hok. unfold RunWorkload. destruct (marshal_instance (wl_Instance w)) as [err|data] eqn:Em; [by left; auto|].
  cbv zeta. eapply rg_step; [by apply ensure_image_rg|intros err v1 [He _]; by left|].
  intros pulled v1 [He1 Ht1]. specialize (Ht1 pulled eq_refl).
  assert (forall v2, expects id v v2 -> wl_BaseImage w ∈ v_tags v2 ->
    rg id (try "create pod" (req (RtRunPodSandbox (sboxCfg w attempt data)))
      (fillPod cfg w (sboxCfg w attempt data))) (run_outcome v) v2) as Hpod.
  { intros v2 He2 Ht2. apply rg_try. intros v3 He3 r v4 Ha4.
    assert (expects id v v3) as [Hev [Ep Ec]] by by eapply expects_trans.
    pose proof (ev_ok _ _ Hev) as Hok3. apply (tags_expects _ _ _ He3) in Ht2.
    assert (forall podID, effect (RtRunPodSandbox (sboxCfg w attempt data)) v3 podID v4 -> grants id v3 v4 /\
      exists p, pd_Id p = podID /\ attempt_pod p /\ added v p [] v4) as Hrun.
    { intros podID Hx. destruct (run_pod_effect id _ _ _ _ Hx Hok3 Hlabel) as (Hg & p & E1 & E2 & E3 & E4).
      split; [done|]. exists p. split; [done|]. split; [by exists data|].
      split; [eapply evolves_trans; [done|apply Hg]|]. by rewrite E3, E4, Ep, Ec. }
    destruct r as [err|podID]; cbn [answers] in Ha4.
    - destruct Ha4 as [->|[podID Hx]]; [split; [auto|by left]|].
      destruct (Hrun podID Hx) as [Hg (p & _ & Hp & Ha)]. split; [done|]. right. exists p, []. auto.
    - destruct (Hrun podID Ha4) as [Hg (p & <- & Hp & Ha)]. split; [done|]. apply run_pod_rg; [done..|].
      by apply (ev_tags _ _ (proj1 Hg)). }
  unfold restart_after_pull. destruct (String.eqb _ _ && pulled); [|by apply Hpod].
  eapply rg_step; [apply req_read; solve_reads|intros err v2 [He2 _]; left; by eapply expects_trans|].
  intros _ v2 [He2 _]. apply Hpod; [by eapply expects_trans|by eapply tags_expects].
Qed.
End run.

(** ** What RemoveWorkload does *)

Section remove.
Context (id : string).

(** A pod of the workload is gone, with its containers. *)
Definition dropped (v : view) (p : Pod) (v' : view) : Prop :=
  evolves v v' /\ wl_pods id v' = filter (fun q => pd_Id q <> pd_Id p) (wl_pods id v) /\
  wl_ctrs id v' = filter (fun c => ct_Pod c <> pd_Id p) (wl_ctrs id v).

(** One pod is gone, unless there was none; after an error it may be. *)
Definition remove_outcome (v : view) (r : string + unit) (v' : view) : Prop :=
  (exists p, p ∈ wl_pods id v /\ dropped v p v') \/
  expects id v v' /\ match r with inr _ => wl_pods id v = [] | inl _ => True end.

Lemma dropped_expects v p v1 v2 : dropped v p v1 -> expects id v1 v2 -> dropped v p v2.
Proof using Type.
  intros (H1 & H2 & H3) [E1 [E2 E3]]. split; [by eapply evolves_trans|]. by rewrite E2, E3.
Qed.

(** [RemoveTree] leaves the tables alone, and the logs of others. *)
Lemma remove_tree_rg name v :
  view_ok v -> Contains name id = true ->
  rg id (req (RemoveTree (log_path name))) (fun _ v' => expects id v v') v.
Proof using Type.
  intros Hok Hc v1 He r v2 Ha.
  assert (v2 = v1 \/ v2 = mk_view (v_pods v1) (v_ctrs v1) (v_tags v1)
    (filter (fun n => log_path n <> log_path name) (v_logs v1)) (v_used v1)) as Hv2
    by (destruct r as [err|[]]; [destruct Ha as [?|[x ?]]|]; auto).
  pose proof (ev_ok _ _ (proj1 He)) as Hok1. destruct Hv2 as [-> | ->]; [by auto|].
  assert (evolves v1 (mk_view (v_pods v1) (v_ctrs v1) (v_tags v1)
    (filter (fun n => log_path n <> log_path name) (v_logs v1)) (v_used v1))) as Hev
    by (destruct Hok1; by repeat split).
  split; [|eapply expects_trans; [done|by split]]. split; [done|]. split; [done|].
  intros n Hn Hin. cbn. apply elem_of_filter. split; [|done]. unfold log_path. intros E.
  assert (n = name) as -> by (by apply (inj (String.append (PodLogDir +:+ "/")))). congruence.
Qed.

Lemma remove_log_loop_rg l : forall v,
  view_ok v -> rg id (removeLogDir_loop id l) (fun _ v' => expects id v v') v.
Proof using Type.
  induction l as [|name l IH]; intros v Hok; cbn [removeLogDir_loop]; [by apply expects_refl|].
  destruct (Contains name id) eqn:Ec; [|by apply IH].
  eapply rg_step; [by apply remove_tree_rg|done|]. intros x v1 He.
  eapply rg_mono; [|apply IH, He]. intros y v2 He2. exact (expects_trans _ _ _ _ He He2).
Qed.

Lemma removeLogDir_rg v : view_ok v -> rg id (removeLogDir id) (fun _ v' => expects id v v') v.
Proof using Type.
  intros Hok. eapply rg_step; [apply req_read; solve_reads|by intros err v1 [He _]|].
  intros l v1 [He _]. eapply rg_mono; [|apply remove_log_loop_rg, He].
  intros x v2 He2. exact (expects_trans _ _ _ _ He He2).
Qed.

(** What a pod leaves behind when it is removed: no containers. *)
Lemma no_ctrs_of v pod l :
  view_ok v -> ~ has_pod v pod -> effect (ListContainers (ByPod pod)) v l v -> l = [].
Proof using Type.
  intros [_ _ Hc] Hn [_ Hl]. destruct l as [|[c st] l]; [done|]. exfalso. apply Hn.
  assert (c ∈ filter (selects (ByPod pod)) (v_ctrs v)) as [<- Hin]%list_elem_of_filter by (rewrite <-Hl; left).
  destruct (Hc c Hin) as (p & Hp & <- & _). apply list_elem_of_fmap. eauto.
Qed.

Lemma RemoveWorkload_rg v : view_ok v -> rg id (RemoveWorkload id) (remove_outcome v) v.
Proof using Type.
  intros Hok. unfold RemoveWorkload.
  assert (forall v1 err, expects id v v1 -> remove_outcome v (inl err) v1) as Herr by (intros; right; auto).
  eapply rg_step; [apply req_read; solve_reads|intros err v1 [He _]; auto|].
  intros items v1 [He1 Hx]. destruct (Hx items eq_refl) as [_ Hl]. clear Hx.
  assert (items ≡ₚ wl_pods id v) as Hitems by (destruct He1 as [_ [<- _]]; exact Hl). clear Hl.
  destruct items as [|p items].
  { right. split; [done|]. by apply Permutation_nil. }
  assert (p ∈ wl_pods id v) as Hp by (rewrite <-Hitems; left). cbv zeta.
  eapply rg_step; [apply req_read; solve_reads|intros err v2 [He2 _]; eauto using expects_trans|].
  intros _ v2 [He2 _]. assert (expects id v v2) as He by by eapply expects_trans.
  apply rg_try. intros v3 He3 r v4 Ha4.
  assert (expects id v v3) as He' by by eapply expects_trans.
  pose proof He' as [Hev [Ep Ec]]. pose proof (ev_ok _ _ Hev) as Hok3.
  assert (forall u, effect (RtRemovePodSandbox (pd_Id p)) v3 u v4 ->
    grants id v3 v4 /\ dropped v p v4 /\ ~ has_pod v4 (pd_Id p)) as Hrm.
  { intros u Hu. destruct (remove_pod_effect id v3 u v4 p Hu Hok3) as (Hg & Hn & E1 & E2); [by rewrite Ep|].
    split; [done|]. split; [|done]. split; [eapply evolves_trans; [done|apply Hg]|]. by rewrite E1, E2, Ep, Ec. }
  destruct r as [err|u]; cbn [answers] in Ha4.
  { destruct Ha4 as [->|[u Hu]]; [split; [auto|by apply Herr]|]. destruct (Hrm u Hu) as (Hg & Hd & _). split; [done|]. left. eauto. }
  destruct (Hrm u Ha4) as (Hg & Hd & Hn). split; [done|].
  assert (forall v5 r, expects id v4 v5 -> remove_outcome v r v5) as Hdone.
  { intros v5 r He5. left. exists p. split; [done|]. by eapply dropped_expects. }
  eapply rg_step; [apply req_read; solve_reads|intros err v5 [He5 _]; by apply Hdone|].
  intros l v5 [He5 Hx]. rewrite (no_ctrs_of v5 (pd_Id p) l); [|apply He5| |by apply Hx].
  - apply (rg_bind id (removeLogDir id)). eapply rg_mono; [|apply removeLogDir_rg, He5].
    intros x v6 He6. apply Hdone. exact (expects_trans _ _ _ _ He5 He6).
  - apply (ev_dead _ _ (proj1 He5)); [|done]. apply (ev_used _ _ (proj1 Hg)), (vo_used _ Hok3).
    apply (wl_pods_spec id). by rewrite Ep.
Qed.
End remove.

(** ** The operations *)

(** C11: [RunWorkload] amid whatever is done for other workloads, whichever calls
    of the runtime fail: it touches no pod, container or log directory of
    another workload; on success the workload has one pod more, made for this
    attempt, with the Minecraft server and servermon in it, and all three images
    are there; after an error it has as much of this as was made, at most one
    pod. *)
Theorem workload_started (J : InfoJson) (IJ : InstanceJson) (cfg : SvcConfig) (w : Workload) (attempt : Z)
    (v : view) :
  labelled w -> view_ok v ->
  rg (wl_ID w) (RunWorkload cfg w attempt) (fun r v' =>
    match r with
    | inr _ => exists p mc mon, attempt_pod w attempt p /\
        wl_pods (wl_ID w) v' = p :: wl_pods (wl_ID w) v /\
        wl_ctrs (wl_ID w) v' = serverMon cfg w p mon :: mcServer w p mc :: wl_ctrs (wl_ID w) v /\
        forall url, url ∈ images cfg w -> url ∈ v_tags v'
    | inl _ => wl_pods (wl_ID w) v' = wl_pods (wl_ID w) v \/
        exists p, attempt_pod w attempt p /\ wl_pods (wl_ID w) v' = p :: wl_pods (wl_ID w) v
    end) v.
Proof.
  intros Hl Hok. eapply rg_mono; [|by apply RunWorkload_rg]. intros [err|u] v'.
  - intros [[_ [Ep _]]|(p & cs & Hp & (_ & Ep & _) & _)]; eauto.
  - intros (p & mc & mon & Hp & (_ & Ep & Ec) & Ht). exists p, mc, mon. auto.
Qed.

Lemma count_dropped (l : list Pod) (p : Pod) :
  NoDup (pd_Id <$> l) -> p ∈ l -> S (length (filter (fun q => pd_Id q <> pd_Id p) l)) = length l.
Proof.
  induction l as [|q l IH]; intros Hnd Hin; [by apply elem_of_nil in Hin|].
  cbn [fmap list_fmap] in Hnd. apply list.NoDup_cons in Hnd as [Hq Hnd]. apply elem_of_cons in Hin as [->|Hin].
  - rewrite filter_cons_False by (intros H; by apply H). cbn. f_equal.
    clear -Hq. induction l as [|x l IH]; [done|]. cbn in Hq. apply not_elem_of_cons in Hq as [Hx Hq].
    rewrite filter_cons_True by congruence. cbn. f_equal. by apply IH.
  - rewrite filter_cons_True; [cbn; f_equal; by apply IH|]. intros E. apply Hq. rewrite E.
    by apply (list_elem_of_fmap_2 pd_Id).
Qed.

(** C12: [RemoveWorkload] amid whatever is done for other workloads, whichever
    calls fail: it touches nothing of another workload; when it returns nil the
    workload has one pod less, or had none, so that a workload with one pod is
    gone with all its containers; but one that had two still has the other. *)
Theorem workload_removed (id : string) (v : view) :
  view_ok v ->
  rg id (RemoveWorkload id) (fun r v' =>
    match r with
    | inr _ => length (wl_pods id v') = pred (length (wl_pods id v)) /\
        ((length (wl_pods id v) <= 1)%nat -> wl_pods id v' = [] /\ wl_ctrs id v' = [])
    | inl _ => length (wl_pods id v') = length (wl_pods id v) \/
        length (wl_pods id v') = pred (length (wl_pods id v))
    end) v.
Proof.
  intros Hok. eapply rg_mono; [|by apply RemoveWorkload_rg]. intros r v'.
  assert (forall p, p ∈ wl_pods id v -> dropped id v p v' ->
    view_ok v' /\ length (wl_pods id v') = pred (length (wl_pods id v))) as Hd.
  { intros p Hp (Hev & Ep & _). split; [by apply Hev|]. rewrite Ep, <-(count_dropped (wl_pods id v) p); [done| |done].
    eapply sublist_NoDup; [apply (vo_pods _ Hok)|]. apply fmap_sublist, sublist_filter. }
  intros [(p & Hp & Hdr)|[[Hev [Ep _]] Hr]].
  - destruct (Hd p Hp Hdr) as [Hok' Hlen]. destruct r as [err|u]; [by right|]. split; [done|]. intros Hle.
    assert (wl_pods id v' = []) as Hn by (apply nil_length_inv; lia). split; [done|by apply no_pods_no_ctrs].
  - destruct r as [err|u]; [left; by rewrite Ep|]. split; [by rewrite Ep, Hr|]. intros _. rewrite Hr in Ep.
    split; [done|]. apply no_pods_no_ctrs; [by apply Hev|done].
Qed.

(** What servermon and the metadata service are told of a workload is the
    instance that it was started for: after [RunWorkload] succeeded,
    [WorkloadMetadata] finds the pod and reads the instance back from its
    annotation, unless the runtime cannot be asked; but the time at which the
    chunk was changed is that of its creation. *)
Theorem metadata_roundtrip (Rt : Runtime) (RtL : RuntimeLaws Rt) (J : InfoJson) (IJ : InstanceJson)
    (cfg : SvcConfig) (w : Workload) (attempt : Z) (s : rt) :
  labelled w -> view_ok (rt_view s) -> wl_pods (wl_ID w) (rt_view s) = [] ->
  (forall data, marshal_instance (wl_Instance w) = inr data ->
     data <> "" /\ unmarshal_instance data = inr (wl_Instance w)) ->
  (exec (RunWorkload cfg w attempt) s).1 = inr tt ->
  let r := (exec (WorkloadMetadata (wl_ID w)) (exec (RunWorkload cfg w attempt) s).2).1 in
  (exists msg, r = inl (MetaOther msg)) \/
  exists md, r = inr md /\ md_ID md = ins_Id (wl_Instance w) /\
    md_ChunkID md = ins_ChunkId (wl_Instance w) /\ md_ChunkName md = ins_ChunkName (wl_Instance w) /\
    md_FlavorVersionID md = ins_FlavorVersionId (wl_Instance w) /\
    md_OrderedBy md = ins_OrderedBy (wl_Instance w) /\
    md_ChunkUpdatedAt md = ins_ChunkCreatedAt (wl_Instance w).
Proof.
  intros Hl Hok Hn Hjson Hrun r.
  destruct (exec_rg (wl_ID w) (RunWorkload cfg w attempt) _ s Hok (RunWorkload_rg cfg w attempt Hl _ Hok)) as [Ho _].
  rewrite Hrun in Ho. destruct Ho as (p & mc & mon & (data & Hm & Hcfg) & (Hev & Ep & _) & _).
  rewrite Hn in Ep. destruct (Hjson _ Hm) as [Hd Hu].
  set (s1 := (exec (RunWorkload cfg w attempt) s).2) in *.
  assert (rg (wl_ID w) (WorkloadMetadata (wl_ID w)) (fun r _ =>
    (exists msg, r = inl (MetaOther msg)) \/ r = inr (metadata_of (wl_Instance w))) (rt_view s1)) as Hrg.
  { apply rg_bind. eapply rg_mono; [|apply req_read; solve_reads].
    intros [err|items] v' [[_ [Ep' _]] Hx]; [left; by eexists|]. destruct (Hx items eq_refl) as [_ Hi].
    change (items ≡ₚ wl_pods (wl_ID w) v') in Hi. rewrite Ep', Ep in Hi. apply Permutation_singleton_r in Hi as ->.
    cbv beta iota zeta. rewrite Hcfg. cbn [pod_Annotations sboxCfg]. rewrite lookup_singleton_eq.
    cbn [default Datatypes.id]. rewrite (proj2 (String.eqb_neq _ _) Hd), Hu. by right. }
  destruct (exec_rg _ _ _ s1 (ev_ok _ _ Hev) Hrg) as [[Hr|Hr] _]; [by left|].
  right. exists (metadata_of (wl_Instance w)). auto 10.
Qed.

(** *** Health *)

(** The health is that of the first container that the runtime lists in a state
    that is known: the others are not looked at. *)
Lemma health_of_spec l :
  health_of l =
  match filter (fun c : Ctr * Z =>
    c.2 ∈ [CONTAINER_RUNNING; CONTAINER_EXITED; CONTAINER_CREATED; CONTAINER_UNKNOWN]) l with
  | (_, state) :: _ => if state =? CONTAINER_RUNNING then Healthy else Unhealthy
  | [] => Healthy
  end.
Proof.
  induction l as [|[c st] l IH]; [done|]. cbn [health_of].
  destruct (Z.eqb_spec st CONTAINER_RUNNING) as [-> |H1]; [by rewrite filter_cons_True by (cbn; set_solver)|].
  destruct ((st =? CONTAINER_EXITED) || _ || _) eqn:E.
  - rewrite filter_cons_True; [by rewrite (proj2 (Z.eqb_neq _ _) H1)|]. cbn [snd].
    apply orb_prop in E as [[->%Z.eqb_eq| ->%Z.eqb_eq]%orb_prop| ->%Z.eqb_eq]; set_solver.
  - apply orb_false_elim in E as [[E1%Z.eqb_neq E2%Z.eqb_neq]%orb_false_elim E3%Z.eqb_neq].
    rewrite filter_cons_False by (cbn; set_solver). exact IH.
Qed.

(** servermon has the workload's label too: while it runs and is listed first, a
    workload whose Minecraft server has exited counts as healthy. *)
Lemma exited_server_healthy (w : Workload) (cfg : SvcConfig) (p : Pod) (mon mc : string) :
  selects (ByLabel LabelWorkloadID (wl_ID w)) (serverMon cfg w p mon) /\
  health_of [(serverMon cfg w p mon, CONTAINER_RUNNING); (mcServer w p mc, CONTAINER_EXITED)] = Healthy /\
  health_of [(mcServer w p mc, CONTAINER_EXITED); (serverMon cfg w p mon, CONTAINER_RUNNING)] = Unhealthy.
Proof. split; [apply lookup_singleton_eq|by split]. Qed.

(** *** Logs *)

(** The log directory of an instance has its id in its name, so that the
    directory is among those that are removed with it. *)
Lemma log_dir_named ins : Contains (logDirName ins) (ins_Id ins) = true /\ podLogDir ins = log_path (logDirName ins).
Proof.
  split; [|done]. unfold logDirName.
  replace (dashed (ins_ChunkName ins) +:+ _) with
    ((dashed (ins_ChunkName ins) +:+ "_" +:+ dashed (ins_FlavorName ins) +:+ "_" +:+ ins_Version ins +:+ "_"
      +:+ ins_ChunkId ins +:+ "_" +:+ ins_FlavorVersionId ins +:+ "_") +:+ ins_Id ins +:+ ("_" +:+ ins_OwnerId ins)).
  - apply Contains_infix.
  - by rewrite !append_assoc.
Qed.

(** ** Examples *)

Definition demo_info : Node.ContainerInfo :=
  {| info_Pid := 1; info_CgroupsPath := "a:b:c"; info_Namespaces := [] |}.

#[global] Instance demo_info_json : InfoJson := {| unmarshal_info _ := inr demo_info |}.
#[global] Instance demo_instance_json : InstanceJson :=
  {| marshal_instance ins := inr (ins_Id ins); unmarshal_instance data := inr (demo_instance data) |}.

Definition demo_svc_cfg : SvcConfig :=
  {| MCManagementAPIToken := "token"; ServerMonImage := "servermon"; ListenSockURL := "unix:/run/p/p.sock";
     ListenSockPath := "/run/p/p.sock"; SocketUID := 1000; SocketGID := 1000; RegistryUser := "u";
     RegistryPass := "p"; EnableCrioRestart := "" |}.

Definition demo_workload : Workload := workload_of demo_cfg (demo_instance "x") 30000.

(** A runtime with nothing in it, and with two pods of the workload x. *)
Definition no_view : view := mk_view [] [] ∅ ∅ ∅.

Definition demo_pod (id : string) (attempt : Z) : Pod :=
  {| pd_Id := id; pd_Config := sboxCfg demo_workload attempt "x"; pd_Labels := wl_Labels demo_workload |}.

Definition two_pods : view := mk_view [demo_pod "a" 1; demo_pod "b" 2] [] ∅ {["chunk_x"]} {["a"; "b"]}.

Lemma no_view_ok : view_ok no_view.
Proof. split; [constructor|by intros p []%elem_of_nil|by intros c []%elem_of_nil]. Qed.

Lemma two_pods_ok : view_ok two_pods.
Proof.
  split.
  - apply (bool_decide_unpack _). vm_compute. exact I.
  - intros p [->|[->|[]%elem_of_nil]%elem_of_cons]%elem_of_cons; set_solver.
  - by intros c []%elem_of_nil.
Qed.

Definition all_well (X : Type) (c : rt_call X) (k : nat) : bool := false.

Lemma workload_started_witness :
  labelled demo_workload /\ view_ok no_view /\
  (let s := (exec (R := ref_runtime all_well) (RunWorkload demo_svc_cfg demo_workload 1) (O, no_view)).2 in
   length (wl_pods (wl_ID demo_workload) (rt_view (Runtime := ref_runtime all_well) s)) = 1%nat) /\
  match (exec (R := ref_runtime all_well) (RunWorkload demo_svc_cfg demo_workload 1) (O, no_view)).1 with
  | inr _ => True
  | inl _ => False
  end.
Proof.
  assert (labelled demo_workload) as Hl by apply workload_labelled.
  split; [exact Hl|]. split; [exact no_view_ok|].
  pose proof (exec_rg (H := ref_runtime_laws all_well) (wl_ID demo_workload)
    (RunWorkload demo_svc_cfg demo_workload 1) _ (O, no_view)
    no_view_ok (workload_started demo_info_json demo_instance_json demo_svc_cfg demo_workload 1 no_view Hl no_view_ok))
    as [Ho _].
  assert (exists u, (exec (R := ref_runtime all_well) (RunWorkload demo_svc_cfg demo_workload 1) (O, no_view)).1 = inr u)
    as [u E] by (exists tt; vm_compute; reflexivity).
  rewrite E in Ho |- *. split; [|exact I]. destruct Ho as (p & mc & mon & _ & Ep & _). cbv zeta. by rewrite Ep.
Defined.

Lemma workload_removed_witness :
  view_ok two_pods /\
  (exec (R := ref_runtime all_well) (RemoveWorkload "x") (O, two_pods)).1 = inr tt /\
  length (wl_pods "x" (rt_view (Runtime := ref_runtime all_well)
    (exec (R := ref_runtime all_well) (RemoveWorkload "x") (O, two_pods)).2)) = 1%nat.
Proof.
  split; [exact two_pods_ok|]. split; [vm_compute; reflexivity|].
  pose proof (exec_rg (H := ref_runtime_laws all_well) "x" (RemoveWorkload "x") _ (O, two_pods)
    two_pods_ok (workload_removed "x" two_pods two_pods_ok)) as [Ho _].
  assert ((exec (R := ref_runtime all_well) (RemoveWorkload "x") (O, two_pods)).1 = inr tt) as E
    by (vm_compute; reflexivity).
  rewrite E in Ho. destruct Ho as [-> _]. vm_compute. reflexivity.
Defined.

Lemma metadata_roundtrip_witness :
  let r := (exec (R := ref_runtime all_well) (WorkloadMetadata (wl_ID demo_workload))
    (exec (R := ref_runtime all_well) (RunWorkload demo_svc_cfg demo_workload 1) (O, no_view)).2).1 in
  ((exists msg, r = inl (MetaOther msg)) \/
   exists md, r = inr md /\ md_ID md = ins_Id (wl_Instance demo_workload) /\
    md_ChunkID md = ins_ChunkId (wl_Instance demo_workload) /\
    md_ChunkName md = ins_ChunkName (wl_Instance demo_workload) /\
    md_FlavorVersionID md = ins_FlavorVersionId (wl_Instance demo_workload) /\
    md_OrderedBy md = ins_OrderedBy (wl_Instance demo_workload) /\
    md_ChunkUpdatedAt md = ins_ChunkCreatedAt (wl_Instance demo_workload)) /\
  match r with inr md => md_ChunkUpdatedAt md <> ins_ChunkUpdatedAt (wl_Instance demo_workload) | inl _ => False end.
Proof.
  cbv zeta. split; [|vm_compute; discriminate].
  apply (metadata_roundtrip (ref_runtime all_well) (ref_runtime_laws all_well) demo_info_json demo_instance_json
    demo_svc_cfg demo_workload 1 (O, no_view)).
  - apply workload_labelled.
  - exact no_view_ok.
  - reflexivity.
  - intros data [= <-]. by split.
  - vm_compute. reflexivity.
Defined.
