(* ===== verification/Pods.v ===== *)
(** * The pods of an instance

    The reconciler over the real workload service: its calls are carried out by
    the container runtime, one after the other.  While no removal fails, the
    pods that the runtime has of an instance follow its life: one pod with both
    containers while it runs, none before and after. *)

From S2P Require Import Prelude Go Endian PortAlloc StatusStore Node Reconciler Tick Goroutines.
From S2P Require Import CpDb CpFlavors CpSamples Instances Reports Pages Cluster Lifecycle Cri WorkloadSvc.

#[local] Open Scope Z_scope.

(** ** The service behind the interface *)

Section service.
Context {Rt : Runtime} {J : InfoJson} {IJ : InstanceJson} (scfg : SvcConfig) (s0 : rt).

Definition perform (c : wl_call) (s : rt) : rt :=
  match c with
  | CallRun w attempt => (exec (RunWorkload scfg w attempt) s).2
  | CallRemove id => (exec (RemoveWorkload id) s).2
  | CallHealth id => (exec (GetWorkloadHealth id) s).2
  end.

(** The runtime after the calls so far. *)
Fixpoint replay (h : list wl_call) : rt :=
  match h with
  | [] => s0
  | c :: h => perform c (replay h)
  end.

(** [RemoveWorkload] returns nil where it finds no pod. *)
Definition cri_service : WorkloadService := {|
  svc_run h w attempt :=
    match (exec (RunWorkload scfg w attempt) (replay h)).1 with inr _ => true | inl _ => false end;
  svc_remove h id := match (exec (RemoveWorkload id) (replay h)).1 with inr _ => RmOk | inl _ => RmErr end;
  svc_health h id := (exec (GetWorkloadHealth id) (replay h)).1;
|}.

(** ** What the calls do to the tables *)

Context {RtL : RuntimeLaws Rt}.

Definition after (h : list wl_call) : view := rt_view (replay h).

Lemma health_rg id v : view_ok v -> rg id (GetWorkloadHealth id) (fun _ v' => expects id v v') v.
Proof using Type.
  intros Hok. apply rg_bind. eapply rg_mono; [|apply req_read; solve_reads].
  intros [err|[|c l]] v' [He _]; exact He.
Qed.

(** A call leaves the other workloads alone. *)
Lemma perform_grants c s : view_ok (rt_view s) -> call_ok c -> grants (call_id c) (rt_view s) (rt_view (perform c s)).
Proof using RtL.
  intros Hs Hc. destruct c as [w a|id|id]; cbn [perform call_id].
  - apply (exec_rg (wl_ID w) (RunWorkload scfg w a) _ s Hs (RunWorkload_rg scfg w a Hc _ Hs)).
  - apply (exec_rg id (RemoveWorkload id) _ s Hs (RemoveWorkload_rg id _ Hs)).
  - apply (exec_rg id (GetWorkloadHealth id) _ s Hs (health_rg id _ Hs)).
Qed.

Lemma others_expected id h cs :
  view_ok (after h) -> Forall (fun c => call_id c <> id /\ call_ok c) cs -> expects id (after h) (after (cs ++ h)).
Proof using RtL.
  intros Hh Hcs. induction Hcs as [|c cs [Hne Hc] _ IH]; [by apply expects_refl|].
  pose proof (perform_grants c (replay (cs ++ h)) (ev_ok _ _ (proj1 IH)) Hc) as (Hev & Hs & _).
  eapply expects_trans; [exact IH|]. split; [exact Hev|]. by apply Hs.
Qed.

(** What the calls about a workload do to it. *)
Lemma run_call_outcome h w a :
  view_ok (after h) -> labelled w ->
  run_outcome scfg w a (after h) (exec (RunWorkload scfg w a) (replay h)).1 (after (CallRun w a :: h)).
Proof using RtL.
  intros Hh Hw. apply (exec_rg (wl_ID w) (RunWorkload scfg w a) _ (replay h) Hh (RunWorkload_rg scfg w a Hw _ Hh)).
Qed.

Lemma remove_call_outcome h id :
  view_ok (after h) ->
  remove_outcome id (after h) (exec (RemoveWorkload id) (replay h)).1 (after (CallRemove id :: h)).
Proof using RtL.
  intros Hh. apply (exec_rg id (RemoveWorkload id) _ (replay h) Hh (RemoveWorkload_rg id _ Hh)).
Qed.

Lemma health_call_outcome h id : view_ok (after h) -> expects id (after h) (after (CallHealth id :: h)).
Proof using RtL.
  intros Hh. apply (exec_rg id (GetWorkloadHealth id) _ (replay h) Hh (health_rg id _ Hh)).
Qed.

(** The runtime has one pod of the workload, with its two containers. *)
Definition one_pod (id : string) (v : view) : Prop :=
  exists w a p mc mon, wl_ID w = id /\ attempt_pod w a p /\
    wl_pods id v = [p] /\ wl_ctrs id v = [serverMon scfg w p mon; mcServer w p mc].

Lemma run_from_none h w a :
  view_ok (after h) -> labelled w -> wl_pods (wl_ID w) (after h) = [] ->
  let v' := after (CallRun w a :: h) in
  view_ok v' /\
  match (exec (RunWorkload scfg w a) (replay h)).1 with
  | inr _ => one_pod (wl_ID w) v'
  | inl _ => (length (wl_pods (wl_ID w) v') <= 1)%nat
  end.
Proof using RtL.
  intros Hh Hw Hn v'. pose proof (no_pods_no_ctrs _ _ Hh Hn) as Hc.
  pose proof (run_call_outcome h w a Hh Hw) as Ho. fold v' in Ho. unfold run_outcome, added in Ho.
  destruct (exec (RunWorkload scfg w a) (replay h)).1 as [err|u].
  - destruct Ho as [[Hev [Ep _]]|(p & cs & _ & (Hev & Ep & _) & _)];
      (split; [by apply Hev|]); rewrite Ep, Hn; cbn; lia.
  - destruct Ho as (p & mc & mon & Hp & (Hev & Ep & Ec) & _). split; [by apply Hev|].
    exists w, a, p, mc, mon. rewrite Ep, Ec, Hn, Hc. auto.
Qed.

Lemma remove_to_none h id :
  view_ok (after h) -> (length (wl_pods id (after h)) <= 1)%nat ->
  (exec (RemoveWorkload id) (replay h)).1 = inr tt ->
  let v' := after (CallRemove id :: h) in view_ok v' /\ wl_pods id v' = [] /\ wl_ctrs id v' = [].
Proof using RtL.
  intros Hh Hle Hr v'. pose proof (remove_call_outcome h id Hh) as Ho. fold v' in Ho.
  enough (view_ok v' /\ wl_pods id v' = []) as [H1 H2] by (auto using no_pods_no_ctrs).
  destruct Ho as [(p & Hp & Hev & Ep & _)|[[Hev [Ep _]] Hn]]; (split; [by apply Hev|]).
  - rewrite Ep. destruct (wl_pods id (after h)) as [|q [|q' l]]; [done| |cbn in Hle; lia].
    apply list_elem_of_singleton in Hp as ->. rewrite filter_cons_False; [done|]. intros H. by apply H.
  - by rewrite Ep; rewrite Hr in Hn.
Qed.
End service.

(** ** The goroutine of an instance *)

Section turns.
Context {Rt : Runtime} {RtL : RuntimeLaws Rt} {J : InfoJson} {IJ : InstanceJson} (scfg : SvcConfig) (s0 : rt).
Context {R : RandSource} {RL : RandLaws R} {En : Env} (is_cp : string -> bool) (cfg : reconcilerConfig).

#[local] Instance W : WorkloadService := cri_service scfg s0.

(** No removal of the workload fails. *)
Definition removes (id : string) : Prop := forall s, (exec (RemoveWorkload id) s).1 = inr tt.

Definition tables (n : node MemStore) : view := after scfg s0 (n_calls n).

(** No pods; a pod with its containers. *)
Definition podless (id : string) (n : node MemStore) : Prop := view_ok (tables n) /\ wl_pods id (tables n) = [].
Definition podded (id : string) (n : node MemStore) : Prop := view_ok (tables n) /\ one_pod scfg id (tables n).

(** Between rounds: an instance that is recorded as running has its pod, and
    another has none. *)
Definition tidy (id : string) (n : node MemStore) : Prop :=
  0 <= attempts_of n id /\
  (podless id n /\ (forall w, recorded (table n) id = Some w -> ws_State w <> WorkloadStateRunning) \/
   podded id n /\ exists p, started p id n).

Lemma tables_rely id n n' : view_ok (tables n) -> rely is_cp id n n' -> expects id (tables n) (tables n').
Proof using RtL.
  intros Hok [(_ & _ & cs & E & Hcs) _]. unfold tables. rewrite E. by apply others_expected.
Qed.

Lemma podless_rely id n n' : rely is_cp id n n' -> podless id n -> podless id n'.
Proof using RtL.
  intros Hr [Hok Hp]. destruct (tables_rely id n n' Hok Hr) as [Hev [Ep _]]. split; [apply Hev|]. by rewrite Ep.
Qed.

Lemma podded_rely id n n' : rely is_cp id n n' -> podded id n -> podded id n'.
Proof using RtL.
  intros Hr [Hok (w & a & p & mc & mon & H1 & H2 & H3 & H4)].
  destruct (tables_rely id n n' Hok Hr) as [Hev [Ep Ec]]. split; [apply Hev|].
  exists w, a, p, mc, mon. by rewrite Ep, Ec.
Qed.

Lemma tidy_rely id n n' : rely is_cp id n n' -> tidy id n -> tidy id n'.
Proof using RtL.
  intros Hr [Ha Hc]. split; [by destruct Hr as [(_ & -> & _) _]|]. destruct Hc as [[Hp Hs]|[Hp [p Hs]]].
  - left. split; [by eapply podless_rely|]. destruct Hr as [(-> & _) _]. exact Hs.
  - right. split; [by eapply podded_rely|]. exists p. by eapply (started_rely is_cp).
Qed.

(** Operations other than calls of the service. *)
Lemma op_calls {X} (o : pop X) n x n' :
  do_op o n = Some (x, n') ->
  match o with PRunWorkload _ _ | PRemoveWorkload _ | PGetWorkloadHealth _ => True
  | _ => tables n' = tables n end.
Proof using Type.
  unfold tables. destruct o; cbn [do_op]; try done; try (by intros [= _ <-]).
  - destruct (store_update _ _ _); [|done]. cbn. by intros [= _ <-].
  - destruct (Allocate _) as [[p|msg|] a]; [..|done]; by intros [= _ <-].
  - destruct (sv_checkpoint _); [|done]. cbn. by intros [= _ <-].
Qed.

Lemma same_tables (P : view -> Prop) n n' : tables n' = tables n -> P (tables n) -> P (tables n').
Proof using Type. by intros ->. Qed.

Lemma podless_op {X} id (o : pop X) n x n' :
  do_op o n = Some (x, n') ->
  match o with PRunWorkload _ _ | PRemoveWorkload _ | PGetWorkloadHealth _ => False | _ => True end ->
  podless id n -> podless id n'.
Proof using Type.
  intros E Ho. pose proof (op_calls o n x n' E) as Et. unfold podless.
  by destruct o; try done; rewrite Et.
Qed.

(** Two claims about a goroutine. *)
Lemma amid_and {A} id (g : gor A) P Q n :
  amid is_cp id g P n -> amid is_cp id g Q n -> amid is_cp id g (fun a n' => P a n' /\ Q a n') n.
Proof using Type.
  revert n. induction g as [a|X o k IH]; intros n; cbn; [by split|]. intros H1 H2 n0 x n1 Hr E. eauto.
Qed.

(** A removal, and a workload that has at most one pod. *)
Definition at_most_one (id : string) (n : node MemStore) : Prop :=
  view_ok (tables n) /\ (length (wl_pods id (tables n)) <= 1)%nat.

Lemma at_most_one_rely id n n' : rely is_cp id n n' -> at_most_one id n -> at_most_one id n'.
Proof using RtL.
  intros Hr [Hok Hp]. destruct (tables_rely id n n' Hok Hr) as [Hev [Ep _]]. split; [apply Hev|]. by rewrite Ep.
Qed.

Lemma remove_op id n x n' :
  removes id -> at_most_one id n -> do_op (PRemoveWorkload id) n = Some (x, n') ->
  x = RmOk /\ podless id n' /\ recorded (table n') id = recorded (table n) id.
Proof using RtL.
  intros Hrm [Hok Hle] E. cbn [do_op] in E. injection E as <- <-. pose proof (Hrm (replay scfg s0 (n_calls n))) as Hr.
  split; [unfold W, cri_service; cbn [svc_remove]; by rewrite Hr|]. split; [|done].
  destruct (remove_to_none scfg s0 (n_calls n) id Hok Hle Hr) as (H1 & H2 & _). by split.
Qed.

Lemma tidy_at_most_one id n : tidy id n -> at_most_one id n.
Proof using Type.
  intros [_ [[[H1 H2] _]|[[H1 (w & a & p & mc & mon & _ & _ & H2 & _)] _]]]; (split; [done|]); rewrite H2; cbn; lia.
Qed.

Context (ins : Instance) (Hins : is_cp (ins_Id ins) = false) (Hrm : removes (ins_Id ins)).

(** What an attempt leaves of pods. *)
Definition attempted_pods (id : string) (err : option create_error) (n : node MemStore) : Prop :=
  match err with None => podded id n | Some _ => podless id n end.

Lemma creation_pods n :
  podless (ins_Id ins) n ->
  (forall w, recorded (table n) (ins_Id ins) = Some w -> ws_State w = WorkloadStateCreating) ->
  amid is_cp (ins_Id ins) (handleInstanceCreation cfg ins) (attempted_pods (ins_Id ins)) n.
Proof using RtL Hrm.
  intros Hp Hc. unfold handleInstanceCreation. set (id := ins_Id ins) in *. cbn [mbind gor_bind call].
  apply amid_do. intros n0 x n1 Hr E. apply (podless_rely _ _ _ Hr) in Hp.
  destruct Hr as [(Er & _) _]. rewrite <-Er in Hc. clear Er. cbn in E. injection E as _ <-.
  destruct (5 <=? x).
  { cbn [mbind gor_bind]. apply amid_do. intros n2 y n3 Hr E. apply (podless_rely _ _ _ Hr) in Hp.
    exact (podless_op id _ _ _ _ E Logic.I Hp). }
  apply amid_do. intros n1 y n2 Hr E. apply (podless_rely _ _ _ Hr) in Hp.
  destruct Hr as [(Er & _) _]. rewrite <-Er in Hc. clear Er. cbn [do_op] in E. injection E as <- <-.
  pose proof (creating_not_skipped ins n1 Hc) as Hs. fold id in Hs. cbn [store_get MemStore_store] in Hs.
  cbv zeta. rewrite Hs. clear Hs Hc.
  apply amid_do. intros n2 y n3 Hr E. apply (podless_rely _ _ _ Hr) in Hp. apply (podless_op id _ _ _ _ E Logic.I) in Hp.
  apply amid_do. intros n4 r n5 Hr4 E4. apply (podless_rely _ _ _ Hr4) in Hp. apply (podless_op id _ _ _ _ E4 Logic.I) in Hp.
  destruct r as [port|]; [|exact Hp].
  apply amid_do. intros n6 z n7 Hr6 E6. apply (podless_rely _ _ _ Hr6) in Hp. apply (podless_op id _ _ _ _ E6 Logic.I) in Hp.
  apply amid_do. intros n8 ok n9 Hr8 E8. apply (podless_rely _ _ _ Hr8) in Hp. destruct Hp as [Hok Hp].
  set (w := workload_of cfg ins port) in *.
  pose proof (run_from_none scfg s0 (n_calls n8) w (x + 1) Hok (workload_labelled cfg ins port) Hp) as [Hok9 Ho].
  cbn [do_op] in E8. injection E8 as <- <-. unfold W, cri_service; cbn [svc_run].
  destruct (exec (RunWorkload scfg w (x + 1)) (replay scfg s0 (n_calls n8))).1 as [err|u]; cbn [mbind gor_bind].
  - apply amid_do. intros n10 z' n11 Hr10 E10.
    assert (at_most_one id n10) as Hle by (eapply at_most_one_rely; [exact Hr10|by split]).
    apply amid_do. intros n12 z'' n13 Hr12 E12.
    assert (at_most_one id n11) as Hle11.
    { exact (same_tables (fun v => view_ok v /\ (length (wl_pods id v) <= 1)%nat) _ _ (op_calls _ _ _ _ E10) Hle). }
    apply (remove_op id n12 z'' n13 Hrm); [by eapply at_most_one_rely|exact E12].
  - apply amid_do. intros n10 z' n11 Hr10 E10. cbn [attempted_pods].
    apply (same_tables (fun v => view_ok v /\ one_pod scfg id v) _ _ (op_calls _ _ _ _ E10)).
    eapply podded_rely; [exact Hr10|by split].
Qed.

Let id : string := ins_Id ins.

(** The end of a life. *)
Lemma deleted_tidy m {A} (Q : A -> node MemStore -> Prop) (a : A) :
  podless id m -> 0 <= attempts_of m id ->
  (forall m', tidy id m' -> Q a m') ->
  amid is_cp id (call (PUpdate id (workload_state WorkloadStateDeleted));; mret a) Q m.
Proof using RtL Hins.
  intros Hp Ha HQ n0 x n1 Hr E. cbn [call mbind gor_bind] in *. apply HQ.
  apply (podless_rely _ _ _ Hr) in Hp. pose proof Hr as [(_ & Ea & _) Hfit]. rewrite <-Ea in Ha.
  apply (podless_op id _ _ _ _ E Logic.I) in Hp. apply (own_state is_cp) in E as [[p Hd] E2]; [|done..].
  split; [by rewrite E2|]. left. split; [done|]. rewrite Hd. by intros w [= <-].
Qed.

Lemma removed_tidy {A} n (k : remove_result -> gor A) a :
  tidy id n -> k RmOk = (call (PUpdate id (workload_state WorkloadStateDeleted));; mret a) ->
  amid is_cp id (call (PRemoveWorkload id) ≫= k) (fun _ => tidy id) n.
Proof using RtL Hrm Hins.
  intros Ht Hk. cbn [mbind gor_bind call]. apply amid_do. intros n0 x n1 Hr E.
  apply (tidy_rely _ _ _ Hr) in Ht. destruct (remove_op id n0 x n1 Hrm (tidy_at_most_one _ _ Ht) E) as (-> & Hp & _).
  rewrite Hk. apply deleted_tidy; [done| |done]. cbn in E. injection E as _ <-. apply Ht.
Qed.

(** [StopWorkload], which servermon calls. *)
Lemma stop_tidy n : tidy id n -> amid is_cp id (StopWorkload id) (fun _ => tidy id) n.
Proof using RtL Hrm Hins.
  intros Ht. unfold StopWorkload. destruct (String.eqb id ""); [exact Ht|]. by apply (removed_tidy n _ (inr tt)).
Qed.

(** The health is only looked at. *)
Lemma health_op n x n' : tidy id n -> do_op (PGetWorkloadHealth id) n = Some (x, n') -> tidy id n'.
Proof using RtL.
  intros [Ha Ht] E. cbn [do_op] in E. injection E as _ <-. split; [done|].
  destruct Ht as [[[H1 H2] Hs]|[[H1 (w & a & p & mc & mon & E1 & E2 & E3 & E4)] Hs]];
    pose proof (health_call_outcome scfg s0 (n_calls n) id H1) as [Hev [Ep Ec]].
  - left. split; [|done]. split; [by apply Hev|]. unfold tables. cbn [n_calls log_wl]. by rewrite Ep.
  - right. split; [|done]. split; [by apply Hev|]. exists w, a, p, mc, mon. unfold tables. cbn [n_calls log_wl].
    by rewrite Ep, Ec.
Qed.

(** How a creation ends. *)
Definition created (err : option create_error) (n : node MemStore) : Prop :=
  tidy id n /\ forall msg, err = Some (errOther msg) -> podless id n.

(** An instance that is past its creation is skipped. *)
Lemma skipped_tidy n w :
  tidy id n -> recorded (table n) id = Some w -> ws_State w <> WorkloadStateCreating -> attempts_of n id < 5 ->
  amid is_cp id (handleInstanceCreation cfg ins) created n.
Proof using RtL.
  intros Ht Hw Hs Ha. unfold handleInstanceCreation. fold id. cbn [mbind gor_bind call].
  apply amid_do. intros n0 x n1 Hr E. apply (tidy_rely _ _ _ Hr) in Ht.
  destruct Hr as [(Er & Ea & _) _]. rewrite <-Er in Hw. rewrite <-Ea in Ha. cbn in E. injection E as <- <-.
  fold (attempts_of n0 id). rewrite (proj2 (Z.leb_gt _ _)) by done.
  apply amid_do. intros n1 x n2 Hr1 E. apply (tidy_rely _ _ _ Hr1) in Ht.
  destruct Hr1 as [(Er1 & _) _]. rewrite <-Er1 in Hw. cbn [do_op] in E. injection E as <- <-.
  pose proof (store_get_law id (n_store n1)) as Hg. cbn [store_get MemStore_store] in Hg. rewrite Hg.
  unfold recorded, table in Hw. destruct (store_table (n_store n1) !! id) as [v|]; [|done]. cbn in Hw. rewrite Hw.
  rewrite (proj2 (String.eqb_neq _ _) Hs). by split; [|intros msg [=]].
Qed.

(** One that was tried too often is given up. *)
Lemma given_up_tidy n :
  podless id n -> 5 <= attempts_of n id ->
  amid is_cp id (handleInstanceCreation cfg ins) created n.
Proof using RtL Hins.
  intros Hp Ha. unfold handleInstanceCreation. fold id. cbn [mbind gor_bind call].
  apply amid_do. intros n0 x n1 Hr E. apply (podless_rely _ _ _ Hr) in Hp.
  destruct Hr as [(_ & Ea & _) _]. rewrite <-Ea in Ha. cbn in E. injection E as <- <-.
  fold (attempts_of n0 id). rewrite (proj2 (Z.leb_le _ _)) by done. cbn [mbind gor_bind].
  apply amid_do. intros n1 x n2 Hr1 E. apply (podless_rely _ _ _ Hr1) in Hp.
  pose proof Hr1 as [(_ & Ea1 & _) Hfit]. rewrite <-Ea1 in Ha.
  apply (podless_op id _ _ _ _ E Logic.I) in Hp. apply (own_state is_cp) in E as [[p Hd] E2]; [|done..].
  split; [|by intros msg [=]]. split; [rewrite E2; lia|]. left. split; [done|]. rewrite Hd. by intros w [= <-].
Qed.

(** An attempt at the creation. *)
Lemma attempt_tidy n k :
  podless id n -> trying k id n -> (k < 5)%nat ->
  amid is_cp id (handleInstanceCreation cfg ins) created n.
Proof using RtL Hrm RL Hins.
  intros Hp Ht Hk. eapply amid_mono; [|apply amid_and; [apply (creation_pods n Hp), Ht|by apply (creation_amid is_cp cfg ins Hins k)]].
  intros [[|msg]|] n' [H1 H2]; cbn [attempted_pods attempted] in H1, H2; [done| |].
  - split; [|by intros msg' _]. destruct H2 as [Ha Hc]. split; [fold id in Ha; lia|]. left. split; [done|].
    intros w Hw. by rewrite (Hc w Hw).
  - split; [|done]. destruct H2 as [p Hs]. pose proof Hs as (_ & _ & Ha). split; [apply Ha|]. right. eauto.
Qed.

Lemma creation_tidy n : tidy id n -> amid is_cp id (handleInstanceCreation cfg ins) created n.
Proof using RtL Hrm RL Hins.
  intros Ht. pose proof Ht as [Ha [[Hp Hs]|[Hp [p Hst]]]].
  - destruct (decide (5 <= attempts_of n id)) as [H5|H5]; [by apply given_up_tidy|].
    assert ((exists w, recorded (table n) id = Some w /\ ws_State w <> WorkloadStateCreating) \/
      forall w, recorded (table n) id = Some w -> ws_State w = WorkloadStateCreating) as [(w & Hw & Hne)|Hc].
    { destruct (recorded (table n) id) as [w|]; [|by right].
      destruct (decide (ws_State w = WorkloadStateCreating)); [right; by intros w' [= <-]|left; eauto]. }
    + apply (skipped_tidy n w); [done..|lia].
    + apply (attempt_tidy n (Z.to_nat (attempts_of n id))); [done| |lia]. split; [lia|done].
  - destruct Hst as (_ & Hr & Ha5). apply (skipped_tidy n (mk_ws WorkloadStateRunning p)); [done..|lia].
Qed.

Lemma counted_tidy n k :
  tidy id n -> podless id n -> 0 <= k -> tidy id (set_attempts (<[id := k]> (n_attempts n)) n).
Proof using Type.
  intros [_ Ht] Hp Hk. split.
  { unfold attempts_of. cbn. by rewrite lookup_insert_eq. }
  left. split; [exact Hp|]. destruct Ht as [[_ Hs]|[[_ (w & a & p & mc & mon & _ & _ & H2 & _)] _]]; [exact Hs|].
  destruct Hp as [_ Hp]. congruence.
Qed.

(** A round of the instance. *)
Lemma turn_tidy n : tidy id n -> amid is_cp id (reconcile cfg ins) (fun _ => tidy id) n.
Proof using RtL Hrm RL Hins.
  intros Ht.
  assert (ins_State ins = InstanceState_PENDING \/ ins_State ins = InstanceState_CREATING ->
    amid is_cp id (reconcile cfg ins) (fun _ => tidy id) n) as Hnew.
  { intros Hn. apply (turn_new is_cp cfg ins n _ Hn). eapply amid_mono; [|by apply creation_tidy].
    fold id. intros [[|msg]|] n' [Ht' Hp]; [| |done]; cbn [mbind gor_bind call].
    - apply amid_do. intros n0 x n1 Hr E. cbn in E. injection E as _ <-. by eapply tidy_rely.
    - apply amid_do. intros n0 x n1 Hr E. cbn in E. injection E as <- <-.
      assert (podless id n0) as Hp0 by (eapply podless_rely; [exact Hr|eauto]). apply (tidy_rely _ _ _ Hr) in Ht'.
      apply amid_do. intros n1 x n2 Hr1 E. cbn in E. injection E as _ <-. apply (podless_rely _ _ _ Hr1) in Hp0.
      pose proof (proj1 Ht') as Ha. apply (tidy_rely _ _ _ Hr1) in Ht'. unfold attempts_of in Ha.
      apply amid_do. intros n2 x' n3 Hr2 E. cbn in E. injection E as _ <-. eapply tidy_rely; [exact Hr2|].
      apply counted_tidy; [done..|lia]. }
  unfold reconcile, handleInstanceDeleting, handleInstanceRunning in *. fold id in Hnew |- *.
  destruct (ins_State ins); [by auto|by auto| | |exact Ht|].
  - cbn [mbind gor_bind call]. apply amid_do. intros n0 x n1 Hr E. apply (tidy_rely _ _ _ Hr) in Ht.
    apply (health_op _ _ _ Ht) in E. destruct x; [exact E| |exact E].
    apply amid_bind. eapply amid_mono; [|by apply (removed_tidy n1 _ true)]. done.
  - apply amid_bind. eapply amid_mono; [|by apply (removed_tidy n _ true)]. done.
  - by apply (removed_tidy n _ tt).
Qed.
End turns.

(** ** Rounds *)

Section rounds.
Context {Rt : Runtime} {RtL : RuntimeLaws Rt} {J : InfoJson} {IJ : InstanceJson} (scfg : SvcConfig) (s0 : rt).
Context {CE : CpEnv} {CL : CpLaws CE} {R : RandSource} {RL : RandLaws R} {En : Env}.
Context (is_cp : string -> bool) (cfg : reconcilerConfig) (NodeID id : string).
Context (Hrm : removes id) (Hcp : is_cp id = false) (HNode : standard NodeID) (HNode' : NodeID <> "").

#[local] Instance W' : WorkloadService := cri_service scfg s0.

Lemma tidy_cleanup n n' :
  (recorded (table n') id = recorded (table n) id \/
   recorded (table n') id = None /\ exists w, recorded (table n) id = Some w /\ over w = true) ->
  n_attempts n' = n_attempts n -> n_calls n' = n_calls n -> tidy scfg s0 id n -> tidy scfg s0 id n'.
Proof using Type.
  intros Hrec Ha Hc [H0 Ht]. unfold tidy, podless, podded, tables, started, running_on, attempts_of.
  rewrite Ha, Hc. split; [exact H0|]. destruct Hrec as [-> |[-> (w & Hw & Ho)]]; [exact Ht|].
  destruct Ht as [[Hp Hs]|[Hp (p & Hp1 & Hr & Ha5)]]; [left; by split|].
  unfold running_on in Hr. rewrite Hw in Hr. by injection Hr as ->.
Qed.

(** [StopWorkload], for this instance or another. *)
Lemma tidy_stop j n r n' :
  is_cp j = false -> node_fit is_cp n -> run (StopWorkload j) n = Some (r, n') ->
  tidy scfg s0 id n -> tidy scfg s0 id n'.
Proof using RtL Hrm Hcp.
  intros Hj Hn E Ht. destruct (stop_spec is_cp j n Hj Hn) as (r' & n2 & E' & Hn' & _ & _ & Hu).
  rewrite E in E'. injection E' as <- <-. destruct (decide (id = j)) as [<-|Hne].
  2: { apply (tidy_rely scfg s0 is_cp id n); [|done]. by split; [apply Hu|]. }
  assert (forall m, node_fit is_cp m -> rely is_cp id m m) as Hrefl by (intros m Hm; split; [by apply untouched_same|done]).
  assert (amid is_cp id (StopWorkload id) (fun _ => tidy scfg s0 id) n) as Ha
    by by apply (stop_tidy scfg s0 is_cp (demo_instance id)).
  revert E Ha. unfold StopWorkload. destruct (String.eqb id ""); [by intros [= _ <-]|].
  cbn [mbind gor_bind call run]. destruct (do_op (PRemoveWorkload id) n) as [[x n1]|] eqn:E1; [|done].
  intros E Ha. specialize (Ha n x n1 (Hrefl n Hn) E1).
  assert (node_fit is_cp n1) as Hn1.
  { cbn in E1. injection E1 as _ <-. destruct Hn as [[? ? ?] ?]; by split. }
  destruct x; [|by injection E as _ <-..]. cbn [mbind gor_bind run] in E.
  destruct (do_op (PUpdate id _) n1) as [[y n2]|] eqn:E2; [|done]. injection E as _ <-.
  exact (Ha n1 y n2 (Hrefl n1 Hn1) E2).
Qed.

Lemma tidy_stops js : forall n n',
  Forall (fun j => is_cp j = false) js -> node_fit is_cp n -> stop_all js n = Some n' ->
  tidy scfg s0 id n -> tidy scfg s0 id n'.
Proof using RtL Hrm Hcp.
  induction js as [|j js IH]; intros n n' Hjs Hn; cbn [stop_all]; [by intros [= <-]|].
  apply Forall_cons_1 in Hjs as [Hj Hjs]. destruct (stop_spec is_cp j n Hj Hn) as (r & n1 & E & Hn1 & _).
  rewrite E. cbn [mbind option_bind]. intros E' Ht. eapply IH; [done|exact Hn1|exact E'|].
  exact (tidy_stop j n r n1 Hj Hn E Ht).
Qed.

(** The goroutines of a round. *)
Lemma tidy_reconciled pick s n l n1 :
  consistent is_cp s n -> NoDup (tr_Id <$> l) ->
  (forall t, t ∈ l -> exists i, t_instances (cp_db s) !! tr_Id t = Some i /\ in_NodeID i = NodeID /\ told i t) ->
  reconcile_instances cfg pick (received <$> l) n = Some n1 -> tidy scfg s0 id n ->
  node_fit is_cp n1 /\ tidy scfg s0 id n1.
Proof using RtL RL Hrm Hcp.
  intros (Hfit & Hn & _) Hnd Hin E Ht.
  assert (ins_Id <$> (received <$> l) = tr_Id <$> l) as Hids by (by rewrite <-list_fmap_compose).
  destruct (reconcile_instances_spec is_cp cfg pick (received <$> l) n Hn) as (n1' & E' & Hn1 & Hu & HQ).
  { by rewrite Hids. }
  { intros ins (t & -> & Ht')%list_elem_of_fmap. destruct (Hin t Ht') as (i & Hi & _). by eapply (proj2 Hfit). }
  rewrite E in E'. injection E' as <-. split; [done|].
  rewrite Hids in Hu. destruct (decide (id ∈ tr_Id <$> l)) as [(t & Et & Htl)%list_elem_of_fmap|Hni].
  - apply (HQ (received t) (fun _ => tidy scfg s0 id)).
    + apply list_elem_of_fmap. eauto.
    + cbn. rewrite <-Et. intros _ m m' Hr. by apply (tidy_rely scfg s0 is_cp).
    + pose proof (turn_tidy scfg s0 is_cp cfg (received t)) as Hturn. cbn [ins_Id received] in Hturn |- *.
      rewrite <-Et in Hturn |- *. by apply Hturn.
  - apply (tidy_rely scfg s0 is_cp id n); [|done]. by split; [apply Hu|].
Qed.

Lemma tidy_round order pick calls meanwhile s n s' n' :
  (forall l, order l ≡ₚ l) ->
  calls_fit is_cp (st_before calls) -> calls_fit is_cp (st_between calls) -> calls_fit is_cp (st_late calls) ->
  consistent is_cp s n -> tidy scfg s0 id n ->
  tick cfg NodeID order pick calls meanwhile s n = Some (s', n') -> tidy scfg s0 id n'.
Proof using RtL RL CL Hrm Hcp HNode HNode'.
  intros Hord Hc1 Hc2 Hc3 (Hfit & Hn & Hstd) Ht. unfold tick.
  destruct (stop_all_spec is_cp _ n (proj1 Hc1) Hn) as (n0 & E0 & Hn0 & _ & _ & Hu0).
  pose proof (tidy_stops _ _ _ (proj1 Hc1) Hn E0 Ht) as Ht0. rewrite E0. cbn [mbind option_bind].
  assert (consistent is_cp s n0) as Hc0 by (split; [done|]; split; [done|]; eapply stopped_standard; [exact Hc1|exact Hu0|exact Hstd]).
  destruct (serve (DiscoverInstances_srv NodeID) s) as [r s1] eqn:Ed.
  destruct (discover_spec NodeID s r s1) as [_ Hd]; [apply Hfit|done..|].
  destruct r as [e|l]; [by intros [= _ <-]|]. destruct Hd as (Hnd & Hin & _).
  destruct (reconcile_instances cfg pick (received <$> l) n0) as [n1|] eqn:E1; [|done]. cbn [mbind option_bind].
  destruct (tidy_reconciled pick s n0 l n1 Hc0 Hnd Hin E1 Ht0) as [Hn1 Ht1].
  destruct (stop_all_spec is_cp _ n1 (proj1 Hc2) Hn1) as (n2 & E2 & Hn2 & _).
  pose proof (tidy_stops _ _ _ (proj1 Hc2) Hn1 E2 Ht1) as Ht2. rewrite E2. cbn [mbind option_bind]. cbv zeta.
  destruct (stop_all_spec is_cp _ n2 (proj1 Hc3) Hn2) as (n3 & E3 & Hn3 & Hk & _).
  pose proof (tidy_stops _ _ _ (proj1 Hc3) Hn2 E3 Ht2) as Ht3. rewrite E3. cbn [mbind option_bind].
  destruct (serve _ (meanwhile s1)) as [[e|u] s2]; intros [= _ <-]; [done|].
  destruct (cleanup_spec is_cp order Hord n2 n3 Hn2 Hn3 Hk) as [_ Hrec]. apply (tidy_cleanup n3); [|done..].
  rewrite (Hrec id Hcp). destruct (recorded (table n2) id) as [w0|], (recorded (table n3) id) as [w|]; auto.
  destruct (over w) eqn:Eo; eauto.
Qed.

Lemma tidy_rounds rs : Forall (round_fit is_cp id) rs -> forall L s n,
  consistent is_cp s n -> life_of NodeID id L (row_of id s) n -> tidy scfg s0 id n ->
  exists s' n' L', rounds cfg NodeID rs s n = Some (s', n') /\ rtc life_step L L' /\
    life_of NodeID id L' (row_of id s') n' /\ tidy scfg s0 id n'.
Proof using RtL RL CL Hrm Hcp HNode HNode'.
  induction 1 as [|r rs (Hb & Hm & Ho & Hc1 & Hc2 & Hc3) Hrs IH]; intros L s n Hc HL Ht; [by exists s, n, L|].
  destruct (Hb s (proj1 Hc)) as [Hfit Hrow].
  destruct (life_round is_cp cfg NodeID id Hcp HNode HNode' (r_order r) (r_pick r) (r_stops r) (r_meanwhile r) L
    (r_before r s) n Ho Hm Hc1 Hc2 Hc3) as (s1 & n1 & L1 & E & Hcon1 & Hst & HL1 & _); [by split; [|apply Hc]|by rewrite Hrow|].
  assert (tidy scfg s0 id n1) as Ht1.
  { eapply tidy_round; [exact Ho|exact Hc1|exact Hc2|exact Hc3| |exact Ht|exact E]. by split; [|apply Hc]. }
  destruct (IH L1 s1 n1 Hcon1 HL1 Ht1) as (s' & n' & L' & E' & Hst' & HL' & Ht').
  exists s', n', L'. cbn [rounds]. rewrite E. cbn [mbind option_bind]. split; [exact E'|].
  split; [by transitivity L1|]. by split.
Qed.

(** What the runtime has of the instance in a phase of its life. *)
Definition pods_in_phase (L : life) (v : view) : Prop :=
  match L with
  | Running _ => one_pod scfg id v
  | Waiting _ | Failing | Ending | Forgotten | Gone => wl_pods id v = [] /\ wl_ctrs id v = []
  end.

Lemma tidy_phase L row n : life_of NodeID id L row n -> tidy scfg s0 id n -> pods_in_phase L (tables scfg s0 n).
Proof using Type.
  intros HL [_ Ht].
  assert ((forall p, L <> Running p) -> wl_pods id (tables scfg s0 n) = [] /\ wl_ctrs id (tables scfg s0 n) = []) as Hno.
  { intros HR. destruct Ht as [[[H1 H2] _]|[_ (p & _ & Hr & _)]]; [by auto using no_pods_no_ctrs|]. exfalso.
    unfold running_on in Hr. destruct L as [k|q| | | |]; cbn [life_of] in HL.
    - destruct HL as [[_ Hc] _]. by specialize (Hc _ Hr).
    - by apply (HR q).
    - by destruct HL as [[[[q Hq]|[q Hq]] _]|[[[q Hq]|Hq] _]]; rewrite Hq in Hr.
    - destruct HL as [[q Hq] _]. by rewrite Hq in Hr.
    - destruct HL as [Hq _]. congruence.
    - destruct HL as [_ [Hq|[q Hq]]]; by rewrite Hq in Hr. }
  destruct L as [k|q| | | |]; cbn [pods_in_phase]; try by apply Hno.
  destruct HL as [(_ & Hr & _) _]. destruct Ht as [[_ Hs]|[[_ Hp] _]]; [|exact Hp].
  by destruct (Hs _ Hr).
Qed.
End rounds.

(** C10: the containers follow the life of an instance.  With the workload service
    over the container runtime, whatever else fails there as long as the
    instance's pods can be removed, after any number of rounds the runtime has,
    of an instance that the node takes to be running, exactly one pod with the
    Minecraft server and servermon in it, and of one that is waiting, given up,
    stopped, forgotten or gone, no pod and no container. *)
Theorem pods_follow_life (Rt : Runtime) (RtL : RuntimeLaws Rt) (J : InfoJson) (IJ : InstanceJson)
    (scfg : SvcConfig) (s0 : rt) (CE : CpEnv) (CL : CpLaws CE) (R : RandSource) (RL : RandLaws R) (En : Env)
    (is_cp : string -> bool) (cfg : reconcilerConfig) (NodeID id : string)
    (rs : list round) (s : cp) (n : node MemStore) :
  removes id -> view_ok (tables scfg s0 n) -> wl_pods id (tables scfg s0 n) = [] ->
  standard NodeID -> NodeID <> "" -> consistent is_cp s n ->
  row_is NodeID "PENDING" (row_of id s) -> n_attempts n !! id = None -> recorded (table n) id = None ->
  Forall (round_fit is_cp id) rs ->
  exists s' n' L, rounds (W := cri_service scfg s0) cfg NodeID rs s n = Some (s', n') /\
    rtc life_step (Waiting 0) L /\ life_of NodeID id L (row_of id s') n' /\
    pods_in_phase scfg id L (tables scfg s0 n').
Proof.
  intros Hrm Hok Hp HN HN' Hc Hrow Ha Hr Hrs.
  assert (is_cp id = false) as Hcp.
  { destruct Hrow as (i & Hi & _). destruct Hc as ([_ Hcps] & _). by eapply Hcps. }
  destruct (tidy_rounds scfg s0 is_cp cfg NodeID id Hrm Hcp HN HN' rs Hrs (Waiting 0) s n Hc)
    as (s' & n' & L & E & Hst & HL & Ht).
  - split; [|by left]. split; [unfold attempts_of; by rewrite Ha|]. by rewrite Hr.
  - split; [unfold attempts_of; by rewrite Ha|]. left. split; [by split|]. by rewrite Hr.
  - exists s', n', L. split; [done|]. split; [done|]. split; [done|]. by eapply tidy_phase.
Qed.

(** ** Examples *)

Lemma exec_bind {Rt : Runtime} {A B} (p : prog A) (f : A -> prog B) s :
  exec (p ≫= f) s = exec (f (exec p s).1) (exec p s).2.
Proof.
  revert s. induction p as [a|X c k IH]; intros s; [done|]. cbn. unfold exec; fold (@exec Rt).
  destruct (rt_do c s) as [r s']. apply IH.
Qed.

(** The calls of a removal always succeed. *)
Definition no_bad_removal (bad : forall X : Type, rt_call X -> nat -> bool) : Prop :=
  forall k, (forall l v, bad _ (RtListPodSandbox l v) k = false) /\ (forall p, bad _ (RtStopPodSandbox p) k = false) /\
    (forall p, bad _ (RtRemovePodSandbox p) k = false) /\ (forall f, bad _ (ListContainers f) k = false).

Lemma ref_removes bad id : no_bad_removal bad -> removes (Rt := ref_runtime bad) id.
Proof.
  intros Hb s. unfold RemoveWorkload, try.
  assert (forall X (c : rt_call X) s, bad X c s.1 = false -> possible c s.2 = true ->
    exists x s', exec (R := ref_runtime bad) (req c) s = (inr x, s')) as Hreq.
  { intros X c s1 H1 H2. unfold exec, req. cbn [rt_do ref_runtime]. rewrite H1, H2. cbn. destruct (ref_effect c s1.2) as [x v]. eauto. }
  rewrite exec_bind. destruct (Hreq _ (RtListPodSandbox LabelWorkloadID id) s) as (l & s1 & ->); [apply Hb|done|].
  cbn [fst snd]. destruct l as [|p l]; [done|]. cbv zeta.
  rewrite exec_bind. destruct (Hreq _ (RtStopPodSandbox (pd_Id p)) s1) as (u & s2 & ->); [apply Hb|done|]. cbn [fst snd].
  rewrite exec_bind. destruct (Hreq _ (RtRemovePodSandbox (pd_Id p)) s2) as (u' & s3 & ->); [apply Hb|done|]. cbn [fst snd].
  rewrite exec_bind. destruct (Hreq _ (ListContainers (ByPod (pd_Id p))) s3) as (cs & s4 & ->); [apply Hb|done|]. cbn [fst snd].
  by rewrite exec_bind, exec_bind.
Qed.

(** The server's process cannot be signalled at first. *)
Definition slow_start (X : Type) (c : rt_call X) (k : nat) : bool :=
  match c with SignalCont _ => (k <? 40)%nat | _ => false end.

Lemma pods_follow_life_witness :
  (exists s n L, rounds (W := cri_service (Rt := ref_runtime slow_start) demo_svc_cfg (O, no_view)) demo_cfg "n"
      (replicate 8 (demo_round [])) (demo_cp 9 ["x"]) (fresh_node 30000 30100) = Some (s, n) /\
    rtc life_step (Waiting 0) L /\ life_of "n" "x" L (row_of "x" s) n /\
    pods_in_phase demo_svc_cfg "x" L (tables (Rt := ref_runtime slow_start) demo_svc_cfg (O, no_view) n)) /\
  (fun x : cp * node MemStore => length (wl_pods "x" (tables (Rt := ref_runtime slow_start) demo_svc_cfg (O, no_view) x.2)))
    <$> rounds (W := cri_service (Rt := ref_runtime slow_start) demo_svc_cfg (O, no_view)) demo_cfg "n"
      (replicate 8 (demo_round [])) (demo_cp 9 ["x"]) (fresh_node 30000 30100) = Some 1%nat.
Proof.
  split; [|vm_compute; reflexivity].
  apply (pods_follow_life (ref_runtime slow_start) (ref_runtime_laws slow_start) demo_info_json demo_instance_json
    demo_svc_cfg (O, no_view) demo_cp_env demo_cp_laws ref_rand ref_rand_laws idle_env no_checkpoints demo_cfg "n" "x").
  - apply ref_removes. by repeat split.
  - exact no_view_ok.
  - reflexivity.
  - reflexivity.
  - done.
  - split; [split; [|done]|split; [split; [apply fresh_node_ok; lia|cbn; lia]|]].
    + apply demo_listable; apply (bool_decide_unpack _); vm_compute; exact I.
    + done.
  - exists (demo_row "x"). vm_compute. auto.
  - reflexivity.
  - reflexivity.
  - apply list.Forall_replicate. split; [done|]. split; [done|].
    split; [intros l; apply reverse_Permutation|]. by repeat split; constructor.
Defined.

(** The first attempt cannot signal the server, and its pod cannot be stopped. *)
Definition one_bad_stop (X : Type) (c : rt_call X) (k : nat) : bool :=
  match c with SignalCont _ | RtStopPodSandbox _ => (k <? 20)%nat | _ => false end.

Definition demo_deleting (id : string) : Instance :=
  {| ins_Id := id; ins_State := InstanceState_DELETING; ins_FlavorVersionId := "fv";
     ins_ChunkId := "c"; ins_ChunkName := "chunk"; ins_OrderedBy := "u"; ins_ChunkCreatedAt := 0;
     ins_ChunkUpdatedAt := 1; ins_FlavorName := "flavor"; ins_Version := "1"; ins_OwnerId := "o" |}.

Lemma computed {A} (d : A) (o : option A) : match o with Some _ => true | None => false end = true -> o = Some (default d o).
Proof. by destruct o. Qed.

(** A removal that fails once leaves a pod behind for good: there is a
    runtime that keeps its promises and fails two calls, the signal of the first
    attempt and the removal that follows, such that the second attempt starts a
    second pod beside the first, with the same host port; when the instance is
    deleted, one of them is removed, the removal reports success and the instance
    is recorded as deleted, while the other pod still runs. *)
Theorem failed_removal_leaks_pod :
  exists (Rt : Runtime) (s0 : rt) (n1 n2 : node MemStore) (p1 p2 : string),
    RuntimeLaws Rt /\ rt_view s0 = no_view /\
    reconcile_all (W := cri_service demo_svc_cfg s0) demo_cfg
      [demo_instance "x"; demo_instance "x"] (fresh_node 30000 30100) = Some n1 /\
    reconcile_all (W := cri_service demo_svc_cfg s0) demo_cfg [demo_deleting "x"] n1 = Some n2 /\
    running_on (table n1) "x" 30000 /\
    pd_Id <$> wl_pods "x" (tables demo_svc_cfg s0 n1) = [p2; p1] /\
    (fun p => pd_Labels p !! LabelWorkloadPort) <$> wl_pods "x" (tables demo_svc_cfg s0 n1)
      = [Some "30000"; Some "30000"] /\
    svc_remove (WorkloadService := cri_service demo_svc_cfg s0) (n_calls n1) "x" = RmOk /\
    recorded (table n2) "x" = Some (mk_ws WorkloadStateDeleted 30000) /\
    pd_Id <$> wl_pods "x" (tables demo_svc_cfg s0 n2) = [p1].
Proof.
  exists (ref_runtime one_bad_stop), (O, no_view).
  set (W := cri_service (Rt := ref_runtime one_bad_stop) demo_svc_cfg (O, no_view)).
  set (n1 := default (fresh_node 0 0) (reconcile_all (W := W) demo_cfg [demo_instance "x"; demo_instance "x"]
    (fresh_node 30000 30100))).
  exists n1, (default (fresh_node 0 0) (reconcile_all (W := W) demo_cfg [demo_deleting "x"] n1)).
  exists "-", "----". split; [apply ref_runtime_laws|]. split; [reflexivity|].
  split; [apply computed; vm_compute; reflexivity|]. split; [apply computed; vm_compute; reflexivity|].
  repeat (split; [vm_compute; reflexivity|]). vm_compute. reflexivity.
Qed.
