(* ===== verification/Tar.v ===== *)
(** * Change sets

    The files of a version that are new or changed travel as an archive.
    [TarFiles] of [internal/tarhelper/tar.go] makes it on the user's machine,
    [Untar] unpacks it in the worker.  This file has the names that the files get
    in the archive and the places where they end up; the compression and the
    format are those of Go's standard library, so an archive is the list of its
    entries. *)

From Stdlib Require Import Ascii.
From S2P Require Import Prelude GoStrings CpDb CpFlavors Paths.

#[local] Open Scope string_scope.

(** ** path/filepath and strings *)

Definition Join (a b : string) : string :=
  if String.eqb a "" then (if String.eqb b "" then "" else Clean b)
  else Clean (a +:+ "/" +:+ b).

(** [strings.ReplaceAll] with nothing, for a text that is not empty; [n]
    characters of the last occurrence are still to be passed over. *)
Fixpoint remove_all_from (n : nat) (s old : string) : string :=
  match s with
  | "" => ""
  | String c rest =>
      match n with
      | S n => remove_all_from n rest old
      | O =>
          if HasPrefix s old then remove_all_from (String.length old - 1) rest old
          else String c (remove_all_from O rest old)
      end
  end.
Definition remove_all : string -> string -> string := remove_all_from O.

(** ** tarhelper/tar.go *)

Record tar_entry := { te_Regular : bool; te_Name : string; te_Data : string }.

(** [norm.NFC.String], which leaves ASCII as it is. *)
Class Norm := { NFC : string -> string }.

Definition tar_name `{Norm} (rootDir file : string) : string := NFC (remove_all file (Clean rootDir +:+ "/")).

Definition TarFiles `{Norm} (rootDir : string) (files : list (string * string)) : list tar_entry :=
  (fun f => {| te_Regular := true; te_Name := tar_name rootDir f.1; te_Data := f.2 |}) <$> files.

(** The files that [Untar] writes: the target of every regular one. *)
Definition targets (dest : string) (entries : list tar_entry) : list string :=
  (fun e => Join dest (te_Name e)) <$> filter (fun e => te_Regular e = true) entries.

(** ** Places *)

(** The absolute path of a directory given from the bottom up. *)
Definition place (dir : list string) : string := String Separator (join_elements (rev dir)).

Lemma split_on_join sep a b : split_on sep (a +:+ String sep b) = (split_on sep a ++ split_on sep b)%list.
Proof.
  induction a as [|c a IH].
  - change ("" +:+ String sep b) with (String sep b). cbn. by rewrite Ascii.eqb_refl.
  - change (String c a +:+ String sep b) with (String c (a +:+ String sep b)). cbn.
    destruct (Ascii.eqb c sep); [by rewrite IH|].
    rewrite IH. destruct (split_on_cons sep a) as (x & xs & ->). done.
Qed.

Lemma walk_join dir a b : walk dir (a +:+ "/" +:+ b) = walk (walk dir a) b.
Proof.
  unfold walk. change (a +:+ "/" +:+ b) with (a +:+ String Separator b).
  by rewrite split_on_join, fold_left_app.
Qed.

Lemma clean_rooted_walk cs : forall out, Forall (fun c => c <> "..") out ->
  fold_left (clean_step true) cs out = fold_left walk_step cs out.
Proof.
  induction cs as [|c cs IH]; intros out Ho; [done|]. cbn [fold_left].
  unfold clean_step at 2, walk_step at 2.
  destruct (String.eqb c "" || String.eqb c "."); [by apply IH|].
  destruct (String.eqb_spec c "..") as [-> |Hne]; [|by apply IH; constructor].
  destruct Ho as [|x out Hx Ho]; [by apply IH|]. apply String.eqb_neq in Hx. rewrite Hx. by apply IH.
Qed.

Lemma clean_rooted path : IsAbs path = true -> Clean path = place (walk [] path).
Proof. intros Ha. unfold Clean, place, walk. by rewrite Ha, clean_rooted_walk. Qed.

(** An entry ends up where its name leads to from the destination. *)
Lemma Join_place dest name : IsAbs dest = true -> Join dest name = place (walk (walk [] dest) name).
Proof.
  intros Ha. unfold Join. destruct (String.eqb_spec dest "") as [-> |Hne]; [done|].
  rewrite clean_rooted, walk_join; [done|]. unfold IsAbs in *. rewrite HasPrefix_app in *.
  destruct Ha as [rest ->]. by exists (rest +:+ "/" +:+ name).
Qed.

(** Walking along proper names. *)
Lemma walk_names names : Forall proper names -> forall dir, fold_left walk_step names dir = (rev names ++ dir)%list.
Proof.
  induction 1 as [|c names (_ & H2 & H3 & H4) Hn IH]; intros dir; [done|]. cbn [fold_left rev]. unfold walk_step at 2.
  apply String.eqb_neq in H2, H3, H4. rewrite H2, H3, H4. cbn [orb]. by rewrite IH, <-app_assoc.
Qed.

Lemma proper_elements names : names <> [] -> Forall proper names -> elements (join_elements names) = names.
Proof. exact (relative_elements names 0). Qed.

Lemma walk_joined names dir : names <> [] -> Forall proper names -> walk dir (join_elements names) = (rev names ++ dir)%list.
Proof. intros Hne Hn. unfold walk. rewrite proper_elements by done. by apply walk_names. Qed.

Lemma walk_place D : Forall proper D -> walk [] (place D) = D.
Proof.
  intros HD. unfold walk, place. cbn [split_on]. rewrite Ascii.eqb_refl. cbn [fold_left].
  change (walk_step [] "") with (@nil string). destruct D as [|x D]; [done|]. rewrite proper_elements.
  - rewrite walk_names by by apply Forall_rev. by rewrite rev_involutive, app_nil_r.
  - cbn. by destruct (rev D).
  - by apply Forall_rev.
Qed.

Lemma join_elements_app a b : a <> [] -> b <> [] ->
  join_elements (a ++ b) = join_elements a +:+ "/" +:+ join_elements b.
Proof.
  intros Ha Hb. induction a as [|x [|y a] IH]; [done| |].
  - by destruct b.
  - change (join_elements ((x :: y :: a) ++ b)) with (x +:+ String Separator (join_elements ((y :: a) ++ b))).
    rewrite IH by done. change (join_elements (x :: y :: a)) with (x +:+ String Separator (join_elements (y :: a))).
    by rewrite append_assoc.
Qed.

(** A file with a clean name ends up right beneath the destination. *)
Lemma Join_beneath D names : D <> [] -> Forall proper D -> names <> [] -> Forall proper names ->
  Join (place D) (join_elements names) = place D +:+ "/" +:+ join_elements names.
Proof.
  intros HD HDp Hn Hnp. rewrite Join_place, walk_place, walk_joined by done. unfold place at 1.
  rewrite rev_app_distr, rev_involutive, join_elements_app; [done| |done].
  destruct D as [|x D]; [done|]. cbn. by destruct (rev D).
Qed.

(** A path of proper names. *)
Definition clean_name (path : string) : Prop := exists names, names <> [] /\ Forall proper names /\ path = join_elements names.

Lemma clean_name_relative path : clean_name path -> IsAbs path = false.
Proof.
  intros (names & Hne & Hp & ->). apply not_true_iff_false. intros Ha. pose proof (proper_elements names Hne Hp) as He.
  apply IsAbs_elements in Ha; [|by intros E; rewrite E in Ha]. rewrite He in Ha.
  destruct Hp as [|x names (_ & Hx & _) _]; [done|]. by injection Ha as ->.
Qed.

(** ** Names in the archive *)

Lemma remove_all_none s old : Contains s old = false -> remove_all s old = s.
Proof.
  unfold remove_all. induction s as [|c s IH]; [done|]. cbn [Contains]. intros [Hp Hc]%orb_false_iff.
  cbn [remove_all_from]. by rewrite Hp, IH.
Qed.

Lemma remove_all_skip p s old : remove_all_from (String.length p) (p +:+ s) old = remove_all s old.
Proof. induction p as [|c p IH]; [done|]. exact IH. Qed.

(** The path below the root, unless the root occurs in it again. *)
Lemma remove_all_prefix c p s : let old := String c p in
  Contains s old = false -> remove_all (old +:+ s) old = s.
Proof.
  intros old Hc. assert (HasPrefix (old +:+ s) old = true) as Hp by (apply HasPrefix_app; eauto).
  unfold remove_all. change (old +:+ s) with (String c (p +:+ s)) in *. cbn [remove_all_from]. rewrite Hp.
  change (String.length old - 1)%nat with (String.length p - 0)%nat. rewrite Nat.sub_0_r, remove_all_skip.
  by apply remove_all_none.
Qed.

(** ** What [Untar] writes *)

Lemma targets_place D entries : Forall proper D ->
  targets (place D) entries =
  (fun e => place (walk D (te_Name e))) <$> filter (fun e => te_Regular e = true) entries.
Proof.
  intros HD. unfold targets. apply list_fmap_ext. intros i e _. by rewrite Join_place, walk_place.
Qed.

Lemma walk_up k dir : fold_left walk_step (replicate k "..") dir = drop k dir.
Proof. revert dir. induction k as [|k IH]; intros dir; [done|]. cbn [replicate fold_left]. rewrite IH. destruct dir; [apply drop_nil|done]. Qed.

Section archive.
Context {Nm : Norm}.

(** A file below the root directory that the archive can carry: the name of the
    root does not occur in it again, and its characters are composed. *)
Definition carried (root : list string) (f : list string * string) : Prop :=
  f.1 <> [] /\ Forall proper f.1 /\ NFC (join_elements f.1) = join_elements f.1 /\
  Contains (join_elements f.1) (place root +:+ "/") = false.

(** Where a file ends up. *)
Lemma tar_place rootDir root D f :
  IsAbs rootDir = true -> walk [] rootDir = root -> D <> [] -> Forall proper D -> carried root f ->
  Join (place D) (tar_name rootDir (place root +:+ "/" +:+ join_elements f.1)) = place D +:+ "/" +:+ join_elements f.1.
Proof using Type.
  intros Ha Hroot HD HDp (Hn & Hp & Hnfc & Hc). unfold tar_name.
  rewrite (clean_rooted rootDir Ha), Hroot, <-append_assoc.
  change (place root +:+ "/") with (String Separator (join_elements (rev root) +:+ "/")) in *.
  rewrite remove_all_prefix by done. rewrite Hnfc. by apply Join_beneath.
Qed.

(** Files that are put into an archive on one machine are unpacked at the
    same places below the destination on the other, in the same order, whatever
    the root directory is called (it need not be written in its clean form),
    provided that the absolute path of the root does not occur in the name of a
    file again. *)
Theorem change_set_roundtrip (rootDir : string) (root D : list string) (files : list (list string * string)) :
  IsAbs rootDir = true -> walk [] rootDir = root -> D <> [] -> Forall proper D -> Forall (carried root) files ->
  targets (place D) (TarFiles rootDir ((fun f => (place root +:+ "/" +:+ join_elements f.1, f.2)) <$> files)) =
    (fun f => place D +:+ "/" +:+ join_elements f.1) <$> files /\
  te_Data <$> TarFiles rootDir ((fun f => (place root +:+ "/" +:+ join_elements f.1, f.2)) <$> files) = files.*2.
Proof using Type.
  intros Ha Hroot HD HDp Hfiles. unfold targets, TarFiles. split; [|by rewrite <-!list_fmap_compose].
  induction Hfiles as [|f files Hf _ IH]; [done|].
  rewrite !fmap_cons, list.filter_cons_True, fmap_cons by done. f_equal; [|exact IH]. cbn [te_Name fst snd].
  by apply tar_place.
Qed.
End archive.

(** C23: [Untar] does not look where the names of an archive lead: for every file
    of the machine that unpacks it there is an archive that overwrites this file,
    wherever it is meant to be unpacked.  Only names that lead beneath the
    destination are unpacked there. *)
Theorem untar_overwrites (D F : list string) (data : string) :
  Forall proper D -> Forall proper F -> F <> [] ->
  exists name, targets (place D) [{| te_Regular := true; te_Name := name; te_Data := data |}] = [place F] /\
    (beneath name -> exists names, names <> [] /\ F = (names ++ D)%list).
Proof.
  intros HD HF HFn. exists (join_elements (replicate (length D) ".." ++ rev F)).
  assert (rev F <> []) as Hrev by (destruct F as [|x F]; [done|cbn; by destruct (rev F)]).
  assert (walk D (join_elements (replicate (length D) ".." ++ rev F)) = F) as Hw.
  { unfold walk. rewrite relative_elements; [|by destruct (replicate _ _)|by apply Forall_rev].
    rewrite fold_left_app, walk_up, drop_ge by done. rewrite walk_names by by apply Forall_rev.
    by rewrite rev_involutive, app_nil_r. }
  split.
  - rewrite targets_place by done. rewrite list.filter_cons_True by done. rewrite list.filter_nil, fmap_cons, fmap_nil.
    cbn [te_Name]. by rewrite Hw.
  - intros [_ (names & Hne & Hb)]. exists names. split; [done|]. rewrite <-Hw at 1. apply Hb.
Qed.

(** ** Examples *)

#[global] Instance ascii_norm : Norm := {| NFC := fun s => s |}.

Lemma change_set_roundtrip_witness :
  targets "/tmp/7/files/opt/paper" (TarFiles "/home/u/./chunk//flavor/"
    [("/home/u/chunk/flavor/plugins/a.jar", "1"); ("/home/u/chunk/flavor/server.properties", "2")]) =
  ["/tmp/7/files/opt/paper/plugins/a.jar"; "/tmp/7/files/opt/paper/server.properties"].
Proof.
  apply (change_set_roundtrip "/home/u/./chunk//flavor/" ["flavor"; "chunk"; "u"; "home"]
    ["paper"; "opt"; "files"; "7"; "tmp"] [(["plugins"; "a.jar"], "1"); (["server.properties"], "2")]);
    [reflexivity|reflexivity|done|..]; repeat constructor; cbn; done.
Defined.

Lemma untar_overwrites_witness :
  (exists name, targets "/tmp/7/files/opt/paper" [{| te_Regular := true; te_Name := name; te_Data := "x" |}] =
     ["/etc/passwd"]) /\
  targets "/tmp/7/files/opt/paper" [{| te_Regular := true; te_Name := "../../../../../etc/passwd"; te_Data := "x" |}] =
    ["/etc/passwd"].
Proof.
  split; [|vm_compute; reflexivity].
  destruct (untar_overwrites ["paper"; "opt"; "files"; "7"; "tmp"] ["passwd"; "etc"] "x") as (name & H & _);
    [repeat constructor; done..|done|]. by exists name.
Defined.

(** The path of the root occurs in the name of a file: two files get one name. *)
Lemma archive_names_collide :
  tar_name "/srv/f" "/srv/f/plugins/srv/f/x" = "pluginsx" /\ tar_name "/srv/f" "/srv/f/pluginsx" = "pluginsx".
Proof. done. Qed.
