(* ===== verification/Builds.v ===== *)
(** * Builds of flavor versions

    Before a version can run, its image and then its checkpoint are built.
    [BuildFlavorVersion] of [controlplane/chunk/flavor.go] puts a job in the
    queue, the workers of [controlplane/worker] carry the jobs out, and the
    status of the version says how far the build is.  The queue (river) is
    another program: what is relied on is that a job is tried until it succeeds
    or its attempts are used up, and how it treats duplicates. *)

From stdpp Require Import pretty.
From S2P Require Import Prelude GoStrings Endian CpDb CpFlavors CpSamples Authz Paths Versions Tar.

#[local] Open Scope Z_scope.

(** ** What is relied on *)

(** [InsertTx] with [UniqueOpts.ByArgs], the blob store, the node that makes a
    checkpoint, whether the context of a job has ended, and the archive that was
    uploaded (the entries that can be read, and the error after them if there is
    one), all from the history. *)
Inductive poll_event := PollRunning | PollCompleted | PollFailed (msg : string) | PollNotFound | PollError.

Class JobEnv := {
  river_insert : list string -> job_args -> list job_row -> list job_row;
  object_exists : list string -> string -> api_error + bool;
  poll_status : list string -> poll_event;
  ctx_ended : list string -> bool;
  change_set : list string -> list tar_entry * option string;
}.

Definition pending_job (a : job_args) (j : job_row) : Prop := jb_Args j = a /\ jb_State j <> JobDiscarded.

(** A job with the same arguments that was not given up takes the place of a new
    one.  The context has ended once its end was received. *)
Class JobLaws (JE : JobEnv) : Prop := {
  river_insert_law h a l :
    (river_insert h a l = l /\ exists j, j ∈ l /\ pending_job a j) \/
    ((forall j, j ∈ l -> ~ pending_job a j) /\ exists id max, 1 <= max /\ (forall j, j ∈ l -> jb_ID j <> id) /\
       river_insert h a l = l ++ [mk_job id a JobLive 0 max]);
  ctx_done h : ctx_ended ("ctx.Done" :: h) = true;
}.

(** ** job/jobs.go *)

Definition args_version (a : job_args) : string :=
  match a with CreateImage v _ _ _ => v | CreateCheckpoint v _ _ => v end.

Definition ChangeSetKey (versionID : string) : string :=
  "explorer/blobs/" +:+ versionID +:+ "/changeset.tar.gz".

Section builds.
Context {En : CpEnv} {JE : JobEnv}.

Definition Validate (a : job_args) : option string :=
  match uuid_version (args_version a) with
  | None => Some "invalid flavor version id"
  | Some _ =>
      match a with
      | CreateImage _ BaseImage OCIRegistry _ =>
          if String.eqb BaseImage "" then Some "invalid base image"
          else if String.eqb OCIRegistry "" then Some "invalid registry" else None
      | CreateCheckpoint _ BaseImageURL _ =>
          if String.eqb BaseImageURL "" then Some "invalid base image" else None
      end
  end.

(** ** postgres *)

Definition InsertJob (flavorVersionID status : string) (args : job_args) : CpM unit :=
  doTX (
    update_version "UpdateFlavorVersionBuildStatus" flavorVersionID (with_status status);;
    sql "InsertTx" (fun h d => (inr tt, set_jobs (river_insert h args (t_jobs d)) d))).

(** [ORDER BY random() LIMIT 1] *)
Definition RandomNode : CpM node_row :=
  do_ (
    n ← select "RandomNode" (fun h d =>
      match cp_rows h (map_to_list (t_nodes d)).*2 with n :: _ => inr n | [] => inl ErrNoRows end);
    if parse_addr_port (nd_CheckpointApiEndpoint n) then mret n
    else raise (ErrOther "parse checkpoint api endpoint")).

(** ** chunk/flavor.go *)

Definition ObjectExists (key : string) : CpM bool := fun s =>
  let h := "ObjectExists" :: cp_log s in (object_exists h key, mk_cp (cp_db s) h).

Definition base_image (registry versionID : string) : string := registry +:+ "/" +:+ versionID +:+ ":base".

(** There is a job already, or all is done. *)
Definition no_build_needed (status : string) : bool :=
  String.eqb status FlavorVersionBuildStatusBuildCheckpoint ||
  String.eqb status FlavorVersionBuildStatusBuildImage ||
  String.eqb status FlavorVersionBuildStatusCompleted.

(** The job for a version in a state that needs one. *)
Definition start_build (registry versionID : string) (span : string * string) (version : FlavorVersion)
    : handler unit :=
  if String.eqb (rv_BuildStatus version) FlavorVersionBuildStatusBuildCheckpointFailed then
    repo (InsertJob versionID FlavorVersionBuildStatusBuildCheckpoint
      (CreateCheckpoint versionID (base_image registry versionID) span))
  else
    image ← repo (GetMinecraftVersionByVersion (rv_MinecraftVersion version));
    repo (InsertJob versionID FlavorVersionBuildStatusBuildImage
      (CreateImage versionID image registry span)).

Definition BuildFlavorVersion (registry : string) (actorID : option string) (versionID : string)
    (span : string * string) : handler unit :=
  match actorID with
  | None => herr (ErrOther "actor_id not found in context")
  | Some actorID =>
      repo (AccessAuthorized [WithOwnershipRule actorID (FlavorVersionResourceDef versionID)]);;
      flavorID ← repo (FlavorIDByFlavorVersionID versionID);
      f ← repo (FlavorByID flavorID);
      match rf_DeletedAt f with
      | Some _ => herr ErrNotFound
      | None =>
          version ← repo (FlavorVersionByID versionID);
          (if rv_FilesUploaded version then mret tt
           else
             exists_ ← repo (ObjectExists (ChangeSetKey versionID));
             if exists_ : bool then repo (MarkFlavorVersionFilesUploaded versionID)
             else herr ErrFlavorFilesNotUploaded);;
          if no_build_needed (rv_BuildStatus version) then mret tt
          else start_build registry versionID span version
      end
  end.

(** ** worker/create_image.go *)

(** A call of the image service, the blob store or the file system. *)
Definition ext (name : string) : CpM unit := select name (fun _ _ => inr tt).

(** A new file and where its contents come from. *)
Definition write_file (path data : string) : CpM unit :=
  ext "MkdirAll";; ext ("Create " +:+ path);; ext data.

(** [Untar] of tarhelper/tar.go *)
Fixpoint untar_loop (dest : string) (entries : list tar_entry) (err : option string) : CpM (list string) :=
  match entries with
  | [] => match err with Some msg => raise (ErrOther msg) | None => mret [] end
  | header :: entries =>
      if te_Regular header then
        let target := Join dest (te_Name header) in
        write_file target ("Copy " +:+ te_Data header);;
        paths ← untar_loop dest entries err;
        mret (target :: paths)
      else untar_loop dest entries err
  end.

Definition Untar (dest : string) : CpM (list string) :=
  ext "gzip";;
  ((fun s => let (entries, err) := change_set (cp_log s) in untar_loop dest entries err s) : CpM (list string)).

(** The files of the version that the change set does not have. *)
Definition missing (dest : string) (all : list Hash) (have : list string) : list Hash :=
  let cleaned : gset string := list_to_set ((fun s => remove_first s (dest +:+ "/")) <$> have) in
  filter (fun fh => h_Path fh ∉ cleaned) all.

Definition CASKeyPrefix : string := "explorer/blobs/cas".

Fixpoint download (dest : string) (want : list Hash) : CpM unit :=
  match want with
  | [] => mret tt
  | wantHash :: want =>
      write_file (Join dest (h_Path wantHash)) ("WriteTo " +:+ CASKeyPrefix +:+ "/" +:+ h_Hash wantHash);;
      download dest want
  end.

Definition downloadMissing (dest : string) (all : list Hash) (have : list string) : CpM unit :=
  download dest (missing dest all have).

Fixpoint upload (filePaths : list string) : CpM unit :=
  match filePaths with
  | [] => ext "PutBlob"
  | _ :: filePaths => ext "NewFromFile";; upload filePaths
  end.

(** [serverRootDir] of the job with this id. *)
Definition server_root (id : Z) : string := "/tmp/" +:+ pretty id +:+ "/files/opt/paper".

(** The directory is removed at the end, which changes nothing else. *)
Definition CreateImage_body (serverRootDir : string) (args : job_args) (versionID baseImage registry : string)
    (span : string * string) : CpM unit :=
  match Validate args with
  | Some msg => raise (ErrOther msg)
  | None =>
      ext "Pull";;
      version ← FlavorVersionByID versionID;
      ext "MkdirAll";; ext "Create";; ext "WriteTo";; ext "Seek";;
      paths ← Untar serverRootDir;
      upload paths;;
      downloadMissing serverRootDir (rv_FileHashes version) paths;;
      ext "OpenRoot";; ext "SanitizeConfigs";; ext "AppendLayer";; ext "Push";;
      InsertJob versionID FlavorVersionBuildStatusBuildCheckpoint
        (CreateCheckpoint versionID (base_image registry versionID) span)
  end.

(** The deferred function: after the last attempt the status becomes [failed],
    unless the context has ended, with which the update is made. *)
Definition deferred (failed versionID : string) (attempt max : Z) (body : CpM unit) : CpM unit := fun s =>
  match body s with
  | (inr u, s1) => (inr u, s1)
  | (inl e, s1) =>
      if attempt <? max then (inl e, s1)
      else if ctx_ended (cp_log s1) then (inl e, s1)
      else (inl e, (UpdateFlavorVersionBuildStatus versionID failed s1).2)
  end.

(** ** worker/create_checkpoint.go *)

(** The loop over ticks; the job times out after [ticks] of them.  The answer
    [PollError] is any error but NotFound. *)
Fixpoint poll_loop (ticks : nat) (versionID : string) : CpM unit :=
  match ticks with
  | O => fun s => (inl (ErrOther "context"), send "ctx.Done" s)
  | S ticks => fun s =>
      let s1 := send "CheckpointStatus" s in
      match poll_status (cp_log s1) with
      | PollNotFound => (inl ErrNotFound, s1)
      | PollError | PollRunning => poll_loop ticks versionID s1
      | PollCompleted => UpdateFlavorVersionBuildStatus versionID FlavorVersionBuildStatusCompleted s1
      | PollFailed msg => (inl (ErrOther ("checkpointing failed: " +:+ msg)), s1)
      end
  end.

Definition CreateCheckpoint_body (ticks : nat) (args : job_args) (versionID : string) : CpM unit :=
  match Validate args with
  | Some msg => raise (ErrOther msg)
  | None =>
      RandomNode;;
      ext "createCheckpointClient";;
      ext "CreateCheckpoint";;
      poll_loop ticks versionID
  end.

(** ** The queue *)

(** [Work] of a job in an attempt. *)
Definition Work (ticks : nat) (serverRootDir : string) (a : job_args) (attempt max : Z) : CpM unit :=
  match a with
  | CreateImage v baseImage registry span =>
      deferred FlavorVersionBuildStatusBuildImageFailed v attempt max
        (CreateImage_body serverRootDir a v baseImage registry span)
  | CreateCheckpoint v _ _ =>
      deferred FlavorVersionBuildStatusBuildCheckpointFailed v attempt max (CreateCheckpoint_body ticks a v)
  end.

(** What the queue records after an attempt. *)
Definition settled (ok : bool) (j : job_row) : job_row :=
  let attempt := jb_Attempt j + 1 in
  mk_job (jb_ID j) (jb_Args j)
    (if ok then JobCompleted else if attempt <? jb_MaxAttempts j then JobLive else JobDiscarded)
    attempt (jb_MaxAttempts j).

Definition settle (id : Z) (ok : bool) (l : list job_row) : list job_row :=
  (fun j => if decide (jb_ID j = id) then settled ok j else j) <$> l.

Definition run_job (ticks : nat) (j : job_row) (s : cp) : cp :=
  let (r, s1) := Work ticks (server_root (jb_ID j)) (jb_Args j) (jb_Attempt j + 1) (jb_MaxAttempts j) s in
  let ok := match r with inr _ => true | inl _ => false end in
  mk_cp (set_jobs (settle (jb_ID j) ok (t_jobs (cp_db s1))) (cp_db s1)) (cp_log s1).

(** The status of a version. *)
Definition build_status (v : string) (d : db) : option string := fv_BuildStatus <$> t_versions d !! v.

(** A job for the version, whatever became of it. *)
Definition mentions (v : string) (jobs : list job_row) : Prop :=
  exists j, j ∈ jobs /\ uuid_in (args_version (jb_Args j)) = Some v.

(** A request is served, a job is tried, or something else happens, which only
    creates versions with new ids and removes versions (into the archive).
    Requests and attempts are whole steps here, one after the other;
    [racing_requests_two_jobs] of [BuildRuns] is what requests that overlap do. *)
Inductive build_step (registry : string) : cp -> cp -> Prop :=
| bs_request actor version span s :
    build_step registry s (serve (BuildFlavorVersion registry actor version span) s).2
| bs_work j ticks s :
    j ∈ t_jobs (cp_db s) -> jb_State j = JobLive -> build_step registry s (run_job ticks j s)
| bs_other s s' :
    t_jobs (cp_db s') = t_jobs (cp_db s) ->
    (forall v, build_status v (cp_db s') = build_status v (cp_db s) \/
       build_status v (cp_db s') = None \/
       build_status v (cp_db s) = None /\ ~ mentions v (t_jobs (cp_db s)) /\
         build_status v (cp_db s') = Some FlavorVersionBuildStatusPending) ->
    build_step registry s s'.
End builds.

(** ** A concrete queue *)

#[global] Instance job_args_eq_dec : EqDecision job_args.
Proof. solve_decision. Defined.

#[global] Instance pending_job_dec a j : Decision (pending_job a j).
Proof. unfold pending_job. apply _. Defined.

(** Ids count up; a job is tried twice.  The node always answers [poll]. *)
Definition demo_job_env (poll : poll_event) : JobEnv := {|
  river_insert _ a l :=
    if decide (Exists (pending_job a) l) then l
    else l ++ [mk_job (foldr Z.max 0 (jb_ID <$> l) + 1) a JobLive 0 2];
  object_exists _ _ := inr true;
  poll_status _ := poll;
  ctx_ended h := match h with x :: _ => String.eqb x "ctx.Done" | [] => false end;
  change_set _ := ([{| te_Regular := true; te_Name := "b.txt"; te_Data := "2" |}], None);
|}.

Lemma max_id (l : list job_row) j : j ∈ l -> jb_ID j <= foldr Z.max 0 (jb_ID <$> l).
Proof. induction 1; cbn; lia. Qed.

Lemma demo_job_laws poll : JobLaws (demo_job_env poll).
Proof.
  split; [|done]. intros h a l. cbn [river_insert demo_job_env].
  destruct (decide (Exists (pending_job a) l)) as [He|Hn].
  - left. split; [done|]. by apply list.Exists_exists in He.
  - right. split; [intros j Hj Hp; apply Hn, list.Exists_exists; eauto|].
    eexists _, 2. split; [lia|]. split; [|reflexivity]. intros j Hj%max_id. lia.
Qed.

(** The version "v" with the given status and jobs. *)
Definition demo_build (status : string) (jobs : list job_row) : cp :=
  let d := demo_db 1 [] in
  mk_cp (set_files [{| ff_FlavorVersionID := "v"; ff_FileHash := "h"; ff_FilePath := "a.txt" |}]
    (set_jobs jobs (set_versions (alter (with_status status) "v" (t_versions d)) d))) [].
