(* ===== verification/BuildRuns.v ===== *)
(** * The state of a build

    What each call of [Builds] does to the jobs and the statuses, and what follows
    for every run: which job works on a version, how its status changes, and the
    ways in which that goes wrong. *)

From S2P Require Import Prelude GoStrings Endian CpDb CpFlavors CpSamples Authz Paths Versions Tar Builds.

#[local] Open Scope Z_scope.

Section builds.
Context {En : CpEnv} {JE : JobEnv}.

(** ** What the calls do *)

(** Jobs and statuses stay; the status of a version changes; and a job is
    inserted with it. *)
Definition kept (d d' : db) : Prop :=
  t_jobs d' = t_jobs d /\ forall v, build_status v d' = build_status v d.
Definition statuses_set (u new : string) (d d' : db) : Prop :=
  forall v, build_status v d' = if decide (v = u) then (fun _ => new) <$> build_status v d else build_status v d.
Definition marked (u new : string) (d d' : db) : Prop := t_jobs d' = t_jobs d /\ statuses_set u new d d'.
Definition moved (u new : string) (a : job_args) (d d' : db) : Prop :=
  (exists h, t_jobs d' = river_insert h a (t_jobs d)) /\ statuses_set u new d d'.

Lemma kept_eq d d' : d' = d -> kept d d'.
Proof using Type. by intros ->. Qed.

Lemma kept_trans d1 d2 d3 : kept d1 d2 -> kept d2 d3 -> kept d1 d3.
Proof using Type. intros [A1 A2] [B1 B2]. split; [congruence|]. intros v. by rewrite B2. Qed.

Lemma set_trans u new d1 d2 d3 : kept d1 d2 -> statuses_set u new d2 d3 -> statuses_set u new d1 d3.
Proof using Type. intros [_ A] B v. rewrite B. by destruct (decide (v = u)); rewrite A. Qed.

Lemma status_alter u f d v :
  build_status v (set_versions (alter f u (t_versions d)) d) =
  if decide (v = u) then (fun r => fv_BuildStatus (f r)) <$> t_versions d !! v else build_status v d.
Proof using Type.
  unfold build_status. cbn. destruct (decide (v = u)) as [->|Hne].
  - rewrite lookup_alter_eq. by destruct (t_versions d !! u).
  - by rewrite lookup_alter_ne.
Qed.

Lemma reads_then {A B} (m : CpM A) (f : A -> CpM B) s r s' :
  keeps_db m -> (m ≫= f) s = (r, s') ->
  (exists e, r = inl e /\ cp_db s' = cp_db s) \/
  exists a s1, m s = (inr a, s1) /\ cp_db s1 = cp_db s /\ f a s1 = (r, s').
Proof using Type.
  intros Hm. specialize (Hm s). unfold mbind, CpM_bind. destruct (m s) as [[e|a] s1]; cbn in Hm.
  - intros [= <- <-]. left. eauto.
  - intros E. right. exists a, s1. done.
Qed.

Lemma keeps_ext name : keeps_db (ext name).
Proof using Type. apply keeps_select. Qed.

Lemma keeps_FlavorVersionByID id : keeps_db (FlavorVersionByID id).
Proof using Type.
  apply keeps_do, keeps_bind; [apply keeps_select|]. intros [|[v f] l]; apply keeps_ret.
Qed.

Lemma keeps_upload l : keeps_db (upload l).
Proof using Type.
  induction l as [|p l IH]; [apply keeps_ext|]. apply keeps_bind; [apply keeps_ext|]. by intros _.
Qed.

Lemma keeps_write path data : keeps_db (write_file path data).
Proof using Type. do 2 (apply keeps_bind; [apply keeps_ext|]; intros _). apply keeps_ext. Qed.

Lemma keeps_download dest l : keeps_db (download dest l).
Proof using Type.
  induction l as [|p l IH]; [apply keeps_ret|]. apply keeps_bind; [apply keeps_write|]. by intros _.
Qed.

Lemma keeps_untar dest l err : keeps_db (untar_loop dest l err).
Proof using Type.
  induction l as [|e l IH]; cbn [untar_loop]; [by destruct err|]. destruct (te_Regular e); [|done].
  apply keeps_bind; [apply keeps_write|]. intros _. apply keeps_bind; [done|]. intros paths. apply keeps_ret.
Qed.

Lemma keeps_Untar dest : keeps_db (Untar dest).
Proof using Type.
  apply keeps_bind; [apply keeps_ext|]. intros _ s. destruct (change_set (cp_log s)). apply keeps_untar.
Qed.

Lemma keeps_RandomNode : keeps_db RandomNode.
Proof using Type.
  apply keeps_do, keeps_bind; [apply keeps_select|]. intros n. destruct (parse_addr_port _); apply keeps_ret.
Qed.

Lemma update_spec name id st s r s' :
  update_version name id (with_status st) s = (r, s') ->
  match r with
  | inl _ => cp_db s' = cp_db s
  | inr _ => exists u, uuid_in id = Some u /\ marked u st (cp_db s) (cp_db s')
  end.
Proof using Type.
  unfold update_version, sql. destruct (cp_fault _); [by intros [= <- <-]|].
  destruct (uuid_in id) as [u|] eqn:Eu; [|by intros [= <- <-]]. intros [= <- <-].
  exists u. split; [done|]. split; [done|].
  intros v. cbn [cp_db snd]. rewrite status_alter. unfold build_status.
  destruct (decide (v = u)); [|done]. by destruct (t_versions _ !! v).
Qed.

Lemma UpdateStatus_spec id st s r s' :
  UpdateFlavorVersionBuildStatus id st s = (r, s') ->
  match r with
  | inl _ => cp_db s' = cp_db s
  | inr _ => exists u, uuid_in id = Some u /\ marked u st (cp_db s) (cp_db s')
  end.
Proof using Type.
  unfold UpdateFlavorVersionBuildStatus, do_. intros E.
  apply reads_then in E as [(e & -> & Hdb)|(a & s1 & _ & Hdb & E)]; [done| |apply keeps_select].
  apply update_spec in E. by rewrite Hdb in E.
Qed.

Lemma InsertJob_spec id st a s r s' :
  InsertJob id st a s = (r, s') ->
  match r with
  | inl _ => cp_db s' = cp_db s
  | inr _ => exists u, uuid_in id = Some u /\ moved u st a (cp_db s) (cp_db s')
  end.
Proof using Type.
  intros E%doTX_spec. destruct r as [e|[]]; [exact E|]. destruct E as (s1 & s2 & <- & E & ->).
  apply CpM_bind_inr in E as ([] & s3 & E1 & E2).
  unfold update_version, sql in E1. destruct (cp_fault _); [done|].
  destruct (uuid_in id) as [u|]; [|done]. injection E1 as <-. exists u. split; [done|].
  unfold sql in E2. destruct (cp_fault _); [done|]. injection E2 as <-. cbn [cp_db]. split; [by eexists|].
  intros v. change (build_status v (set_jobs ?l ?d)) with (build_status v d).
  rewrite status_alter. unfold build_status. destruct (decide (v = u)); [|done]. by destruct (t_versions _ !! v).
Qed.

(** An attempt at a job of the version [u]; [last]: there is no other. *)
Definition attempt_outcome (last : Prop) (u : string) (a : job_args) (r : api_error + unit) (d d' : db) : Prop :=
  match a with
  | CreateImage v _ registry span =>
      match r with
      | inl _ => last /\ marked u FlavorVersionBuildStatusBuildImageFailed d d'
      | inr _ => moved u FlavorVersionBuildStatusBuildCheckpoint (CreateCheckpoint v (base_image registry v) span) d d'
      end
  | CreateCheckpoint _ _ _ =>
      match r with
      | inl _ => last /\ marked u FlavorVersionBuildStatusBuildCheckpointFailed d d'
      | inr _ => marked u FlavorVersionBuildStatusCompleted d d'
      end
  end.

(** What a call does to the database, given what it returns; an error leaves it as
    it was. *)
Definition does {A} (P : A -> db -> db -> Prop) (m : CpM A) : Prop :=
  forall s r s', m s = (r, s') -> match r with inl _ => cp_db s' = cp_db s | inr a => P a (cp_db s) (cp_db s') end.

Lemma does_after {A B} P (m : CpM A) (f : A -> CpM B) :
  keeps_db m -> (forall a, does P (f a)) -> does P (m ≫= f).
Proof using Type.
  intros Hm Hf s r s' E. apply reads_then in E as [(e & -> & Hdb)|(a & s1 & _ & Hdb & E)]; [done| |done].
  apply Hf in E. by rewrite Hdb in E.
Qed.

Lemma does_raise {A} (P : A -> db -> db -> Prop) e : does P (raise e).
Proof using Type. by intros s r s' [= <- <-]. Qed.

Lemma CreateImage_body_does dir a v baseImage registry span :
  does (fun _ d d' => exists u, uuid_in v = Some u /\ moved u FlavorVersionBuildStatusBuildCheckpoint
    (CreateCheckpoint v (base_image registry v) span) d d') (CreateImage_body dir a v baseImage registry span).
Proof using Type.
  unfold CreateImage_body. destruct (Validate a); [apply does_raise|].
  repeat lazymatch goal with
  | |- does _ (InsertJob _ _ _) => fail
  | |- does _ _ => apply does_after;
      [first [apply keeps_ext | apply keeps_FlavorVersionByID | apply keeps_Untar
        | apply keeps_upload | apply keeps_download]|intros ?]
  end.
  intros s r s' E%InsertJob_spec. by destruct r.
Qed.

Lemma poll_does ticks v :
  does (fun _ d d' => exists u, uuid_in v = Some u /\ marked u FlavorVersionBuildStatusCompleted d d') (poll_loop ticks v).
Proof using Type.
  induction ticks as [|ticks IH]; intros s r s'; cbn [poll_loop]; [by intros [= <- <-]|]. cbv zeta.
  destruct (poll_status _); [apply (IH (send "CheckpointStatus" s))| |by intros [= <- <-]..|apply (IH (send "CheckpointStatus" s))].
  intros E%UpdateStatus_spec. by destruct r.
Qed.

Lemma CreateCheckpoint_body_does ticks a v :
  does (fun _ d d' => exists u, uuid_in v = Some u /\ marked u FlavorVersionBuildStatusCompleted d d')
    (CreateCheckpoint_body ticks a v).
Proof using Type.
  unfold CreateCheckpoint_body. destruct (Validate a); [apply does_raise|].
  apply does_after; [apply keeps_RandomNode|]. intros n.
  do 2 (apply does_after; [apply keeps_ext|]; intros _). apply poll_does.
Qed.

Lemma deferred_spec P failed v attempt max body s r s' :
  does (fun _ : unit => P) body -> deferred failed v attempt max body s = (r, s') ->
  match r with
  | inr _ => P (cp_db s) (cp_db s')
  | inl _ => cp_db s' = cp_db s \/
      (max <= attempt /\ exists u, uuid_in v = Some u /\ marked u failed (cp_db s) (cp_db s'))
  end.
Proof using Type.
  intros Hb. unfold deferred. destruct (body s) as [[e|u] s1] eqn:E; apply Hb in E.
  - destruct (Z.ltb_spec attempt max); [intros [= <- <-]; by left|].
    destruct (ctx_ended _); [intros [= <- <-]; by left|]. intros [= <- <-].
    destruct (UpdateFlavorVersionBuildStatus v failed s1) as [r2 s2] eqn:E2. apply UpdateStatus_spec in E2.
    rewrite E in E2. destruct r2; [by left|right]. by split.
  - by intros [= <- <-].
Qed.

Lemma Work_spec ticks dir a attempt max s r s' :
  Work ticks dir a attempt max s = (r, s') ->
  (exists e, r = inl e /\ cp_db s' = cp_db s) \/
  exists u, uuid_in (args_version a) = Some u /\ attempt_outcome (max <= attempt) u a r (cp_db s) (cp_db s').
Proof using Type.
  destruct a as [v baseImage registry span|v url span]; cbn [Work args_version attempt_outcome];
    intros E; eapply deferred_spec in E; [|apply CreateImage_body_does| |apply CreateCheckpoint_body_does];
    destruct r as [e|u0].
  - destruct E as [E|(Hlast & u & Hu & Hm)]; [left; eauto|right; eauto].
  - right. exact E.
  - destruct E as [E|(Hlast & u & Hu & Hm)]; [left; eauto|right; eauto].
  - right. exact E.
Qed.

(** ** A request *)

Lemma FlavorVersionByID_status id s version s1 :
  FlavorVersionByID id s = (inr version, s1) ->
  exists u, uuid_in id = Some u /\ build_status u (cp_db s) = Some (rv_BuildStatus version).
Proof using Type.
  unfold FlavorVersionByID, do_, select, sql, uuid_arg. unfold mbind, CpM_bind. cbn.
  destruct (cp_fault ("acquire" :: _)); [done|]. cbn. destruct (cp_fault ("FlavorVersionByID" :: _)); [done|]. cbn.
  destruct (uuid_in id) as [u|]; [|done]. intros E. exists u. split; [done|]. unfold build_status.
  destruct (t_versions (cp_db s) !! u) as [v|]; [|done]. cbn.
  destruct (filter _ _) as [|f l]; [done|]. cbn in E. by injection E as <- <-.
Qed.

Lemma uploaded_kept id s : kept (cp_db s) (cp_db (MarkFlavorVersionFilesUploaded id s).2).
Proof using Type.
  unfold MarkFlavorVersionFilesUploaded, do_.
  destruct ((select "acquire" _;; update_version _ id with_uploaded) s) as [r s'] eqn:E.
  apply reads_then in E as [(e & _ & Hdb)|(a & s1 & _ & Hdb & E)]; [by apply kept_eq| |apply keeps_select].
  unfold update_version, sql in E. rewrite <-Hdb.
  destruct (cp_fault _); [by injection E as <- <-|]. destruct (uuid_in id) as [u|]; [|by injection E as <- <-].
  injection E as <- <-. split; [done|]. intros v. cbn [snd cp_db]. rewrite status_alter. unfold build_status.
  destruct (decide (v = u)); [|done]. by destruct (t_versions _ !! v).
Qed.

Lemma keeps_ObjectExists key : keeps_db (ObjectExists key).
Proof using Type. done. Qed.

Lemma keeps_Minecraft_image version : keeps_db (GetMinecraftVersionByVersion version).
Proof using Type. apply keeps_do, keeps_select. Qed.

(** The files are there. *)
Lemma files_kept (version : FlavorVersion) id s :
  kept (cp_db s) (cp_db (serve
    (if rv_FilesUploaded version then mret tt
     else exists_ ← repo (ObjectExists (ChangeSetKey id));
       if exists_ : bool then repo (MarkFlavorVersionFilesUploaded id) else herr ErrFlavorFilesNotUploaded) s).2).
Proof using Type.
  destruct (rv_FilesUploaded version); [by apply kept_eq|].
  destruct (serve _ s) as [r s'] eqn:E.
  apply serve_reads in E as [(e & _ & Hdb)|(b & s1 & _ & Hdb & E)]; [by apply kept_eq| |apply keeps_ObjectExists].
  rewrite <-Hdb. destruct b; [|by injection E as <- <-].
  pose proof (uploaded_kept id s1) as Hk. unfold repo in E. cbn [serve] in E. unfold mbind, CpM_bind in E.
  destruct (MarkFlavorVersionFilesUploaded id s1) as [[e|[]] s2]; by injection E as <- <-.
Qed.

Definition request_outcome (registry version : string) (span : string * string) (d d' : db) : Prop :=
  kept d d' \/ exists u st, uuid_in version = Some u /\ build_status u d = Some st /\ no_build_needed st = false /\
    (st = FlavorVersionBuildStatusBuildCheckpointFailed /\
       moved u FlavorVersionBuildStatusBuildCheckpoint (CreateCheckpoint version (base_image registry version) span) d d' \/
     st <> FlavorVersionBuildStatusBuildCheckpointFailed /\
       exists image, moved u FlavorVersionBuildStatusBuildImage (CreateImage version image registry span) d d').

Lemma moved_after u st a d1 d2 d3 : kept d1 d2 -> moved u st a d2 d3 -> moved u st a d1 d3.
Proof using Type.
  intros Hk [[h Hj] Hs]. split; [exists h; rewrite Hj; by rewrite (proj1 Hk)|by eapply set_trans].
Qed.

Lemma insert_request u st a id s d :
  uuid_in id = Some u -> kept d (cp_db s) ->
  kept d (cp_db (serve (repo (InsertJob id st a)) s).2) \/ moved u st a d (cp_db (serve (repo (InsertJob id st a)) s).2).
Proof using Type.
  intros Hu Hk. unfold repo. cbn [serve]. unfold mbind, CpM_bind.
  destruct (InsertJob id st a s) as [r s1] eqn:E. apply InsertJob_spec in E. destruct r as [e|[]]; cbn [snd].
  - left. eapply kept_trans; [exact Hk|by apply kept_eq].
  - right. destruct E as (u' & Hu' & Hm). assert (u' = u) as -> by congruence. by eapply moved_after.
Qed.

Lemma request_spec registry actor version span s :
  request_outcome registry version span (cp_db s) (cp_db (serve (BuildFlavorVersion registry actor version span) s).2).
Proof using Type.
  unfold BuildFlavorVersion. destruct actor as [actor|]; [|left; by apply kept_eq].
  destruct (serve _ s) as [r s'] eqn:E. cbn [snd].
  apply serve_reads in E as [(e & _ & Hdb)|(x & s1 & _ & Hdb & E)];
    [left; by apply kept_eq| |apply keeps_AccessAuthorized]. rewrite <-Hdb. clear s Hdb x.
  apply serve_reads in E as [(e & _ & Hdb)|(x & s2 & _ & Hdb & E)];
    [left; by apply kept_eq| |apply keeps_FlavorID]. rewrite <-Hdb. clear s1 Hdb.
  apply serve_reads in E as [(e & _ & Hdb)|(f & s3 & _ & Hdb & E)];
    [left; by apply kept_eq| |apply keeps_FlavorByID]. rewrite <-Hdb. clear s2 Hdb.
  destruct (rf_DeletedAt f); [injection E as <- <-; by left|].
  apply serve_reads in E as [(e & _ & Hdb)|(v & s4 & Ev & Hdb & E)];
    [left; by apply kept_eq| |apply keeps_FlavorVersionByID].
  apply FlavorVersionByID_status in Ev as (u & Hu & Hst). rewrite <-Hdb in Hst |- *. clear s3 Hdb.
  rewrite serve_bind in E. pose proof (files_kept v version s4) as Hk. unfold mbind at 1, CpM_bind in E.
  destruct (serve _ s4) as [[e|[]] s5]; cbn [snd] in Hk; [injection E as <- <-; by left|].
  destruct (no_build_needed (rv_BuildStatus v)) eqn:Enb; [injection E as <- <-; by left|]. unfold start_build in E.
  destruct (String.eqb_spec (rv_BuildStatus v) FlavorVersionBuildStatusBuildCheckpointFailed) as [Ef|Ef].
  - pose proof (insert_request u FlavorVersionBuildStatusBuildCheckpoint
      (CreateCheckpoint version (base_image registry version) span) version s5 (cp_db s4) Hu Hk) as Hi.
    rewrite E in Hi. destruct Hi as [Hi|Hi]; [by left|right]. exists u, (rv_BuildStatus v). auto 10.
  - apply serve_reads in E as [(e & _ & Hdb)|(image & s6 & _ & Hdb & E)]; [left; by rewrite Hdb| |apply keeps_Minecraft_image].
    rewrite <-Hdb in Hk. pose proof (insert_request u FlavorVersionBuildStatusBuildImage
      (CreateImage version image registry span) version s6 (cp_db s4) Hu Hk) as Hi.
    rewrite E in Hi. destruct Hi as [Hi|Hi]; [by left|right]. exists u, (rv_BuildStatus v). eauto 10.
Qed.

(** ** The state of a build *)

Definition build_statuses : list string :=
  [FlavorVersionBuildStatusPending; FlavorVersionBuildStatusBuildImage;
   FlavorVersionBuildStatusBuildCheckpoint; FlavorVersionBuildStatusBuildImageFailed;
   FlavorVersionBuildStatusBuildCheckpointFailed; FlavorVersionBuildStatusCompleted].

(** The status of a version while a job works on it. *)
Definition building (a : job_args) : string :=
  match a with
  | CreateImage _ _ _ _ => FlavorVersionBuildStatusBuildImage
  | CreateCheckpoint _ _ _ => FlavorVersionBuildStatusBuildCheckpoint
  end.

(** A job that is still to be worked on, for the version [v]. *)
Definition live_for (v : string) (j : job_row) : Prop :=
  jb_State j = JobLive /\ uuid_in (args_version (jb_Args j)) = Some v.

(** A version has at most one such job, and its status says which, unless the
    version is gone. *)
Record builds_ok (d : db) : Prop := {
  bo_ids : NoDup (jb_ID <$> t_jobs d);
  bo_one : forall v j1 j2, j1 ∈ t_jobs d -> j2 ∈ t_jobs d -> live_for v j1 -> live_for v j2 -> jb_ID j1 = jb_ID j2;
  bo_live : forall v j st, j ∈ t_jobs d -> live_for v j -> build_status v d = Some st -> st = building (jb_Args j);
  bo_status : forall v st, build_status v d = Some st -> st ∈ build_statuses;
}.

(** How a status changes. *)
Inductive status_edge : option string -> option string -> Prop :=
| edge_same st : status_edge st st
| edge_gone st : status_edge st None
| edge_new : status_edge None (Some FlavorVersionBuildStatusPending)
| edge_start : status_edge (Some FlavorVersionBuildStatusPending) (Some FlavorVersionBuildStatusBuildImage)
| edge_restart : status_edge (Some FlavorVersionBuildStatusBuildImageFailed) (Some FlavorVersionBuildStatusBuildImage)
| edge_image : status_edge (Some FlavorVersionBuildStatusBuildImage) (Some FlavorVersionBuildStatusBuildCheckpoint)
| edge_image_failed :
    status_edge (Some FlavorVersionBuildStatusBuildImage) (Some FlavorVersionBuildStatusBuildImageFailed)
| edge_retry :
    status_edge (Some FlavorVersionBuildStatusBuildCheckpointFailed) (Some FlavorVersionBuildStatusBuildCheckpoint)
| edge_checkpoint_failed :
    status_edge (Some FlavorVersionBuildStatusBuildCheckpoint) (Some FlavorVersionBuildStatusBuildCheckpointFailed)
| edge_completed :
    status_edge (Some FlavorVersionBuildStatusBuildCheckpoint) (Some FlavorVersionBuildStatusCompleted).

(** No job works on the version. *)
Definition idle (v : string) (d : db) : Prop := forall j, j ∈ t_jobs d -> ~ live_for v j.

(** No job works on the version, which had one, and its status needs no build. *)
Record at_rest (v st : string) (d : db) : Prop := {
  rest_idle : idle v d;
  rest_known : mentions v (t_jobs d);
  rest_status : build_status v d = Some st \/ build_status v d = None;
}.

Definition step_ok (d d' : db) : Prop :=
  builds_ok d' /\ (forall v, status_edge (build_status v d) (build_status v d')) /\
  forall v st, no_build_needed st = true -> at_rest v st d -> at_rest v st d'.

Context {JL : JobLaws JE}.

(** Jobs that are still to be worked on were so before, and none is forgotten. *)
Definition thinned (d : db) (jobs : list job_row) : Prop :=
  NoDup (jb_ID <$> jobs) /\ (forall v, mentions v (t_jobs d) -> mentions v jobs) /\
  forall v j, j ∈ jobs -> live_for v j ->
    exists j0, j0 ∈ t_jobs d /\ live_for v j0 /\ jb_ID j0 = jb_ID j /\ jb_Args j0 = jb_Args j.

(** The same, or one job more, for the version [u]. *)
Definition extended (u new : string) (jobs jobs' : list job_row) : Prop :=
  jobs' = jobs \/ exists id a max, jobs' = jobs ++ [mk_job id a JobLive 0 max] /\
    (forall j, j ∈ jobs -> jb_ID j <> id) /\ new = building a /\ uuid_in (args_version a) = Some u.

Lemma mentions_extended v u new jobs jobs' : extended u new jobs jobs' -> mentions v jobs -> mentions v jobs'.
Proof using Type.
  intros [-> |(id & a & max & -> & _)] (j & Hj & Hv); [by exists j|]. exists j. split; [|done]. apply elem_of_app. by left.
Qed.

(** In the jobs after the change, those for [u] are told apart from the others. *)
Lemma extended_live u new jobs jobs' v j :
  (forall j, j ∈ jobs -> ~ live_for u j) -> extended u new jobs jobs' -> j ∈ jobs' -> live_for v j ->
  (v <> u /\ j ∈ jobs) \/
  (v = u /\ new = building (jb_Args j) /\ forall j', j' ∈ jobs' -> live_for u j' -> j' = j).
Proof using Type.
  intros Hnone [-> |(id & a & max & -> & _ & Hb & Hu)] Hj Hl.
  - left. split; [|done]. intros ->. by destruct (Hnone j Hj).
  - apply elem_of_app in Hj as [Hj|[->|[]%elem_of_nil]%elem_of_cons].
    + left. split; [|done]. intros ->. by destruct (Hnone j Hj).
    + right. destruct Hl as [_ Hv]. cbn in Hv. split; [congruence|]. split; [done|].
      intros j' [Hj'|[->|[]%elem_of_nil]%elem_of_cons]%elem_of_app Hl'; [|done]. by destruct (Hnone j' Hj').
Qed.

Lemma extended_ids u new jobs jobs' : extended u new jobs jobs' -> NoDup (jb_ID <$> jobs) -> NoDup (jb_ID <$> jobs').
Proof using Type.
  intros [-> |(id & a & max & -> & Hf & _)] Hnd; [done|].
  rewrite fmap_app. apply list.NoDup_app. split; [done|]. split; [|apply NoDup_singleton].
  intros x (j & -> & Hjin)%list_elem_of_fmap [E|[]%elem_of_nil]%elem_of_cons. by apply (Hf j Hjin).
Qed.

Lemma thinned_one d jobs v j1 j2 : builds_ok d -> thinned d jobs ->
  j1 ∈ jobs -> j2 ∈ jobs -> live_for v j1 -> live_for v j2 -> jb_ID j1 = jb_ID j2.
Proof using Type.
  intros Hok (_ & _ & Ht) Hj1 Hj2 Hl1 Hl2.
  destruct (Ht v j1 Hj1 Hl1) as (k1 & Hk1 & Hlk1 & <- & _), (Ht v j2 Hj2 Hl2) as (k2 & Hk2 & Hlk2 & <- & _).
  by eapply (bo_one d Hok v).
Qed.

Lemma thinned_live d jobs v j st : builds_ok d -> thinned d jobs ->
  j ∈ jobs -> live_for v j -> build_status v d = Some st -> st = building (jb_Args j).
Proof using Type.
  intros Hok (_ & _ & Ht) Hj Hl Hst. destruct (Ht v j Hj Hl) as (k & Hk & Hlk & _ & <-). by eapply (bo_live d Hok v).
Qed.

Lemma thinned_idle d jobs v j : thinned d jobs -> idle v d -> j ∈ jobs -> ~ live_for v j.
Proof using Type.
  intros (_ & _ & Ht) Hidle Hj Hl. destruct (Ht v j Hj Hl) as (k & Hk & Hlk & _). by apply (Hidle k).
Qed.

(** The status of a version changes that no job works on any more. *)
Lemma changed_ok u new d d' jobs :
  builds_ok d -> thinned d jobs -> (forall j, j ∈ jobs -> ~ live_for u j) -> extended u new jobs (t_jobs d') ->
  statuses_set u new d d' -> new ∈ build_statuses ->
  (forall st, build_status u d = Some st -> status_edge (Some st) (Some new)) ->
  ~ idle u d \/ (exists st, build_status u d = Some st /\ no_build_needed st = false) -> step_ok d d'.
Proof using Type.
  intros Hok Hthin Hnone Hext Hs Hnew Hedge Hwhy. split; [split|split].
  - eapply extended_ids; [exact Hext|apply Hthin].
  - intros v j1 j2 Hj1 Hj2 Hl1 Hl2. destruct (extended_live _ _ _ _ v j1 Hnone Hext Hj1 Hl1) as [[Hv Ho1]|(-> & _ & Hu1)];
      [|by rewrite (Hu1 j2 Hj2 Hl2)].
    destruct (extended_live _ _ _ _ v j2 Hnone Hext Hj2 Hl2) as [[_ Ho2]|(-> & _)]; [|done]. by eapply thinned_one.
  - intros v j st Hj Hl. rewrite Hs. destruct (extended_live _ _ _ _ v j Hnone Hext Hj Hl) as [[Hv Ho]|(-> & Hb & _)].
    + rewrite decide_False by done. by eapply thinned_live.
    + rewrite decide_True by done. destruct (build_status u d); [|done]. by intros [= <-].
  - intros v st'. rewrite Hs. destruct (decide (v = u)); [|apply Hok].
    destruct (build_status v d); [|done]. by intros [= <-].
  - intros v. rewrite Hs. destruct (decide (v = u)) as [->|]; [|constructor].
    destruct (build_status u d) as [st|]; [by apply Hedge|constructor].
  - intros v st Hn [Hidle Hknown Hst].
    assert (v <> u) as Hv.
    { intros ->. destruct Hwhy as [Hw|(st0 & Hw & Hn0)]; [done|]. destruct Hst as [Hst|Hst]; congruence. }
    split.
    + intros j Hj Hl. destruct (extended_live _ _ _ _ v j Hnone Hext Hj Hl) as [[_ Ho]|[? _]]; [|done].
      by eapply thinned_idle.
    + eapply mentions_extended; [exact Hext|]. by apply Hthin.
    + rewrite Hs. by rewrite decide_False.
Qed.

Lemma thinned_refl d : builds_ok d -> thinned d (t_jobs d).
Proof using Type. intros [H1 _ _ _]. split; [done|]. split; [done|]. intros v j Hj Hl. by exists j. Qed.

(** No job is added, and statuses only go away, or appear for versions that never
    had a job. *)
Lemma thinned_ok d d' :
  builds_ok d -> thinned d (t_jobs d') ->
  (forall v, build_status v d' = build_status v d \/ build_status v d' = None \/
     build_status v d = None /\ ~ mentions v (t_jobs d) /\ build_status v d' = Some FlavorVersionBuildStatusPending) ->
  step_ok d d'.
Proof using Type.
  intros Hok Hthin Hs. split; [split|split].
  - apply Hthin.
  - intros v j1 j2. by eapply thinned_one.
  - intros v j st Hj Hl. destruct (Hs v) as [-> |[-> |(_ & Hno & _)]]; [by eapply thinned_live|done|].
    destruct Hno. destruct Hthin as (_ & _ & Ht). destruct (Ht v j Hj Hl) as (k & Hk & [_ Hv] & _). by exists k.
  - intros v st. destruct (Hs v) as [-> |[-> |(_ & _ & ->)]]; [apply Hok|done|]. intros [= <-]. apply list_elem_of_here.
  - intros v. destruct (Hs v) as [-> |[-> |(-> & _ & ->)]]; constructor.
  - intros v st Hn [Hidle Hknown Hst]. split.
    + intros j Hj. by eapply thinned_idle.
    + by apply Hthin.
    + destruct (Hs v) as [-> |[-> |(_ & Hno & _)]]; [done|by right|done].
Qed.

Lemma kept_ok d d' : builds_ok d -> kept d d' -> step_ok d d'.
Proof using Type.
  intros Hok [Hj Hs]. apply thinned_ok; [done|rewrite Hj; by apply thinned_refl|by left].
Qed.

Lemma building_status a : building a ∈ build_statuses.
Proof using Type. unfold build_statuses. rewrite !elem_of_cons. destruct a; auto. Qed.

Lemma inserted_extended h u a jobs :
  uuid_in (args_version a) = Some u -> extended u (building a) jobs (river_insert h a jobs).
Proof using JL.
  intros Hu. destruct (river_insert_law h a jobs) as [[-> _]|(_ & id & max & _ & Hf & ->)]; [by left|right].
  by exists id, a, max.
Qed.

(** A job is inserted for a version that has none. *)
Lemma moved_ok u a d d' st :
  builds_ok d -> moved u (building a) a d d' -> build_status u d = Some st -> uuid_in (args_version a) = Some u ->
  status_edge (Some st) (Some (building a)) -> no_build_needed st = false -> idle u d -> step_ok d d'.
Proof using JL.
  intros Hok [[h Hj] Hs] Hst Hu Hedge Hn Hnone.
  apply (changed_ok u (building a) d d' (t_jobs d) Hok (thinned_refl d Hok) Hnone); [|done| | |right; by exists st].
  - rewrite Hj. by apply inserted_extended.
  - apply building_status.
  - intros st'. rewrite Hst. by intros [= <-].
Qed.

Lemma no_build_spec st : st ∈ build_statuses -> no_build_needed st = false ->
  st = FlavorVersionBuildStatusPending \/ st = FlavorVersionBuildStatusBuildImageFailed \/
  st = FlavorVersionBuildStatusBuildCheckpointFailed.
Proof using Type.
  intros Hin Hn. unfold build_statuses in Hin. rewrite !elem_of_cons, elem_of_nil in Hin.
  destruct Hin as [-> |[-> |[-> |[-> |[-> |[-> |[]]]]]]]; try discriminate Hn; auto.
Qed.

Lemma request_ok registry version span d d' :
  builds_ok d -> request_outcome registry version span d d' -> step_ok d d'.
Proof using JL.
  intros Hok [Hk|(u & st & Hu & Hst & Hn & Hm)]; [by apply kept_ok|].
  assert (idle u d) as Hnone.
  { intros j Hj Hl. pose proof (bo_live d Hok u j st Hj Hl Hst) as ->. by destruct (jb_Args j). }
  pose proof (no_build_spec st (bo_status d Hok u st Hst) Hn) as Hsts.
  destruct Hm as [[-> Hm]|[Hne [image Hm]]].
  - by apply (moved_ok u (CreateCheckpoint version (base_image registry version) span) d d' _ Hok Hm Hst Hu edge_retry).
  - apply (moved_ok u (CreateImage version image registry span) d d' _ Hok Hm Hst Hu); [|done..].
    destruct Hsts as [-> |[-> | -> ]]; [constructor|constructor|done].
Qed.

(** ** An attempt at a job *)

Lemma settle_elem id ok l j :
  j ∈ settle id ok l -> exists j0, j0 ∈ l /\ (j = j0 /\ jb_ID j0 <> id \/ j = settled ok j0 /\ jb_ID j0 = id).
Proof using Type.
  intros (j0 & -> & Hj0)%list_elem_of_fmap. exists j0. split; [done|]. destruct (decide (jb_ID j0 = id)); auto.
Qed.

Lemma settle_ids id ok l : jb_ID <$> settle id ok l = jb_ID <$> l.
Proof using Type.
  unfold settle. rewrite <-list_fmap_compose. apply list_fmap_ext. intros i j _. cbn. by destruct (decide _).
Qed.

Lemma same_id d j1 j2 : builds_ok d -> j1 ∈ t_jobs d -> j2 ∈ t_jobs d -> jb_ID j1 = jb_ID j2 -> j1 = j2.
Proof using Type.
  intros [Hnd _ _ _] [i1 H1]%list_elem_of_lookup [i2 H2]%list_elem_of_lookup E.
  assert (i1 = i2) as ->; [|congruence].
  eapply (NoDup_lookup _ i1 i2 (jb_ID j1) Hnd); rewrite list_lookup_fmap, ?H1, ?H2; [done|by rewrite E].
Qed.

Lemma settle_thinned d j ok :
  builds_ok d -> j ∈ t_jobs d -> jb_State j = JobLive -> thinned d (settle (jb_ID j) ok (t_jobs d)).
Proof using Type.
  intros Hok Hj Hlive. split; [rewrite settle_ids; apply Hok|]. split.
  { intros v (k & Hk & Hv). exists (if decide (jb_ID k = jb_ID j) then settled ok k else k). split.
    - apply list_elem_of_fmap. by exists k.
    - by destruct (decide (jb_ID k = jb_ID j)). }
  intros v j1 (j0 & Hj0 & [[-> _]|[-> Hid]])%settle_elem Hl; [eauto|].
  apply (same_id d j0 j Hok Hj0 Hj) in Hid as ->. exists j. destruct Hl as [_ Hu]. by repeat split.
Qed.

(** After the last attempt no job works on the version. *)
Lemma settle_none d j ok u :
  builds_ok d -> j ∈ t_jobs d -> live_for u j -> jb_State (settled ok j) <> JobLive ->
  forall j1, j1 ∈ settle (jb_ID j) ok (t_jobs d) -> ~ live_for u j1.
Proof using Type.
  intros Hok Hj Hl Hend j1 (j0 & Hj0 & [[-> Hne]|[-> Hid]])%settle_elem Hl1.
  - apply Hne. by eapply (bo_one d Hok u).
  - apply (same_id d j0 j Hok Hj0 Hj) in Hid as ->. by destruct Hl1.
Qed.

Lemma settle_extended u new id ok jobs jobs' :
  (exists j, j ∈ jobs /\ jb_ID j = id) -> extended u new jobs jobs' ->
  extended u new (settle id ok jobs) (settle id ok jobs').
Proof using Type.
  intros (j & Hj & Hid) [-> |(nid & a & max & -> & Hf & Hb & Hu)]; [by left|right].
  exists nid, a, max. split; [|split; [|done]].
  - unfold settle. rewrite fmap_app. f_equal. cbn. rewrite decide_False; [done|]. rewrite <-Hid.
    intros E. by apply (Hf j Hj).
  - intros j1 (j0 & Hj0 & [[-> _]|[-> _]])%settle_elem; exact (Hf j0 Hj0).
Qed.

Lemma last_attempt j : jb_MaxAttempts j <= jb_Attempt j + 1 -> jb_State (settled false j) <> JobLive.
Proof using Type. intros H. unfold settled. cbn. by destruct (Z.ltb_spec (jb_Attempt j + 1) (jb_MaxAttempts j)); [lia|]. Qed.

Lemma job_ok ticks j s :
  builds_ok (cp_db s) -> j ∈ t_jobs (cp_db s) -> jb_State j = JobLive ->
  step_ok (cp_db s) (cp_db (run_job ticks j s)).
Proof using JL.
  intros Hok Hj Hlive. unfold run_job. destruct (Work _ _ _ _ _ s) as [r s1] eqn:E. cbn [cp_db].
  apply Work_spec in E as [(e & -> & ->)|(u & Hu & Hout)].
  { apply thinned_ok; [done|by apply settle_thinned|by left]. }
  set (ok := match r with inl _ => false | inr _ => true end).
  assert (forall new, jb_State (settled ok j) <> JobLive -> statuses_set u new (cp_db s) (cp_db s1) ->
    extended u new (t_jobs (cp_db s)) (t_jobs (cp_db s1)) -> new ∈ build_statuses ->
    status_edge (Some (building (jb_Args j))) (Some new) ->
    step_ok (cp_db s) (set_jobs (settle (jb_ID j) ok (t_jobs (cp_db s1))) (cp_db s1))) as Hgo.
  { intros new Hend Hs Hext Hin Hedge.
    eapply (changed_ok u new _ _ (settle (jb_ID j) ok (t_jobs (cp_db s))) Hok); [| | |exact Hs|done| |].
    - by apply settle_thinned.
    - by apply settle_none.
    - apply settle_extended; [by exists j|done].
    - intros st Hst. by rewrite (bo_live _ Hok u j st Hj (conj Hlive Hu) Hst).
    - left. intros Hidle. by apply (Hidle j). }
  unfold build_statuses in Hgo. destruct (jb_Args j) as [v image registry span|v url span], r as [e|[]]; cbn in Hout.
  - destruct Hout as [Hlast [Hjobs Hs]]. eapply Hgo; [by apply last_attempt|exact Hs|by left|set_solver|constructor].
  - destruct Hout as [[h Hjobs] Hs]. eapply Hgo; [done|exact Hs| |set_solver|constructor].
    rewrite Hjobs. by apply (inserted_extended h u).
  - destruct Hout as [Hlast [Hjobs Hs]]. eapply Hgo; [by apply last_attempt|exact Hs|by left|set_solver|constructor].
  - destruct Hout as [Hjobs Hs]. eapply Hgo; [done|exact Hs|by left|set_solver|constructor].
Qed.

(** ** Runs *)

Lemma build_step_ok registry s s' :
  builds_ok (cp_db s) -> build_step registry s s' -> step_ok (cp_db s) (cp_db s').
Proof using JL.
  intros Hok Hb. revert Hok. destruct Hb; intros Hok; [|by apply job_ok|apply thinned_ok; [done| |done]].
  - eapply request_ok; [done|apply request_spec].
  - rewrite H. by apply thinned_refl.
Qed.

Lemma build_steps_ok registry s s' :
  builds_ok (cp_db s) -> rtc (build_step registry) s s' -> builds_ok (cp_db s').
Proof using JL. intros Hok Hr. induction Hr as [s|s1 s2 s3 Hs _ IH]; [done|]. by apply IH, (build_step_ok registry s1). Qed.

Lemma rest_stays registry s s' v st :
  builds_ok (cp_db s) -> no_build_needed st = true -> at_rest v st (cp_db s) ->
  rtc (build_step registry) s s' -> at_rest v st (cp_db s').
Proof using JL.
  intros Hok Hn Hrest Hr. induction Hr as [s|s1 s2 s3 Hs _ IH]; [done|].
  destruct (build_step_ok registry s1 s2 Hok Hs) as (Hok2 & _ & H2). by apply IH, H2.
Qed.

(** A node that answers RUNNING until the job times out. *)
Lemma poll_times_out ticks v s :
  (forall h, poll_status h = PollRunning) ->
  exists h, poll_loop ticks v s = (inl (ErrOther "context"), mk_cp (cp_db s) ("ctx.Done" :: h)).
Proof using Type.
  intros Hrun. revert s. induction ticks as [|ticks IH]; intros s; cbn [poll_loop]; [by exists (cp_log s)|].
  cbv zeta. rewrite Hrun. apply (IH (send "CheckpointStatus" s)).
Qed.

(** The last attempt ends with the context: the job is gone, the status stays. *)
Lemma timed_out ticks j v url span u s e s1 :
  builds_ok (cp_db s) -> j ∈ t_jobs (cp_db s) -> live_for u j -> jb_MaxAttempts j <= jb_Attempt j + 1 ->
  jb_Args j = CreateCheckpoint v url span -> CreateCheckpoint_body ticks (jb_Args j) v s = (inl e, s1) ->
  ctx_ended (cp_log s1) = true ->
  at_rest u FlavorVersionBuildStatusBuildCheckpoint (cp_db (run_job ticks j s)).
Proof using Type.
  intros Hok Hj Hl Hlast Ha Hb Hctx. pose proof (CreateCheckpoint_body_does _ _ _ _ _ _ Hb) as Hdb. cbn in Hdb.
  assert (build_status u (cp_db s) = Some FlavorVersionBuildStatusBuildCheckpoint \/ build_status u (cp_db s) = None) as Hst.
  { destruct (build_status u (cp_db s)) as [st|] eqn:Est; [left|by right].
    pose proof (bo_live _ Hok u j st Hj Hl Est) as ->. by rewrite Ha. }
  unfold run_job. rewrite Ha in *. cbn [Work].
  unfold deferred. rewrite Hb. destruct (Z.ltb_spec (jb_Attempt j + 1) (jb_MaxAttempts j)); [lia|]. rewrite Hctx.
  cbn [cp_db]. rewrite Hdb. split; [|destruct Hl as [Hlive Hu]|exact Hst].
  - intros j1 Hj1. revert Hj1. apply settle_none; [done|done|done|by apply last_attempt].
  - apply (settle_thinned (cp_db s) j false Hok Hj Hlive). by exists j.
Qed.
End builds.

Lemma demo_status status jobs v : build_status v (cp_db (demo_build status jobs)) = if decide (v = "v") then Some status else None.
Proof.
  unfold build_status, demo_build. cbn. destruct (decide (v = "v")) as [->|Hne].
  - by rewrite lookup_alter_eq, lookup_singleton_eq.
  - rewrite lookup_alter_ne, lookup_singleton_ne; done.
Qed.

(** C19: The builds of flavor versions.  Requests being served and attempts at jobs
    being made one after the other, in any order, and however the attempts end, no version has two jobs that are still
    to be worked on, and the status of a version with such a job is that of the
    job: IMAGE_BUILD or CHECKPOINT_BUILD, unless the version was removed.  A step
    changes a status only along the edges of [status_edge]: a build goes from its
    image to its checkpoint to COMPLETED, fails in one of the two and is taken up
    where it failed; COMPLETED is left only by removing the version. *)
Theorem build_machine {En : CpEnv} {JE : JobEnv} {JL : JobLaws JE} registry s0 s s' :
  builds_ok (cp_db s0) -> rtc (build_step registry) s0 s -> build_step registry s s' ->
  builds_ok (cp_db s') /\
  (forall v, status_edge (build_status v (cp_db s)) (build_status v (cp_db s'))) /\
  (forall v, build_status v (cp_db s) = Some FlavorVersionBuildStatusCompleted ->
     build_status v (cp_db s') = Some FlavorVersionBuildStatusCompleted \/ build_status v (cp_db s') = None).
Proof.
  intros Hok Hr Hs. destruct (build_step_ok registry s s' (build_steps_ok registry s0 s Hok Hr) Hs) as (H1 & H2 & _).
  split; [done|]. split; [done|]. intros v Hv. specialize (H2 v). rewrite Hv in H2. inversion H2; auto.
Qed.

(** C22: When the last attempt at the checkpoint of a version ends because the
    context of the job has ended, the update of the status, which is made with
    the same context, fails: as long as the version exists it stays at
    CHECKPOINT_BUILD, with no job that works on it, and each later request to
    build it is answered without inserting one. *)
Theorem timed_out_build_stuck {En : CpEnv} {JE : JobEnv} {JL : JobLaws JE}
    registry ticks j v url span u s e s1 s' actor v' span' :
  builds_ok (cp_db s) -> j ∈ t_jobs (cp_db s) -> live_for u j -> jb_MaxAttempts j <= jb_Attempt j + 1 ->
  jb_Args j = CreateCheckpoint v url span -> CreateCheckpoint_body ticks (jb_Args j) v s = (inl e, s1) ->
  ctx_ended (cp_log s1) = true -> rtc (build_step registry) (run_job ticks j s) s' -> uuid_in v' = Some u ->
  (build_status u (cp_db s') = Some FlavorVersionBuildStatusBuildCheckpoint \/ build_status u (cp_db s') = None) /\
  idle u (cp_db s') /\
  t_jobs (cp_db (serve (BuildFlavorVersion registry actor v' span') s').2) = t_jobs (cp_db s').
Proof.
  intros Hok Hj Hl Hlast Ha Hb Hctx Hr Hv'.
  pose proof (timed_out ticks j v url span u s e s1 Hok Hj Hl Hlast Ha Hb Hctx) as Hrest.
  assert (builds_ok (cp_db (run_job ticks j s))) as Hok2 by (by apply job_ok; [..|apply Hl]).
  destruct (rest_stays registry _ s' u FlavorVersionBuildStatusBuildCheckpoint Hok2 eq_refl Hrest Hr) as [Hi _ Hst]. split; [done|]. split; [done|].
  destruct (request_spec registry actor v' span' s') as [[Hk _]|(u' & st & Hu' & Hst2 & Hn & _)]; [done|].
  assert (u' = u) as -> by congruence. rewrite Hst2 in Hst. destruct Hst as [[= ->]|Hst]; [|done]. discriminate Hn.
Qed.

Lemma demo_builds_ok {En : CpEnv} status : status ∈ build_statuses -> builds_ok (cp_db (demo_build status [])).
Proof.
  intros Hst. split; [apply NoDup_nil_2|by intros v j1 j2 ?%elem_of_nil|by intros v j st ?%elem_of_nil|].
  intros v st. rewrite demo_status. by destruct (decide (v = "v")); intros [= <-].
Qed.

(** A version is built: its request, its image and its checkpoint. *)
Definition demo_request (poll : poll_event) (s : cp) : cp :=
  (serve (BuildFlavorVersion (JE := demo_job_env poll) "reg" (Some "u") "v" ("t", "s")) s).2.
Definition demo_image : job_row := mk_job 1 (CreateImage "v" "image" "reg" ("t", "s")) JobLive 0 2.
Definition demo_checkpoint : job_row := mk_job 2 (CreateCheckpoint "v" "reg/v:base" ("t", "s")) JobLive 0 2.

Lemma build_machine_witness :
  let s0 := demo_build FlavorVersionBuildStatusPending [] in
  let s1 := demo_request PollCompleted s0 in
  let s2 := run_job (JE := demo_job_env PollCompleted) 3 demo_image s1 in
  let s3 := run_job (JE := demo_job_env PollCompleted) 3 demo_checkpoint s2 in
  build_status "v" (cp_db s1) = Some FlavorVersionBuildStatusBuildImage /\
  build_status "v" (cp_db s2) = Some FlavorVersionBuildStatusBuildCheckpoint /\
  build_status "v" (cp_db s3) = Some FlavorVersionBuildStatusCompleted /\ builds_ok (cp_db s3).
Proof.
  intros s0 s1 s2 s3.
  assert (t_jobs (cp_db s1) = [demo_image]) as H1 by (vm_compute; reflexivity).
  assert (t_jobs (cp_db s2) = [settled true demo_image; demo_checkpoint]) as H2 by (vm_compute; reflexivity).
  do 3 (split; [vm_compute; reflexivity|]).
  eapply (build_machine (JE := demo_job_env PollCompleted) (JL := demo_job_laws PollCompleted) "reg" s0 s2 s3).
  - apply demo_builds_ok. apply list_elem_of_here.
  - apply rtc_l with s1; [apply (bs_request (JE := demo_job_env PollCompleted))|]. apply rtc_once.
    apply (bs_work (JE := demo_job_env PollCompleted)); [rewrite H1; apply list_elem_of_here|reflexivity].
  - apply (bs_work (JE := demo_job_env PollCompleted)); [rewrite H2; apply list_elem_of_further, list_elem_of_here|reflexivity].
Defined.

(** The node is still making the checkpoint when the second attempt ends. *)
Definition demo_last : job_row := mk_job 2 (CreateCheckpoint "v" "reg/v:base" ("t", "s")) JobLive 1 2.

Lemma demo_last_ok {En : CpEnv} :
  uuid_in "v" = Some "v" -> builds_ok (cp_db (demo_build FlavorVersionBuildStatusBuildCheckpoint [demo_last])).
Proof.
  intros Hv. split; [apply NoDup_singleton| | |].
  - by intros v j1 j2 ->%list_elem_of_singleton ->%list_elem_of_singleton.
  - intros v j st ->%list_elem_of_singleton [_ Hl]. cbn in Hl. rewrite Hv in Hl. injection Hl as <-.
    rewrite demo_status. by intros [= <-].
  - intros v st. rewrite demo_status. destruct (decide (v = "v")); intros [= <-].
    unfold build_statuses. rewrite !elem_of_cons. auto.
Qed.

Lemma timed_out_build_stuck_witness :
  let s := demo_build FlavorVersionBuildStatusBuildCheckpoint [demo_last] in
  let s' := run_job (JE := demo_job_env PollRunning) 5 demo_last s in
  build_status "v" (cp_db s') = Some FlavorVersionBuildStatusBuildCheckpoint /\
  t_jobs (cp_db s') = [settled false demo_last] /\
  t_jobs (cp_db (demo_request PollRunning s')) = t_jobs (cp_db s').
Proof.
  intros s s'.
  destruct (poll_times_out (JE := demo_job_env PollRunning) 5 "v"
    (mk_cp (cp_db s) ["CreateCheckpoint"; "createCheckpointClient"; "RandomNode"; "acquire"]) ltac:(done)) as [h Hh].
  destruct (timed_out_build_stuck (JE := demo_job_env PollRunning) (JL := demo_job_laws PollRunning)
    "reg" 5 demo_last "v" "reg/v:base" ("t", "s") "v" s (ErrOther "context")
    (mk_cp (cp_db s) ("ctx.Done" :: h)) s' (Some "u") "v" ("t", "s")) as (_ & _ & H3).
  - by apply demo_last_ok.
  - apply list_elem_of_here.
  - by split.
  - cbn. lia.
  - reflexivity.
  - cbn [cp_db] in Hh. rewrite <-Hh. vm_compute. reflexivity.
  - reflexivity.
  - apply rtc_refl.
  - reflexivity.
  - split; [vm_compute; reflexivity|]. split; [vm_compute; reflexivity|exact H3].
Defined.

(** ** Two requests at the same time *)

(** The next call of one of two requests. *)
Definition advance {A} (g : handler A) (s : cp) : handler A * cp :=
  match g with
  | HRet r => (HRet r, s)
  | HCall m k => let (r, s') := m s in (match r with inl e => HRet (inl e) | inr x => k x end, s')
  end.

Fixpoint race {A} (turns : list bool) (g1 g2 : handler A) (s : cp) : cp :=
  match turns with
  | [] => s
  | true :: turns => let (g1, s) := advance g1 s in race turns g1 g2 s
  | false :: turns => let (g2, s) := advance g2 s in race turns g1 g2 s
  end.

(** Both requests read the status before either sets it.  Uniqueness by arguments
    does not help: the span context is one of them. *)
Lemma racing_requests_two_jobs :
  let request span := BuildFlavorVersion (JE := demo_job_env PollCompleted) "reg" (Some "u") "v" span in
  exists turns, let s := race turns (request ("t", "1")) (request ("t", "2")) (demo_build FlavorVersionBuildStatusPending []) in
  exists j1 j2, t_jobs (cp_db s) = [j1; j2] /\ live_for "v" j1 /\ live_for "v" j2 /\ jb_ID j1 <> jb_ID j2 /\
    ~ builds_ok (cp_db s).
Proof.
  intros request. exists [true; true; true; true; false; false; false; false; false; false; true; true]. intros s.
  assert (t_jobs (cp_db s) = [mk_job 1 (CreateImage "v" "image" "reg" ("t", "2")) JobLive 0 2;
                              mk_job 2 (CreateImage "v" "image" "reg" ("t", "1")) JobLive 0 2]) as Hj
    by (vm_compute; reflexivity).
  eexists _, _. split; [exact Hj|]. do 2 (split; [by split|]). split; [done|]. intros [_ Hone _ _].
  rewrite Hj in Hone. specialize (Hone "v" _ _ (list_elem_of_here _ _) (list_elem_of_further _ _ _ (list_elem_of_here _ _))).
  discriminate Hone; by split.
Qed.
