(* ===== verification/ImageFiles.v ===== *)
(** * The files of an image

    The worker unpacks the uploaded archive and fetches the files that are not in
    it.  Every file of the version is put in its place, whatever the archive
    holds. *)

From S2P Require Import Prelude GoStrings Endian CpDb CpFlavors CpSamples Authz Paths Versions Tar Builds BuildRuns.

#[local] Open Scope Z_scope.

Section placed.
Context {En : CpEnv} {JE : JobEnv}.

(** ** What is in a file *)

(** The contents that the last creation of the file at [path] was followed by;
    the log has the last event first. *)
Fixpoint written (path : string) (log : list string) : option string :=
  match log with
  | [] => None
  | d :: rest =>
      if String.eqb d ("Create " +:+ path) then None else
      match rest with
      | c :: _ => if String.eqb c ("Create " +:+ path) then Some d else written path rest
      | [] => None
      end
  end.

(** The contents of the last regular entry of an archive that leads to [path]. *)
Fixpoint archived (dest : string) (entries : list tar_entry) (path : string) : option string :=
  match entries with
  | [] => None
  | e :: entries =>
      match archived dest entries path with
      | Some data => Some data
      | None => if te_Regular e && String.eqb (Join dest (te_Name e)) path then Some (te_Data e) else None
      end
  end.

Lemma written_cons path log x d :
  x <> "Create " +:+ path -> written path log = Some d -> written path (x :: log) = Some d.
Proof using Type.
  intros Hx%String.eqb_neq. destruct log as [|c log]; [done|]. intros Hd. cbn [written].
  rewrite Hx. cbn [written] in Hd. destruct (String.eqb c ("Create " +:+ path)); [done|exact Hd].
Qed.

(** The file at [path] is left as it is. *)
Definition keeps_file {A} (path : string) (m : CpM A) : Prop :=
  forall s d, written path (cp_log s) = Some d -> written path (cp_log (m s).2) = Some d.

(** Events that are no creations. *)
Definition no_create (name : string) : Prop := forall path, name <> "Create " +:+ path.

Lemma no_create_prefix name : HasPrefix name "Create " = false -> no_create name.
Proof using Type.
  intros Hn path ->. rewrite (proj2 (HasPrefix_app _ _)) in Hn by eauto. done.
Qed.

Section keeps.
Context (path : string).

Lemma keeps_file_ret {A} (a : A) : keeps_file path (mret a).
Proof using Type. by intros s d. Qed.

Lemma keeps_file_raise {A} e : keeps_file path (raise (A := A) e).
Proof using Type. by intros s d. Qed.

Lemma keeps_file_bind {A B} (m : CpM A) (f : A -> CpM B) :
  keeps_file path m -> (forall a, keeps_file path (f a)) -> keeps_file path (m ≫= f).
Proof using Type.
  intros Hm Hf s d Hd. specialize (Hm s d Hd). unfold mbind, CpM_bind.
  destruct (m s) as [[e|a] s1]; [exact Hm|]. by apply Hf.
Qed.

Lemma keeps_file_sql {A} name (f : list string -> db -> (api_error + A) * db) :
  name <> "Create " +:+ path -> keeps_file path (sql name f).
Proof using Type.
  intros Hn s d Hd. unfold sql. destruct (cp_fault _); [|destruct (f _ _)]; by apply written_cons.
Qed.

Lemma keeps_file_doTX {A} (m : CpM A) : keeps_file path m -> keeps_file path (doTX m).
Proof using Type.
  intros Hm. do 2 (apply keeps_file_bind; [by apply keeps_file_sql, no_create_prefix|]; intros _).
  intros s d Hd. specialize (Hm s d Hd).
  destruct (m s) as [[e|a] s1]; cbv zeta; [|destruct (cp_fault _)];
    (apply written_cons; [by apply no_create_prefix|exact Hm]).
Qed.

Lemma keeps_file_InsertJob id st a : keeps_file path (InsertJob id st a).
Proof using Type.
  apply keeps_file_doTX, keeps_file_bind; [|intros _]; by apply keeps_file_sql, no_create_prefix.
Qed.

Lemma keeps_file_upload l : keeps_file path (upload l).
Proof using Type.
  induction l as [|h l IH]; [by apply keeps_file_sql, no_create_prefix|].
  apply keeps_file_bind; [by apply keeps_file_sql, no_create_prefix|]. by intros _.
Qed.

Lemma keeps_file_write path' data :
  path' <> path -> no_create data -> keeps_file path (write_file path' data).
Proof using Type.
  intros Hp Hd. apply keeps_file_bind; [by apply keeps_file_sql, no_create_prefix|intros _].
  apply keeps_file_bind; [|intros _; by apply keeps_file_sql]. apply keeps_file_sql.
  intros E. by apply (inj (String.append "Create ")) in E.
Qed.

Lemma keeps_file_untar dest l err : archived dest l path = None -> keeps_file path (untar_loop dest l err).
Proof using Type.
  induction l as [|e l IH]; cbn [untar_loop archived].
  { intros _. destruct err; [apply keeps_file_raise|apply keeps_file_ret]. }
  destruct (archived dest l path); [done|]. intros He. destruct (te_Regular e); [|by apply IH].
  apply keeps_file_bind.
  - apply keeps_file_write; [|by apply no_create_prefix]. intros Ep.
    by rewrite (proj2 (String.eqb_eq _ _) Ep) in He.
  - intros _. apply keeps_file_bind; [by apply IH|]. intros paths. apply keeps_file_ret.
Qed.

Lemma keeps_file_download dest l :
  (forall h, h ∈ l -> Join dest (h_Path h) <> path) -> keeps_file path (download dest l).
Proof using Type.
  induction l as [|h l IH]; intros Hl; [apply keeps_file_ret|]. apply keeps_file_bind.
  - apply keeps_file_write; [|by apply no_create_prefix]. apply Hl. left.
  - intros _. apply IH. intros h' Hh. apply Hl. by right.
Qed.
End keeps.

Lemma kept_file {A} path (m : CpM A) s r s' d :
  keeps_file path m -> m s = (r, s') -> written path (cp_log s) = Some d -> written path (cp_log s') = Some d.
Proof using Type. intros Hm E Hd. specialize (Hm s d Hd). by rewrite E in Hm. Qed.

(** *** What is written *)

Lemma ext_logged name s u s' : ext name s = (inr u, s') -> cp_log s' = name :: cp_log s.
Proof using Type. unfold ext, select, sql. destruct (cp_fault _); [done|]. by intros [= <- <-]. Qed.

Lemma write_written path data s u s' :
  no_create data -> write_file path data s = (inr u, s') -> written path (cp_log s') = Some data.
Proof using Type.
  intros Hd (u1 & s1 & _ & (u2 & s2 & E2%ext_logged & E3%ext_logged)%CpM_bind_inr)%CpM_bind_inr.
  rewrite E3, E2. cbn [written]. by rewrite (proj2 (String.eqb_neq _ _) (Hd path)), String.eqb_refl.
Qed.

Lemma untar_written dest l err : forall s paths s', untar_loop dest l err s = (inr paths, s') ->
  err = None /\ paths = targets dest l /\
  forall p d, archived dest l p = Some d -> written p (cp_log s') = Some ("Copy " +:+ d).
Proof using Type.
  induction l as [|e l IH]; intros s paths s'; cbn [untar_loop].
  - destruct err; [done|]. by intros [= <- <-].
  - unfold targets. destruct (te_Regular e) eqn:Er.
    + rewrite list.filter_cons_True, fmap_cons by done.
      intros (u & s1 & E1%write_written & (ps & s2 & E2 & E3)%CpM_bind_inr)%CpM_bind_inr;
        [|by apply no_create_prefix]. injection E3 as <- <-.
      destruct (IH _ _ _ E2) as (-> & -> & Hps). do 2 (split; [done|]). intros p d. cbn [archived].
      destruct (archived dest l p) as [d'|] eqn:Ea; [intros [= <-]; by apply Hps|].
      rewrite Er. cbn [andb]. destruct (String.eqb_spec (Join dest (te_Name e)) p) as [<-|]; [|done].
      intros [= <-]. by eapply kept_file; [apply keeps_file_untar|exact E2|].
    + rewrite list.filter_cons_False by by rewrite Er. intros E. destruct (IH _ _ _ E) as (-> & -> & Hps).
      do 2 (split; [done|]). intros p d. cbn [archived]. rewrite Er.
      destruct (archived dest l p) as [d'|] eqn:Ea; [|done]. intros [= <-]. by apply Hps.
Qed.

(** Where a fetched file comes from. *)
Definition fetched (h : Hash) : string := "WriteTo " +:+ CASKeyPrefix +:+ "/" +:+ h_Hash h.

Lemma download_written dest l : forall s u s',
  NoDup ((fun h => Join dest (h_Path h)) <$> l) -> download dest l s = (inr u, s') ->
  forall h, h ∈ l -> written (Join dest (h_Path h)) (cp_log s') = Some (fetched h).
Proof using Type.
  induction l as [|h0 l IH]; intros s u s' Hnd; cbn [download].
  - intros _ h ?%elem_of_nil. done.
  - rewrite fmap_cons in Hnd. apply list.NoDup_cons in Hnd as [Hni Hnd].
    intros (v & s1 & E1 & E2)%CpM_bind_inr. apply write_written in E1; [|by apply no_create_prefix].
    intros h [-> |Hh]%elem_of_cons; [|by eapply IH].
    eapply kept_file; [apply keeps_file_download|exact E2|exact E1].
    intros h Hh E. apply Hni. rewrite <-E. apply list_elem_of_fmap. eauto.
Qed.

Lemma archived_target dest l p : archived dest l p = None <-> p ∉ targets dest l.
Proof using Type.
  unfold targets. induction l as [|e l IH]; cbn [archived]; [by split; [intros _ ?%elem_of_nil|]|].
  destruct (te_Regular e) eqn:Er.
  - rewrite list.filter_cons_True, fmap_cons, not_elem_of_cons by done.
    destruct (archived dest l p) as [d|]; cbn [andb]; [by split; [|intros [_ ?%IH]]|].
    destruct (String.eqb_spec (Join dest (te_Name e)) p) as [<-|Hne]; [by split; [|intros []]|].
    split; [|done]. intros _. split; [congruence|by apply IH].
  - rewrite list.filter_cons_False by by rewrite Er. cbn [andb]. rewrite <-IH. by destruct (archived dest l p).
Qed.

(** A path that has the destination in front of a relative path is in it. *)
Lemma stripped t dest p : IsAbs t = true -> IsAbs p = false -> remove_first t dest = p -> t = dest +:+ p.
Proof using Type.
  intros Ht Hp E. destruct (HasPrefix t dest) eqn:Ed.
  - apply HasPrefix_app in Ed as [rest ->]. rewrite remove_first_prefix in E. by subst.
  - destruct t as [|c t]; [done|]. cbn [remove_first] in E. rewrite Ed in E. subst p.
    unfold IsAbs in *. cbn [HasPrefix] in *. congruence.
Qed.

Lemma Join_abs dest name : IsAbs dest = true -> IsAbs (Join dest name) = true.
Proof using Type. intros Ha. by rewrite Join_place. Qed.

(** The file [h] is in its place, with the contents of the last entry of the
    change set that leads there, or else with those of its hash. *)
Definition placed (D : list string) (entries : list tar_entry) (h : Hash) (s : cp) : Prop :=
  written (place D +:+ "/" +:+ h_Path h) (cp_log s) =
  Some match archived (place D) entries (place D +:+ "/" +:+ h_Path h) with
       | Some data => "Copy " +:+ data
       | None => fetched h
       end.

(** Every file of the version is in the change set or is fetched. *)
Lemma all_placed D all entries s err s1 paths u s2 u' s3 :
  D <> [] -> Forall proper D -> Forall (fun h => clean_name (h_Path h)) all -> NoDup (h_Path <$> all) ->
  untar_loop (place D) entries err s = (inr paths, s1) -> upload paths s1 = (inr u, s2) ->
  downloadMissing (place D) all paths s2 = (inr u', s3) ->
  forall h, h ∈ all -> placed D entries h s3.
Proof using Type.
  intros HD HDp Hall Hnd Hun Hup Hdl h Hh. apply untar_written in Hun as (_ & -> & Hcr).
  rewrite list.Forall_forall in Hall.
  assert (forall h, h ∈ all -> Join (place D) (h_Path h) = place D +:+ "/" +:+ h_Path h) as HJ.
  { intros h' Hh'. destruct (Hall h' Hh') as (names & Hn & Hnp & Ep). rewrite Ep. by apply Join_beneath. }
  assert (forall h', h' ∈ all -> Join (place D) (h_Path h') = place D +:+ "/" +:+ h_Path h -> h_Path h' = h_Path h)
    as Hinj by (intros h' Hh'; rewrite HJ by done; intros E; by apply (inj (String.append _)), (inj (String.append "/")) in E).
  unfold downloadMissing in Hdl. unfold placed. set (p := place D +:+ "/" +:+ h_Path h) in *.
  set (have := list_to_set ((fun t => remove_first t (place D +:+ "/")) <$> targets (place D) entries) : gset string).
  assert (h_Path h ∈ have <-> p ∈ targets (place D) entries) as Hhave.
  { unfold have. rewrite elem_of_list_to_set, list_elem_of_fmap. split.
    - intros (t & Et & Ht). assert (IsAbs t = true) as Hta.
      { unfold targets in Ht. apply list_elem_of_fmap in Ht as (e & -> & _). by apply Join_abs. }
      apply symmetry, stripped in Et; [|done|by apply clean_name_relative, Hall].
      rewrite append_assoc in Et. unfold p. by rewrite <-Et.
    - intros Ht. exists p. split; [|done]. unfold p. by rewrite <-append_assoc, remove_first_prefix. }
  destruct (archived (place D) entries p) as [data|] eqn:Ea.
  - eapply kept_file; [apply keeps_file_download|exact Hdl|].
    + intros h' [Hm Hh']%list_elem_of_filter E. apply Hm. change (h_Path h' ∈ have).
      rewrite (Hinj h' Hh' E). apply Hhave. destruct (decide (p ∈ targets (place D) entries)) as [|Hn]; [done|].
      apply archived_target in Hn. congruence.
    + eapply kept_file; [apply keeps_file_upload|exact Hup|]. by apply Hcr.
  - assert (h ∈ missing (place D) all (targets (place D) entries)) as Hm.
    { apply list_elem_of_filter. split; [|done]. change (h_Path h ∉ have). rewrite Hhave. by apply archived_target. }
    unfold p. rewrite <-HJ by done. eapply download_written; [|exact Hdl|exact Hm].
    assert (NoDup (h_Path <$> missing (place D) all (targets (place D) entries))) as Hnd'
      by (eapply sublist_NoDup; [|apply fmap_sublist, sublist_filter]; exact Hnd).
    rewrite (list_fmap_compose h_Path (Join (place D))). apply NoDup_fmap_2_strong; [|exact Hnd'].
    intros x y (h1 & -> & [_ H1]%list_elem_of_filter)%list_elem_of_fmap
      (h2 & -> & [_ H2]%list_elem_of_filter)%list_elem_of_fmap.
    rewrite !HJ by done. intros E. by apply (inj (String.append _)), (inj (String.append "/")) in E.
Qed.

Lemma read_db {A} (m : CpM A) s r s' : keeps_db m -> m s = (r, s') -> cp_db s' = cp_db s.
Proof using Type. intros Hm E. specialize (Hm s). by rewrite E in Hm. Qed.

Lemma keeps_file_rest path v st a :
  keeps_file path (ext "OpenRoot";; ext "SanitizeConfigs";; ext "AppendLayer";; ext "Push";; InsertJob v st a).
Proof using Type.
  do 4 (apply keeps_file_bind; [by apply keeps_file_sql, no_create_prefix|intros _]).
  apply keeps_file_InsertJob.
Qed.

End placed.

