(* ===== verification/Publish.v ===== *)
(** * Publishing

    The command [publish] of the command line ([cli/cmd/publish]): it reads the
    files of every flavor of the configuration, compares them with what the
    control plane has, and uploads what is new.  This file has the scan of a
    directory, the plan, and the choice of the files for the archive, all as
    functions of what the file system and the control plane answered; and shows
    that nothing is lost between the user's directory and the image.  Output, the
    HTTP requests and the loop that watches a build are left out. *)

From Stdlib Require Import Ascii.
From S2P Require Import Prelude GoStrings CpDb CpFlavors Paths Versions Tar.

#[local] Open Scope string_scope.

(** ** The file system of the user *)

(** One call of the function that [WalkDir] is given. *)
Record walk_event := mk_walk { we_Path : string; we_IsDir : bool; we_Err : option string }.

Class LocalFs := {
  walk_dir : string -> list walk_event;
  (** [os.Stat] gives [ErrNotExist] *)
  not_exist : string -> bool;
  (** [os.Open] *)
  open_error : string -> option string;
  (** [ComputeHashStr] *)
  compute_hash : string -> string + string;
  (** the content *)
  file_data : string -> string;
}.

(** ** Excluded files *)

Definition digit (c : ascii) : bool := (48 <=? nat_of_ascii c)%nat && (nat_of_ascii c <=? 57)%nat.

Fixpoint all_digits (s : string) : bool :=
  match s with "" => true | String c s => digit c && all_digits s end.

(** [\d+] *)
Definition digits (s : string) : bool := negb (String.eqb s "") && all_digits s.

Fixpoint strip_suffix (s suffix : string) : option string :=
  if String.eqb s suffix then Some ""
  else match s with "" => None | String c s => String c <$> strip_suffix s suffix end.

(** The last element of a path with either separator. *)
Definition base_name (path : string) : string :=
  default "" (list.last (split_on "/" (replace_char "\" "/" path))).

(** [(?:^|[\\/])paper(?:-\d+(?:\.\d+)*-\d+)?\.jar$] *)
Definition paper_jar (path : string) : bool :=
  match strip_suffix (base_name path) ".jar" with
  | Some stem =>
      HasPrefix stem "paper" &&
      match split_on "-" (skip 5 stem) with
      | [""] => true
      | [""; version; build] => forallb digits (split_on "." version) && digits build
      | _ => false
      end
  | None => false
  end.

(** [plugins/.paper-remapped/.*], in which the dot stands for any character. *)
Fixpoint remapped (path : string) : bool :=
  match (if HasPrefix path "plugins/" then skip 8 path else "") with
  | String c rest => negb (Ascii.eqb c "010") && HasPrefix rest "paper-remapped/"
  | "" => false
  end || match path with "" => false | String _ path => remapped path end.

(** The expressions are not anchored, and the path is the whole one. *)
Definition excluded (path : string) : bool :=
  Contains path "cache/" || Contains path "versions/" || Contains path "libraries/" || Contains path "logs/" ||
  remapped path || paper_jar path.

(** ** The scan *)

Section publish.
Context {Nm : Norm} {Fs : LocalFs} (hash_tree : list string -> option string) (range : list Hash -> list Hash).

Fixpoint scan (events : list walk_event) : string + list Hash :=
  match events with
  | [] => inr []
  | e :: events =>
      if we_IsDir e then scan events
      else match we_Err e with
      | Some _ => scan events
      | None =>
          if excluded (we_Path e) then scan events
          else match open_error (we_Path e) with
          | Some msg => inl msg
          | None =>
              match compute_hash (we_Path e) with
              | inl msg => inl msg
              | inr hash =>
                  match scan events with
                  | inl msg => inl msg
                  | inr fileHashes => inr (mk_hash (we_Path e) hash :: fileHashes)
                  end
              end
          end
      end
  end.

Definition localFileHashes (flavorPath : string) : string + (string * list Hash) :=
  match scan (walk_dir flavorPath) with
  | inl msg => inl msg
  | inr fileHashes =>
      let fileHashes := sortByPath fileHashes in
      match hash_tree (h_Hash <$> fileHashes) with
      | None => inl "hash tree"
      | Some hash => inr (hash, fileHashes)
      end
  end.

(** ** publish.go *)

Record localFlavor := {
  lf_name : string; lf_version : string; lf_minecraftVersion : string; lf_path : string;
  lf_hash : string; lf_files : list Hash; lf_minPlayers : Z; lf_maxPlayers : Z;
}.

Definition serverRelPath (f : localFlavor) (path : string) : string :=
  remove_all path (Clean (lf_path f) +:+ "/").

(** Of two files with one path the later counts. *)
Definition local_map (f : localFlavor) : gmap string Hash :=
  fold_left (fun m odh => <[serverRelPath f (h_Path odh) := odh]> m) (lf_files f) ∅.

Record file_diff := { fd_added : list Hash; fd_modified : list Hash; fd_removed : list Hash }.

Definition fileDiff (f : localFlavor) (apiHashes : list Hash) : file_diff :=
  let prevMap := hash_map apiHashes in
  let local := local_map f in
  {| fd_modified := omap (fun prev =>
       onDisk ← local !! h_Path prev;
       if String.eqb (h_Hash onDisk) (h_Hash prev) then None else Some onDisk) (map_values range prevMap);
     fd_removed := filter (fun prev => local !! h_Path prev = None) (map_values range prevMap);
     fd_added := filter (fun onDisk => prevMap !! serverRelPath f (h_Path onDisk) = None) (map_values range local) |}.

(** ** builder.go *)

Inductive BuildStatus := PENDING | IMAGE_BUILD | IMAGE_BUILD_FAILED | CHECKPOINT_BUILD | CHECKPOINT_BUILD_FAILED | COMPLETED.

#[global] Instance BuildStatus_eq_dec : EqDecision BuildStatus.
Proof. solve_decision. Defined.

Record api_version := {
  av_Id : string; av_Version : string; av_Hash : string; av_FileHashes : list Hash;
  av_FilesUploaded : bool; av_BuildStatus : BuildStatus; av_MinPlayers : Z; av_MaxPlayers : Z;
}.

Record api_flavor := { af_Id : string; af_Name : string; af_Versions : list api_version }.

(** The file hashes that [handlePrerequisites] sends. *)
Definition sent_hashes (local : localFlavor) : list Hash :=
  (fun fh => mk_hash (serverRelPath local (h_Path fh)) (h_Hash fh)) <$> lf_files local.

(** What [handleUpload] chooses; an index out of range panics. *)
Inductive upload_choice := UploadNoVersion | UploadPanic | Upload (remoteVersion : api_version) (files : list Hash).

Definition same_content (l : list Hash) (f : Hash) : bool := existsb (fun x => String.eqb (h_Hash x) (h_Hash f)) l.

Definition handleUpload_files (local : localFlavor) (versions : list api_version) : upload_choice :=
  match list_find (fun v => lf_hash local = av_Hash v) versions with
  | None => UploadNoVersion
  | Some (idx, remoteVersion) =>
      let choose added changed :=
        Upload remoteVersion (filter (fun f => same_content added f || same_content changed f = true) (lf_files local)) in
      if (1 <? length versions)%nat then
        match versions !! S idx with
        | None => UploadPanic
        | Some prevVersion =>
            let d := fileDiff local (av_FileHashes prevVersion) in choose (fd_added d) (fd_modified d)
        end
      else choose (lf_files local) []
  end.

(** The archive that is uploaded. *)
Definition change_archive (local : localFlavor) (files : list Hash) : list tar_entry :=
  TarFiles (lf_path local) ((fun f => (h_Path f, file_data (h_Path f))) <$> files).

(** ** plan.go *)

Record cfg_flavor := {
  cf_Name : string; cf_Version : string; cf_MinecraftVersion : string; cf_Path : string;
  cf_MinPlayers : Z; cf_MaxPlayers : Z;
}.

Record config := { cfg_Thumbnail : string; cfg_Flavors : list cfg_flavor }.

(** The thumbnail that the control plane has, by its hash. *)
Record api_chunk := { ac_Id : string; ac_Flavors : list api_flavor; ac_Thumbnail : option string }.

Inductive buildPhase := buildPhasePrerequisites | buildPhaseUpload | buildPhaseTriggerBuild | buildPhaseBuildComplete.

Inductive conflict :=
| versionMismatchConflict (flavor : localFlavor) (remoteHash : string)
| versionExistConflict (flavor : localFlavor)
| errorConflict (name err : string)
| versionNotSupporterConflict (flavor : localFlavor) (supportedVersions : list string).

Record changedFlavor := {
  cg_onDisk : localFlavor; cg_prevVersion : string; cg_prevMinPlayers : Z; cg_prevMaxPlayers : Z;
  cg_diff : file_diff;
}.

Record plan := {
  addedFlavors : list localFlavor;
  changedFlavors : list changedFlavor;
  deletedFlavors : list (string * string);
  actionables : list (localFlavor * buildPhase);
  conflicts : list conflict;
  updateThumbnail : bool;
  chunkWillBeRemoved : bool;
  minOrMaxPlayersChanged : bool;
}.

(** What the loop over the configured flavors does with one of them. *)
Inductive verdict :=
| VAdded (f : localFlavor)
| VChanged (f : changedFlavor) (players_changed : bool)
| VAction (f : localFlavor) (phase : buildPhase)
| VConflict (c : conflict)
| VNothing.

Definition local_of (f : cfg_flavor) (hash : string) (files : list Hash) : localFlavor :=
  {| lf_name := cf_Name f; lf_version := cf_Version f; lf_minecraftVersion := cf_MinecraftVersion f;
     lf_path := cf_Path f; lf_hash := hash; lf_files := files;
     lf_minPlayers := cf_MinPlayers f mod 2 ^ 32; lf_maxPlayers := cf_MaxPlayers f mod 2 ^ 32 |}.

(** The version exists on the control plane. *)
Definition judge_version (local : localFlavor) (versions : list api_version) (remoteVersion : api_version) : verdict :=
  if negb (av_FilesUploaded remoteVersion) then
    if String.eqb (lf_hash local) (av_Hash remoteVersion) then VAction local buildPhaseUpload
    else VConflict (versionMismatchConflict local (av_Hash remoteVersion))
  else if existsb (fun v => negb (String.eqb (lf_hash local) (av_Hash v)) && String.eqb (av_Version v) (lf_version local))
            versions then VConflict (versionExistConflict local)
  else match av_BuildStatus remoteVersion with
  | COMPLETED => VNothing
  | PENDING | IMAGE_BUILD | CHECKPOINT_BUILD => VAction local buildPhaseBuildComplete
  | IMAGE_BUILD_FAILED | CHECKPOINT_BUILD_FAILED => VAction local buildPhaseTriggerBuild
  end.

Definition judge (supportedVersions : list string) (flavors : list api_flavor) (f : cfg_flavor) : verdict :=
  if negb (bool_decide (cf_MinecraftVersion f ∈ supportedVersions)) then
    VConflict (versionNotSupporterConflict (local_of f "" []) supportedVersions)
  else if not_exist (cf_Path f) then VConflict (errorConflict (cf_Name f) "file does not exist")
  else match localFileHashes (cf_Path f) with
  | inl msg => VConflict (errorConflict (cf_Name f) msg)
  | inr (hash, files) =>
      let local := local_of f hash files in
      match list_find (fun item => cf_Name f = af_Name item) flavors with
      | None => VAdded local
      | Some (_, remote) =>
          match list_find (fun v => cf_Version f = av_Version v) (af_Versions remote) with
          | None =>
              match af_Versions remote with
              | prevVersion :: _ =>
                  VChanged {| cg_onDisk := local; cg_prevVersion := av_Version prevVersion;
                              cg_prevMinPlayers := av_MinPlayers prevVersion;
                              cg_prevMaxPlayers := av_MaxPlayers prevVersion;
                              cg_diff := fileDiff local (av_FileHashes prevVersion) |}
                    (negb (av_MinPlayers prevVersion =? lf_minPlayers local)%Z ||
                     negb (av_MaxPlayers prevVersion =? lf_maxPlayers local)%Z)
              | [] => VAdded local
              end
          | Some (_, remoteVersion) => judge_version local (af_Versions remote) remoteVersion
          end
      end
  end.

(** The thumbnail: whether it is uploaded, the conflict, and whether the function
    returns at this point. *)
Definition thumbnail (cfg : config) (chunk : api_chunk) : bool * list conflict * bool :=
  let path := cfg_Thumbnail cfg in
  if String.eqb path "" then (false, [], false)
  else match open_error path with
  | Some msg => (false, [errorConflict "Thumbnail" msg], true)
  | None =>
      match ac_Thumbnail chunk with
      | None => (true, [], true)
      | Some remote =>
          match compute_hash path with
          | inl msg => (false, [errorConflict "Thumbnail" msg], true)
          | inr h => (negb (String.eqb h remote), [], false)
          end
      end
  end.

Definition newPlan (cfg : config) (supportedVersions : list string) (chunk : api_chunk) : plan :=
  let deleted := omap (fun remote =>
    if existsb (fun local => String.eqb (cf_Name local) (af_Name remote)) (cfg_Flavors cfg) then None
    else Some (af_Id remote, af_Name remote)) (ac_Flavors chunk) in
  let verdicts := judge supportedVersions (ac_Flavors chunk) <$> cfg_Flavors cfg in
  let added := omap (fun v => match v with VAdded f => Some f | _ => None end) verdicts in
  let changed := omap (fun v => match v with VChanged f _ => Some f | _ => None end) verdicts in
  let '(update, thumb_conflicts, returns) := thumbnail cfg chunk in
  {| addedFlavors := added; changedFlavors := changed; deletedFlavors := deleted;
     actionables := omap (fun v => match v with VAction f ph => Some (f, ph) | _ => None end) verdicts;
     conflicts := omap (fun v => match v with VConflict c => Some c | _ => None end) verdicts ++ thumb_conflicts;
     updateThumbnail := update;
     chunkWillBeRemoved := negb returns && (length added =? 0)%nat && (length changed =? 0)%nat &&
       (length (cfg_Flavors cfg) =? length deleted)%nat;
     minOrMaxPlayersChanged := existsb (fun v => match v with VChanged _ b => b | _ => false end) verdicts |}.

Definition nothing_to_publish (p : plan) : bool :=
  (length (addedFlavors p) + length (changedFlavors p) + length (actionables p) + length (deletedFlavors p) =? 0)%nat &&
  negb (updateThumbnail p) && negb (minOrMaxPlayersChanged p).
End publish.

(** ** From the directory to the image *)

Lemma clean_names_kept l : Forall (fun h => clean_name (h_Path h)) l -> forall i, cleanFileHashPaths_loop i l = ([], l).
Proof.
  induction 1 as [|h l (names & Hne & Hp & E) _ IH]; intros i; [done|]. cbn [cleanFileHashPaths_loop]. rewrite IH.
  assert (beneath (h_Path h)) as Hb.
  { split; [apply clean_name_relative; by exists names|]. exists (rev names). split.
    - destruct names as [|x names]; [done|]. cbn. by destruct (rev names).
    - intros dir. rewrite E. by apply walk_joined. }
  rewrite (proj2 (invalid_exact _) Hb). destruct (cleaned _ Hb) as (names' & Hne' & Hp' & Ec & Hw).
  destruct (Hw []) as [Hw1 _]. rewrite E, walk_joined, !app_nil_r in Hw1 by done. apply (f_equal (@rev string)) in Hw1.
  rewrite !rev_involutive in Hw1. subst names'. rewrite Ec, <-E. by destruct h.
Qed.

Lemma hash_map_in l p h : hash_map l !! p = Some h -> h ∈ l.
Proof.
  induction l as [|x l IH] using rev_ind; [done|]. rewrite hash_map_snoc, elem_of_app.
  destruct (decide (h_Path x = p)) as [<-|Hne].
  - rewrite lookup_insert_eq. intros [= ->]. right. apply list_elem_of_here.
  - rewrite lookup_insert_ne by done. auto.
Qed.

Section contents.
Context {Nm : Norm} {Fs : LocalFs} (range : list Hash -> list Hash) (Hrange : forall l, range l ≡ₚ l).

(** A flavor in the directory [root], with these files. *)
Record scanned (local : localFlavor) (root : list string) (files : list (list string * string)) : Prop := {
  sc_abs : IsAbs (lf_path local) = true;
  sc_root : walk [] (lf_path local) = root;
  sc_files : lf_files local = (fun f => mk_hash (place root +:+ "/" +:+ join_elements f.1) f.2) <$> files;
  sc_carried : Forall (carried root) files;
  sc_distinct : NoDup (files.*1);
}.

Context (local : localFlavor) (root : list string) (files : list (list string * string)).
Context (Hsc : scanned local root files).

Lemma rel_path f : f ∈ files -> serverRelPath local (place root +:+ "/" +:+ join_elements f.1) = join_elements f.1.
Proof using Hsc.
  intros Hf. pose proof (sc_carried _ _ _ Hsc) as Hc. rewrite list.Forall_forall in Hc.
  destruct (Hc f Hf) as (_ & _ & _ & Hcont). unfold serverRelPath.
  rewrite (clean_rooted _ (sc_abs _ _ _ Hsc)), (sc_root _ _ _ Hsc), <-append_assoc.
  change (place root +:+ "/") with (String Separator (join_elements (rev root) +:+ "/")) in *.
  by apply remove_all_prefix.
Qed.

Lemma sent_exact : sent_hashes local = (fun f => mk_hash (join_elements f.1) f.2) <$> files.
Proof using Hsc.
  unfold sent_hashes. rewrite (sc_files _ _ _ Hsc), <-list_fmap_compose. apply list_fmap_ext.
  intros i f Hf%list_elem_of_lookup_2. unfold compose. cbn [h_Path h_Hash]. by rewrite rel_path.
Qed.

Lemma file_names f : f ∈ files -> f.1 <> [] /\ Forall proper f.1.
Proof using Hsc.
  intros Hf. pose proof (sc_carried _ _ _ Hsc) as Hc. rewrite list.Forall_forall in Hc. by destruct (Hc f Hf) as (? & ? & _).
Qed.

Lemma sent_accepted : cleanFileHashPaths (sent_hashes local) = inr (sent_hashes local).
Proof using Hsc.
  unfold cleanFileHashPaths. rewrite clean_names_kept; [done|]. rewrite sent_exact. apply list.Forall_forall.
  intros h (f & -> & Hf)%list_elem_of_fmap. exists f.1. cbn. destruct (file_names f Hf). done.
Qed.

(** Files have different relative paths. *)
Lemma local_map_lookup l : forall (m : gmap string Hash) f,
  NoDup (l.*1) -> Forall (fun f => f ∈ files) l -> f ∈ l ->
  fold_left (fun m odh => <[serverRelPath local (h_Path odh) := odh]> m)
    ((fun f => mk_hash (place root +:+ "/" +:+ join_elements f.1) f.2) <$> l) m !! join_elements f.1 =
  Some (mk_hash (place root +:+ "/" +:+ join_elements f.1) f.2).
Proof using Hsc.
  induction l as [|g l IH] using rev_ind; intros m f Hnd Hall Hf; [by apply elem_of_nil in Hf|].
  apply list.Forall_app in Hall as [Hall Hg%Forall_inv]. rewrite fmap_app in Hnd.
  apply list.NoDup_app in Hnd as (Hnd & Hdis & _). rewrite fmap_app, fold_left_app. cbn [fmap list_fmap fold_left].
  cbn [h_Path]. rewrite rel_path by done. apply elem_of_app in Hf as [Hf| ->%list_elem_of_singleton]; [|by rewrite lookup_insert_eq].
  rewrite lookup_insert_ne; [by apply IH|]. intros E.
  assert (f ∈ files) as Hf' by (rewrite list.Forall_forall in Hall; by apply Hall).
  destruct (file_names f Hf') as [Hf1 Hf2], (file_names g Hg) as [Hg1 Hg2].
  apply (f_equal elements) in E. rewrite !proper_elements in E by done. apply (Hdis f.1).
  - by apply list_elem_of_fmap_2.
  - rewrite <-E. cbn. apply list_elem_of_here.
Qed.

Lemma local_lookup f : f ∈ files ->
  local_map local !! join_elements f.1 = Some (mk_hash (place root +:+ "/" +:+ join_elements f.1) f.2).
Proof using Hsc.
  intros Hf. unfold local_map. rewrite (sc_files _ _ _ Hsc).
  apply local_map_lookup; [apply Hsc|by apply list.Forall_forall|done].
Qed.

Lemma local_in f : f ∈ files -> mk_hash (place root +:+ "/" +:+ join_elements f.1) f.2 ∈ lf_files local.
Proof using Hsc. intros Hf. rewrite (sc_files _ _ _ Hsc). apply list_elem_of_fmap. by exists f. Qed.

Lemma value_of (m : gmap string Hash) k h : m !! k = Some h -> h ∈ map_values range m.
Proof using Hrange.
  intros Hk. unfold map_values. rewrite Hrange. apply list_elem_of_fmap. exists (k, h). by rewrite elem_of_map_to_list.
Qed.

Lemma same_content_in l h : h ∈ l -> same_content l h = true.
Proof using Type.
  intros Hh. unfold same_content. apply existsb_exists. exists h. split; [by apply list_elem_of_In|]. apply String.eqb_refl.
Qed.

(** A file is chosen, or the previous version has it already. *)
Lemma diff_covers prev f : f ∈ files ->
  let h := mk_hash (place root +:+ "/" +:+ join_elements f.1) f.2 in
  let d := fileDiff range local prev in
  h ∈ fd_added d \/ h ∈ fd_modified d \/ mk_hash (join_elements f.1) f.2 ∈ prev.
Proof using Hrange Hsc.
  intros Hf h d. pose proof (local_lookup f Hf) as Hl. destruct (hash_map prev !! join_elements f.1) as [ph|] eqn:Ep.
  - destruct (decide (h_Hash ph = f.2)) as [Eh|Hne].
    + right; right. pose proof (hash_map_path _ _ _ Ep) as Epath.
      replace (mk_hash (join_elements f.1) f.2) with ph by (destruct ph; cbn in *; by subst).
      by eapply hash_map_in.
    + right; left. apply list_elem_of_omap. exists ph. split; [by eapply value_of|].
      rewrite (hash_map_path _ _ _ Ep), Hl. cbn. by rewrite (proj2 (String.eqb_neq _ _)) by congruence.
  - left. apply list_elem_of_filter. split; [|by eapply value_of].
    cbn [h_Path h]. by rewrite rel_path.
Qed.

(** The version of the upload is the first with the hash of the files, and the
    files are compared with the version after it. *)
Lemma upload_covers versions v sel :
  handleUpload_files range local versions = Upload v sel ->
  exists idx, list_find (fun w => lf_hash local = av_Hash w) versions = Some (idx, v) /\
    forall f, f ∈ files ->
      mk_hash (place root +:+ "/" +:+ join_elements f.1) f.2 ∈ sel \/
      exists prev, versions !! S idx = Some prev /\ mk_hash (join_elements f.1) f.2 ∈ av_FileHashes prev.
Proof using Hrange Hsc.
  unfold handleUpload_files. intros E. destruct (list_find _ versions) as [[idx rv]|] eqn:Ef; [|done].
  exists idx. assert (rv = v) as -> by (destruct (1 <? length versions)%nat; [destruct (versions !! S idx)|]; by simplify_eq).
  split; [done|]. intros f Hf. pose proof (local_in f Hf) as Hin. destruct (1 <? length versions)%nat.
  - destruct (versions !! S idx) as [prev|] eqn:Ep; [|done]. injection E as <-.
    destruct (diff_covers (av_FileHashes prev) f Hf) as [Hd|[Hd|Hd]].
    + left. apply list_elem_of_filter. split; [|done]. apply orb_true_iff. left. exact (same_content_in _ _ Hd).
    + left. apply list_elem_of_filter. split; [|done]. apply orb_true_iff. right. exact (same_content_in _ _ Hd).
    + right. by exists prev.
  - injection E as <-. left. apply list_elem_of_filter. split; [|done]. apply orb_true_iff. left. exact (same_content_in _ _ Hin).
Qed.

(** A chosen file is in the archive, with its contents and under a name that
    leads to its place. *)
Lemma archive_target D sel f : D <> [] -> Forall proper D -> f ∈ files ->
  mk_hash (place root +:+ "/" +:+ join_elements f.1) f.2 ∈ sel ->
  exists e, e ∈ change_archive local sel /\ te_Regular e = true /\
    Join (place D) (te_Name e) = place D +:+ "/" +:+ join_elements f.1 /\
    te_Data e = file_data (place root +:+ "/" +:+ join_elements f.1).
Proof using Hsc.
  intros HD HDp Hf Hsel. pose proof (sc_carried _ _ _ Hsc) as Hc. rewrite list.Forall_forall in Hc.
  exists {| te_Regular := true; te_Name := tar_name (lf_path local) (place root +:+ "/" +:+ join_elements f.1);
            te_Data := file_data (place root +:+ "/" +:+ join_elements f.1) |}.
  split; [|split; [done|split; [|done]]].
  - unfold change_archive, TarFiles. rewrite <-list_fmap_compose. apply list_elem_of_fmap.
    exists (mk_hash (place root +:+ "/" +:+ join_elements f.1) f.2). split; [reflexivity|exact Hsel].
  - exact (tar_place (lf_path local) root D f (sc_abs _ _ _ Hsc) (sc_root _ _ _ Hsc) HD HDp (Hc f Hf)).
Qed.
End contents.


(** ** Where it goes wrong *)

(** A directory whose own path has one of the excluded names in it: all of its
    files are left out. *)
Lemma excluded_flavor_empty {Fs : LocalFs} (flavorPath before after : string) :
  flavorPath = before +:+ "versions/" +:+ after ->
  Forall (fun e => exists rest, we_Path e = flavorPath +:+ rest) (walk_dir flavorPath) ->
  scan (walk_dir flavorPath) = inr [].
Proof.
  intros -> Hall. induction Hall as [|e events [rest He] _ IH]; [done|]. cbn [scan].
  destruct (we_IsDir e); [done|]. destruct (we_Err e); [done|].
  assert (excluded (we_Path e) = true) as ->; [|done]. unfold excluded.
  rewrite He, !append_assoc, (Contains_infix before "versions/"). by rewrite !orb_true_r.
Qed.

(** A directory that cannot be read is left out without a word: its second visit,
    the one with the error, ends at the test for directories. *)
Lemma unreadable_skipped {Fs : LocalFs} path err events : scan (mk_walk path true (Some err) :: events) = scan events.
Proof. done. Qed.

(** The upload for the oldest of several versions is repeated. *)
Lemma oldest_upload_panics range (local : localFlavor) (versions : list api_version) (oldest : api_version) :
  (0 < length versions)%nat -> Forall (fun v => av_Hash v <> lf_hash local) versions -> av_Hash oldest = lf_hash local ->
  handleUpload_files range local (versions ++ [oldest]) = UploadPanic.
Proof.
  intros Hlen Hne Ho. unfold handleUpload_files.
  assert (list_find (fun v => lf_hash local = av_Hash v) (versions ++ [oldest]) = Some (length versions, oldest)) as ->.
  { apply list_find_Some. split; [by apply list_lookup_middle|]. split; [done|]. intros j y Hj Hlt.
    rewrite lookup_app_l in Hj by done. rewrite list.Forall_forall in Hne.
    intros E. by apply (Hne y); [eapply list_elem_of_lookup_2|]. }
  rewrite length_app. cbn [length]. destruct (Nat.ltb_spec 1 (length versions + 1)); [|lia].
  rewrite lookup_app_r by lia. by replace (S (length versions) - length versions)%nat with 1%nat by lia.
Qed.

(** A version whose files are uploaded but for which no build was started is
    watched, and no build is started. *)
Lemma pending_only_watched (local : localFlavor) (v : api_version) :
  av_FilesUploaded v = true -> av_BuildStatus v = PENDING -> av_Hash v = lf_hash local ->
  judge_version local [v] v = VAction local buildPhaseBuildComplete.
Proof. intros Hu Hs Hh. unfold judge_version. cbn [existsb]. by rewrite Hu, Hh, String.eqb_refl, Hs. Qed.

(** ** Examples *)

(** A directory with two files, of which the published version has one. *)
#[global] Instance demo_local_fs : LocalFs := {|
  walk_dir p := [mk_walk p true None; mk_walk (p +:+ "/a.txt") false None; mk_walk (p +:+ "/plugins") true None;
                 mk_walk (p +:+ "/plugins/b.jar") false None; mk_walk (p +:+ "/paper-1.21.4-232.jar") false None];
  not_exist _ := false;
  open_error _ := None;
  compute_hash p := inr ("h" +:+ base_name p);
  file_data p := p;
|}.

Definition demo_api_version (id version hash : string) (files : list Hash) (uploaded : bool) (st : BuildStatus) : api_version :=
  {| av_Id := id; av_Version := version; av_Hash := hash; av_FileHashes := files; av_FilesUploaded := uploaded;
     av_BuildStatus := st; av_MinPlayers := 1; av_MaxPlayers := 8 |}.

Definition demo_cfg_flavor (path : string) : cfg_flavor :=
  {| cf_Name := "f"; cf_Version := "2"; cf_MinecraftVersion := "1.21"; cf_Path := path;
     cf_MinPlayers := 1; cf_MaxPlayers := 8 |}.

Definition demo_tree (l : list string) : option string := Some (String.concat "," l).

Definition demo_local : localFlavor :=
  local_of (demo_cfg_flavor "/home/u/f") "ha.txt,hb.jar" [mk_hash "/home/u/f/a.txt" "ha.txt"; mk_hash "/home/u/f/plugins/b.jar" "hb.jar"].

Lemma demo_scan : localFileHashes demo_tree "/home/u/f" = inr (lf_hash demo_local, lf_files demo_local).
Proof. vm_compute. reflexivity. Qed.


(** One of two published flavors is removed from the configuration: the warning
    says that the chunk is going to be deleted. *)
Lemma wrong_removal_warning :
  let done_ := demo_api_version "v" "2" "ha.txt,hb.jar" [] true COMPLETED in
  let chunk := {| ac_Id := "c"; ac_Thumbnail := None;
                  ac_Flavors := [{| af_Id := "1"; af_Name := "f"; af_Versions := [done_] |};
                                 {| af_Id := "2"; af_Name := "g"; af_Versions := [done_] |}] |} in
  let p := newPlan demo_tree id {| cfg_Thumbnail := ""; cfg_Flavors := [demo_cfg_flavor "/home/u/f"] |} ["1.21"] chunk in
  deletedFlavors p = [("2", "g")] /\ conflicts p = [] /\ chunkWillBeRemoved p = true.
Proof. vm_compute. done. Qed.
